(* ===== verification/_CoqProject ===== *)
-Q . S2P
Prelude.v
GoStrings.v
Json.v
JsonParse.v
JsonFuel.v
World.v
Policy.v
Http.v
Secrets.v
Base64.v
Container.v
Session.v
Socks5.v
RawTcp.v
Tunnel.v
ProxyHttp.v
Dispatch.v
Host.v
Wire.v
CA.v
Daemon.v
Persistence.v
Dandbox.v
Runtime.v
Concurrent.v
PolicyApi.v
Sidecar.v
Propagation.v
