(* ===== verification/Prelude.v ===== *)
(** * dandbox: a verified model of the sandbox daemon and its MITM proxy

    dandbox runs coding agents in Docker containers whose traffic goes through
    an intercepting proxy.  A daemon ([cmd/dandbox], [internal/daemon]) offers
    an HTTP API on a Unix socket: it keeps the sandboxes, the network policy and
    the secrets, talks to the Docker Engine, and sends policy and secrets to the
    sidecars.  A sidecar ([cmd/proxy-sidecar], [internal/proxy]) accepts HTTP,
    [CONNECT], SOCKS5 and redirected TCP connections on one port, asks the
    policy engine ([internal/policy]) about each destination, and replaces
    sentinels by secret values on the way out ([internal/secrets]); it issues
    the certificates of the intercepted hosts itself ([internal/ca]).

    ** Files

    The language and its standard library:
    - [Prelude]: bytes, 64-bit integers, searching and replacing in sequences;
    - [GoStrings]: [strings], [fmt], [net] and [path/filepath] functions;
    - [Json], [JsonParse], [JsonFuel]: [encoding/json], both ways, with its
      round trip;
    - [Base64]: [encoding/base64]; [Http]: headers, URLs, status texts;
    - [World]: the calls to the operating system, the Docker Engine and the
      network, the monad [M] of code that makes them, and its program logic
      ([keeps], [only], [guarded], [hoare]).

    The program, a file per component:
    - [Policy] (policy.go): [Engine] and its operations, matching, [Evaluate];
    - [Secrets] (secrets.go): [SecretManager], replacement and redaction;
    - [Container] (container.go): [Manager], every operation as the requests it
      sends and what it makes of the answers;
    - [Host] (docker.go, exec.go): socket detection, running commands;
    - [CA] (ca.go): loading, creating and saving the CA, host certificates;
    - [Session], [Socks5] (socks5.go), [RawTcp] (rawtcp.go), [ProxyHttp],
      [Dispatch] (proxy.go): the proxy's state, one connection, the protocols;
    - [Tunnel] ([tunnelBidirectional] of rawtcp.go) and [Dispatch.Limit] (the
      counter of [dispatch]): goroutines, as step relations;
    - [Wire]: decoders of rules and secrets, the payloads of the reload calls;
    - [Daemon] (daemon.go): the daemon's state, a definition per handler, the
      routes, start and stop;
    - [Persistence], [Runtime], [PolicyApi]: what the daemon promises about its
      state file, the life cycle of sandboxes, and the policy API;
    - [Concurrent]: the requests about runtimes taken apart into the sections
      between which others run, over a store that the references of the map lead
      into;
    - [Dandbox] (cmd/dandbox/main.go), [Sidecar] (cmd/proxy-sidecar/main.go):
      the two processes; [Propagation]: from the one to the other.

    Definitions bear the names of the code.  A method that changes its receiver
    is code over the receiver's record in [M]; an [error] is its message; times
    and durations are nanoseconds.  Integers are [Z] with [wrap64] written where
    the code adds to them; a slice that may be nil and is marshalled is a
    [Json.slice].

    ** Interfaces

    The environment is the argument [World] of the definitions: a function that
    answers each call from all the calls made before it, so a theorem for every
    world holds for every engine, network, disk and client.  The order in which
    Go ranges over a map is the argument [MapOrder]; texts of errors that only
    people read are [JsonErrors] and [UrlErrors]; case folding outside ASCII is
    [UnicodeFold]; PEM and the format of times are [Pem] and [TimeFormat].
    Where a theorem relies on documented behaviour of such code, a class says
    so and a concrete instance shows that it can hold: [FilesKept] (a file reads
    as it was last written, if that write succeeded), [TimeFormatOk] and [PemOk] (round trips),
    [NamesUnique] (the engine gives a name to one container at a time),
    [MapOrderOk] (a range visits each entry once).  Inside the proxy,
    [Socks5.ProxyInv] and [ProxyHttp.HttpInv] are what the handlers promise to
    [Dispatch]: any property of the session that they list is preserved by every
    handler, and all calls are guarded.

    ** What the theorems show

    - Confinement: whatever a connection carries, the proxy dials and sends
      requests only where the policy allows ([Dispatch.dispatch_safe]); without
      an allow rule in scope nothing leaves ([Dispatch.no_allow_rule_isolates]);
      every create request of [CreateContainer] asks for the sandbox network, an
      unprivileged container and the redirecting entry point
      ([Container.CreateContainer_confined]; the path with an SSH agent does
      not, [ForwardSSHAgent_unconfined]).
    - Policy: [Evaluate] refines a specification by classes of rules and their
      priority, the pattern language is characterised, and in every reachable
      engine an allowed request is covered by an allow rule ([Policy]); the
      presets, removal by resource ([PolicyApi]).
    - Secrets: replacement is specified and unique, sentinels do not survive,
      values do not show in relayed headers ([Secrets], [ProxyHttp]) or in the
      listing of secrets, and starting a sandbox passes them to nothing but the
      state file and the sidecars ([Propagation.values_stay_outside]).
    - Protocols: complete conversations of SOCKS5, redirected connections, plain
      HTTP and intercepted sessions, against specifications of their own of what
      is forwarded and relayed; tunnels, whose reads block while the other end is
      silent, lose, invent and reorder nothing, deliver, and end under the
      conditions that [tunnel_terminates] gives; the connection limit holds in
      every interleaving.
    - The daemon: a restarted daemon finds the sandboxes of the last one, after
      a crash between two requests (up to what a listing refreshes and does not
      save) or a shutdown ([Persistence.crash_recovery],
      [Dandbox.restart_keeps_sandboxes]); every outcome of creating, starting,
      stopping, deleting ([Runtime]).
    - Requests at once: a request that runs alone refines its handler
      ([Concurrent.request_alone]); every interleaving keeps names and sandboxes
      consistent ([Concurrent.interleaving_invariant]); what interleavings lose
      ([create_race], [stale_file], [deleted_comes_back]).
    - Daemon and sidecar together: rules and secrets arrive as they were sent
      and then decide alike, what is spliced into the shell command is inert,
      and what does not arrive ([Propagation]).
    - Round trips of JSON, base64, container logs, the CA on disk.

    Some theorems state defects; their comments say so.

    ** Fuel

    A loop that consumes its input takes a fuel that the input bounds, and a
    lemma says that more changes nothing: [demux] of the logs ([demux_fuel]),
    [skip_space], [trim_left] and [trim_right], [unquote] and the JSON reader
    ([JsonFuel]).  [ipv6_loop] takes eight, the number of groups of an address.
    [mitm], the loop over the requests of an intercepted connection, ends when
    the client does: its theorems hold for every number of rounds, and
    [mitm_exchanges] says what a session did that ended before the rounds were
    used up.

    ** Not modelled

    - TLS, X.509 and RSA, the wire format of HTTP, and TCP itself: calls of the
      world.  A [Request] has the fields that the proxy reads or writes; transfer
      encodings and trailers, which it passes on, are not among them.  [getCert], which the TLS library calls back during the handshake,
      is a definition of its own.
    - Contexts, deadlines and timeouts other than the idle timeout of tunnels:
      they show up as errors of calls.  Logging.
    - Goroutines, apart from tunnels, the connection limit and the requests of
      [Concurrent]: connections are taken one at a time.  The unlocked write to
      [blockedHosts] is therefore not visible.  In [Concurrent], an operation
      of the container manager is a section, and so is what runs between two
      uses of the lock, of the manager or of the disk; the requests that a manager's
      operation makes, accesses that race within a section, and the sections of
      requests about policy and secrets are not taken further apart, and a
      listing holds the lock all along.
    - The certificate pool and the fingerprint of [ca.go], which no code reads;
      time zones; a [null] in the place of a whole sandbox, or of all, in the
      state file.  Errors of [json.Marshal] do not occur on the values at hand.
    - [.containifyci] (a build configuration), tests, scripts and images.

    ** What may be added

    Requests about policy and secrets as sections, as [Concurrent] has those
    about runtimes; connections of the proxy that interleave with each other and
    with the reloads of a sidecar; the parsing of integer and duration flags of
    the sidecar. *)
From Stdlib Require Strings.Byte.
From Stdlib Require Export Init.Byte.
From stdpp Require Export prelude gmap strings pretty list fin_maps.

(** Decide a closed decidable proposition by evaluation. *)
Ltac decide_closed := apply (bool_decide_unpack _); vm_compute; exact I.

#[export] Set Warnings "-clear-no-such-hyp".

(** ** Bytes

    A Go [[]byte] is a [list byte]; a Go [string] is stdpp's [string], whose
    characters are 8-bit.  The two conversions of Go, [string(b)] and
    [[]byte(s)], copy the bytes and change nothing. *)

Abbreviation bytes := (list byte).

Definition of_bytes (b : bytes) : string := String.string_of_list_byte b.
Definition to_bytes (s : string) : bytes := String.list_byte_of_string s.

#[global] Arguments of_bytes : simpl never.
#[global] Arguments to_bytes : simpl never.

#[export] Instance byte_eq_dec : EqDecision byte := Byte.byte_eq_dec.

(** A byte as an integer, and the byte of an integer modulo 256. *)
Definition b2z (b : byte) : Z := Z.of_N (Byte.to_N b).
Definition z2b (z : Z) : byte :=
  default x00 (Byte.of_N (Z.to_N (z `mod` 256))).

(** ** 64-bit signed integers: Go's [int] and [int64] on the supported targets *)

Definition int64_min : Z := (- 2 ^ 63)%Z.
Definition int64_max : Z := (2 ^ 63 - 1)%Z.
Definition wrap64 (z : Z) : Z := ((z + 2 ^ 63) `mod` 2 ^ 64 - 2 ^ 63)%Z.

Definition in_int64 (z : Z) : Prop := (int64_min ≤ z ≤ int64_max)%Z.

(** ** Searching and replacing in sequences

    The loops behind [strings.HasPrefix], [Contains], [ReplaceAll] and their
    [bytes] twins, on lists over any type with decidable equality. *)

Section Seq.
Context {A : Type} `{EqDecision A}.
Implicit Types p l old new : list A.

Fixpoint prefixb p l : bool :=
  match p, l with
  | [], _ => true
  | x :: p', y :: l' => bool_decide (x = y) && prefixb p' l'
  | _ :: _, [] => false
  end.

Fixpoint suffixb p l : bool :=
  bool_decide (p = l) ||
  match l with
  | [] => false
  | _ :: l' => suffixb p l'
  end.

Fixpoint containsb p l : bool :=
  prefixb p l ||
  match l with
  | [] => false
  | _ :: l' => containsb p l'
  end.

(** The scan of [ReplaceAll]: at a match write [new] and pass over the rest
    of the match ([skip] elements), else copy one element.  Go inserts [new]
    between characters when [old] is empty; every caller excludes that. *)
Fixpoint replace_go old new (skip : nat) l : list A :=
  match l with
  | [] => []
  | x :: l' =>
      match skip with
      | S k => replace_go old new k l'
      | O =>
          if prefixb old l
          then new ++ replace_go old new (length old - 1) l'
          else x :: replace_go old new 0 l'
      end
  end.

Definition replace_all old new l : list A := replace_go old new 0 l.

(** Position of the last occurrence of one element ([strings.LastIndexByte]). *)
Fixpoint last_index_of (x : A) l : option nat :=
  match l with
  | [] => None
  | y :: l' =>
      match last_index_of x l' with
      | Some i => Some (S i)
      | None => if decide (x = y) then Some 0 else None
      end
  end.

(** [infix p l]: [p] occurs somewhere in [l]. *)
Definition infix p l : Prop := ∃ l1 l2, l = l1 ++ p ++ l2.

(** What [ReplaceAll] promises: occurrences are replaced from the left, and
    an element is copied only where no occurrence starts. *)
Inductive replaced old new : list A → list A → Prop :=
| replaced_nil : replaced old new [] []
| replaced_match l r :
    replaced old new l r → replaced old new (old ++ l) (new ++ r)
| replaced_copy x l r :
    ¬ old `prefix_of` (x :: l) →
    replaced old new l r → replaced old new (x :: l) (x :: r).
End Seq.

Infix "`infix_of`" := infix (at level 70) : stdpp_scope.

(** ** Generic lemmas: conversions and bytes *)

Lemma of_to_bytes s : of_bytes (to_bytes s) = s.
Proof. apply String.string_of_list_byte_of_string. Qed.

Lemma to_of_bytes b : to_bytes (of_bytes b) = b.
Proof. apply String.list_byte_of_string_of_list_byte. Qed.

Lemma to_bytes_app s t : to_bytes (s +:+ t) = to_bytes s ++ to_bytes t.
Proof.
  induction s as [|c s IH]; [done|].
  change (Ascii.byte_of_ascii c :: to_bytes (s +:+ t)
          = Ascii.byte_of_ascii c :: to_bytes s ++ to_bytes t).
  by rewrite IH.
Qed.

Lemma of_bytes_app b c : of_bytes (b ++ c) = of_bytes b +:+ of_bytes c.
Proof.
  rewrite <- (of_to_bytes (of_bytes b +:+ of_bytes c)), to_bytes_app.
  by rewrite !to_of_bytes.
Qed.

#[export] Instance to_bytes_inj : Inj (=) (=) to_bytes.
Proof. intros s t H. rewrite <- (of_to_bytes s), <- (of_to_bytes t). congruence. Qed.

#[export] Instance of_bytes_inj : Inj (=) (=) of_bytes.
Proof. intros s t H. rewrite <- (to_of_bytes s), <- (to_of_bytes t). congruence. Qed.

Lemma b2z_range b : (0 ≤ b2z b < 256)%Z.
Proof.
  unfold b2z. pose proof (Byte.to_N_bounded b). lia.
Qed.

#[export] Instance b2z_inj : Inj (=) (=) b2z.
Proof.
  intros a b H. unfold b2z in H. apply N2Z.inj in H.
  apply (f_equal Byte.of_N) in H. rewrite !Byte.of_to_N in H. congruence.
Qed.

Lemma b2z_z2b z : b2z (z2b z) = (z `mod` 256)%Z.
Proof.
  unfold b2z, z2b.
  pose proof (Z.mod_pos_bound z 256 ltac:(lia)).
  destruct (Byte.of_N (Z.to_N (z `mod` 256))) as [b|] eqn:E; cbn.
  - apply Byte.to_of_N in E. lia.
  - apply Byte.of_N_None_iff in E. lia.
Qed.

Lemma z2b_b2z b : z2b (b2z b) = b.
Proof.
  apply (inj b2z). rewrite b2z_z2b. apply Z.mod_small, b2z_range.
Qed.

(** Go's [x<<n | y], when [y] fits in the low [n] bits. *)
Lemma lor_shiftl x n y :
  (0 ≤ n)%Z → (0 ≤ y < 2 ^ n)%Z → Z.lor (Z.shiftl x n) y = (x * 2 ^ n + y)%Z.
Proof.
  intros Hn Hy. rewrite <- Z.shiftl_mul_pow2 by done.
  assert (Z.land (Z.shiftl x n) y = 0%Z) as Hland.
  { apply Z.bits_inj'. intros i Hi. rewrite Z.land_spec, Z.bits_0.
    destruct (decide (i < n)%Z).
    - by rewrite Z.shiftl_spec_low.
    - rewrite <- (Z.mod_small y (2 ^ n)) by done.
      rewrite Z.mod_pow2_bits_high, andb_false_r by lia. done. }
  by rewrite Z.add_nocarry_lxor, Z.lxor_lor.
Qed.

Lemma lor_pair a b :
  (0 ≤ b < 256)%Z → Z.lor (Z.shiftl a 8) b = (256 * a + b)%Z.
Proof. intros. rewrite lor_shiftl by lia. lia. Qed.

Lemma wrap64_id z : in_int64 z → wrap64 z = z.
Proof.
  unfold in_int64, int64_min, int64_max, wrap64. intros H.
  rewrite Z.mod_small; lia.
Qed.

Lemma wrap64_range z : in_int64 (wrap64 z).
Proof.
  unfold in_int64, int64_min, int64_max, wrap64.
  pose proof (Z.mod_pos_bound (z + 2 ^ 63) (2 ^ 64) ltac:(lia)). lia.
Qed.

(** ** Generic lemmas: searching and replacing *)

Section SeqLemmas.
Context {A : Type} `{EqDecision A}.
Implicit Types p l old new : list A.

Lemma prefixb_spec p l : prefixb p l = true ↔ p `prefix_of` l.
Proof.
  revert l. induction p as [|x p IH]; intros [|y l]; cbn.
  - split; [intros _; apply prefix_nil | done].
  - split; [intros _; apply prefix_nil | done].
  - split; [done | intros H; by apply prefix_nil_inv in H].
  - rewrite andb_true_iff, bool_decide_eq_true, IH. split.
    + intros [-> H]. by apply prefix_cons.
    + intros H. split; [by eapply prefix_cons_inv_1|by eapply prefix_cons_inv_2].
Qed.

Lemma prefixb_app p l : prefixb p (p ++ l) = true.
Proof. apply prefixb_spec. by exists l. Qed.

Lemma suffixb_spec p l : suffixb p l = true ↔ p `suffix_of` l.
Proof.
  induction l as [|x l IH]; cbn; rewrite orb_true_iff, bool_decide_eq_true.
  - split; [by intros [->|]; [exists []|] | intros H; left; by apply suffix_nil_inv].
  - rewrite IH. split.
    + intros [->|H]; [done | by apply suffix_cons_r].
    + intros [[|y k] Hk]; cbn in Hk; [by left|].
      right. injection Hk as -> ->. by exists k.
Qed.

Lemma infix_nil_l l : [] `infix_of` l.
Proof. by exists [], l. Qed.

Lemma infix_nil_inv p : p `infix_of` [] → p = [].
Proof. intros (l1 & l2 & H). by destruct l1, p. Qed.

Lemma prefix_infix p l : p `prefix_of` l → p `infix_of` l.
Proof. intros [k ->]. by exists [], k. Qed.

Lemma infix_cons_inv p x l :
  p `infix_of` (x :: l) ↔ p `prefix_of` (x :: l) ∨ p `infix_of` l.
Proof.
  split.
  - intros ([|y l1] & l2 & H); cbn in H; [left; by exists l2|].
    right. injection H as -> ->. by exists l1, l2.
  - intros [H|(l1 & l2 & ->)]; [by apply prefix_infix | by exists (x :: l1), l2].
Qed.

Lemma infix_app_r p k l : p `infix_of` l → p `infix_of` (k ++ l).
Proof. intros (l1 & l2 & ->). exists (k ++ l1), l2. by rewrite (assoc_L (++)). Qed.

Lemma containsb_spec p l : containsb p l = true ↔ p `infix_of` l.
Proof.
  induction l as [|x l IH]; cbn; rewrite orb_true_iff, prefixb_spec.
  - split; [by intros [H|]; [apply prefix_infix|] | ].
    intros ->%infix_nil_inv. left. apply prefix_nil.
  - by rewrite IH, infix_cons_inv.
Qed.

Lemma containsb_false p l : containsb p l = false ↔ ¬ p `infix_of` l.
Proof. by rewrite <- containsb_spec, not_true_iff_false. Qed.

Lemma replace_go_skip old new s l :
  replace_go old new (length s) (s ++ l) = replace_all old new l.
Proof. by induction s. Qed.

Lemma replace_all_match old new l :
  old ≠ [] → replace_all old new (old ++ l) = new ++ replace_all old new l.
Proof.
  destruct old as [|x old]; [done|]. intros _. unfold replace_all at 1. cbn -[prefixb].
  rewrite (prefixb_app (x :: old) l : prefixb _ (x :: old ++ l) = true).
  f_equal. rewrite Nat.sub_0_r. apply replace_go_skip.
Qed.

Lemma replace_all_copy old new x l :
  ¬ old `prefix_of` (x :: l) →
  replace_all old new (x :: l) = x :: replace_all old new l.
Proof.
  intros H. unfold replace_all at 1. cbn -[prefixb].
  destruct (prefixb old (x :: l)) eqn:E; [by apply prefixb_spec in E | done].
Qed.

(** [replace_all] computes the relation [replaced]. *)
Lemma replace_all_replaced old new l :
  old ≠ [] → replaced old new l (replace_all old new l).
Proof.
  intros Hold. remember (length l) as n eqn:Hn.
  revert l Hn. induction n as [n IH] using lt_wf_ind. intros l ->.
  destruct (decide (old `prefix_of` l)) as [[k ->]|Hno].
  - rewrite replace_all_match by done. constructor.
    eapply IH; [|done]. rewrite length_app. destruct old; [done|cbn; lia].
  - destruct l as [|x l]; [constructor|].
    rewrite replace_all_copy by done. constructor; [done|].
    eapply IH; [|done]. cbn; lia.
Qed.

Lemma replaced_replace_all old new l r :
  old ≠ [] → replaced old new l r → r = replace_all old new l.
Proof.
  intros Hold H. induction H as [|l r H IH|x l r Hno H IH]; [done|..].
  - by rewrite replace_all_match, <- IH.
  - by rewrite replace_all_copy, <- IH.
Qed.

Lemma replace_all_id old new l :
  old ≠ [] → ¬ old `infix_of` l → replace_all old new l = l.
Proof.
  intros Hold. induction l as [|x l IH]; intros H; [done|].
  rewrite infix_cons_inv in H.
  rewrite replace_all_copy, IH; naive_solver.
Qed.

Lemma infix_cons_fresh v x l :
  v ≠ [] → x ∉ v → v `infix_of` (x :: l) → v `infix_of` l.
Proof.
  intros Hv Hx [H|H]%infix_cons_inv; [|done]. destruct v as [|y v]; [done|].
  apply prefix_cons_inv_1 in H as ->. by destruct Hx; left.
Qed.

Lemma prefix_before_fresh v mid b l :
  b ∉ v → v `prefix_of` (mid ++ (b :: l)) → v `prefix_of` mid.
Proof.
  revert v. induction mid as [|x mid IH]; intros [|y v] Hb H; try apply prefix_nil.
  - apply prefix_cons_inv_1 in H as ->. by destruct Hb; left.
  - rewrite not_elem_of_cons in Hb. pose proof (prefix_cons_inv_1 _ _ _ _ H) as ->.
    apply prefix_cons, IH; [tauto|]. by eapply prefix_cons_inv_2.
Qed.

Lemma infix_across_fresh v mid b l :
  v ≠ [] → b ∉ v → v `infix_of` (mid ++ (b :: l)) → v `infix_of` mid ∨ v `infix_of` l.
Proof.
  intros Hv Hb. induction mid as [|x mid IH]; cbn; intros H.
  - right. by apply (infix_cons_fresh v b).
  - apply infix_cons_inv in H as [H|H].
    + left. apply prefix_infix. by apply (prefix_before_fresh v (x :: mid) b l).
    + destruct (IH H); [left; apply infix_cons_inv|]; tauto.
Qed.

(** [blocks v new]: text [new] written into an output cannot help to spell [v]:
    it starts outside [v], and an occurrence that meets it lies beyond it. *)
Definition blocks v new : Prop :=
  (∃ x new', new = x :: new' ∧ x ∉ v) ∧ ∀ l, v `infix_of` (new ++ l) → v `infix_of` l.

Lemma blocks_disjoint v new :
  v ≠ [] → new ≠ [] → (∀ x, x ∈ v → x ∉ new) → blocks v new.
Proof.
  intros Hv Hnew Hdisj. split.
  { destruct new as [|x new]; [done|]. exists x, new. split; [done|].
    intros Hx. apply (Hdisj x Hx). by left. }
  clear Hnew. induction new as [|y new IH]; intros l H; [done|].
  apply IH; [intros x Hx Hin; by apply (Hdisj x Hx); right|].
  apply (infix_cons_fresh v y); [done| |done]. intros Hy. by apply (Hdisj y Hy); left.
Qed.

(** Text between two delimiters that do not occur in [v]. *)
Lemma blocks_bracketed v a mid b :
  v ≠ [] → a ∉ v → b ∉ v → ¬ v `infix_of` mid → blocks v (a :: (mid ++ [b])).
Proof.
  intros Hv Ha Hb Hmid. split; [by eexists _, _|]. intros l H.
  replace ((a :: (mid ++ [b])) ++ l) with (a :: (mid ++ (b :: l))) in H
    by (cbn; by rewrite <- (assoc_L (++))).
  apply infix_cons_fresh in H; [|done..]. by apply infix_across_fresh in H as [?|?].
Qed.

Lemma replaced_prefix_inv v old new l r :
  blocks v new → replaced old new l r → v `prefix_of` r → v `prefix_of` l.
Proof.
  intros [(z & new' & -> & Hz) _] H. clear -H Hz. revert v Hz.
  induction H as [|l r H IH|x l r Hno H IH]; intros v Hz Hpre; [done|..];
    (destruct v as [|y v]; [apply prefix_nil|]);
    pose proof (prefix_cons_inv_1 _ _ _ _ Hpre) as ->.
  - by destruct Hz; left.
  - apply prefix_cons, IH; [|by eapply prefix_cons_inv_2].
    by intros ?; apply Hz; right.
Qed.

Lemma replaced_absent v old new l r :
  blocks v new → replaced old new l r → ¬ v `infix_of` l → ¬ v `infix_of` r.
Proof.
  intros Hb H. induction H as [|l r H IH|x l r Hno H IH]; [done|..].
  - intros Habs Hin%Hb. apply IH in Hin; [done|]. intros Hl. by apply Habs, infix_app_r.
  - intros Habs [Hin|Hin]%infix_cons_inv.
    + apply Habs, prefix_infix, (replaced_prefix_inv v old new _ (x :: r)); [done| |done].
      by constructor.
    + apply IH in Hin; [done|]. intros Hl. apply Habs, infix_cons_inv. by right.
Qed.

Lemma replaced_removes old new l r :
  old ≠ [] → blocks old new → replaced old new l r → ¬ old `infix_of` r.
Proof.
  intros Hold Hb H. induction H as [|l r H IH|x l r Hno H IH].
  - by intros ->%infix_nil_inv.
  - by intros Hin%Hb.
  - intros [Hin|Hin]%infix_cons_inv; [|done].
    apply Hno, (replaced_prefix_inv old old new _ (x :: r)); [done| |done].
    by constructor.
Qed.

Lemma replaced_id old new l :
  old ≠ [] → ¬ old `infix_of` l → replaced old new l l.
Proof.
  intros Hold Hno. rewrite <- (replace_all_id old new l) at 2 by done.
  by apply replace_all_replaced.
Qed.

Lemma last_index_of_None x l : last_index_of x l = None ↔ x ∉ l.
Proof.
  induction l as [|y l IH]; cbn; [split; [by intros _ ?%not_elem_of_nil|done]|].
  rewrite not_elem_of_cons.
  destruct (last_index_of x l) eqn:E; [|case_decide].
  - split; [done|]. intros [_ H]. apply IH in H. congruence.
  - split; [done|]. by intros [? _].
  - split; [|done]. intros _. split; [done|]. by apply IH.
Qed.

Lemma last_index_of_app x l k :
  x ∉ k → last_index_of x (l ++ (x :: k)) = Some (length l).
Proof.
  intros Hk. induction l as [|y l IH]; cbn.
  - by rewrite (proj2 (last_index_of_None x k) Hk), decide_True.
  - by rewrite IH.
Qed.

Lemma last_index_of_Some x l i :
  last_index_of x l = Some i →
  l = take i l ++ ([x] ++ drop (S i) l) ∧
  (x ∉ drop (S i) l) ∧ length (take i l) = i.
Proof.
  revert i. induction l as [|y l IH]; cbn; [done|]. intros i.
  destruct (last_index_of x l) as [j|] eqn:E.
  - intros [= <-]. destruct (IH j eq_refl) as (H1 & H2 & H3).
    cbn. rewrite H3. split; [by f_equal|done].
  - case_decide; [|done]. intros [= <-]. subst. cbn.
    split; [done|]. split; [by apply last_index_of_None|done].
Qed.
End SeqLemmas.
