(* ===== verification/GoStrings.v ===== *)
(** * The parts of Go's string libraries that dandbox uses

    [strings], [bytes], [fmt] and [net] functions, on the byte sequences that
    Go strings are.  Each is the standard library's algorithm; the only
    parameter is the Unicode case folding table that [strings.EqualFold]
    consults once it meets a byte outside ASCII. *)
From S2P Require Export Prelude.

Export ByteSyntaxNotations.

(** ** strings *)

Definition HasPrefix (s p : string) : bool := prefixb (to_bytes p) (to_bytes s).
Definition HasSuffix (s p : string) : bool := suffixb (to_bytes p) (to_bytes s).
Definition Contains (s p : string) : bool := containsb (to_bytes p) (to_bytes s).

(** [strings.LastIndex(s, c)] for a one-byte [c]; [None] stands for [-1]. *)
Definition LastIndex (s : string) (c : byte) : option nat :=
  last_index_of c (to_bytes s).

(** [s[:n]] and [s[n:]]. *)
Definition slice_to (s : string) (n : nat) : string := of_bytes (take n (to_bytes s)).
Definition slice_from (s : string) (n : nat) : string := of_bytes (drop n (to_bytes s)).

Definition ReplaceAll (s old new : string) : string :=
  of_bytes (replace_all (to_bytes old) (to_bytes new) (to_bytes s)).

Definition TrimPrefix (s p : string) : string :=
  if HasPrefix s p then slice_from s (length (to_bytes p)) else s.

(** *** [strings.EqualFold] *)

(** The tail of [EqualFold] from the first non-ASCII byte on: rune by rune,
    with [unicode.SimpleFold] orbits. *)
Class UnicodeFold := unicode_equal_fold : bytes → bytes → bool.

Fixpoint equal_fold_go `{UnicodeFold} (s t : bytes) : bool :=
  match s, t with
  | [], [] => true
  | x :: s', y :: t' =>
      if (128 <=? Z.lor (b2z x) (b2z y))%Z then unicode_equal_fold s t
      else if decide (x = y) then equal_fold_go s' t'
      else
        let sr := Z.min (b2z x) (b2z y) in
        let tr := Z.max (b2z x) (b2z y) in
        if ((65 <=? sr) && (sr <=? 90) && (tr =? sr + 32))%Z
        then equal_fold_go s' t'
        else false
  | _, _ => false
  end.

Definition EqualFold `{UnicodeFold} (s t : string) : bool :=
  equal_fold_go (to_bytes s) (to_bytes t).

(** A folding table for concrete runs: no two distinct non-ASCII texts fold
    together. *)
Definition no_unicode_folding : UnicodeFold := λ s t, bool_decide (s = t).

Definition ascii_byte (b : byte) : bool := (b2z b <? 128)%Z.
Definition ascii_string (s : string) : bool := forallb ascii_byte (to_bytes s).

(** ASCII lower case, the reference meaning of folding on ASCII. *)
Definition is_upper (b : byte) : bool := ((65 <=? b2z b) && (b2z b <=? 90))%Z.
Definition lower (b : byte) : byte := if is_upper b then z2b (b2z b + 32) else b.

(** ** fmt *)

(** [fmt.Sprintf("%d", n)]. *)
Definition Sprintf_d (n : Z) : string := pretty n.

Definition is_digit (b : byte) : bool := ((48 <=? b2z b) && (b2z b <=? 57))%Z.

Definition digit_step (a : Z) (d : byte) : Z := (10 * a + (b2z d - 48))%Z.
Definition digits_value (ds : bytes) : Z := foldl digit_step 0%Z ds.

Fixpoint span_digits (l : bytes) : bytes * bytes :=
  match l with
  | d :: l' => if is_digit d then let '(ds, r) := span_digits l' in (d :: ds, r) else ([], l)
  | [] => ([], [])
  end.

(** The white space of [fmt]'s scanner, as UTF-8 sequences.  A line feed is
    not among them: inside [Sscanf] it is an error. *)
Definition scan_spaces : list bytes :=
  [ [x09]; [x0b]; [x0c]; [x0d]; [x20]; [xc2; x85]; [xc2; xa0];
    [xe1; x9a; x80]; [xe2; x80; x80]; [xe2; x80; x81]; [xe2; x80; x82];
    [xe2; x80; x83]; [xe2; x80; x84]; [xe2; x80; x85]; [xe2; x80; x86];
    [xe2; x80; x87]; [xe2; x80; x88]; [xe2; x80; x89]; [xe2; x80; x8a];
    [xe2; x80; xa8]; [xe2; x80; xa9]; [xe2; x80; xaf]; [xe2; x81; x9f];
    [xe3; x80; x80] ].

Definition leading_space (l : bytes) : option nat :=
  '(_, w) ← list_find (λ w, prefixb w l = true) scan_spaces; Some (length w).

(** [SkipSpace]; [fuel] bounds the number of characters skipped, and the
    length of the input is always enough. *)
Fixpoint skip_space (fuel : nat) (l : bytes) : option bytes :=
  match l with
  | x0a :: _ => None
  | _ =>
      match fuel, leading_space l with
      | S fuel', Some n => skip_space fuel' (drop n l)
      | _, _ => Some l
      end
  end.

(** [scanInt] for the verb [%d] followed by [strconv.ParseInt(tok, 10, 64)]. *)
Definition scan_int (l : bytes) : option Z :=
  let '(neg, l) :=
    match l with
    | x2d :: l' => (true, l')
    | x2b :: l' => (false, l')
    | _ => (false, l)
    end in
  let '(ds, _) := span_digits l in
  match ds with
  | [] => None
  | _ =>
      let v := if neg : bool then (- digits_value ds)%Z else digits_value ds in
      if ((int64_min <=? v) && (v <=? int64_max))%Z then Some v else None
  end.

(** [fmt.Sscanf(s, lit + "%d", &num)] for a literal without spaces or [%]:
    the number read when the returned error is nil. *)
Definition Sscanf_d (lit s : string) : option Z :=
  let l := to_bytes s in
  if prefixb (to_bytes lit) l
  then
    let r := drop (length (to_bytes lit)) l in
    skip_space (length r) r ≫= scan_int
  else None.

(** ** net *)

(** [net.SplitHostPort]: [None] when the returned error is not nil. *)
Definition SplitHostPort (hostport : string) : option (string * string) :=
  let l := to_bytes hostport in
  i ← last_index_of x3a l;
  let port := slice_from hostport (S i) in
  if decide (head l = Some x5b)
  then
    '(e, _) ← list_find (λ c, c = x5d) l;
    if decide (S e = i)
    then
      let host := of_bytes (drop 1 (take e l)) in
      if bool_decide (x5b ∈ drop 1 l) || bool_decide (x5d ∈ drop (S e) l)
      then None else Some (host, port)
    else None
  else
    let h := take i l in
    if bool_decide (x3a ∈ h) || bool_decide (x5b ∈ l) || bool_decide (x5d ∈ l)
    then None else Some (of_bytes h, port).

(** [net.JoinHostPort]. *)
Definition JoinHostPort (host port : string) : string :=
  if bool_decide (x3a ∈ to_bytes host)
  then "[" +:+ host +:+ "]:" +:+ port
  else host +:+ ":" +:+ port.

(** *** [net.IP.String] *)

Definition hex_digit (n : Z) : byte := if (n <? 10)%Z then z2b (48 + n) else z2b (87 + n).

(** A 16-bit group in lower-case hexadecimal without leading zeros. *)
Definition append_hex16 (g : Z) : bytes :=
  (if (4096 <=? g)%Z then [hex_digit (Z.shiftr g 12)] else []) ++
  (if (256 <=? g)%Z then [hex_digit (Z.land (Z.shiftr g 8) 15)] else []) ++
  (if (16 <=? g)%Z then [hex_digit (Z.land (Z.shiftr g 4) 15)] else []) ++
  [hex_digit (Z.land g 15)].

Definition dotted (ip : bytes) : string :=
  match ip with
  | [a; b; c; d] =>
      Sprintf_d (b2z a) +:+ "." +:+ Sprintf_d (b2z b) +:+ "." +:+
      Sprintf_d (b2z c) +:+ "." +:+ Sprintf_d (b2z d)
  | _ => ""
  end.

(** Big-endian 16-bit groups of the 16 bytes. *)
Fixpoint groups16 (ip : bytes) : list Z :=
  match ip with
  | a :: b :: r => Z.lor (Z.shiftl (b2z a) 8) (b2z b) :: groups16 r
  | _ => []
  end.

(** The number of zero groups from the head of the list on. *)
Fixpoint zero_run (gs : list Z) : nat :=
  match gs with
  | 0%Z :: r => S (zero_run r)
  | _ => 0
  end.

(** The first longest run of at least two zero groups: start and end. *)
Fixpoint best_run (i : nat) (gs : list Z) (best : option (nat * nat)) : option (nat * nat) :=
  match gs with
  | [] => best
  | _ :: r =>
      let l := zero_run gs in
      let cur := match best with Some (s, e) => e - s | None => 0 end in
      best_run (S i) r
        (if (2 <=? l) && (cur <? l) then Some (i, i + l) else best)
  end.

Fixpoint colon_hex (gs : list Z) : bytes :=
  match gs with
  | [] => []
  | [g] => append_hex16 g
  | g :: r => append_hex16 g ++ [x3a] ++ colon_hex r
  end.

Definition ipv6_string (ip : bytes) : string :=
  let gs := groups16 ip in
  match best_run 0 gs None with
  | Some (s, e) =>
      of_bytes (colon_hex (take s gs) ++ [x3a; x3a] ++ colon_hex (drop e gs))
  | None => of_bytes (colon_hex gs)
  end.

Definition To4 (ip : bytes) : option bytes :=
  if decide (length ip = 4) then Some ip
  else if decide (length ip = 16)
  then
    if bool_decide (take 12 ip = replicate 10 x00 ++ [xff; xff])
    then Some (drop 12 ip) else None
  else None.

Definition IP_String (ip : bytes) : string :=
  match ip with
  | [] => "<nil>"
  | _ =>
      match To4 ip with
      | Some p4 => dotted p4
      | None =>
          if decide (length ip = 16) then ipv6_string ip
          else "?" +:+ of_bytes
                 (ip ≫= λ b, [hex_digit (Z.shiftr (b2z b) 4); hex_digit (Z.land (b2z b) 15)])
      end
  end.

(** *** [net.ParseIP] *)

Definition dec_octet (w : bytes) : option byte :=
  let '(ds, r) := span_digits w in
  if decide (r ≠ [] ∨ ds = [] ∨ 3 < length ds) then None
  else if decide (1 < length ds ∧ head ds = Some x30) then None
  else if (digits_value ds <=? 255)%Z then Some (z2b (digits_value ds)) else None.

Fixpoint split_on (c : byte) (l : bytes) : list bytes :=
  match l with
  | [] => [[]]
  | x :: l' =>
      if decide (x = c) then [] :: split_on c l'
      else match split_on c l' with
           | [] => [[x]]
           | w :: ws => (x :: w) :: ws
           end
  end.

Definition parse_ipv4 (l : bytes) : option bytes :=
  let ws := split_on x2e l in
  if decide (length ws = 4) then mapM dec_octet ws else None.

Definition hex_nibble (b : byte) : option Z :=
  let x := b2z b in
  if ((48 <=? x) && (x <=? 57))%Z then Some (x - 48)%Z
  else if ((97 <=? x) && (x <=? 102))%Z then Some (x - 87)%Z
  else if ((65 <=? x) && (x <=? 70))%Z then Some (x - 55)%Z
  else None.

(** The hexadecimal digits at the head of the input: how many, their value,
    what follows. *)
Fixpoint span_hex (n : nat) (acc : Z) (l : bytes) : nat * Z * bytes :=
  match l with
  | b :: l' =>
      match hex_nibble b with
      | Some v => span_hex (S n) (16 * acc + v)%Z l'
      | None => (n, acc, l)
      end
  | [] => (n, acc, [])
  end.

(** The loop of [parseIPv6]: [ip] are the bytes so far, [ell] where the [::]
    stood; at most eight rounds. *)
Fixpoint ipv6_loop (fuel : nat) (ip : bytes) (ell : option nat) (s : bytes)
    : option (bytes * option nat * bytes) :=
  match fuel with
  | O => Some (ip, ell, s)
  | S f =>
      let '(off, acc, r) := span_hex 0 0 s in
      if decide (off = 0 ∨ 4 < off) then None
      else if decide (head r = Some x2e) then
        if decide (ell = None ∧ length ip ≠ 12) then None
        else if decide (16 < length ip + 4) then None
        else v4 ← parse_ipv4 s; Some (ip ++ v4, ell, [])
      else
        let ip := ip ++ [z2b (Z.shiftr acc 8); z2b acc] in
        match r with
        | [] => Some (ip, ell, [])
        | c :: r1 =>
            if decide (c ≠ x3a) then None
            else
              match r1 with
              | [] => None
              | d :: r2 =>
                  if decide (d = x3a) then
                    match ell with
                    | Some _ => None
                    | None =>
                        match r2 with
                        | [] => Some (ip, Some (length ip), [])
                        | _ => ipv6_loop f ip (Some (length ip)) r2
                        end
                    end
                  else ipv6_loop f ip ell r1
              end
        end
  end.

Definition parse_ipv6 (l : bytes) : option bytes :=
  let start := bool_decide (take 2 l = [x3a; x3a]) in
  let s := if start then drop 2 l else l in
  if start && bool_decide (s = []) then Some (replicate 16 x00)
  else
    '(ip, ell, rest) ← ipv6_loop 8 [] (if start then Some 0 else None) s;
    if decide (rest ≠ []) then None
    else
      match ell with
      | None => if decide (length ip = 16) then Some ip else None
      | Some e =>
          if decide (length ip < 16)
          then Some (take e ip ++ replicate (16 - length ip) x00 ++ drop e ip)
          else None
      end.

(** The 16-byte form of the address, IPv4 mapped into IPv6; no zones. *)
Definition ParseIP (s : string) : option bytes :=
  let l := to_bytes s in
  match list_find (λ b, b = x2e ∨ b = x3a ∨ b = x25) l with
  | Some (_, b) =>
      if decide (b = x2e) then v4 ← parse_ipv4 l; Some (replicate 10 x00 ++ [xff; xff] ++ v4)
      else if decide (b = x3a) then if decide (x25 ∈ l) then None else parse_ipv6 l
      else None
  | None => None
  end.

Example parse_ip_examples :
  (ParseIP "10.0.0.255" ≫= (λ ip, Some (IP_String ip)), ParseIP "2001:db8::1" ≫= (λ ip, Some (IP_String ip)),
   ParseIP "::", ParseIP "10.0.0.256", ParseIP "1::2::3", ParseIP "01.2.3.4", ParseIP "example.com",
   ParseIP "::ffff:1.2.3.4" ≫= (λ ip, Some (IP_String ip)), ParseIP "1:2:3:4:5:6:7")
  = (Some "10.0.0.255", Some "2001:db8::1", Some (replicate 16 x00), None, None, None, None,
     Some "1.2.3.4", None).
Proof. by vm_compute. Qed.

(** ** path/filepath *)

Fixpoint join_with (sep : bytes) (l : list bytes) : bytes :=
  match l with
  | [] => []
  | [x] => x
  | x :: l' => x ++ sep ++ join_with sep l'
  end.

(** One path element on the (reversed) stack of [filepath.Clean]. *)
Definition clean_step (rooted : bool) (st : list bytes) (w : bytes) : list bytes :=
  if decide (w = [] ∨ w = [x2e]) then st
  else if decide (w = [x2e; x2e])
  then match st with
       | top :: st' => if decide (top = [x2e; x2e]) then w :: st else st'
       | [] => if rooted then [] else [w]
       end
  else w :: st.

Definition Clean (path : string) : string :=
  let l := to_bytes path in
  let rooted := bool_decide (head l = Some x2f) in
  let out := join_with [x2f] (reverse (foldl (clean_step rooted) [] (split_on x2f l))) in
  if rooted then of_bytes (x2f :: out)
  else if decide (out = []) then "." else of_bytes out.

Definition Join (elems : list string) : string :=
  let ne := filter (λ e, e ≠ "") elems in
  if decide (ne = []) then "" else Clean (of_bytes (join_with [x2f] (to_bytes <$> ne))).

Example join_examples :
  (Join ["/home/u"; ".config"; "sbxsandbox"; "policy"], Join ["a/../../b/"; "rules.json"],
   Join ["/.."; "x"], Join [""; ""])
  = ("/home/u/.config/sbxsandbox/policy", "../b/rules.json", "/x", "").
Proof. by vm_compute. Qed.

(** [filepath.Dir]. *)
Definition Dir (path : string) : string :=
  Clean (slice_to path match LastIndex path x2f with Some i => i + 1 | None => 0 end).

Example dir_examples :
  (Dir "/home/u/.config/s.sock", Dir "s.sock", Dir "/s.sock", Dir "a//b") = ("/home/u/.config", ".", "/", "a").
Proof. by vm_compute. Qed.

Example ip4 : IP_String [x7f; x00; x00; x01] = "127.0.0.1".
Proof. by vm_compute. Qed.

Example ip6_loopback : IP_String (replicate 15 x00 ++ [x01]) = "::1".
Proof. by vm_compute. Qed.

Example ip6_runs :
  IP_String ([x20; x01; x0d; xb8] ++ replicate 4 x00 ++ [x00; x01] ++ replicate 4 x00 ++ [x00; x0a])
  = "2001:db8::1:0:0:a".
Proof. by vm_compute. Qed.

Example ip6_mapped : IP_String (replicate 10 x00 ++ [xff; xff; x0a; x00; x00; xff]) = "10.0.0.255".
Proof. by vm_compute. Qed.

Example sscanf_examples :
  (Sscanf_d "rule-" "rule-12abc", Sscanf_d "rule-" "rule- 7",
   Sscanf_d "rule-" "rule--3", Sscanf_d "rule-" "rule-x",
   Sscanf_d "rule-" "default-deny-all-https", Sscanf_d "rule-" "rule-9223372036854775808")
  = (Some 12%Z, Some 7%Z, Some (-3)%Z, None, None, None).
Proof. by vm_compute. Qed.

Example splithostport_examples :
  (SplitHostPort "a.b:80", SplitHostPort "[::1]:443", SplitHostPort "::1", SplitHostPort "a",
   SplitHostPort "[::1]")
  = (Some ("a.b", "80"), Some ("::1", "443"), None, None, None).
Proof. by vm_compute. Qed.

(** ** Lemmas: substrings *)

Create HintDb gostrings.
Create Rewrite HintDb gostrings.

Lemma slice_to_app s t : slice_to (s +:+ t) (length (to_bytes s)) = s.
Proof. unfold slice_to. by rewrite to_bytes_app, take_app_length, of_to_bytes. Qed.

Lemma slice_from_app s t : slice_from (s +:+ t) (length (to_bytes s)) = t.
Proof. unfold slice_from. by rewrite to_bytes_app, drop_app_length, of_to_bytes. Qed.

Lemma HasPrefix_spec s p : HasPrefix s p = true ↔ ∃ t, s = p +:+ t.
Proof.
  unfold HasPrefix. rewrite prefixb_spec. split.
  - intros [k Hk]. exists (of_bytes k). apply (inj to_bytes).
    by rewrite to_bytes_app, to_of_bytes.
  - intros [t ->]. exists (to_bytes t). apply to_bytes_app.
Qed.

Lemma HasSuffix_spec s p : HasSuffix s p = true ↔ ∃ t, s = t +:+ p.
Proof.
  unfold HasSuffix. rewrite suffixb_spec. split.
  - intros [k Hk]. exists (of_bytes k). apply (inj to_bytes).
    by rewrite to_bytes_app, to_of_bytes.
  - intros [t ->]. exists (to_bytes t). apply to_bytes_app.
Qed.

Lemma Contains_infix s p : Contains s p = true ↔ to_bytes p `infix_of` to_bytes s.
Proof. apply containsb_spec. Qed.

Lemma HasPrefix_app p t : HasPrefix (p +:+ t) p = true.
Proof. apply HasPrefix_spec. by exists t. Qed.

Lemma HasSuffix_app p t : HasSuffix (t +:+ p) p = true.
Proof. apply HasSuffix_spec. by exists t. Qed.

Lemma TrimPrefix_app p t : TrimPrefix (p +:+ t) p = t.
Proof. unfold TrimPrefix. rewrite HasPrefix_app. apply slice_from_app. Qed.

#[export] Hint Rewrite slice_to_app slice_from_app HasPrefix_app HasSuffix_app
  TrimPrefix_app to_bytes_app of_to_bytes to_of_bytes : gostrings.
#[export] Hint Resolve HasPrefix_app HasSuffix_app : gostrings.

(** ** Lemmas: case folding *)

Section Fold.
Context {UF : UnicodeFold}.

Lemma lower_cases x y :
  ascii_byte x = true → ascii_byte y = true →
  lower x = lower y ↔
    x = y ∨
    (65 ≤ Z.min (b2z x) (b2z y) ≤ 90 ∧
     Z.max (b2z x) (b2z y) = Z.min (b2z x) (b2z y) + 32)%Z.
Proof.
  unfold ascii_byte. rewrite !Z.ltb_lt. intros Hx Hy.
  pose proof (b2z_range x). pose proof (b2z_range y).
  assert (∀ b, (65 ≤ b2z b ≤ 90)%Z → b2z (z2b (b2z b + 32)) = (b2z b + 32)%Z) as Hl.
  { intros b Hb. rewrite b2z_z2b, Z.mod_small; lia. }
  assert (∀ b, b2z (lower b) = if is_upper b then b2z b + 32 else b2z b)%Z as Hlow.
  { intros b. unfold lower. destruct (is_upper b) eqn:E; [|done].
    apply Hl. unfold is_upper in E. lia. }
  split.
  - intros Heq%(f_equal b2z). rewrite !Hlow in Heq.
    destruct (decide (b2z x = b2z y)) as [?%(inj b2z)|Hne]; [by left|].
    right. destruct (is_upper x) eqn:Ex, (is_upper y) eqn:Ey; unfold is_upper in *; lia.
  - intros [->|Hr]; [done|]. apply (inj b2z). rewrite !Hlow.
    destruct (is_upper x) eqn:Ex, (is_upper y) eqn:Ey; unfold is_upper in *; lia.
Qed.

(** On ASCII strings folding is equality after lower-casing. *)
Lemma EqualFold_ascii s t :
  ascii_string s = true → ascii_string t = true →
  EqualFold s t = true ↔ lower <$> to_bytes s = lower <$> to_bytes t.
Proof.
  unfold ascii_string, EqualFold. generalize (to_bytes s) (to_bytes t). clear s t.
  induction l as [|x s IH]; intros [|y t]; cbn [forallb equal_fold_go fmap list_fmap];
    [done..|].
  intros [Hx Hs]%andb_true_iff [Hy Ht]%andb_true_iff.
  assert ((128 <=? Z.lor (b2z x) (b2z y))%Z = false) as ->.
  { apply Z.leb_gt. unfold ascii_byte in *. apply Z.ltb_lt in Hx, Hy.
    pose proof (b2z_range x). pose proof (b2z_range y).
    destruct (decide (Z.lor (b2z x) (b2z y) = 0%Z)) as [->|]; [lia|].
    apply (Z.log2_lt_pow2 _ 7); [|rewrite Z.log2_lor by lia; apply Z.max_lub_lt].
    - pose proof (Z.lor_nonneg (b2z x) (b2z y)). lia.
    - destruct (decide (b2z x = 0%Z)) as [->|]; [done|]. apply Z.log2_lt_pow2; lia.
    - destruct (decide (b2z y = 0%Z)) as [->|]; [done|]. apply Z.log2_lt_pow2; lia. }
  pose proof (lower_cases x y Hx Hy) as Hlow. pose proof (IH t Hs Ht) as IHt.
  case_decide as Hxy.
  - subst y. rewrite IHt. split; [by intros -> | by intros [= ?]].
  - destruct (_ && _) eqn:E.
    + rewrite IHt. split; [|by intros [= ?]].
      intros ->. f_equal. apply Hlow. right. lia.
    + split; [done|]. intros [= Hxl _]. apply Hlow in Hxl as [?|?]; [done|lia].
Qed.

Lemma EqualFold_ascii_refl s : ascii_string s = true → EqualFold s s = true.
Proof. intros H. by apply EqualFold_ascii. Qed.

Lemma EqualFold_ascii_length s t :
  ascii_string s = true → ascii_string t = true →
  EqualFold s t = true → length (to_bytes s) = length (to_bytes t).
Proof.
  intros Hs Ht H%EqualFold_ascii%(f_equal length); [|done..].
  by rewrite !length_fmap in H.
Qed.
End Fold.

(** ** Lemmas: printing and scanning integers *)

Lemma digits_step_app a ds d :
  foldl digit_step a (ds ++ [d]) = digit_step (foldl digit_step a ds) d.
Proof. by rewrite foldl_app. Qed.

Lemma span_digits_app ds r :
  forallb is_digit ds = true → (∀ b, head r = Some b → is_digit b = false) →
  span_digits (ds ++ r) = (ds, r).
Proof.
  intros Hds Hr. induction ds as [|d ds IH]; cbn in *.
  - destruct r as [|b r]; [done|]. cbn. by rewrite (Hr b).
  - apply andb_true_iff in Hds as [-> Hds]. by rewrite IH.
Qed.

Lemma digits_value_shift a ds :
  foldl digit_step a ds = (a * 10 ^ Z.of_nat (length ds) + digits_value ds)%Z.
Proof.
  revert a. induction ds as [|d ds IH] using rev_ind; intros a; [cbn; lia|].
  unfold digits_value. rewrite !digits_step_app, length_app, IH, (IH 0%Z). cbn [length].
  unfold digit_step.
  replace (Z.of_nat (length ds + 1)) with (Z.succ (Z.of_nat (length ds))) by lia.
  rewrite Z.pow_succ_r by lia. lia.
Qed.

Lemma pretty_char_digit n :
  (n < 10)%N →
  is_digit (Ascii.byte_of_ascii (pretty_N_char n)) = true ∧
  b2z (Ascii.byte_of_ascii (pretty_N_char n)) = (48 + Z.of_N n)%Z.
Proof.
  intros H.
  assert (n = 0 ∨ n = 1 ∨ n = 2 ∨ n = 3 ∨ n = 4 ∨ n = 5 ∨ n = 6 ∨ n = 7 ∨ n = 8 ∨ n = 9)%N
    as Hn by lia.
  destruct_or! Hn; subst n; by vm_compute.
Qed.

Lemma to_bytes_String c s : to_bytes (String c s) = Ascii.byte_of_ascii c :: to_bytes s.
Proof. done. Qed.

Lemma pretty_N_go_digits n s :
  ∃ ds, to_bytes (pretty_N_go n s) = ds ++ to_bytes s ∧
        forallb is_digit ds = true ∧ digits_value ds = Z.of_N n ∧
        (n ≠ 0%N → ds ≠ []).
Proof.
  revert s. induction (N.lt_wf_0 n) as [n _ IH]; intros s.
  destruct (decide (n = 0%N)) as [->|Hn]; [by exists []|].
  rewrite pretty_N_go_step by lia.
  destruct (IH (n `div` 10)%N ltac:(apply N.div_lt; lia)
    (String (pretty_N_char (n `mod` 10)) s)) as (ds & Hds & Hdig & Hval & _).
  pose proof (N.mod_lt n 10 ltac:(lia)) as Hm.
  destruct (pretty_char_digit _ Hm) as [Hd Hb].
  eexists (ds ++ [_]). rewrite Hds, to_bytes_String, <- (assoc_L (++)).
  split; [done|]. split; [by rewrite forallb_app, Hdig; cbn; rewrite Hd|].
  split; [|by intros _ [_ [=]]%app_nil].
  unfold digits_value in *. rewrite digits_step_app, Hval. unfold digit_step.
  rewrite Hb. pose proof (N.div_mod n 10 ltac:(lia)). lia.
Qed.

(** The decimal text of a natural number. *)
Lemma pretty_N_digits n :
  ∃ ds, to_bytes (pretty n) = ds ∧ forallb is_digit ds = true ∧
        digits_value ds = Z.of_N n ∧ ds ≠ [].
Proof.
  unfold pretty, pretty_N. case_decide as Hn.
  - subst n. by exists [x30].
  - destruct (pretty_N_go_digits n "") as (ds & H & Hd & Hv & Hne).
    exists ds. change (to_bytes "") with (@nil byte) in H. rewrite app_nil_r in H. auto.
Qed.

Lemma digit_head_not_special ds r b :
  forallb is_digit ds = true → ds ≠ [] → head (ds ++ r) = Some b → is_digit b = true.
Proof.
  intros H Hne. destruct ds as [|d ds]; [done|]. cbn in *.
  apply andb_true_iff in H as [Hd _]. congruence.
Qed.

(** The first byte of a printed integer. *)
Definition num_start (b : byte) : bool := is_digit b || Byte.eqb b x2d.

Lemma num_start_plain b :
  num_start b = true → b ≠ x0a ∧ leading_space [b] = None.
Proof. by destruct b. Qed.

Lemma leading_space_ascii b l :
  num_start b = true → leading_space (b :: l) = None.
Proof. by destruct b. Qed.

Lemma leading_space_width l n : leading_space l = Some n → 1 ≤ n ≤ length l.
Proof.
  unfold leading_space. destruct (list_find _ scan_spaces) as [[i w]|] eqn:E; [|done].
  cbn. intros [= <-]. apply list_find_Some in E as (Hi & Hp%prefixb_spec & _). split.
  - apply list_elem_of_lookup_2 in Hi.
    assert (Forall (λ w, 1 ≤ length w) scan_spaces) as H by (repeat constructor; cbn; lia).
    rewrite Forall_forall in H. by apply H.
  - by apply prefix_length.
Qed.

(** The length of the input is enough fuel. *)
Lemma skip_space_fuel f g l : length l ≤ f → length l ≤ g → skip_space f l = skip_space g l.
Proof.
  revert g l. induction f as [|f IH]; intros g l Hf Hg.
  - destruct l as [|b l]; [|cbn in Hf; lia]. by destruct g.
  - destruct g as [|g]; [destruct l as [|b l]; [done|cbn in Hg; lia]|].
    cbn [skip_space]. destruct (leading_space l) as [n|] eqn:E; [|done].
    apply leading_space_width in E. rewrite (IH g) by (rewrite length_drop; lia). done.
Qed.

Lemma skip_space_stop fuel b l :
  num_start b = true → skip_space fuel (b :: l) = Some (b :: l).
Proof.
  intros Hb. pose proof (leading_space_ascii b l Hb) as Hsp.
  assert (b ≠ x0a) by by apply num_start_plain.
  destruct fuel; cbn -[leading_space]; rewrite ?Hsp; by destruct b.
Qed.

Lemma scan_int_unsigned b l :
  is_digit b = true →
  scan_int (b :: l) =
    let '(ds, _) := span_digits (b :: l) in
    match ds with
    | [] => None
    | _ =>
        let v := digits_value ds in
        if ((int64_min <=? v) && (v <=? int64_max))%Z then Some v else None
    end.
Proof. by destruct b. Qed.

Lemma span_digits_all ds :
  forallb is_digit ds = true → span_digits ds = (ds, []).
Proof.
  intros H. rewrite <- (right_id_L [] (++) ds) at 1. by apply span_digits_app.
Qed.

Lemma Sprintf_d_nonneg n : (0 ≤ n)%Z → Sprintf_d n = pretty (Z.to_N n).
Proof. by destruct n. Qed.

Lemma Sprintf_d_neg n : (n < 0)%Z → Sprintf_d n = "-" +:+ pretty (Z.to_N (- n)).
Proof. by destruct n. Qed.

(** Scanning the printed form of an integer gives the integer back. *)
Lemma Sscanf_d_Sprintf_d lit n :
  in_int64 n → Sscanf_d lit (lit +:+ Sprintf_d n) = Some n.
Proof.
  intros [Hlo Hhi]. unfold Sscanf_d. rewrite to_bytes_app, prefixb_app, drop_app_length.
  assert (((int64_min <=? n) && (n <=? int64_max))%Z = true) as Hin by lia.
  destruct (decide (0 ≤ n)%Z) as [Hpos|Hneg].
  - rewrite Sprintf_d_nonneg by done.
    destruct (pretty_N_digits (Z.to_N n)) as ([|d ds] & -> & Hds & Hv & Hne); [done|].
    assert (is_digit d = true) as Hd by (by apply andb_true_iff in Hds as [? _]).
    rewrite skip_space_stop by (unfold num_start; by rewrite Hd). cbn [mbind option_bind].
    rewrite scan_int_unsigned, span_digits_all, Hv, Z2N.id by done. cbv zeta. by rewrite Hin.
  - rewrite Sprintf_d_neg, to_bytes_app by lia.
    destruct (pretty_N_digits (Z.to_N (- n))) as (ds & -> & Hds & Hv & Hne).
    change (to_bytes "-" ++ ds) with (x2d :: ds).
    rewrite skip_space_stop by done. cbn [mbind option_bind scan_int].
    rewrite span_digits_all, Hv, Z2N.id by (done || lia).
    destruct ds; [done|]. cbv zeta. by rewrite Z.opp_involutive, Hin.
Qed.

Lemma Sscanf_d_range lit s n : Sscanf_d lit s = Some n → in_int64 n.
Proof.
  unfold Sscanf_d. destruct (prefixb _ _); [|done].
  intros (l & _ & Hl)%bind_Some. unfold scan_int in Hl.
  destruct (match l with x2d :: _ => _ | _ => _ end) as [neg l'].
  destruct (span_digits l') as [[|d ds] r]; [done|].
  case_match eqn:E; [|done]. injection Hl as <-.
  apply andb_true_iff in E as [?%Z.leb_le ?%Z.leb_le]. by split.
Qed.

#[export] Instance Sprintf_d_inj : Inj (=) (=) Sprintf_d.
Proof. apply pretty_Z_inj. Qed.

Lemma Sprintf_d_no_colon n : x3a ∉ to_bytes (Sprintf_d n).
Proof.
  assert (∀ m : N, x3a ∉ to_bytes (pretty m)) as Hm.
  { intros m. destruct (pretty_N_digits m) as (ds & -> & Hds & _).
    intros Hin. apply Is_true_true, forallb_True in Hds.
    rewrite Forall_forall in Hds. by apply Hds in Hin. }
  destruct (decide (0 ≤ n)%Z).
  - rewrite Sprintf_d_nonneg by done. apply Hm.
  - rewrite Sprintf_d_neg, to_bytes_app, elem_of_app by lia.
    intros [H|H]; [|by apply Hm in H].
    change (to_bytes "-") with [x2d] in H. by apply list_elem_of_singleton in H.
Qed.

(** ** Lemmas: host and port *)

(** The port is what follows the last colon. *)
Lemma SplitHostPort_port hp h p : SplitHostPort hp = Some (h, p) → x3a ∉ to_bytes p.
Proof.
  unfold SplitHostPort. destruct (last_index_of x3a (to_bytes hp)) as [i|] eqn:E; [|done].
  apply last_index_of_Some in E as (_ & E & _). cbn [mbind option_bind].
  assert (x3a ∉ to_bytes (slice_from hp (S i))) as Hp by (unfold slice_from; by rewrite to_of_bytes).
  case_decide.
  - destruct (list_find _ _) as [[e c]|]; [|done]. cbn [mbind option_bind].
    case_decide; [|done]. destruct (_ || _); [done|]. by intros [= _ <-].
  - destruct (_ || _); [done|]. by intros [= _ <-].
Qed.

Lemma SplitHostPort_plain h p :
  x3a ∉ to_bytes h → x5b ∉ to_bytes h → x5d ∉ to_bytes h →
  x3a ∉ to_bytes p → x5b ∉ to_bytes p → x5d ∉ to_bytes p →
  SplitHostPort (h +:+ ":" +:+ p) = Some (h, p).
Proof.
  intros Hh1 Hh2 Hh3 Hp1 Hp2 Hp3. unfold SplitHostPort, slice_from.
  rewrite !to_bytes_app. change (to_bytes ":" ++ to_bytes p) with (x3a :: to_bytes p).
  rewrite last_index_of_app by done. cbn [mbind option_bind].
  replace (drop (S (length (to_bytes h))) (to_bytes h ++ x3a :: to_bytes p)) with (to_bytes p)
    by (by rewrite <- Nat.add_1_r, <- drop_drop, drop_app_length).
  rewrite take_app_length, !of_to_bytes.
  rewrite decide_False.
  - by rewrite !bool_decide_eq_false_2
      by (by rewrite ?not_elem_of_app, ?not_elem_of_cons).
  - destruct (to_bytes h); cbn; [done|]. intros [= ->]. by apply Hh2; left.
Qed.
