(* ===== verification/Json.v ===== *)
(** * JSON values and their text, as [encoding/json] writes it

    dandbox marshals records and maps to JSON for its API, its state files and
    the payloads it sends to the proxy sidecars.  A value is a tree; [marshal]
    is the compact text of [json.Marshal] and [marshal_indent] the text of
    [json.MarshalIndent(v, "", "  ")].  Reading goes through the tree: a
    decoder takes a [Json] to a Go value or fails. *)
From stdpp Require Export sorting.
From S2P Require Export GoStrings.

#[warnings="-register-all"]
Inductive Json :=
  | JNull
  | JBool (b : bool)
  | JNum (n : Z)
  | JFloat (literal : string)
  | JStr (s : string)
  | JArr (l : list Json)
  | JObj (fields : list (string * Json)).

(** ** String literals *)

(** Length of the UTF-8 sequence at the head of the input and its code point;
    [None] for an ill-formed sequence, which Go reads as U+FFFD of width one. *)
Definition cont (b : byte) : bool := ((128 <=? b2z b) && (b2z b <=? 191))%Z.
Definition low6 (b : byte) : Z := Z.land (b2z b) 63.

Definition decode_rune (l : bytes) : option (Z * nat) :=
  match l with
  | [] => None
  | a :: r =>
      let x := b2z a in
      if (x <? 128)%Z then Some (x, 1)
      else if ((194 <=? x) && (x <=? 223))%Z then
        match r with
        | b :: _ =>
            if cont b then Some (Z.lor (Z.shiftl (Z.land x 31) 6) (low6 b), 2) else None
        | _ => None
        end
      else if ((224 <=? x) && (x <=? 239))%Z then
        match r with
        | b :: c :: _ =>
            let v := Z.lor (Z.shiftl (Z.land x 15) 12) (Z.lor (Z.shiftl (low6 b) 6) (low6 c)) in
            if cont b && cont c && (2048 <=? v)%Z && negb ((55296 <=? v) && (v <=? 57343))%Z
            then Some (v, 3) else None
        | _ => None
        end
      else if ((240 <=? x) && (x <=? 244))%Z then
        match r with
        | b :: c :: d :: _ =>
            let v := Z.lor (Z.shiftl (Z.land x 7) 18)
                       (Z.lor (Z.shiftl (low6 b) 12)
                          (Z.lor (Z.shiftl (low6 c) 6) (low6 d))) in
            if cont b && cont c && cont d && ((65536 <=? v) && (v <=? 1114111))%Z
            then Some (v, 4) else None
        | _ => None
        end
      else None
  end.

Definition u_escape (n : Z) : bytes :=
  to_bytes "\u" ++
  [hex_digit (Z.land (Z.shiftr n 12) 15); hex_digit (Z.land (Z.shiftr n 8) 15);
   hex_digit (Z.land (Z.shiftr n 4) 15); hex_digit (Z.land n 15)].

(** One ASCII byte inside a literal, with the HTML escapes of [json.Marshal]. *)
Definition escape_ascii (b : byte) : bytes :=
  match b with
  | x22 | x5c => [x5c; b]
  | x08 => to_bytes "\b"
  | x0c => to_bytes "\f"
  | x0a => to_bytes "\n"
  | x0d => to_bytes "\r"
  | x09 => to_bytes "\t"
  | x3c | x3e | x26 => u_escape (b2z b)
  | _ => if (b2z b <? 32)%Z then u_escape (b2z b) else [b]
  end.

(** [skip] counts the continuation bytes of a rune already written. *)
Fixpoint escape_go (skip : nat) (l : bytes) : bytes :=
  match l with
  | [] => []
  | b :: l' =>
      match skip with
      | S k => escape_go k l'
      | O =>
          if ascii_byte b then escape_ascii b ++ escape_go 0 l'
          else
            match decode_rune l with
            | None => to_bytes "\ufffd" ++ escape_go 0 l'
            | Some (r, n) =>
                (if ((r =? 8232) || (r =? 8233))%Z then u_escape r else take n l)
                ++ escape_go (n - 1) l'
            end
      end
  end.

Definition quote (s : string) : bytes := [x22] ++ escape_go 0 (to_bytes s) ++ [x22].

(** ** Values *)

(** The text of a value at a nesting depth, with [nl depth] where a line may be
    broken and [sp] after a colon. *)
Section Print.
Context (nl : nat → bytes) (sp : bytes).

Fixpoint print (depth : nat) (j : Json) : bytes :=
  match j with
  | JNull => to_bytes "null"
  | JBool b => to_bytes (if b then "true" else "false")
  | JNum n => to_bytes (Sprintf_d n)
  | JFloat lit => to_bytes lit
  | JStr s => quote s
  | JArr [] => to_bytes "[]"
  | JArr l =>
      [x5b] ++ nl (S depth)
      ++ join_with ([x2c] ++ nl (S depth)) (print (S depth) <$> l)
      ++ nl depth ++ [x5d]
  | JObj [] => to_bytes "{}"
  | JObj fs =>
      [x7b] ++ nl (S depth)
      ++ join_with ([x2c] ++ nl (S depth))
           ((λ '(k, v), quote k ++ [x3a] ++ sp ++ print (S depth) v) <$> fs)
      ++ nl depth ++ [x7d]
  end.
End Print.

Definition newline (depth : nat) : bytes := [x0a] ++ concat (replicate depth [x20; x20]).

(** [json.Marshal] and [json.MarshalIndent] with an indent of two spaces. *)
Definition marshal : Json → bytes := print (λ _, []) [] 0.
Definition marshal_indent : Json → bytes := print newline [x20] 0.

(** Marshalled Go maps list their keys in byte order. *)
Definition JMap {A} (f : A → Json) (m : gmap string A) : Json :=
  JObj ((λ '(k, v), (k, f v)) <$> merge_sort (λ a b, String.le a.1 b.1) (map_to_list m)).

(** A struct field tagged [omitempty]. *)
Definition omit_empty (empty : bool) (k : string) (v : Json) : list (string * Json) :=
  if empty then [] else [(k, v)].

Example marshal_array :
  marshal (JArr [JNum (-3); JBool true; JArr []; JNull]) = to_bytes "[-3,true,[],null]".
Proof. by vm_compute. Qed.

Example quote_escapes :
  quote (of_bytes [x22; x61; x3c; x0a; x01; xff; xc3; xa9])
  = [x22] ++ [x5c; x22] ++ to_bytes "a\u003c\n\u0001\ufffd" ++ [xc3; xa9] ++ [x22].
Proof. by vm_compute. Qed.

(** ** Reading: [json.Unmarshal] into Go values

    A decoder updates a value of its type from a tree, or fails with a type
    error.  [null] leaves the value as it is; object keys select the struct
    field whose name they fold to, the last one winning; unknown keys are
    ignored. *)

Definition Dec (A : Type) : Type := A → Json → option A.

Definition dec_string : Dec string := λ cur j,
  match j with JStr s => Some s | JNull => Some cur | _ => None end.

Definition dec_bool : Dec bool := λ cur j,
  match j with JBool b => Some b | JNull => Some cur | _ => None end.

Definition dec_int : Dec Z := λ cur j,
  match j with
  | JNum n => if ((int64_min <=? n) && (n <=? int64_max))%Z then Some n else None
  | JNull => Some cur
  | _ => None
  end.

(** Elements already in the slice are decoded over. *)
Definition dec_list {A} (zero : A) (d : Dec A) : Dec (list A) := λ cur j,
  match j with
  | JArr l => mapM (λ '(i, j), d (nth i cur zero) j) (imap pair l)
  | JNull => Some []
  | _ => None
  end.

(** A Go slice.  A nil one has no elements either, but [json.Marshal] tells the
    two apart, and [null] reads as nil. *)
Inductive slice (A : Type) := nil_slice | mk_slice (l : list A).
#[global] Arguments nil_slice {A}.
#[global] Arguments mk_slice {A} l.
#[global] Coercion mk_slice : list >-> slice.

#[export] Instance slice_eq_dec {A} `{EqDecision A} : EqDecision (slice A).
Proof. solve_decision. Defined.

Definition elems {A} (s : slice A) : list A :=
  match s with nil_slice => [] | mk_slice l => l end.

Definition JSlice {A} (f : A → Json) (s : slice A) : Json :=
  match s with nil_slice => JNull | mk_slice l => JArr (f <$> l) end.

Definition dec_slice {A} (zero : A) (d : Dec A) : Dec (slice A) := λ cur j,
  match j with
  | JNull => Some nil_slice
  | _ => l ← dec_list zero d (elems cur) j; Some (mk_slice l)
  end.

Definition dec_map {A} (zero : A) (d : Dec A) : Dec (gmap string A) := λ cur j,
  match j with
  | JObj fs =>
      foldl (λ acc kv, m ← acc; v ← d zero kv.2; Some (<[kv.1 := v]> m)) (Some cur) fs
  | JNull => Some ∅
  | _ => None
  end.

(** A field: its name and what a value under that name does to the struct. *)
Definition field {R A} (name : string) (get : R → A) (set : A → R → R) (d : Dec A)
    : string * Dec R :=
  (name, λ r j, v ← d (get r) j; Some (set v r)).

Definition dec_field `{UnicodeFold} {R} (fields : list (string * Dec R)) (r : R)
    (kv : string * Json) : option R :=
  match list_find (λ f, bool_decide (f.1 = kv.1) = true) fields with
  | Some (_, f) => f.2 r kv.2
  | None =>
      match list_find (λ f, EqualFold f.1 kv.1 = true) fields with
      | Some (_, f) => f.2 r kv.2
      | None => Some r
      end
  end.

Definition dec_struct `{UnicodeFold} {R} (fields : list (string * Dec R)) : Dec R := λ cur j,
  match j with
  | JObj fs => foldl (λ acc kv, r ← acc; dec_field fields r kv) (Some cur) fs
  | JNull => Some cur
  | _ => None
  end.

(** Reading a struct field by field, for keys spelled as in the tags. *)
Section Fields.
Context `{UnicodeFold} {R : Type}.

Lemma dec_field_exact (fields : list (string * Dec R)) r k j i f :
  list_find (λ f, bool_decide (f.1 = k) = true) fields = Some (i, f) →
  dec_field fields r (k, j) = f.2 r j.
Proof. unfold dec_field. cbn. by intros ->. Qed.

Lemma dec_struct_nil (fields : list (string * Dec R)) r : dec_struct fields r (JObj []) = Some r.
Proof. done. Qed.

Lemma dec_fold_none (fields : list (string * Dec R)) fs :
  foldl (λ acc kv, r ← acc; dec_field fields r kv) None fs = None.
Proof. induction fs; [done|]. cbn. done. Qed.

Lemma dec_struct_cons (fields : list (string * Dec R)) r k j fs i f :
  list_find (λ f, bool_decide (f.1 = k) = true) fields = Some (i, f) →
  dec_struct fields r (JObj ((k, j) :: fs)) = r' ← f.2 r j; dec_struct fields r' (JObj fs).
Proof.
  intros Hf. unfold dec_struct. cbn [foldl]. cbn [mbind option_bind].
  rewrite (dec_field_exact _ _ _ _ _ _ Hf). destruct (f.2 r j); [done|]. apply dec_fold_none.
Qed.
End Fields.

Ltac dec_fields :=
  repeat first
    [ rewrite dec_struct_nil
    | erewrite dec_struct_cons; [|reflexivity]; cbn -[dec_struct dec_list dec_slice dec_map JMap] ].

(** The text of the error that [encoding/json] reports for a target type and
    an input; it is only shown to clients and in logs. *)
Class JsonErrors := json_error : string → bytes → string.
