(* ===== verification/JsonParse.v ===== *)
(** * Reading JSON text, as [encoding/json] does

    [parse] is a recursive-descent reader of the grammar that the package's
    scanner accepts, including its limit on nesting; [Unmarshal] takes a whole
    input and [Decode] the first value of a stream.  The main result is the
    round trip: the text that [marshal] and [marshal_indent] write is read back
    as the same tree. *)
From S2P Require Export Json.

(** ** Tokens *)

Definition is_ws (b : byte) : bool :=
  Byte.eqb b x20 || Byte.eqb b x09 || Byte.eqb b x0d || Byte.eqb b x0a.

Fixpoint skip_ws (l : bytes) : bytes :=
  match l with
  | b :: l' => if is_ws b then skip_ws l' else l
  | [] => []
  end.

Definition hex_value (b : byte) : option Z :=
  let x := b2z b in
  if ((48 <=? x) && (x <=? 57))%Z then Some (x - 48)%Z
  else if ((97 <=? x) && (x <=? 102))%Z then Some (x - 87)%Z
  else if ((65 <=? x) && (x <=? 70))%Z then Some (x - 55)%Z
  else None.

(** Four hexadecimal digits, after a backslash and [u]. *)
Definition hex4 (l : bytes) : option (Z * bytes) :=
  match l with
  | a :: b :: c :: d :: r =>
      a ← hex_value a; b ← hex_value b; c ← hex_value c; d ← hex_value d;
      Some ((4096 * a + 256 * b + 16 * c + d)%Z, r)
  | _ => None
  end.

Definition encode_rune (v : Z) : bytes :=
  if (v <? 128)%Z then [z2b v]
  else if (v <? 2048)%Z then [z2b (192 + v `div` 64); z2b (128 + v `mod` 64)]
  else if (v <? 65536)%Z then
    [z2b (224 + v `div` 4096); z2b (128 + (v `div` 64) `mod` 64); z2b (128 + v `mod` 64)]
  else
    [z2b (240 + v `div` 262144); z2b (128 + (v `div` 4096) `mod` 64);
     z2b (128 + (v `div` 64) `mod` 64); z2b (128 + v `mod` 64)].

Definition surrogate (v : Z) : bool := ((55296 <=? v) && (v <=? 57343))%Z.
Definition high_surrogate (v : Z) : bool := ((55296 <=? v) && (v <=? 56319))%Z.
Definition low_surrogate (v : Z) : bool := ((56320 <=? v) && (v <=? 57343))%Z.

Definition replacement : Z := 65533.

(** The code unit [u] of an escape; a high surrogate looks for its mate. *)
Definition unescape_u (u : Z) (l : bytes) : bytes * bytes :=
  let alone := (encode_rune (if surrogate u then replacement else u), l) in
  if high_surrogate u then
    match l with
    | b :: c :: r =>
        if decide (b = x5c ∧ c = x75) then
          match hex4 r with
          | Some (v, r') =>
              if low_surrogate v
              then (encode_rune (65536 + 1024 * (u - 55296) + (v - 56320))%Z, r')
              else alone
          | None => alone
          end
        else alone
    | _ => alone
    end
  else alone.

Definition simple_escape (c : byte) : option byte :=
  if Byte.eqb c x22 || Byte.eqb c x5c || Byte.eqb c x2f then Some c
  else if Byte.eqb c x62 then Some x08
  else if Byte.eqb c x66 then Some x0c
  else if Byte.eqb c x6e then Some x0a
  else if Byte.eqb c x72 then Some x0d
  else if Byte.eqb c x74 then Some x09
  else None.

(** What follows a backslash. *)
Definition unescape (l : bytes) : option (bytes * bytes) :=
  match l with
  | [] => None
  | c :: r =>
      if Byte.eqb c x75 then '(u, r') ← hex4 r; Some (unescape_u u r')
      else b ← simple_escape c; Some ([b], r)
  end.

(** The rest of a string literal after its opening quote; each round consumes
    a byte, so the length of the input is enough fuel. *)
Fixpoint unquote (fuel : nat) (l : bytes) : option (bytes * bytes) :=
  match fuel, l with
  | S f, b :: r =>
      if Byte.eqb b x22 then Some ([], r)
      else if Byte.eqb b x5c then
        '(out, r') ← unescape r; '(s, rest) ← unquote f r'; Some (out ++ s, rest)
      else if (b2z b <? 32)%Z then None
      else if ascii_byte b then '(s, rest) ← unquote f r; Some (b :: s, rest)
      else
        match decode_rune l with
        | Some (_, n) => '(s, rest) ← unquote f (drop n l); Some (take n l ++ s, rest)
        | None => '(s, rest) ← unquote f r; Some (encode_rune replacement ++ s, rest)
        end
  | _, _ => None
  end.

(** The grammar of numbers; integers become [JNum], the others keep their
    text. *)
Definition number_int (l : bytes) : option (bytes * bytes) :=
  match l with
  | [] => None
  | d :: r =>
      if Byte.eqb d x30 then Some ([d], r)
      else if is_digit d then Some (span_digits l)
      else None
  end.

Definition number_frac (l : bytes) : option (bytes * bytes) :=
  match l with
  | d :: r =>
      if Byte.eqb d x2e then
        let '(ds, r') := span_digits r in
        if decide (ds = []) then None else Some (d :: ds, r')
      else Some ([], l)
  | [] => Some ([], [])
  end.

Definition number_exp (l : bytes) : option (bytes * bytes) :=
  match l with
  | e :: r =>
      if Byte.eqb e x65 || Byte.eqb e x45 then
        let '(sign, r1) :=
          match r with
          | s :: r1 => if Byte.eqb s x2b || Byte.eqb s x2d then ([s], r1) else ([], r)
          | [] => ([], [])
          end in
        let '(ds, r') := span_digits r1 in
        if decide (ds = []) then None else Some ((e :: sign) ++ ds, r')
      else Some ([], l)
  | [] => Some ([], [])
  end.

Definition number (l : bytes) : option (Json * bytes) :=
  let '(neg, l1) :=
    match l with b :: r => if Byte.eqb b x2d then (true, r) else (false, l) | [] => (false, []) end in
  '(int, l2) ← number_int l1;
  '(frac, l3) ← number_frac l2;
  '(exp, l4) ← number_exp l3;
  let sign := if (neg : bool) then [x2d] else [] in
  Some (if decide (frac ++ exp = [])
        then JNum (if neg then - digits_value int else digits_value int)%Z
        else JFloat (of_bytes (sign ++ int ++ frac ++ exp)), l4).

Definition literal (word : string) (j : Json) (l : bytes) : option (Json * bytes) :=
  if prefixb (to_bytes word) l then Some (j, drop (length (to_bytes word)) l) else None.

(** ** Values

    [fuel] bounds the calls and [depth] the nesting still allowed. *)
Fixpoint parse_value (fuel depth : nat) (l : bytes) {struct fuel} : option (Json * bytes) :=
  match fuel with
  | O => None
  | S f =>
      match skip_ws l with
      | [] => None
      | b :: r =>
          if Byte.eqb b x22 then '(s, r') ← unquote (length r) r; Some (JStr (of_bytes s), r')
          else if Byte.eqb b x7b then
            match depth, skip_ws r with
            | S d, c :: r' =>
                if Byte.eqb c x7d then Some (JObj [], r')
                else '(fs, r'') ← parse_fields f d r; Some (JObj fs, r'')
            | _, _ => None
            end
          else if Byte.eqb b x5b then
            match depth, skip_ws r with
            | S d, c :: r' =>
                if Byte.eqb c x5d then Some (JArr [], r')
                else '(js, r'') ← parse_elems f d r; Some (JArr js, r'')
            | _, _ => None
            end
          else if Byte.eqb b x74 then literal "true" (JBool true) (b :: r)
          else if Byte.eqb b x66 then literal "false" (JBool false) (b :: r)
          else if Byte.eqb b x6e then literal "null" JNull (b :: r)
          else number (b :: r)
      end
  end
with parse_elems (fuel depth : nat) (l : bytes) {struct fuel} : option (list Json * bytes) :=
  match fuel with
  | O => None
  | S f =>
      '(j, r) ← parse_value f depth l;
      match skip_ws r with
      | c :: r' =>
          if Byte.eqb c x2c then '(js, r'') ← parse_elems f depth r'; Some (j :: js, r'')
          else if Byte.eqb c x5d then Some ([j], r')
          else None
      | [] => None
      end
  end
with parse_fields (fuel depth : nat) (l : bytes) {struct fuel}
    : option (list (string * Json) * bytes) :=
  match fuel with
  | O => None
  | S f =>
      match skip_ws l with
      | b :: r =>
          if Byte.eqb b x22 then
            '(k, r1) ← unquote (length r) r;
            match skip_ws r1 with
            | c :: r2 =>
                if Byte.eqb c x3a then
                  '(j, r3) ← parse_value f depth r2;
                  match skip_ws r3 with
                  | e :: r4 =>
                      if Byte.eqb e x2c then
                        '(fs, r5) ← parse_fields f depth r4; Some ((of_bytes k, j) :: fs, r5)
                      else if Byte.eqb e x7d then Some ([(of_bytes k, j)], r4)
                      else None
                  | [] => None
                  end
                else None
            | [] => None
            end
          else None
      | [] => None
      end
  end.

(** [maxNestingDepth] of the package. *)
Definition max_depth : nat := N.to_nat 10000.

Definition parse (l : bytes) : option (Json * bytes) :=
  parse_value (2 * length l + 2) max_depth l.

(** [json.NewDecoder(r).Decode]: the first value of the stream. *)
Definition Decode (l : bytes) : option Json := '(j, _) ← parse l; Some j.

(** [json.Unmarshal]: the only value of the input. *)
Definition Unmarshal (l : bytes) : option Json :=
  '(j, r) ← parse l; if decide (skip_ws r = []) then Some j else None.

Example parse_examples :
  let s := of_bytes (to_bytes "[1, -20 ,{" ++ [x22] ++ to_bytes "k" ++ [x22]
                     ++ to_bytes ":true},1.5e3,[]] x") in
  (Decode (to_bytes s), Unmarshal (to_bytes s), Unmarshal (to_bytes "01"))
  = (Some (JArr [JNum 1; JNum (-20); JObj [("k", JBool true)]; JFloat "1.5e3"; JArr []]),
     None, None).
Proof. by vm_compute. Qed.

(** ** Round trip: strings *)

(** Well-formed UTF-8; [skip] counts the bytes of a rune already checked. *)
Fixpoint valid_go (skip : nat) (l : bytes) : bool :=
  match l with
  | [] => true
  | b :: l' =>
      match skip with
      | S k => valid_go k l'
      | O =>
          if ascii_byte b then valid_go 0 l'
          else match decode_rune l with
               | Some (_, n) => valid_go (n - 1) l'
               | None => false
               end
      end
  end.

Definition valid_utf8 (s : string) : bool := valid_go 0 (to_bytes s).

Lemma escape_go_skip k l : escape_go k l = escape_go 0 (drop k l).
Proof. revert k. induction l as [|b l IH]; intros [|k]; [done..|]. cbn. apply IH. Qed.

Lemma valid_go_skip k l : valid_go k l = valid_go 0 (drop k l).
Proof. revert k. induction l as [|b l IH]; intros [|k]; [done..|]. cbn. apply IH. Qed.

(** What a successful [decode_rune] has read. *)
Lemma decode_rune_inv l v n :
  decode_rune l = Some (v, n) →
  1 ≤ n ≤ length l ∧ ∀ X, decode_rune (take n l ++ X) = Some (v, n).
Proof.
  destruct l as [|a l]; [done|]. unfold decode_rune.
  destruct (b2z a <? 128)%Z eqn:E1.
  { intros [= <- <-]. cbn [length take app]. rewrite E1. split; [lia|done]. }
  destruct (_ && _) eqn:E2.
  { destruct l as [|b l]; [done|]. destruct (cont b) eqn:Eb; [|done].
    intros [= <- <-]. cbn [length take app]. rewrite E1, E2, Eb. split; [lia|done]. }
  destruct ((224 <=? b2z a) && _)%Z eqn:E3.
  { destruct l as [|b [|c l]]; [done..|]. cbv zeta. case_match eqn:Eb; [|done].
    intros [= <- <-]. cbn [length take app]. rewrite E1, E2, E3, Eb. split; [lia|done]. }
  destruct ((240 <=? b2z a) && _)%Z eqn:E4; [|done].
  destruct l as [|b [|c [|d l]]]; [done..|]. cbv zeta. case_match eqn:Eb; [|done].
  intros [= <- <-]. cbn [length take app]. rewrite E1, E2, E3, E4, Eb. split; [lia|done].
Qed.

Lemma unquote_ascii b f X :
  ascii_byte b = true →
  unquote (S f) (escape_ascii b ++ X) = '(s, rest) ← unquote f X; Some (b :: s, rest).
Proof. destruct b; intros H; try discriminate H; reflexivity. Qed.

Lemma escape_ascii_length b : 1 ≤ length (escape_ascii b).
Proof. apply Nat.leb_le. by destruct b. Qed.

Lemma ascii_not_special b :
  ascii_byte b = false →
  Byte.eqb b x22 = false ∧ Byte.eqb b x5c = false ∧ (b2z b <? 32)%Z = false.
Proof. by destruct b. Qed.

Lemma low6_range b : cont b = true → (0 ≤ low6 b < 64)%Z ∧ b2z b = (128 + low6 b)%Z.
Proof.
  unfold cont, low6. intros H. rewrite (Z.land_ones _ 6) by lia.
  Z.to_euclidean_division_equations; lia.
Qed.

(** U+2028 and U+2029 have one spelling. *)
Lemma decode_rune_separator l v n :
  decode_rune l = Some (v, n) → ((v =? 8232) || (v =? 8233))%Z = true →
  encode_rune v = take n l ∧ n = 3.
Proof.
  intros H Hv. destruct l as [|a l]; [done|]. unfold decode_rune in H.
  pose proof (b2z_range a) as Ha.
  destruct (b2z a <? 128)%Z eqn:E1; [injection H as <- <-; lia|].
  destruct (_ && _) eqn:E2.
  { destruct l as [|b l]; [done|]. destruct (cont b) eqn:Eb; [|done]. injection H as <- <-.
    apply low6_range in Eb as [? _]. rewrite (Z.land_ones _ 5), (lor_shiftl _ 6) in Hv by lia.
    exfalso. revert Hv. Z.to_euclidean_division_equations; lia. }
  destruct ((224 <=? b2z a) && _)%Z eqn:E3.
  { destruct l as [|b [|c l]]; [done..|]. cbv zeta in H. case_match eqn:Eb; [|done].
    injection H as <- <-. rewrite !andb_true_iff in Eb. destruct Eb as [[[Eb Ec] _] _].
    apply low6_range in Eb as [? Eb], Ec as [? Ec].
    assert (Z.lor (Z.shiftl (Z.land (b2z a) 15) 12) (Z.lor (Z.shiftl (low6 b) 6) (low6 c))
            = (b2z a - 224) * 4096 + (low6 b * 64 + low6 c))%Z as Hval.
    { rewrite (Z.land_ones _ 4), (lor_shiftl (low6 b) 6), (lor_shiftl _ 12) by lia.
      Z.to_euclidean_division_equations; lia. }
    rewrite Hval in *. clear E1 E2 Hval.
    assert (b2z a = 226)%Z as Ea by lia. rewrite Ea in *.
    assert (low6 b = 0)%Z as El by lia. rewrite El in *.
    assert (low6 c = 40 ∨ low6 c = 41)%Z as Hc by lia.
    split; [|done]. cbn [take].
    rewrite <- (z2b_b2z a), <- (z2b_b2z b), <- (z2b_b2z c), Ea, Eb, Ec.
    destruct Hc as [-> | ->]; reflexivity. }
  destruct ((240 <=? b2z a) && _)%Z eqn:E4; [|done].
  destruct l as [|b [|c [|d l]]]; [done..|]. cbv zeta in H.
  case_match eqn:Eb; [|done]. injection H as <- <-. lia.
Qed.

Lemma unquote_separator v f X :
  ((v =? 8232) || (v =? 8233))%Z = true →
  unquote (S f) (u_escape v ++ X) = '(s, rest) ← unquote f X; Some (encode_rune v ++ s, rest).
Proof. intros [?%Z.eqb_eq|?%Z.eqb_eq]%orb_true_iff; subst v; reflexivity. Qed.

Lemma decode_rune_width l v n b :
  decode_rune (b :: l) = Some (v, n) → ascii_byte b = false → 2 ≤ n.
Proof.
  unfold decode_rune, ascii_byte. intros H E. rewrite E in H.
  destruct (_ && _); [destruct l as [|? ?]; [done|]; case_match; [|done];
    injection H as <- <-; lia|].
  destruct (_ && _); [destruct l as [|? [|? ?]]; [done..|]; cbv zeta in H;
    case_match; [|done]; injection H as <- <-; lia|].
  destruct (_ && _); [|done]. destruct l as [|? [|? [|? ?]]]; [done..|]; cbv zeta in H.
  case_match; [|done]; injection H as <- <-; lia.
Qed.

Lemma unquote_rune l v n b f X :
  decode_rune (b :: l) = Some (v, n) → ascii_byte b = false →
  unquote (S f) (take n (b :: l) ++ X)
  = '(s, rest) ← unquote f X; Some (take n (b :: l) ++ s, rest).
Proof.
  intros Hd Hb. pose proof (decode_rune_inv _ _ _ Hd) as [Hn Hloc].
  pose proof (ascii_not_special b Hb) as (H1 & H2 & H3).
  specialize (Hloc X). destruct n as [|n]; [lia|]. cbn [take app] in *. cbn [unquote].
  rewrite H1, H2, H3, Hb, Hloc. cbn [drop take]. cbn [length] in Hn.
  rewrite drop_app_le, take_app_le by (rewrite length_take; lia).
  rewrite drop_ge, take_ge by (rewrite length_take; lia). done.
Qed.

(** A valid string is read back from its literal. *)
Lemma unquote_escape l r f :
  valid_go 0 l = true → length (escape_go 0 l ++ x22 :: r) ≤ f →
  unquote f (escape_go 0 l ++ x22 :: r) = Some (l, r).
Proof.
  revert f. remember (length l) as n eqn:En. revert l En.
  induction (lt_wf n) as [n _ IH]. intros l -> f Hv Hf.
  destruct l as [|b l]; [by destruct f; [cbn in Hf; lia|]|].
  cbn [valid_go escape_go] in *. destruct f as [|f]; [rewrite length_app in Hf; cbn in Hf; lia|].
  destruct (ascii_byte b) eqn:Eb.
  - rewrite <- (assoc_L (++)) in *. rewrite unquote_ascii by done.
    pose proof (escape_ascii_length b). rewrite length_app in Hf.
    rewrite (IH (length l)); [done|cbn; lia|done|done|lia].
  - destruct (decode_rune (b :: l)) as [[v n]|] eqn:Ed; [|done].
    pose proof (decode_rune_inv _ _ _ Ed) as [Hn _]. cbn [length] in Hn.
    pose proof (decode_rune_width _ _ _ _ Ed Eb) as Hn2.
    rewrite valid_go_skip in Hv. rewrite escape_go_skip in *.
    rewrite <- (assoc_L (++)) in *.
    assert (take n (b :: l) ++ drop (n - 1) l = b :: l) as Hsplit.
    { destruct n as [|n]; [lia|]. cbn [take app]. rewrite Nat.sub_succ, Nat.sub_0_r.
      by rewrite take_drop. }
    assert (∀ g, length (escape_go 0 (drop (n - 1) l) ++ x22 :: r) ≤ g →
              unquote g (escape_go 0 (drop (n - 1) l) ++ x22 :: r)
              = Some (drop (n - 1) l, r)) as IHl.
    { intros g Hg. eapply IH; [|reflexivity|done|done]. rewrite length_drop. cbn [length]. lia. }
    destruct (_ || _) eqn:Es.
    + pose proof (decode_rune_separator _ _ _ Ed Es) as [He Hn3].
      rewrite unquote_separator by done. rewrite length_app in Hf.
      assert (length (u_escape v) = 6) as Hu by done.
      rewrite IHl by lia. cbn [mbind option_bind].
      by rewrite He, Hsplit.
    + rewrite (unquote_rune _ _ _ _ _ _ Ed Eb). rewrite length_app, length_take in Hf.
      cbn [length] in Hf. rewrite IHl by lia. cbn [mbind option_bind]. by rewrite Hsplit.
Qed.

Lemma unquote_quote s r :
  valid_utf8 s = true →
  ∃ q, quote s ++ r = x22 :: q ∧ unquote (length q) q = Some (to_bytes s, r).
Proof.
  intros Hs. eexists. split.
  - unfold quote. rewrite <- !(assoc_L (++)). reflexivity.
  - by apply unquote_escape.
Qed.

(** ** Round trip: numbers *)

Definition num_stop (r : bytes) : bool :=
  match r with
  | b :: _ => negb (is_digit b || Byte.eqb b x2e || Byte.eqb b x65 || Byte.eqb b x45)
  | [] => true
  end.

Lemma pretty_N_go_head n s :
  n ≠ 0%N →
  ∃ d ds, to_bytes (pretty_N_go n s) = (d :: ds) ++ to_bytes s ∧ Byte.eqb d x30 = false.
Proof.
  revert s. induction (N.lt_wf_0 n) as [n _ IH]; intros s Hn.
  rewrite pretty_N_go_step by lia. destruct (decide (n `div` 10 = 0)%N) as [E|E].
  - rewrite E. exists (Ascii.byte_of_ascii (pretty_N_char (n `mod` 10))), []. split; [done|].
    pose proof (N.div_mod n 10 ltac:(lia)). pose proof (N.mod_lt n 10 ltac:(lia)).
    assert (n `mod` 10 = 1 ∨ n `mod` 10 = 2 ∨ n `mod` 10 = 3 ∨ n `mod` 10 = 4 ∨ n `mod` 10 = 5 ∨
            n `mod` 10 = 6 ∨ n `mod` 10 = 7 ∨ n `mod` 10 = 8 ∨ n `mod` 10 = 9)%N as Hm by lia.
    by destruct_or! Hm; rewrite Hm.
  - destruct (IH (n `div` 10)%N ltac:(apply N.div_lt; lia)
      (String (pretty_N_char (n `mod` 10)) s) E) as (d & ds & -> & Hd).
    exists d, (ds ++ [Ascii.byte_of_ascii (pretty_N_char (n `mod` 10))]).
    rewrite to_bytes_String. cbn [app]. by rewrite <- (assoc_L (++)).
Qed.

Lemma pretty_N_head (n : N) :
  to_bytes (pretty n) = [x30] ∨ ∃ d ds, to_bytes (pretty n) = d :: ds ∧ Byte.eqb d x30 = false.
Proof.
  unfold pretty, pretty_N. case_decide as Hn; [by left|]. right.
  destruct (pretty_N_go_head n "" Hn) as (d & ds & -> & Hd).
  exists d, ds. split; [|done]. change (to_bytes "") with (@nil byte). apply app_nil_r.
Qed.

Lemma num_stop_digit r : num_stop r = true → ∀ b, head r = Some b → is_digit b = false.
Proof. destruct r as [|c r]; [done|]. cbn. intros H b [= <-]. by destruct (is_digit c). Qed.

Lemma number_int_pretty (n : N) r :
  num_stop r = true → number_int (to_bytes (pretty n) ++ r) = Some (to_bytes (pretty n), r).
Proof.
  intros Hr. destruct (pretty_N_digits n) as (ds & Hds & Hdig & _ & _).
  destruct (pretty_N_head n) as [E|(d & ds' & E & Hd)]; [by rewrite E|].
  rewrite E in *. subst ds. cbn [number_int app]. rewrite Hd.
  pose proof Hdig as Hdig'. cbn in Hdig'. apply andb_true_iff in Hdig' as [-> _].
  rewrite (app_comm_cons ds' r d), span_digits_app; [done..|]. by apply num_stop_digit.
Qed.

Lemma number_tail r :
  num_stop r = true → number_frac r = Some ([], r) ∧ number_exp r = Some ([], r).
Proof.
  destruct r as [|b r]; [done|]. cbn. intros H.
  destruct (is_digit b), (Byte.eqb b x2e), (Byte.eqb b x65), (Byte.eqb b x45); done.
Qed.

Lemma number_Sprintf_d n r :
  num_stop r = true → number (to_bytes (Sprintf_d n) ++ r) = Some (JNum n, r).
Proof.
  intros Hr. destruct (number_tail r Hr) as [Hf He]. unfold number.
  destruct (decide (0 ≤ n)%Z) as [Hn|Hn].
  - rewrite Sprintf_d_nonneg by done.
    destruct (pretty_N_digits (Z.to_N n)) as (ds & Hds & Hdig & Hv & Hne).
    assert (∃ d ds', to_bytes (pretty (Z.to_N n)) ++ r = d :: ds' ∧ Byte.eqb d x2d = false)
      as (d & ds' & E & Hd).
    { rewrite Hds. destruct ds as [|d ds]; [done|]. eexists d, _. split; [done|].
      cbn in Hdig. apply andb_true_iff in Hdig as [Hd _]. by destruct d. }
    rewrite E, Hd, <- E, number_int_pretty by done. cbn [mbind option_bind].
    rewrite Hf. cbn [mbind option_bind]. rewrite He. cbn [mbind option_bind app].
    rewrite decide_True by done. by rewrite Hds, Hv, Z2N.id.
  - rewrite Sprintf_d_neg, to_bytes_app by lia. change (to_bytes "-") with [x2d]. cbn [app].
    change (Byte.eqb x2d x2d) with true. cbv iota. rewrite number_int_pretty by done.
    cbn [mbind option_bind]. rewrite Hf. cbn [mbind option_bind]. rewrite He.
    cbn [mbind option_bind app]. rewrite decide_True by done.
    destruct (pretty_N_digits (Z.to_N (- n))) as (ds & -> & _ & Hv & _).
    rewrite Hv, Z2N.id by lia. by rewrite Z.opp_involutive.
Qed.

(** ** Round trip: values *)

Section JsonInd.
Context (P : Json → Prop).
Context (Hnull : P JNull) (Hbool : ∀ b, P (JBool b)) (Hnum : ∀ n, P (JNum n))
  (Hfloat : ∀ s, P (JFloat s)) (Hstr : ∀ s, P (JStr s))
  (Harr : ∀ l, Forall P l → P (JArr l))
  (Hobj : ∀ fs, Forall (λ kv, P kv.2) fs → P (JObj fs)).

Fixpoint Json_nested_ind (j : Json) : P j :=
  match j with
  | JNull => Hnull
  | JBool b => Hbool b
  | JNum n => Hnum n
  | JFloat s => Hfloat s
  | JStr s => Hstr s
  | JArr l =>
      Harr l ((fix go l := match l return Forall P l with
                           | [] => Forall_nil_2 _
                           | x :: l' => Forall_cons_2 _ _ _ (Json_nested_ind x) (go l')
                           end) l)
  | JObj fs =>
      Hobj fs ((fix go fs := match fs return Forall (λ kv, P kv.2) fs with
                             | [] => Forall_nil_2 _
                             | kv :: fs' => Forall_cons_2 _ _ _ (Json_nested_ind kv.2) (go fs')
                             end) fs)
  end.
End JsonInd.

(** Trees whose text determines them: valid strings, integers, nesting at most
    [d]. *)
Fixpoint json_ok (d : nat) (j : Json) {struct j} : bool :=
  match j with
  | JFloat _ => false
  | JStr s => valid_utf8 s
  | JArr l => match d with O => false | S d' => forallb (json_ok d') l end
  | JObj fs =>
      match d with
      | O => false
      | S d' => forallb (λ kv, valid_utf8 kv.1 && json_ok d' kv.2) fs
      end
  | _ => true
  end.

Fixpoint need (j : Json) : nat :=
  match j with
  | JArr l => S (sum_list ((λ x, S (need x)) <$> l))
  | JObj fs => S (sum_list ((λ kv, S (need kv.2)) <$> fs))
  | _ => 1
  end.

Definition blank (w : bytes) : Prop := forallb is_ws w = true.

Lemma skip_ws_blank w l : blank w → skip_ws (w ++ l) = skip_ws l.
Proof.
  unfold blank. induction w as [|b w IH]; [done|]. cbn. intros [-> Hw]%andb_true_iff. auto.
Qed.

Lemma num_stop_blank w r : blank w → num_stop r = true → num_stop (w ++ r) = true.
Proof.
  unfold blank. destruct w as [|b w]; [done|]. cbn. intros [Hb _]%andb_true_iff _.
  by destruct b.
Qed.

Lemma parse_value_blank f d w l : blank w → parse_value f d (w ++ l) = parse_value f d l.
Proof. intros Hw. destruct f; [done|]. cbn [parse_value]. by rewrite skip_ws_blank. Qed.

Lemma parse_fields_blank f d w l : blank w → parse_fields f d (w ++ l) = parse_fields f d l.
Proof. intros Hw. destruct f; [done|]. cbn [parse_fields]. by rewrite skip_ws_blank. Qed.

Lemma parse_elems_blank f d w l : blank w → parse_elems f d (w ++ l) = parse_elems f d l.
Proof. intros Hw. destruct f; [done|]. cbn [parse_elems]. by rewrite parse_value_blank. Qed.

Lemma parse_value_number f d b r :
  num_start b = true → parse_value (S f) d (b :: r) = number (b :: r).
Proof. destruct b; intros H; try discriminate H; reflexivity. Qed.

Lemma parse_value_string f d r :
  parse_value (S f) d (x22 :: r) = '(s, r') ← unquote (length r) r; Some (JStr (of_bytes s), r').
Proof. done. Qed.

Lemma parse_value_array f d r c r' :
  skip_ws r = c :: r' → Byte.eqb c x5d = false →
  parse_value (S f) (S d) (x5b :: r) = '(js, r'') ← parse_elems f d r; Some (JArr js, r'').
Proof. intros H Hc. cbn [parse_value skip_ws]. cbn -[parse_elems]. by rewrite H, Hc. Qed.

Lemma parse_value_object f d r c r' :
  skip_ws r = c :: r' → Byte.eqb c x7d = false →
  parse_value (S f) (S d) (x7b :: r) = '(fs, r'') ← parse_fields f d r; Some (JObj fs, r'').
Proof. intros H Hc. cbn [parse_value skip_ws]. cbn -[parse_fields]. by rewrite H, Hc. Qed.

Lemma Sprintf_d_head n : ∃ b ds, to_bytes (Sprintf_d n) = b :: ds ∧ num_start b = true.
Proof.
  destruct (decide (0 ≤ n)%Z) as [Hn|Hn].
  - rewrite Sprintf_d_nonneg by done.
    destruct (pretty_N_digits (Z.to_N n)) as ([|d ds] & -> & Hdig & _ & Hne); [done|].
    exists d, ds. split; [done|]. cbn in Hdig. apply andb_true_iff in Hdig as [Hd _].
    unfold num_start. by rewrite Hd.
  - rewrite Sprintf_d_neg, to_bytes_app by lia. by eexists _, _.
Qed.

Section RoundTrip.
Context (nl : nat → bytes) (sp : bytes).
Context (Hnl : ∀ k, blank (nl k)) (Hsp : blank sp).

Lemma print_head d k j :
  json_ok d j = true →
  ∃ b p, print nl sp k j = b :: p ∧ is_ws b = false ∧ Byte.eqb b x5d = false.
Proof.
  destruct j as [|[]|n|s|s|[|]|[|]]; intros Hok; [..|done| | | | |];
    try (eexists _, _; split; [reflexivity|done]).
  cbn [print]. destruct (Sprintf_d_head n) as (b & ds & -> & Hb). exists b, ds.
  split; [done|]. by destruct b.
Qed.

Lemma skip_ws_print d k j r :
  json_ok d j = true →
  ∃ b p, skip_ws (print nl sp k j ++ r) = b :: p ∧ Byte.eqb b x5d = false.
Proof.
  intros Hok. destruct (print_head d k j Hok) as (b & p & -> & Hws & Hb).
  exists b, (p ++ r). cbn. by rewrite Hws.
Qed.

(** What the induction gives for a part of a value. *)
Definition reads (j : Json) : Prop := ∀ k d f r,
  json_ok d j = true → need j ≤ f → num_stop r = true →
  parse_value f d (print nl sp k j ++ r) = Some (j, r).

Lemma parse_elems_print k d l w r f :
  Forall reads l → forallb (json_ok d) l = true → l ≠ [] → blank w →
  sum_list ((λ x, S (need x)) <$> l) ≤ f →
  parse_elems f d (join_with ([x2c] ++ nl k) (print nl sp k <$> l) ++ w ++ x5d :: r)
  = Some (l, r).
Proof.
  intros Hl. revert f. induction Hl as [|j l Hj Hl IH]; intros f Hok Hne Hw Hf; [done|].
  cbn in Hok, Hf. apply andb_true_iff in Hok as [Hokj Hokl].
  destruct f as [|f]; [lia|]. destruct l as [|j2 l].
  - cbn [fmap list_fmap join_with parse_elems].
    rewrite (Hj k d f) by (done || lia || by apply num_stop_blank). cbn [mbind option_bind].
    by rewrite skip_ws_blank.
  - set (l' := j2 :: l) in *. change (print nl sp k <$> j :: l')
      with (print nl sp k j :: (print nl sp k <$> l')).
    replace (join_with ([x2c] ++ nl k) (print nl sp k j :: (print nl sp k <$> l')))
      with (print nl sp k j ++ ([x2c] ++ nl k) ++ join_with ([x2c] ++ nl k) (print nl sp k <$> l'))
      by done.
    rewrite <- !(assoc_L (++)). cbn [app parse_elems].
    rewrite (Hj k d f) by (done || lia). cbn [mbind option_bind skip_ws].
    change (is_ws x2c) with false. change (Byte.eqb x2c x2c) with true. cbv iota.
    rewrite parse_elems_blank by done. rewrite IH by (done || lia). done.
Qed.

Definition print_field (k : nat) (kv : string * Json) : bytes :=
  let '(key, v) := kv in quote key ++ [x3a] ++ sp ++ print nl sp k v.

Lemma parse_fields_step k d f key j l r :
  valid_utf8 key = true → json_ok d j = true → reads j → S (need j) ≤ f →
  num_stop (l ++ r) = true →
  parse_fields f d (print_field k (key, j) ++ l ++ r)
  = match skip_ws (l ++ r) with
    | e :: r4 =>
        if Byte.eqb e x2c then
          '(fs, r5) ← parse_fields (f - 1) d r4; Some ((key, j) :: fs, r5)
        else if Byte.eqb e x7d then Some ([(key, j)], r4)
        else None
    | [] => None
    end.
Proof.
  intros Hkey Hj Hr Hf Hstop. destruct f as [|f]; [lia|]. cbn [print_field].
  destruct (unquote_quote key (([x3a] ++ sp ++ print nl sp k j) ++ l ++ r) Hkey) as (q & Hq & Hu).
  rewrite <- (assoc_L (++)), Hq. cbn [parse_fields skip_ws].
  change (is_ws x22) with false. change (Byte.eqb x22 x22) with true. cbv iota.
  rewrite Hu. cbn [mbind option_bind]. rewrite <- !(assoc_L (++)). cbn [app skip_ws].
  change (is_ws x3a) with false. change (Byte.eqb x3a x3a) with true. cbv iota.
  rewrite parse_value_blank by done. rewrite (Hr k d f) by (done || lia).
  cbn [mbind option_bind]. by rewrite Nat.sub_succ, Nat.sub_0_r, of_to_bytes.
Qed.

Lemma parse_fields_print k d fs w r f :
  Forall (λ kv, reads kv.2) fs →
  forallb (λ kv, valid_utf8 kv.1 && json_ok d kv.2) fs = true → fs ≠ [] → blank w →
  sum_list ((λ kv, S (need kv.2)) <$> fs) ≤ f →
  parse_fields f d (join_with ([x2c] ++ nl k) (print_field k <$> fs) ++ w ++ x7d :: r)
  = Some (fs, r).
Proof.
  intros Hl. revert f.
  induction Hl as [|[key j] fs Hj Hl IH]; intros f Hok Hne Hw Hf; [done|].
  cbn in Hok, Hf. apply andb_true_iff in Hok as [[Hkey Hokj]%andb_true_iff Hokl].
  destruct fs as [|kv2 fs].
  - cbn [fmap list_fmap join_with].
    rewrite parse_fields_step by (done || lia || by apply num_stop_blank).
    by rewrite skip_ws_blank.
  - set (fs' := kv2 :: fs) in *.
    replace (join_with ([x2c] ++ nl k) (print_field k <$> (key, j) :: fs'))
      with (print_field k (key, j) ++ ([x2c] ++ nl k)
            ++ join_with ([x2c] ++ nl k) (print_field k <$> fs')) by done.
    rewrite <- !(assoc_L (++)).
    change ([x2c] ++ nl k ++ ?X) with ([x2c] ++ (nl k ++ X)).
    rewrite parse_fields_step by (done || lia). cbn [app skip_ws].
    change (is_ws x2c) with false. change (Byte.eqb x2c x2c) with true. cbv iota.
    rewrite parse_fields_blank by done. rewrite IH by (done || lia). done.
Qed.

Lemma print_array k j l :
  print nl sp k (JArr (j :: l)) =
  x5b :: nl (S k) ++ join_with ([x2c] ++ nl (S k)) (print nl sp (S k) <$> j :: l)
         ++ nl k ++ [x5d].
Proof. done. Qed.

Lemma print_object k kv fs :
  print nl sp k (JObj (kv :: fs)) =
  x7b :: nl (S k) ++ join_with ([x2c] ++ nl (S k)) (print_field (S k) <$> kv :: fs)
         ++ nl k ++ [x7d].
Proof. done. Qed.

Lemma join_with_head sep x l r : ∃ t, join_with sep (x :: l) ++ r = x ++ t.
Proof. destruct l; cbn; [by eexists|]. rewrite <- !(assoc_L (++)). by eexists. Qed.

Lemma reads_all j : reads j.
Proof.
  induction j as [|b|n|s|s|l IH|fs IH] using Json_nested_ind; intros k d f r Hok Hf Hr;
    (destruct f as [|f]; [cbn in Hf; lia|]).
  - done.
  - by destruct b.
  - cbn [print]. pose proof (number_Sprintf_d n r Hr) as H.
    destruct (Sprintf_d_head n) as (b & ds & E & Hb). rewrite E in *. cbn [app] in *.
    by rewrite parse_value_number.
  - done.
  - cbn [print]. destruct (unquote_quote s r Hok) as (q & -> & Hq).
    rewrite parse_value_string, Hq. cbn. by rewrite of_to_bytes.
  - cbn [json_ok need] in Hok, Hf. destruct d as [|d]; [done|]. destruct l as [|j l]; [done|].
    rewrite print_array.
    change ((x5b :: ?X) ++ r) with (x5b :: (X ++ r)). rewrite <- !(assoc_L (++)).
    pose proof Hok as Hok'. cbn [forallb] in Hok'. apply andb_true_iff in Hok' as [Hj _].
    destruct (join_with_head ([x2c] ++ nl (S k)) (print nl sp (S k) j)
                (print nl sp (S k) <$> l) (nl k ++ x5d :: r)) as (t & Ht).
    destruct (skip_ws_print d (S k) j t Hj) as (b & p & Hb & Hb').
    erewrite parse_value_array; [|rewrite skip_ws_blank by done; rewrite <- Hb, <- Ht; reflexivity|done].
    rewrite parse_elems_blank by done. cbn [app].
    rewrite (parse_elems_print (S k) d) by (done || lia). done.
  - cbn [json_ok need] in Hok, Hf. destruct d as [|d]; [done|]. destruct fs as [|[key j] fs]; [done|].
    rewrite print_object.
    change ((x7b :: ?X) ++ r) with (x7b :: (X ++ r)). rewrite <- !(assoc_L (++)).
    destruct (join_with_head ([x2c] ++ nl (S k)) (print_field (S k) (key, j))
                (print_field (S k) <$> fs) (nl k ++ x7d :: r)) as (t & Ht).
    erewrite (parse_value_object _ _ _ x22);
      [|rewrite skip_ws_blank by done;
        trans (skip_ws (print_field (S k) (key, j) ++ t)); [rewrite <- Ht; reflexivity|reflexivity]
       |done].
    rewrite parse_fields_blank by done. cbn [app].
    rewrite (parse_fields_print (S k) d) by (done || lia). done.
Qed.

Lemma join_with_length sep l :
  1 ≤ length sep → sum_list ((λ x, S (length x)) <$> l) ≤ S (length (join_with sep l)).
Proof.
  intros Hsep. induction l as [|x [|y l] IH]; [cbn; lia..|].
  change (join_with sep (x :: y :: l)) with (x ++ sep ++ join_with sep (y :: l)).
  cbn -[join_with Nat.mul] in *. rewrite !length_app. lia.
Qed.

Lemma print_nonempty k j d : json_ok d j = true → 1 ≤ length (print nl sp k j).
Proof. intros Hok. destruct (print_head d k j Hok) as (b & p & -> & _). cbn. lia. Qed.

Lemma sum_need {A} (f g : A → nat) l :
  Forall (λ x, S (f x) ≤ 2 * S (g x)) l →
  sum_list ((λ x, S (f x)) <$> l) ≤ 2 * sum_list ((λ x, S (g x)) <$> l).
Proof. induction 1; cbn -[join_with Nat.mul] in *; lia. Qed.

Lemma need_bound j k d : json_ok d j = true → need j ≤ 2 * length (print nl sp k j).
Proof.
  revert k d. induction j as [|b|n|s|s|l IH|fs IH] using Json_nested_ind; intros k d Hok;
    try (pose proof (print_nonempty k _ _ Hok); cbn [need]; lia).
  - destruct d as [|d]; [done|]. destruct l as [|j l]; [by apply Nat.leb_le|]. rewrite print_array.
    cbn [length need]. rewrite !length_app.
    pose proof (join_with_length ([x2c] ++ nl (S k)) (print nl sp (S k) <$> j :: l) ltac:(cbn; lia)).
    pose proof (sum_need need (λ x, length (print nl sp (S k) x)) (j :: l)) as Hs.
    rewrite <- list_fmap_compose in *. unfold compose in *. cbn [length].
    assert (Forall (λ x, S (need x) ≤ 2 * S (length (print nl sp (S k) x))) (j :: l)) as HF.
    { cbn [json_ok] in Hok.
      rewrite Forall_forall in IH |- *. intros x Hx. specialize (IH x Hx (S k) d).
      assert (json_ok d x = true) as Hxok
        by (rewrite forallb_forall in Hok; apply Hok; by apply list_elem_of_In).
      specialize (IH Hxok). lia. }
    specialize (Hs HF). lia.
  - destruct d as [|d]; [done|]. destruct fs as [|kv fs]; [by apply Nat.leb_le|]. rewrite print_object.
    cbn [length need]. rewrite !length_app.
    pose proof (join_with_length ([x2c] ++ nl (S k)) (print_field (S k) <$> kv :: fs) ltac:(cbn; lia)).
    pose proof (sum_need (λ kv : string * Json, need kv.2) (λ x, length (print_field (S k) x)) (kv :: fs)) as Hs.
    rewrite <- list_fmap_compose in *. unfold compose in *. cbn [length].
    assert (Forall (λ x : string * Json, S (need x.2) ≤ 2 * S (length (print_field (S k) x))) (kv :: fs)) as HF.
    { rewrite Forall_forall in IH |- *. intros x Hx. specialize (IH x Hx (S k) d).
      cbn [json_ok] in Hok. rewrite forallb_forall in Hok.
      apply list_elem_of_In, Hok, andb_true_iff in Hx as [_ Hxok]. specialize (IH Hxok).
      destruct x as [key v]. cbn [print_field]. rewrite !length_app. cbn in IH |- *. lia. }
    specialize (Hs HF). lia.
Qed.

(** The whole text is read back, with the fuel that [parse] gives. *)
Lemma parse_print j r :
  json_ok max_depth j = true → num_stop r = true → parse (print nl sp 0 j ++ r) = Some (j, r).
Proof.
  intros Hok Hr. unfold parse. apply reads_all; [done| |done].
  pose proof (need_bound j 0 max_depth Hok). rewrite length_app. lia.
Qed.
End RoundTrip.

Lemma blank_newline k : blank (newline k).
Proof.
  unfold blank, newline. cbn. induction k as [|k IH]; [done|]. cbn. exact IH.
Qed.

(** Reading what was written. *)
Lemma Unmarshal_marshal j : json_ok max_depth j = true → Unmarshal (marshal j) = Some j.
Proof.
  intros Hok. unfold Unmarshal, marshal. rewrite <- (app_nil_r (print _ _ _ j)).
  by rewrite (parse_print (λ _, []) [] (λ _, eq_refl) eq_refl).
Qed.

Lemma Unmarshal_marshal_indent j :
  json_ok max_depth j = true → Unmarshal (marshal_indent j) = Some j.
Proof.
  intros Hok. unfold Unmarshal, marshal_indent. rewrite <- (app_nil_r (print _ _ _ j)).
  by rewrite (parse_print newline [x20] blank_newline eq_refl).
Qed.

Lemma Decode_marshal j : json_ok max_depth j = true → Decode (marshal j) = Some j.
Proof.
  intros Hok. unfold Decode, marshal. rewrite <- (app_nil_r (print _ _ _ j)).
  by rewrite (parse_print (λ _, []) [] (λ _, eq_refl) eq_refl).
Qed.
