(* ===== verification/JsonFuel.v ===== *)
(** * The fuel of the JSON reader

    Reading consumes its input, so the fuel that [parse] gives is enough for
    every text, well formed or not: more fuel never changes the answer. *)
From S2P Require Export JsonParse.

(** ** What is left is shorter *)

Definition shorter {A} (strict : bool) (l : bytes) (o : option (A * bytes)) : Prop :=
  ∀ x r, o = Some (x, r) → length r + (if strict then 1 else 0) ≤ length l.

Lemma skip_ws_length l : length (skip_ws l) ≤ length l.
Proof. induction l as [|b l IH]; cbn; [done|]. destruct (is_ws b); cbn; lia. Qed.

Lemma span_digits_length l : length (span_digits l).2 ≤ length l.
Proof.
  induction l as [|b l IH]; cbn; [done|]. destruct (is_digit b); [|done].
  destruct (span_digits l) as [ds r]. cbn in *. lia.
Qed.

Lemma hex4_shorter l : shorter true l (hex4 l).
Proof.
  intros x r. destruct l as [|a [|b [|c [|d l]]]]; try done. cbn.
  destruct (hex_value a), (hex_value b), (hex_value c), (hex_value d); try done.
  intros [= _ <-]. lia.
Qed.

Lemma unescape_u_length u l : length (unescape_u u l).2 ≤ length l.
Proof.
  unfold unescape_u. destruct (high_surrogate u); [|done].
  destruct l as [|b [|c r]]; [done..|]. case_decide; [|done].
  destruct (hex4 r) as [[v r']|] eqn:E; [|done].
  apply hex4_shorter in E. destruct (low_surrogate v); cbn; lia.
Qed.

Lemma unescape_shorter l : shorter true l (unescape l).
Proof.
  intros x r. destruct l as [|c l]; [done|]. cbn. destruct (Byte.eqb c x75).
  - destruct (hex4 l) as [[u r']|] eqn:E; [|done]. cbn. intros [= E2].
    apply hex4_shorter in E. pose proof (unescape_u_length u r') as Hu. rewrite E2 in Hu.
    cbn in *. lia.
  - destruct (simple_escape c); [|done]. cbn. intros [= _ <-]. lia.
Qed.

Lemma unquote_shorter f l : shorter true l (unquote f l).
Proof.
  revert l. induction f as [|f IH]; intros [|b l] x r; try done. cbn [unquote].
  destruct (Byte.eqb b x22); [intros [= _ <-]; cbn; lia|].
  destruct (Byte.eqb b x5c).
  { destruct (unescape l) as [[out r']|] eqn:E; [|done]. apply unescape_shorter in E. cbn.
    destruct (unquote f r') as [[s rest]|] eqn:E2; [|done]. cbn. intros [= _ <-].
    apply IH in E2. lia. }
  destruct (b2z b <? 32)%Z; [done|].
  destruct (ascii_byte b).
  { destruct (unquote f l) as [[s rest]|] eqn:E2; [|done]. cbn. intros [= _ <-].
    apply IH in E2. lia. }
  destruct (decode_rune (b :: l)) as [[v n]|].
  - destruct (unquote f _) as [[s rest]|] eqn:E2; [|done]. cbn. intros [= _ <-].
    apply IH in E2. rewrite length_drop in E2. cbn in E2. lia.
  - destruct (unquote f l) as [[s rest]|] eqn:E2; [|done]. cbn. intros [= _ <-].
    apply IH in E2. lia.
Qed.

Lemma number_int_shorter l : shorter true l (number_int l).
Proof.
  intros x r. destruct l as [|d l]; [done|]. unfold number_int.
  destruct (Byte.eqb d x30); [intros [= _ <-]; cbn; lia|].
  destruct (is_digit d) eqn:E; [|done]. cbn. rewrite E.
  pose proof (span_digits_length l) as H. destruct (span_digits l) as [ds r']. cbn in H.
  intros [= _ <-]. lia.
Qed.

Lemma number_frac_shorter l : shorter false l (number_frac l).
Proof.
  intros x r. destruct l as [|d l]; [by intros [= _ <-]|]. cbn.
  destruct (Byte.eqb d x2e); [|intros [= _ <-]; cbn; lia].
  pose proof (span_digits_length l) as H. destruct (span_digits l) as [ds r']. cbn in H.
  case_decide; [done|]. intros [= _ <-]. lia.
Qed.

Lemma number_exp_shorter l : shorter false l (number_exp l).
Proof.
  intros x r. destruct l as [|e l]; [by intros [= _ <-]|]. cbn.
  destruct (_ || _); [|intros [= _ <-]; cbn; lia].
  set (sg := match l with [] => _ | _ => _ end).
  assert (length sg.2 ≤ length l) as Hs
    by (unfold sg; destruct l as [|s r1]; [done|]; destruct (_ || _); cbn; lia).
  destruct sg as [sign r1]. pose proof (span_digits_length r1) as H.
  destruct (span_digits r1) as [ds r']. cbn in H, Hs.
  case_decide; [done|]. intros [= _ <-]. lia.
Qed.

Lemma number_shorter l : shorter true l (number l).
Proof.
  intros x r. unfold number. set (ng := match l with [] => _ | _ => _ end).
  assert (length ng.2 ≤ length l) as Hn
    by (unfold ng; destruct l as [|b l1]; [done|]; destruct (Byte.eqb b x2d); cbn; lia).
  destruct ng as [neg l1]. cbn in Hn.
  destruct (number_int l1) as [[int l2]|] eqn:E1; [|done]. apply number_int_shorter in E1. cbn [mbind option_bind].
  destruct (number_frac l2) as [[frac l3]|] eqn:E2; [|done]. apply number_frac_shorter in E2. cbn [mbind option_bind].
  destruct (number_exp l3) as [[exp l4]|] eqn:E3; [|done]. apply number_exp_shorter in E3. cbn [mbind option_bind].
  intros [= _ <-]. lia.
Qed.

Lemma literal_shorter word j l : word ≠ "" → shorter true l (literal word j l).
Proof.
  intros Hw x r. unfold literal. destruct (prefixb _ l) eqn:E; [|done]. intros [= _ <-].
  apply prefixb_spec in E as [k ->]. rewrite drop_app_length, length_app.
  assert (to_bytes word ≠ []) as H by (intros H; apply Hw; by apply (inj to_bytes)).
  destruct (to_bytes word); [done|]. cbn. lia.
Qed.

Lemma skip_ws_cons l b r : skip_ws l = b :: r → length r < length l.
Proof. intros H. pose proof (skip_ws_length l) as Hl. rewrite H in Hl. cbn in Hl. lia. Qed.

(** Opens the next step of a reader, with what it says of lengths. *)
Ltac reader_step :=
  match goal with
  | |- (match skip_ws ?l with _ => _ end) = Some _ → _ =>
      let E := fresh "Hws" in destruct (skip_ws l) eqn:E; [done|apply skip_ws_cons in E]
  | |- mbind _ (unquote ?f ?l) = _ → _ =>
      let E := fresh "Hq" in
      destruct (unquote f l) as [[? ?]|] eqn:E;
        [apply unquote_shorter in E; cbn [mbind option_bind]|done]
  | IH : ∀ d l, shorter true l (?p d l) |- mbind _ (?p ?d ?l) = _ → _ =>
      let E := fresh "Hp" in
      destruct (p d l) as [[? ?]|] eqn:E; [apply IH in E; cbn [mbind option_bind]|done]
  | |- literal _ _ _ = _ → _ =>
      let E := fresh "Hl" in intros E; eapply literal_shorter in E; [cbn in *; lia|done]
  | |- number _ = _ → _ => intros E%number_shorter; cbn in *; lia
  | |- (if ?b then _ else _) = Some _ → _ => destruct b
  | |- None = Some _ → _ => done
  | |- Some _ = Some _ → _ => intros [= _ <-]; cbn in *; lia
  end.

Lemma parse_shorter f :
  (∀ d l, shorter true l (parse_value f d l)) ∧
  (∀ d l, shorter true l (parse_elems f d l)) ∧
  (∀ d l, shorter true l (parse_fields f d l)).
Proof.
  induction f as [|f (IHv & IHe & IHf)]; [done|]. split_and!; intros d l x r.
  - cbn [parse_value]. destruct d as [|d]; repeat reader_step.
  - cbn [parse_elems]. repeat reader_step.
  - cbn [parse_fields]. repeat reader_step.
Qed.

(** ** Enough fuel *)

Lemma unquote_fuel f g l : length l ≤ f → length l ≤ g → unquote f l = unquote g l.
Proof.
  revert g l. induction f as [|f IH]; intros [|g] [|b l] Hf Hg; cbn in Hf, Hg; try done; try lia.
  cbn [unquote]. destruct (Byte.eqb b x22); [done|]. destruct (Byte.eqb b x5c).
  { destruct (unescape l) as [[out r]|] eqn:E; [|done]. apply unescape_shorter in E. cbn.
    by rewrite (IH g) by lia. }
  destruct (b2z b <? 32)%Z; [done|]. destruct (ascii_byte b); [by rewrite (IH g) by lia|].
  destruct (decode_rune (b :: l)) as [[v n]|] eqn:E; [|by rewrite (IH g) by lia].
  apply decode_rune_inv in E as [Hn _].
  rewrite (IH g) by (rewrite length_drop; cbn; lia). done.
Qed.

Definition fuel_enough (n : nat) : Prop := ∀ l d f g,
  length l ≤ n →
  (2 * n + 2 ≤ f → 2 * n + 2 ≤ g → parse_value f d l = parse_value g d l) ∧
  (2 * n + 3 ≤ f → 2 * n + 3 ≤ g → parse_elems f d l = parse_elems g d l) ∧
  (2 * n + 3 ≤ f → 2 * n + 3 ≤ g → parse_fields f d l = parse_fields g d l).

Lemma parse_value_fuel n l d f g :
  (∀ m, m < n → fuel_enough m) → length l ≤ n → 2 * n + 2 ≤ f → 2 * n + 2 ≤ g →
  parse_value f d l = parse_value g d l.
Proof.
  intros IH Hl Hf Hg. destruct f as [|f], g as [|g]; [lia..|]. cbn [parse_value].
  destruct (skip_ws l) as [|b r] eqn:Hr; [done|]. apply skip_ws_cons in Hr.
  destruct d as [|d]; [done|].
  destruct (IH (length r) ltac:(lia) r d f g ltac:(done)) as (_ & He & Hfs).
  rewrite He, Hfs by lia. done.
Qed.

Lemma parse_fuel n : fuel_enough n.
Proof.
  induction n as [n IH] using lt_wf_ind. intros l d f g Hl. split_and!; intros Hf Hg.
  { by apply (parse_value_fuel n). }
  - destruct f as [|f], g as [|g]; [lia..|]. cbn [parse_elems].
    rewrite (parse_value_fuel n l d f g IH) by lia.
    destruct (parse_value g d l) as [[j r]|] eqn:E; [|done].
    apply parse_shorter in E. cbn [mbind option_bind].
    destruct (skip_ws r) as [|c r'] eqn:Hr; [done|]. apply skip_ws_cons in Hr.
    destruct (IH (length r') ltac:(lia) r' d f g ltac:(done)) as (_ & He & _). by rewrite He by lia.
  - destruct f as [|f], g as [|g]; [lia..|]. cbn [parse_fields].
    destruct (skip_ws l) as [|b r] eqn:Hb; [done|]. apply skip_ws_cons in Hb.
    destruct (Byte.eqb b x22); [|done].
    destruct (unquote (length r) r) as [[k r1]|] eqn:Hk; [|done]. apply unquote_shorter in Hk.
    cbn [mbind option_bind]. destruct (skip_ws r1) as [|c r2] eqn:Hc; [done|].
    apply skip_ws_cons in Hc. destruct (Byte.eqb c x3a); [|done].
    rewrite (parse_value_fuel n r2 d f g IH) by lia.
    destruct (parse_value g d r2) as [[j r3]|] eqn:E; [|done]. apply parse_shorter in E.
    cbn [mbind option_bind]. destruct (skip_ws r3) as [|e r4] eqn:He; [done|].
    apply skip_ws_cons in He.
    destruct (IH (length r4) ltac:(lia) r4 d f g ltac:(done)) as (_ & _ & Hfs). by rewrite Hfs by lia.
Qed.

(** [parse] is the reader with all the fuel it can use. *)
Theorem parse_any_fuel l f :
  2 * length l + 2 ≤ f → parse_value f max_depth l = parse l.
Proof.
  intros Hf. unfold parse. by apply (parse_fuel (length l) l max_depth).
Qed.
