(* ===== verification/World.v ===== *)
(** * The outside world, and the monad of code that talks to it

    dandbox reaches the operating system, the Docker engine and the network
    through calls whose answers it does not control.  [Ext] lists those calls;
    a world ([World]) answers each call from the list of all the calls made
    before it, so that quantifying over worlds covers every environment,
    stateful, failing or adversarial.  [M S A] is code over a state [S] that
    makes such calls: it returns a value, a state, and the calls made. *)
From S2P Require Export JsonParse.

(** A Go [error] is its message; [None] is [nil]. *)
Abbreviation error := (option string).

(** ** Messages that the proxy forwards *)

(** A Go [http.Header]; keys are in canonical form. *)
Abbreviation Header := (gmap string (list string)).

Record URL := mkURL {
  Scheme : string;
  UrlHost : string;
  Path : string;
  RawQuery : string;
}.

Record Request := mkRequest {
  Method : string;
  ReqURL : URL;
  ReqHost : string;
  RequestURI : string;
  ReqHeader : Header;
  ReqBody : option bytes;
  ContentLength : Z;
  RemoteAddr : string;
}.

Record Response := mkResponse {
  RespStatus : Z;
  RespHeader : Header;
  RespBody : option bytes;
  RespContentLength : Z;
}.

#[export] Instance URL_eq_dec : EqDecision URL.
Proof. solve_decision. Defined.
#[export] Instance Request_eq_dec : EqDecision Request.
Proof. solve_decision. Defined.

(** ** Requests to the Docker Engine API over its Unix socket *)

Record HttpRequest := mkHttpRequest {
  req_method : string;
  req_url : string;
  req_headers : list (string * string);
  req_body : bytes;
}.

(** A response: its status, the bytes of its body that could be read, and the
    error, if any, that cut the reading short. *)
Record HttpResponse := mkHttpResponse {
  StatusCode : Z;
  Body : bytes;
  BodyErr : error;
}.

(** [json.NewDecoder(resp.Body).Decode]. *)
Definition BodyJson (resp : HttpResponse) : option Json := Decode (Body resp).

(** ** Certificates *)

(** What dandbox sets of an [x509.Certificate] template; times are nanoseconds. *)
Record CertTemplate := mkCertTemplate {
  SerialNumber : Z;
  CommonName : string;
  Organization : list string;
  NotBefore : Z;
  NotAfter : Z;
  KeyUsage : list string;
  ExtKeyUsage : list string;
  IsCA : bool;
  MaxPathLenZero : bool;
  DNSNames : list string;
  IPAddresses : list bytes;
}.

#[export] Instance CertTemplate_eq_dec : EqDecision CertTemplate.
Proof. solve_decision. Defined.

(** ** External calls

    [InterfaceAddrs] answers the IP of each address that is an [*net.IPNet] and
    [None] for the others; [SockOriginalDst] the 16 bytes that [getsockopt]
    fills in; [ReadRequest] what [http.ReadRequest] reads from the client's
    connection or, with [tls], from the decrypted one; [WriteConn] whether a
    write to the client fails, where the code looks; [TimeNow] nanoseconds;
    [CreateCertificate] the DER of a certificate, signed by itself without a
    [parent]; a private key is known by the bytes of its PKCS#8 form. *)

Inductive Ext :=
  | UserHomeDir
  | Getenv (key : string)
  | MkdirAll (path : string) (perm : Z)
  | ReadFile (path : string)
  | WriteFile (path : string) (data : bytes) (perm : Z)
  | RemoveFile (path : string)
  | StatSocket (path : string)
  | Getuid
  | TimeNow
  | HttpDo (req : HttpRequest)
  | RunCommand (name : string) (args : list string)
  | LookupHost (host : string)
  | DialTimeout (addr : string) (ns : Z)
  | Listen (addr : string)
  | ListenUnix (path : string)
  | Chmod (path : string) (perm : Z)
  | InterfaceAddrs
  | SockOriginalDst
  | ReadRequest (tls : bool)
  | WriteConn (data : bytes)
  | TlsHandshake
  | RoundTrip (req : Request)
  | RandSerial
  | RsaGenerateKey (bits : Z)
  | CreateCertificate (template : CertTemplate) (parent : option bytes) (pub signer : bytes)
  | ParseCertificate (der : bytes)
  | ParsePKCS8PrivateKey (der : bytes)
  | MarshalPKCS8PrivateKey (key : bytes)
  | X509KeyPair (certPEM keyPEM : bytes).

Definition Resp (e : Ext) : Type :=
  match e with
  | UserHomeDir => string + string
  | Getenv _ => string
  | MkdirAll _ _ => error
  | ReadFile _ => string + bytes
  | WriteFile _ _ _ => error
  | RemoveFile _ => error
  | StatSocket _ => bool
  | Getuid => Z
  | TimeNow => Z
  | HttpDo _ => string + HttpResponse
  | RunCommand _ _ => (bytes * string) * error
  | LookupHost _ => string + list string
  | DialTimeout _ _ => error
  | Listen _ => error
  | ListenUnix _ => error
  | Chmod _ _ => error
  | InterfaceAddrs => string + list (option bytes)
  | SockOriginalDst => string + bytes
  | ReadRequest _ => string + Request
  | WriteConn _ => error
  | TlsHandshake => error
  | RoundTrip _ => string + Response
  | RandSerial => string + Z
  | RsaGenerateKey _ => string + bytes
  | CreateCertificate _ _ _ _ => string + bytes
  | ParseCertificate _ => error
  | ParsePKCS8PrivateKey _ => string + bytes
  | MarshalPKCS8PrivateKey _ => string + bytes
  | X509KeyPair _ _ => error
  end.

#[export] Instance HttpRequest_eq_dec : EqDecision HttpRequest.
Proof. solve_decision. Defined.
#[export] Instance Ext_eq_dec : EqDecision Ext.
Proof. solve_decision. Defined.

Abbreviation trace := (list Ext).

Class World := answer : trace → ∀ e : Ext, Resp e.

(** ** The monad *)

Definition M (S A : Type) : Type := S → trace → A * S * trace.

#[export] Instance M_ret S : MRet (M S) := λ A x s tr, (x, s, tr).
#[export] Instance M_bind S : MBind (M S) := λ A B k m s tr,
  let '(x, s', tr') := m s tr in k x s' tr'.

Definition get {S} : M S S := λ s tr, (s, s, tr).
Definition put {S} (s : S) : M S unit := λ _ tr, ((), s, tr).
Definition modify {S} (f : S → S) : M S unit := λ s tr, ((), f s, tr).

Definition call `{World} {S} (e : Ext) : M S (Resp e) :=
  λ s tr, (answer tr e, s, tr ++ [e]).

(** Code over a part of the state. *)
Definition zoom {S T A} (view : T → S) (upd : S → T → T) (m : M S A) : M T A :=
  λ t tr, let '(x, s, tr') := m (view t) tr in (x, upd s t, tr').

(** Go's [for _, x := range l { ... }]. *)
Fixpoint for_each {S A} (l : list A) (f : A → M S unit) : M S unit :=
  match l with
  | [] => mret ()
  | x :: l' => f x;; for_each l' f
  end.

(** Go's [x, err := m(); if err != nil { return err }]: the error is returned
    with [wrap] applied to its message. *)
Definition try_bind {S A B} (wrap : string → string) (m : M S (string + A))
    (k : A → M S (string + B)) : M S (string + B) :=
  m ≫= λ r, match r with inl e => mret (inl (wrap e)) | inr x => k x end.

(** Go's [if err := m(); err != nil { return wrap(err) }]. *)
Definition check {S B} (wrap : string → string) (m : M S error)
    (k : M S (string + B)) : M S (string + B) :=
  m ≫= λ r, match r with Some e => mret (inl (wrap e)) | None => k end.

Notation "x '←[' w ']' m ; k" := (try_bind w m (λ x, k))
  (at level 20, w at level 200, m at level 100, k at level 200, right associativity, only parsing).

(** Value, final state, and calls of a run from an empty trace. *)
Definition run {S A} (m : M S A) (s : S) : A * S * trace := m s [].
Definition result {S A} (m : M S A) (s : S) (tr : trace) : A := (m s tr).1.1.
Definition state_after {S A} (m : M S A) (s : S) (tr : trace) : S := (m s tr).1.2.
Definition trace_after {S A} (m : M S A) (s : S) (tr : trace) : trace := (m s tr).2.

(** Runs, step by step. *)
Create Rewrite HintDb run.

Lemma bind_run {S A B} (m : M S A) (k : A → M S B) s tr :
  (m ≫= k) s tr = let '(x, s', tr') := m s tr in k x s' tr'.
Proof. done. Qed.

Lemma ret_run {S A} (x : A) (s : S) tr : (mret x : M S A) s tr = (x, s, tr).
Proof. done. Qed.

Lemma call_run `{World} {S} e (s : S) tr : call e s tr = (answer tr e, s, tr ++ [e]).
Proof. done. Qed.

Lemma get_run {S} (s : S) tr : get s tr = (s, s, tr).
Proof. done. Qed.

Lemma modify_run {S} (f : S → S) s tr : modify f s tr = ((), f s, tr).
Proof. done. Qed.

Lemma try_run {S A B} w (m : M S (string + A)) (k : A → M S (string + B)) s tr :
  try_bind w m k s tr =
  match m s tr with
  | (inl e, s', tr') => (inl (w e), s', tr')
  | (inr x, s', tr') => k x s' tr'
  end.
Proof. unfold try_bind. rewrite bind_run. by destruct (m s tr) as [[[e|x] s'] tr']. Qed.

(** A computation whose value is dropped. *)
Lemma then_ret_run {S A B} (m : M S A) (x : B) s tr :
  (m;; mret x) s tr = (x, state_after m s tr, trace_after m s tr).
Proof. rewrite bind_run. unfold state_after, trace_after. by destruct (m s tr) as [[? ?] ?]. Qed.

#[export] Hint Rewrite @bind_run @ret_run @call_run @get_run @modify_run @try_run : run.

(** ** What a computation may change *)

(** [keeps R m]: every run of [m] relates the states before and after by [R],
    whatever the world answers. *)
Definition keeps {S A} (R : S → S → Prop) (m : M S A) : Prop :=
  ∀ s tr, R s (state_after m s tr).

(** [only P m]: every call that [m] makes satisfies [P]. *)
Definition only {S A} (P : Ext → Prop) (m : M S A) : Prop :=
  ∀ s tr, ∃ new, trace_after m s tr = tr ++ new ∧ Forall P new.

Section Keeps.
Context {S : Type} (R : S → S → Prop) `{!PreOrder R}.

Lemma keeps_ret {A} (x : A) : keeps R (mret x : M S A).
Proof. intros s tr. unfold state_after. cbn. reflexivity. Qed.

Lemma keeps_bind {A B} (m : M S A) (k : A → M S B) :
  keeps R m → (∀ x, keeps R (k x)) → keeps R (m ≫= k).
Proof.
  intros Hm Hk s tr. unfold state_after, mbind, M_bind.
  specialize (Hm s tr). unfold state_after in Hm.
  destruct (m s tr) as [[x s'] tr'] eqn:E. cbn in Hm.
  etrans; [exact Hm|]. apply (Hk x).
Qed.

Lemma keeps_call `{World} e : keeps R (call e : M S _).
Proof. intros s tr. unfold state_after. cbn. reflexivity. Qed.

Lemma keeps_get : keeps R (get : M S S).
Proof. intros s tr. unfold state_after. cbn. reflexivity. Qed.

Lemma keeps_modify f : (∀ s, R s (f s)) → keeps R (modify f).
Proof. intros Hf s tr. apply Hf. Qed.

Lemma keeps_try {A B} w (m : M S (string + A)) (k : A → M S (string + B)) :
  keeps R m → (∀ x, keeps R (k x)) → keeps R (try_bind w m k).
Proof. intros Hm Hk. apply keeps_bind; [done|]. intros [e|x]; [apply keeps_ret|apply Hk]. Qed.

Lemma keeps_for_each {A} (l : list A) (f : A → M S unit) :
  (∀ x, keeps R (f x)) → keeps R (for_each l f).
Proof.
  intros Hf. induction l as [|x l IH]; cbn; [apply keeps_ret|].
  by apply keeps_bind.
Qed.
End Keeps.

Section Only.
Context {S : Type} (P : Ext → Prop).

Lemma only_ret {A} (x : A) : only P (mret x : M S A).
Proof. intros s tr. exists []. by rewrite (right_id_L [] (++)). Qed.

Lemma only_get : only P (get : M S S).
Proof. intros s tr. exists []. by rewrite (right_id_L [] (++)). Qed.

Lemma only_modify f : only P (modify f : M S unit).
Proof. intros s tr. exists []. by rewrite (right_id_L [] (++)). Qed.

Lemma only_call `{World} e : P e → only P (call e : M S _).
Proof. intros He s tr. exists [e]. split; [done|by constructor]. Qed.

Lemma only_bind {A B} (m : M S A) (k : A → M S B) :
  only P m → (∀ x, only P (k x)) → only P (m ≫= k).
Proof.
  intros Hm Hk s tr. destruct (Hm s tr) as (n1 & Ht & Hn1).
  unfold trace_after, mbind, M_bind in *.
  destruct (m s tr) as [[x s'] tr']. cbn in Ht. subst tr'.
  destruct (Hk x s' (tr ++ n1)) as (n2 & Ht & Hn2). exists (n1 ++ n2).
  unfold trace_after in Ht. by rewrite Ht, (assoc_L (++)), Forall_app.
Qed.

Lemma only_try {A B} w (m : M S (string + A)) (k : A → M S (string + B)) :
  only P m → (∀ x, only P (k x)) → only P (try_bind w m k).
Proof. intros Hm Hk. apply only_bind; [done|]. intros [e|x]; [apply only_ret|apply Hk]. Qed.

Lemma only_for_each {A} (l : list A) (f : A → M S unit) :
  (∀ x, only P (f x)) → only P (for_each l f).
Proof.
  intros Hf. induction l as [|x l IH]; cbn; [apply only_ret|].
  by apply only_bind.
Qed.
End Only.

(** [guarded I P m]: from states that satisfy [I], [m] ends in such states and
    makes only calls that satisfy [P]. *)
Definition guarded {S A} (I : S → Prop) (P : Ext → Prop) (m : M S A) : Prop :=
  ∀ s tr, I s → I (state_after m s tr) ∧
    ∃ new, trace_after m s tr = tr ++ new ∧ Forall P new.

Section Guarded.
Context {S : Type} (I : S → Prop) (P : Ext → Prop).

Lemma guarded_ret {A} (x : A) : guarded I P (mret x : M S A).
Proof. intros s tr HI. split; [done|]. exists []. by rewrite (right_id_L [] (++)). Qed.

Lemma guarded_bind {A B} (m : M S A) (k : A → M S B) :
  guarded I P m → (∀ x, guarded I P (k x)) → guarded I P (m ≫= k).
Proof.
  intros Hm Hk s tr HI. destruct (Hm s tr HI) as (HI' & n1 & Ht & Hn1).
  unfold state_after, trace_after in *. rewrite bind_run.
  destruct (m s tr) as [[x s'] tr']. cbn in HI', Ht. subst tr'.
  destruct (Hk x s' (tr ++ n1) HI') as (HI2 & n2 & Ht & Hn2).
  unfold state_after, trace_after in *. split; [done|]. exists (n1 ++ n2).
  by rewrite Ht, (assoc_L (++)), Forall_app.
Qed.

Lemma guarded_get {A} (k : S → M S A) :
  (∀ s, I s → guarded I P (k s)) → guarded I P (get ≫= k).
Proof. intros Hk s tr HI. exact (Hk s HI s tr HI). Qed.

Lemma guarded_modify f : (∀ s, I s → I (f s)) → guarded I P (modify f : M S unit).
Proof.
  intros Hf s tr HI. split; [by apply Hf|]. exists [].
  unfold trace_after. rewrite modify_run. by rewrite (right_id_L [] (++)).
Qed.

Lemma guarded_call `{World} e : P e → guarded I P (call e : M S _).
Proof. intros He s tr HI. split; [done|]. exists [e]. split; [done|by constructor]. Qed.

Lemma guarded_for_each {A} (l : list A) (f : A → M S unit) :
  (∀ x, guarded I P (f x)) → guarded I P (for_each l f).
Proof.
  intros Hf. induction l as [|x l IH]; cbn; [apply guarded_ret|].
  by apply guarded_bind.
Qed.

(** Where nothing is called, any guard will do. *)
Lemma guarded_weaken {A} (P' : Ext → Prop) (m : M S A) :
  (∀ e, P e → P' e) → guarded I P m → guarded I P' m.
Proof.
  intros HP Hm s tr HI. destruct (Hm s tr HI) as (HI' & new & Ht & Hn).
  split; [done|]. exists new. split; [done|]. by eapply Forall_impl.
Qed.
End Guarded.

(** [hoare P m Q]: run from a state and trace that satisfy [P], [m] ends in ones
    that satisfy [Q]. *)
Definition hoare {S A} (P : S → trace → Prop) (m : M S A) (Q : S → trace → Prop) : Prop :=
  ∀ s tr, P s tr → Q (state_after m s tr) (trace_after m s tr).

Section Hoare.
Context {S : Type}.
Implicit Types P Q R : S → trace → Prop.

Lemma hoare_ret {A} P (x : A) : hoare P (mret x : M S A) P.
Proof. by intros s tr. Qed.

Lemma hoare_get P : hoare P (get : M S S) P.
Proof. by intros s tr. Qed.

Lemma hoare_modify P Q f : (∀ s tr, P s tr → Q (f s) tr) → hoare P (modify f : M S unit) Q.
Proof. intros Hf s tr. apply Hf. Qed.

Lemma hoare_bind {A B} P R Q (m : M S A) (k : A → M S B) :
  hoare P m R → (∀ x, hoare R (k x) Q) → hoare P (m ≫= k) Q.
Proof.
  intros Hm Hk s tr HP. specialize (Hm s tr HP). unfold state_after, trace_after in *.
  rewrite bind_run. destruct (m s tr) as [[x s'] tr']. exact (Hk x s' tr' Hm).
Qed.

Lemma hoare_weaken {A} P P' Q Q' (m : M S A) :
  (∀ s tr, P' s tr → P s tr) → (∀ s tr, Q s tr → Q' s tr) → hoare P m Q → hoare P' m Q'.
Proof. intros HP HQ Hm s tr H. by apply HQ, Hm, HP. Qed.

(** A computation that leaves the state alone and makes only harmless calls. *)
Lemma guarded_stateless {A} (I : S → Prop) (C : Ext → Prop) (m : M S A) :
  keeps eq m → only C m → guarded I C m.
Proof. intros Hk Ho s tr HI. split; [by rewrite <- (Hk s tr)|apply Ho]. Qed.
End Hoare.

(** Code over a part of the state is guarded where the part is. *)
Lemma guarded_zoom {S T A} (I : S → Prop) (J : T → Prop) (C : Ext → Prop)
    (view : T → S) (upd : S → T → T) (m : M S A) :
  (∀ t, J t → I (view t)) → (∀ s t, I s → J t → J (upd s t)) →
  guarded I C m → guarded J C (zoom view upd m).
Proof.
  intros Hv Hu Hm t tr HJ. destruct (Hm (view t) tr (Hv t HJ)) as (HI & new & Ht & Hn).
  unfold state_after, trace_after, zoom in *. destruct (m (view t) tr) as [[x s] tr'].
  split; [by apply Hu|]. by exists new.
Qed.

Create HintDb effects.
#[export] Hint Resolve keeps_ret keeps_bind keeps_call keeps_get keeps_modify
  keeps_for_each only_ret only_get only_modify only_call only_bind only_try keeps_try
  only_for_each : effects.

(** ** A world where every call succeeds, for concrete runs *)

Definition quiet_world : World := λ _ e,
  match e with
  | UserHomeDir => inr "/root"
  | Getenv _ => ""
  | MkdirAll _ _ => None
  | ReadFile _ => inl "file does not exist"
  | WriteFile _ _ _ => None
  | RemoveFile _ => None
  | StatSocket _ => true
  | Getuid => 0%Z
  | TimeNow => 0%Z
  | HttpDo _ => inr (mkHttpResponse 200 [] None)
  | RunCommand _ _ => (([], ""), None)
  | LookupHost _ => inr ["127.0.0.1"]
  | DialTimeout _ _ => None
  | Listen _ => None
  | ListenUnix _ => None
  | Chmod _ _ => None
  | InterfaceAddrs => inr []
  | SockOriginalDst => inl "no original destination"
  | ReadRequest _ => inl "EOF"
  | WriteConn _ => None
  | TlsHandshake => None
  | RoundTrip _ => inl "no route"
  | RandSerial => inr 1%Z
  | RsaGenerateKey _ => inr (to_bytes "key")
  | CreateCertificate _ _ _ _ => inr (to_bytes "certificate")
  | ParseCertificate _ => None
  | ParsePKCS8PrivateKey der => inr der
  | MarshalPKCS8PrivateKey key => inr key
  | X509KeyPair _ _ => None
  end.

(** ** Iteration over Go maps

    [range] over a map visits its entries in an order that the language leaves
    open: every definition that does so takes the order as an argument. *)
Class MapOrder := map_order : ∀ A : Type, gmap string A → list (string * A).
Arguments map_order {_ _} _.
Class MapOrderOk `{MapOrder} :=
  map_order_perm : ∀ (A : Type) (m : gmap string A), map_order m ≡ₚ map_to_list m.

Definition some_order : MapOrder := λ A m, map_to_list m.
#[export] Instance some_order_ok : @MapOrderOk some_order.
Proof. intros A m. reflexivity. Qed.

(** ** Files

    The last bytes that were written to a file, or that were meant to be. *)
Definition last_write (path : string) (tr : trace) : option bytes :=
  last (omap (λ e, match e with
                   | WriteFile p data _ => if decide (p = path) then Some data else None
                   | _ => None
                   end) tr).

Lemma last_write_app path tr new :
  last_write path (tr ++ new) =
  match last_write path new with Some b => Some b | None => last_write path tr end.
Proof. unfold last_write. rewrite omap_app, last_app. done. Qed.

Lemma last_write_none path tr :
  Forall (λ e, ∀ data perm, e ≠ WriteFile path data perm) tr → last_write path tr = None.
Proof.
  intros H. unfold last_write. replace (omap _ tr) with (@nil bytes); [done|].
  induction H as [|e tr He _ IH]; [done|]. cbn. rewrite <- IH.
  destruct e; try done. case_decide; [|done]. subst. by destruct (He data perm).
Qed.

Lemma last_write_cons path data perm tr :
  is_Some (last_write path (WriteFile path data perm :: tr)).
Proof.
  change (_ :: tr) with ([WriteFile path data perm] ++ tr). rewrite last_write_app. unfold last_write at 2. cbn [omap list_omap].
  rewrite decide_True by done. destruct (last_write path tr); by eexists.
Qed.

Lemma last_write_has path data perm pre post :
  is_Some (last_write path (pre ++ WriteFile path data perm :: post)).
Proof.
  rewrite last_write_app. destruct (last_write_cons path data perm post) as [b ->]. by eexists.
Qed.

Lemma last_write_other path p data perm tr :
  p ≠ path → last_write path (WriteFile p data perm :: tr) = last_write path tr.
Proof. intros Hp. unfold last_write. cbn. by rewrite decide_False. Qed.

Section Files.
Context `{World}.

(** The last write to a file, if there was one, succeeded. *)
Definition write_ok (path : string) (tr : trace) : Prop :=
  ∀ pre data perm post, tr = pre ++ WriteFile path data perm :: post →
    last_write path post = None → answer pre (WriteFile path data perm) = None.

Lemma write_ok_app path tr new :
  last_write path new = None → write_ok path tr → write_ok path (tr ++ new).
Proof.
  intros Hnew Hok pre data perm post Heq Hpost.
  apply app_eq_inv in Heq as [([|e k] & -> & Heq)|(k & -> & Heq)].
  - cbn in Heq. subst new. by destruct (last_write_cons path data perm post) as [? ?%(eq_trans (eq_sym Hnew))].
  - cbn in Heq. injection Heq as <- ->. rewrite last_write_app, Hnew in Hpost.
    by apply (Hok pre data perm k).
  - subst new. rewrite last_write_app in Hnew.
    destruct (last_write_cons path data perm post) as [b Hb]. by rewrite Hb in Hnew.
Qed.

(** A file holds what was written to it last, if that write succeeded. *)
Class FilesKept :=
  files_kept tr path data :
    last_write path tr = Some data → write_ok path tr → answer tr (ReadFile path) = inr data.

(** What the last write of a file leaves behind. *)
Lemma written_file `{!FilesKept} path data perm tr post :
  last_write path post = None → answer tr (WriteFile path data perm) = None →
  answer (tr ++ WriteFile path data perm :: post) (ReadFile path) = inr data.
Proof.
  intros Hpost Hok. apply files_kept.
  - rewrite last_write_app. change (_ :: post) with ([WriteFile path data perm] ++ post).
    rewrite last_write_app, Hpost. unfold last_write. cbn. by rewrite decide_True.
  - intros pre data' perm' post' Heq Hnone.
    apply app_eq_inv in Heq as [([|e k] & -> & Heq)|([|e k] & -> & Heq)]; simplify_eq/=;
      rewrite ?(right_id_L [] (++)) in *; try done.
    + by destruct (last_write_has path data perm k post) as [? ?%(eq_trans (eq_sym Hnone))].
    + by destruct (last_write_has path data' perm' k post') as [? ?%(eq_trans (eq_sym Hpost))].
Qed.
End Files.

(** Files hold what was written to them, over any world. *)
Definition with_files (w : World) : World := λ tr e,
  match e return Resp e with
  | ReadFile p =>
      match last_write p tr with Some data => inr data | None => w tr (ReadFile p) end
  | e => w tr e
  end.

Lemma with_files_kept w : @FilesKept (with_files w).
Proof. intros tr path data Hw _. cbn. by rewrite Hw. Qed.
