(* ===== verification/Policy.v ===== *)
(** * [internal/policy]: the rule engine

    [Engine] is [policy.Engine]: the rule list, the counter that names new
    rules, the path of the saved copy, the default mode.  [Evaluate] is the
    decision procedure every protocol handler of the proxy calls.  The mutex
    makes each operation atomic; an operation is a function on the engine that
    may also write the rules file. *)
From Stdlib Require Import Ascii.
From S2P Require Export World.

(** ** Data *)

Inductive Decision := DecisionAllow | DecisionDeny.

#[export] Instance Decision_eq_dec : EqDecision Decision.
Proof. solve_decision. Defined.

Record Rule := mkRule {
  RuleID : string;
  RuleName : string;
  RuleDecision : string;
  RuleResources : slice string;
  RuleScope : string;
}.

#[export] Instance Rule_eq_dec : EqDecision Rule.
Proof. solve_decision. Defined.

Record Engine := mkEngine {
  rules : list Rule;
  nextID : Z;
  policyPath : string;
  defaultMode : string;
}.

Definition set_rules (rs : list Rule) (n : Z) (pe : Engine) : Engine :=
  mkEngine rs n (policyPath pe) (defaultMode pe).

Definition defaultRules : list Rule :=
  [ mkRule "default-deny-all-https" "deny-all-https" "deny" ["*:443"] "";
    mkRule "default-deny-all-http" "deny-all-http" "deny" ["*:80"] "" ].

Definition rule_json (r : Rule) : Json :=
  JObj ([("id", JStr (RuleID r)); ("name", JStr (RuleName r));
         ("decision", JStr (RuleDecision r));
         ("resources", JSlice JStr (RuleResources r))]
        ++ omit_empty (bool_decide (RuleScope r = "")) "scope" (JStr (RuleScope r))).

Definition rules_json (rs : list Rule) : Json := JArr (rule_json <$> rs).

(** ** Matching *)

Definition netSplitHostPort (hostPort : string) : option (string * string) :=
  match LastIndex hostPort x3a with
  | Some idx => Some (slice_to hostPort idx, slice_from hostPort (idx + 1))
  | None => None
  end.

Definition isWildcardPattern (pattern : string) : bool :=
  Contains pattern "*" || Contains pattern "**".

Section Match.
Context `{UnicodeFold}.

Definition matchHostPort (target pattern : string) : bool :=
  if bool_decide (pattern = "*:*") || bool_decide (pattern = "**") then true
  else
    match netSplitHostPort target with
    | None => false
    | Some (targetHost, targetPort) =>
        match netSplitHostPort pattern with
        | None => false
        | Some (patHost, patPort) =>
            if bool_decide (patPort ≠ "") && bool_decide (patPort ≠ targetPort)
            then false
            else if bool_decide (patHost = "*") || bool_decide (patHost = "**")
            then true
            else if HasPrefix patHost "**."
                    && HasSuffix targetHost (slice_from (slice_from patHost 1) 1)
            then true
            else if HasPrefix patHost "*."
            then
              let suffix := slice_from patHost 1 in
              HasSuffix targetHost suffix
              && negb (EqualFold targetHost (slice_from suffix 1))
            else EqualFold targetHost patHost
        end
    end.

Definition matchesResource (hostPort : string) (resources : list string) : bool :=
  existsb (matchHostPort hostPort) resources.

(** ** Evaluation *)

(** The local variables of the loop of [Evaluate]. *)
Record EvalVars := mkEvalVars {
  exactAllow : bool;
  exactDeny : bool;
  wildcardAllow : bool;
  wildcardDeny : bool;
  allowRuleID : string;
  denyRuleID : string;
}.

Definition evalInit : EvalVars := mkEvalVars false false false false "" "".

Definition ruleIsExact (rule : Rule) : bool :=
  existsb (λ res, negb (isWildcardPattern res)) (elems (RuleResources rule)).

Definition evalStep (hostPort sandboxName : string) (v : EvalVars) (rule : Rule) : EvalVars :=
  if bool_decide (RuleScope rule ≠ "") && bool_decide (RuleScope rule ≠ sandboxName) then v
  else if negb (matchesResource hostPort (elems (RuleResources rule))) then v
  else
    let isExact := ruleIsExact rule in
    if decide (RuleDecision rule = "allow")
    then
      if isExact
      then mkEvalVars true (exactDeny v) (wildcardAllow v) (wildcardDeny v)
             (RuleID rule) (denyRuleID v)
      else mkEvalVars (exactAllow v) (exactDeny v) true (wildcardDeny v)
             (RuleID rule) (denyRuleID v)
    else if decide (RuleDecision rule = "deny")
    then
      if isExact
      then mkEvalVars (exactAllow v) true (wildcardAllow v) (wildcardDeny v)
             (allowRuleID v) (RuleID rule)
      else mkEvalVars (exactAllow v) (exactDeny v) (wildcardAllow v) true
             (allowRuleID v) (RuleID rule)
    else v.

Definition Evaluate (pe : Engine) (host port sandboxName : string) : Decision * string :=
  let hostPort := host +:+ ":" +:+ port in
  let v := foldl (evalStep hostPort sandboxName) evalInit (rules pe) in
  if exactAllow v then (DecisionAllow, allowRuleID v)
  else if exactDeny v then (DecisionDeny, denyRuleID v)
  else if wildcardAllow v then (DecisionAllow, allowRuleID v)
  else if wildcardDeny v then (DecisionDeny, denyRuleID v)
  else if decide (defaultMode pe = "allow-all") then (DecisionAllow, "default-allow")
  else (DecisionDeny, "default-deny").
End Match.

(** ** Operations *)

Section Ops.
Context `{World}.

(** The result of [os.WriteFile] is discarded by every caller. *)
Definition save : M Engine unit :=
  pe ← get;
  call (WriteFile (policyPath pe) (marshal_indent (rules_json (rules pe))) 420);;
  mret ().

Definition NewEngine {S} (policyDir : string) : M S (string + Engine) :=
  try_bind (λ e, "get home dir: " +:+ e)
    (if decide (policyDir = "")
     then
       home ← call UserHomeDir;
       mret (match home with
             | inl e => inl e
             | inr home => inr (Join [home; ".config"; "sbxsandbox"; "policy"])
             end)
     else mret (inr policyDir))
    (λ policyDir,
       check (λ e, "create policy dir: " +:+ e) (call (MkdirAll policyDir 448))
         (let pe := mkEngine [] 0 (Join [policyDir; "rules.json"]) "balanced" in
          let pe := set_rules defaultRules (Z.of_nat (length defaultRules) + 1) pe in
          zoom (λ _, pe) (λ _ s, s) save;;
          mret (inr pe))).

Definition maxRuleID (rs : list Rule) : Z :=
  foldl (λ maxID r,
    match Sscanf_d "rule-" (RuleID r) with
    | Some num => if (maxID <? num)%Z then num else maxID
    | None => maxID
    end) 0%Z rs.

Definition LoadRules (rs : list Rule) : M Engine unit :=
  modify (set_rules rs (wrap64 (maxRuleID rs + 1)));;
  save.

Definition AddRule (name decision : string) (resources : slice string) (scope : string)
    : M Engine (string + Rule) :=
  pe ← get;
  let id := "rule-" +:+ Sprintf_d (nextID pe) in
  let rule := mkRule id name decision resources scope in
  put (set_rules (rules pe ++ [rule]) (wrap64 (nextID pe + 1)) pe);;
  save;;
  mret (inr rule).

Definition RemoveRule (id : string) : M Engine bool :=
  pe ← get;
  match list_find (λ r, RuleID r = id) (rules pe) with
  | Some (i, _) =>
      put (set_rules (take i (rules pe) ++ drop (S i) (rules pe)) (nextID pe) pe);;
      save;;
      mret true
  | None => mret false
  end.

Definition ListRules : M Engine (list Rule) :=
  pe ← get; mret (rules pe).
End Ops.

(** ** Abstract specification of a decision

    A rule that applies to a request falls in one of four classes; exact
    classes outrank wildcard ones, and allow outranks deny within each. *)

Inductive RuleClass := ExactAllow | ExactDeny | WildcardAllow | WildcardDeny.

#[export] Instance RuleClass_eq_dec : EqDecision RuleClass.
Proof. solve_decision. Defined.

Definition classify (r : Rule) : option RuleClass :=
  if decide (RuleDecision r = "allow")
  then Some (if ruleIsExact r then ExactAllow else WildcardAllow)
  else if decide (RuleDecision r = "deny")
  then Some (if ruleIsExact r then ExactDeny else WildcardDeny)
  else None.

Section Spec.
Context `{UnicodeFold}.

Definition in_scope (sandboxName : string) (r : Rule) : bool :=
  bool_decide (RuleScope r = "") || bool_decide (RuleScope r = sandboxName).

Definition applies (hostPort sandboxName : string) (r : Rule) : bool :=
  in_scope sandboxName r && matchesResource hostPort (elems (RuleResources r)).

(** Some rule of class [c] applies to the request. *)
Definition has_class (hostPort sandboxName : string) (rs : list Rule) (c : RuleClass) : bool :=
  existsb (λ r, applies hostPort sandboxName r && bool_decide (classify r = Some c)) rs.

(** The rules with decision [d] that apply, in order. *)
Definition applying (hostPort sandboxName d : string) (rs : list Rule) : list Rule :=
  filter (λ r, applies hostPort sandboxName r = true ∧ RuleDecision r = d) rs.

Definition last_id (rs : list Rule) : string :=
  match last rs with Some r => RuleID r | None => "" end.

(** *** The loop of [Evaluate] in closed form *)

Definition evalResult (hostPort sandboxName : string) (rs : list Rule) : EvalVars :=
  mkEvalVars
    (has_class hostPort sandboxName rs ExactAllow)
    (has_class hostPort sandboxName rs ExactDeny)
    (has_class hostPort sandboxName rs WildcardAllow)
    (has_class hostPort sandboxName rs WildcardDeny)
    (last_id (applying hostPort sandboxName "allow" rs))
    (last_id (applying hostPort sandboxName "deny" rs)).

Lemma has_class_snoc hp sb rs r c :
  has_class hp sb (rs ++ [r]) c
  = has_class hp sb rs c || (applies hp sb r && bool_decide (classify r = Some c)).
Proof. unfold has_class. rewrite existsb_app. cbn. by rewrite orb_false_r. Qed.

Lemma last_id_applying_snoc hp sb d rs r :
  last_id (applying hp sb d (rs ++ [r]))
  = if applies hp sb r && bool_decide (RuleDecision r = d) then RuleID r
    else last_id (applying hp sb d rs).
Proof.
  unfold applying, last_id. rewrite filter_app, filter_cons, filter_nil.
  destruct (applies hp sb r); cbn.
  - case_bool_decide; [by rewrite decide_True, last_snoc by done|].
    by rewrite decide_False, app_nil_r by (by intros [_ ?]).
  - by rewrite decide_False, app_nil_r by (by intros [? _]).
Qed.

Lemma not_scope_eq sb r :
  bool_decide (RuleScope r ≠ "") && bool_decide (RuleScope r ≠ sb) = negb (in_scope sb r).
Proof. unfold in_scope. repeat case_bool_decide; naive_solver. Qed.

Lemma evalStep_applies hp sb v r :
  applies hp sb r = false → evalStep hp sb v r = v.
Proof.
  unfold applies, evalStep. rewrite not_scope_eq.
  destruct (in_scope sb r); cbn; [|done]. by intros ->.
Qed.

Lemma eval_loop hp sb rs :
  foldl (evalStep hp sb) evalInit rs = evalResult hp sb rs.
Proof.
  induction rs as [|r rs IH] using rev_ind; [done|].
  rewrite foldl_app, IH. cbn [foldl]. unfold evalResult at 2.
  rewrite !has_class_snoc, !last_id_applying_snoc.
  destruct (applies hp sb r) eqn:Happ.
  - unfold applies in Happ. apply andb_true_iff in Happ as [Hsc Hm].
    unfold evalStep. rewrite not_scope_eq, Hsc, Hm. unfold classify, bool_decide.
    destruct (ruleIsExact r), (decide (RuleDecision r = "allow")) as [Ha|Ha];
      cbn; repeat case_decide; rewrite ?orb_true_r, ?orb_false_r; try done; congruence.
  - rewrite evalStep_applies by done. cbn. by rewrite !orb_false_r.
Qed.

Lemma has_class_true hp sb rs c :
  has_class hp sb rs c = true ↔
  ∃ r, r ∈ rs ∧ applies hp sb r = true ∧ classify r = Some c.
Proof.
  unfold has_class. rewrite existsb_exists. split.
  - intros (r & Hin & [Ha Hc]%andb_true_iff). exists r.
    by rewrite list_elem_of_In, bool_decide_eq_true in *.
  - intros (r & Hin & Ha & Hc). exists r.
    by rewrite <- list_elem_of_In, Ha, bool_decide_eq_true_2.
Qed.

Lemma applies_true hp sb r :
  applies hp sb r = true ↔
  (RuleScope r = "" ∨ RuleScope r = sb) ∧
  ∃ pat, pat ∈ elems (RuleResources r) ∧ matchHostPort hp pat = true.
Proof.
  unfold applies, in_scope, matchesResource.
  rewrite andb_true_iff, orb_true_iff, !bool_decide_eq_true, existsb_exists.
  by setoid_rewrite list_elem_of_In.
Qed.

Definition decision_of (c : RuleClass) : string :=
  match c with ExactAllow | WildcardAllow => "allow" | _ => "deny" end.

Lemma classify_decision r c : classify r = Some c → RuleDecision r = decision_of c.
Proof.
  unfold classify. case_decide; [|case_decide; [|done]];
    destruct (ruleIsExact r); by intros [= <-].
Qed.

Lemma classify_total r :
  RuleDecision r = "allow" ∨ RuleDecision r = "deny" → ∃ c, classify r = Some c.
Proof. unfold classify. intros [->| ->]; eexists; done. Qed.

Lemma last_id_split hp sb rs c :
  has_class hp sb rs c = true →
  ∃ before r, applying hp sb (decision_of c) rs = before ++ [r] ∧
              last_id (applying hp sb (decision_of c) rs) = RuleID r.
Proof.
  intros (r & Hin & Ha & Hc)%has_class_true. apply classify_decision in Hc.
  assert (r ∈ applying hp sb (decision_of c) rs) as Hr.
  { apply list_elem_of_filter. auto. }
  destruct (applying hp sb (decision_of c) rs) as [|x l] using rev_ind;
    [by apply not_elem_of_nil in Hr|].
  exists l, x. split; [done|]. unfold last_id. by rewrite last_snoc.
Qed.

Lemma no_class_applying hp sb rs :
  (∀ c, has_class hp sb rs c = false) →
  applying hp sb "allow" rs = [] ∧ applying hp sb "deny" rs = [].
Proof.
  intros Hno.
  assert (∀ d, d = "allow" ∨ d = "deny" → applying hp sb d rs = []) as Hd; [|auto].
  intros d Hd. apply elem_of_nil_inv. intros r [[Ha <-] Hin]%list_elem_of_filter.
  assert (∃ c, classify r = Some c) as [c Hc].
  { by apply classify_total. }
  assert (has_class hp sb rs c = true) by (apply has_class_true; eauto).
  by rewrite Hno in *.
Qed.

(** *** Decisions *)

Definition request (host port : string) : string := host +:+ ":" +:+ port.

Lemma Evaluate_classes pe h p sb :
  Evaluate pe h p sb =
    let has := has_class (request h p) sb (rules pe) in
    let aid := last_id (applying (request h p) sb "allow" (rules pe)) in
    let did := last_id (applying (request h p) sb "deny" (rules pe)) in
    if has ExactAllow then (DecisionAllow, aid)
    else if has ExactDeny then (DecisionDeny, did)
    else if has WildcardAllow then (DecisionAllow, aid)
    else if has WildcardDeny then (DecisionDeny, did)
    else if decide (defaultMode pe = "allow-all") then (DecisionAllow, "default-allow")
    else (DecisionDeny, "default-deny").
Proof. unfold Evaluate. by rewrite eval_loop. Qed.

(** In the only mode the program ever sets, allowing takes an allow rule. *)
Lemma Evaluate_allow_classes pe h p sb :
  defaultMode pe = "balanced" →
  (Evaluate pe h p sb).1 = DecisionAllow ↔
  has_class (request h p) sb (rules pe) ExactAllow = true ∨
  (has_class (request h p) sb (rules pe) ExactDeny = false ∧
   has_class (request h p) sb (rules pe) WildcardAllow = true).
Proof.
  intros Hm. rewrite Evaluate_classes. cbv zeta. rewrite Hm.
  destruct (has_class _ _ _ ExactAllow); [cbn; tauto|].
  destruct (has_class _ _ _ ExactDeny); [cbn; by split; [|intros [?|[? _]]]|].
  destruct (has_class _ _ _ WildcardAllow); [cbn; tauto|].
  destruct (has_class _ _ _ WildcardDeny); cbn; by split; [|intros [?|[_ ?]]].
Qed.

(** Without an allow rule in scope, nothing is allowed. *)
Lemma no_allow_rule_denies pe h p sb :
  defaultMode pe = "balanced" →
  (∀ r, r ∈ rules pe → RuleDecision r = "allow" → RuleScope r ≠ "" ∧ RuleScope r ≠ sb) →
  (Evaluate pe h p sb).1 = DecisionDeny.
Proof.
  intros Hm Hno. destruct (Evaluate pe h p sb).1 eqn:E; [|done]. exfalso.
  apply Evaluate_allow_classes in E; [|done].
  assert (∃ c r, r ∈ rules pe ∧ applies (request h p) sb r = true ∧ classify r = Some c ∧
            (c = ExactAllow ∨ c = WildcardAllow)) as (c & r & Hin & Ha & Hc & Hca).
  { rewrite !has_class_true in E.
    destruct E as [(r & ? & ? & ?)|(_ & r & ? & ? & ?)]; eauto 10. }
  apply applies_true in Ha as (Hscope & _).
  destruct (Hno r Hin) as [H1 H2].
  - apply classify_decision in Hc. by destruct Hca as [-> | ->].
  - by destruct Hscope.
Qed.

Lemma has_class_ext hp sb rs1 rs2 c :
  (∀ r, applies hp sb r = true → classify r = Some c → r ∈ rs1 ↔ r ∈ rs2) →
  has_class hp sb rs1 c = has_class hp sb rs2 c.
Proof.
  intros Hext. apply eq_iff_eq_true. rewrite !has_class_true.
  split; intros (r & Hin & Ha & Hc); exists r; (split; [by apply Hext|done]).
Qed.

(** The decision depends on the engine only through its mode and the three
    classes that can win against the default. *)
Lemma Evaluate_ext pe1 pe2 h p sb :
  defaultMode pe1 = "balanced" → defaultMode pe2 = "balanced" →
  (∀ c, c ≠ WildcardDeny →
    has_class (request h p) sb (rules pe1) c = has_class (request h p) sb (rules pe2) c) →
  (Evaluate pe1 h p sb).1 = (Evaluate pe2 h p sb).1.
Proof.
  intros H1 H2 Hext.
  pose proof (Evaluate_allow_classes pe1 h p sb H1) as E1.
  pose proof (Evaluate_allow_classes pe2 h p sb H2) as E2.
  rewrite !Hext, <- E2 in E1 by done.
  destruct (Evaluate pe1 h p sb).1, (Evaluate pe2 h p sb).1; try done;
    [symmetry|]; by apply E1.
Qed.
End Spec.

(** ** Lemmas: matching *)

Lemma netSplitHostPort_join h p :
  x3a ∉ to_bytes p → netSplitHostPort (request h p) = Some (h, p).
Proof.
  intros Hp. unfold netSplitHostPort, LastIndex, request.
  rewrite !to_bytes_app. change (to_bytes ":" ++ to_bytes p) with (x3a :: to_bytes p).
  rewrite last_index_of_app by done. rewrite slice_to_app.
  replace (length (to_bytes h) + 1) with (length (to_bytes (h +:+ ":")))
    by (by rewrite to_bytes_app, length_app).
  change (h +:+ ":" +:+ p) with (h +:+ (":" +:+ p)).
  replace (h +:+ (":" +:+ p)) with ((h +:+ ":") +:+ p)
    by (apply (inj to_bytes); by rewrite !to_bytes_app, (assoc_L (++))).
  by rewrite slice_from_app.
Qed.

Lemma netSplitHostPort_total s :
  x3a ∈ to_bytes s → ∃ h p, netSplitHostPort s = Some (h, p) ∧ s = request h p ∧
                            x3a ∉ to_bytes p.
Proof.
  intros Hin. unfold netSplitHostPort, LastIndex.
  destruct (last_index_of x3a (to_bytes s)) as [i|] eqn:E;
    [|by apply last_index_of_None in E].
  apply last_index_of_Some in E as (Hs & Hno & Hlen).
  eexists _, _. split; [done|].
  unfold slice_to, slice_from. rewrite Nat.add_1_r. split; [|by rewrite to_of_bytes].
  apply (inj to_bytes). unfold request. by rewrite !to_bytes_app, !to_of_bytes.
Qed.

Section MatchLemmas.
Context `{UnicodeFold}.

(** The host part of [matchHostPort], by the shape of the pattern's host. *)
Definition host_matches (h ph : string) : bool :=
  bool_decide (ph = "*") || bool_decide (ph = "**")
  || (HasPrefix ph "**." && HasSuffix h (slice_from (slice_from ph 1) 1))
  || (if HasPrefix ph "*."
      then HasSuffix h (slice_from ph 1) && negb (EqualFold h (slice_from (slice_from ph 1) 1))
      else EqualFold h ph).

Lemma request_eq_inv h1 p1 h2 p2 :
  x3a ∉ to_bytes p1 → x3a ∉ to_bytes p2 →
  request h1 p1 = request h2 p2 → h1 = h2 ∧ p1 = p2.
Proof.
  intros Hp1 Hp2 Heq. pose proof (netSplitHostPort_join h1 p1 Hp1) as E.
  rewrite Heq, netSplitHostPort_join in E by done. by injection E as -> ->.
Qed.

Lemma request_not_doublestar h p : request h p ≠ "**".
Proof.
  intros Heq%(f_equal to_bytes). unfold request in Heq. rewrite !to_bytes_app in Heq.
  assert (x3a ∈ to_bytes "**") as Hin by (rewrite <- Heq; set_solver).
  by repeat (apply elem_of_cons in Hin as [?|Hin]; [done|]); apply elem_of_nil in Hin.
Qed.

Lemma matchHostPort_request h p ph pp :
  x3a ∉ to_bytes p → x3a ∉ to_bytes pp →
  matchHostPort (request h p) (request ph pp) =
    (bool_decide (ph = "*") && bool_decide (pp = "*"))
    || ((bool_decide (pp = "") || bool_decide (pp = p)) && host_matches h ph).
Proof.
  intros Hp Hpp. unfold matchHostPort.
  rewrite (bool_decide_eq_false_2 _ (request_not_doublestar ph pp)), orb_false_r.
  rewrite !netSplitHostPort_join by done.
  destruct (decide (ph = "*" ∧ pp = "*")) as [[-> ->]|Hstar]; [done|].
  rewrite bool_decide_eq_false_2.
  2: { intros Heq. apply (request_eq_inv _ _ "*" "*") in Heq; [done..|].
       by apply not_elem_of_cons; split; [|apply not_elem_of_nil]. }
  assert (bool_decide (ph = "*") && bool_decide (pp = "*") = false) as ->.
  { by repeat case_bool_decide; cbn; try done; destruct Hstar. }
  cbn. unfold host_matches.
  destruct (decide (pp = "")) as [->|Hne]; cbn.
  - repeat case_bool_decide; cbn; try done; by destruct (HasPrefix ph "**." && _).
  - rewrite (bool_decide_eq_false_2 (pp = "")), (bool_decide_eq_true_2 (pp ≠ "")) by done.
    cbn. rewrite bool_decide_not. destruct (bool_decide (pp = p)); cbn; [|done].
    by destruct (bool_decide (ph = "*")), (bool_decide (ph = "**")).
Qed.

Lemma suffix_length h x : HasSuffix h x = true → length (to_bytes x) ≤ length (to_bytes h).
Proof. intros [t ->]%HasSuffix_spec. rewrite to_bytes_app, length_app. lia. Qed.

Lemma slice_from_one c s : slice_from (String c s) 1 = s.
Proof. unfold slice_from. rewrite to_bytes_String. apply of_to_bytes. Qed.

(** [*.d] on ASCII names: strict subdomains of [d]. *)
Lemma host_matches_star h d :
  ascii_string h = true → ascii_string d = true →
  host_matches h ("*." +:+ d) = true ↔ ∃ x, h = x +:+ "." +:+ d.
Proof.
  intros Hh Hd. unfold host_matches. change ("*." +:+ d) with (String "*"%char (String "."%char d)).
  rewrite !bool_decide_eq_false_2 by done. rewrite !slice_from_one.
  change (HasPrefix (String "*"%char (String "."%char d)) "**.") with false.
  change (HasPrefix (String "*"%char (String "."%char d)) "*.") with true.
  rewrite orb_false_l, andb_true_iff, negb_true_iff, HasSuffix_spec.
  split; [by intros [? _]|]. intros Hex. split; [done|].
  destruct Hex as [x ->]. apply not_true_iff_false.
  intros Hlen%EqualFold_ascii_length; [|done..]. revert Hlen.
  rewrite !to_bytes_app, !length_app, to_bytes_String. cbn. lia.
Qed.

(** [**.d] on ASCII names: again the strict subdomains of [d], besides the
    literal text of the pattern itself. *)
Lemma host_matches_doublestar h d :
  host_matches h ("**." +:+ d) = true ↔
  (∃ x, h = x +:+ "." +:+ d) ∨ EqualFold h ("**." +:+ d) = true.
Proof.
  unfold host_matches.
  change ("**." +:+ d) with (String "*"%char (String "*"%char (String "."%char d))).
  rewrite !bool_decide_eq_false_2 by done. rewrite !slice_from_one.
  change (HasPrefix (String "*"%char (String "*"%char (String "."%char d))) "**.") with true.
  change (HasPrefix (String "*"%char (String "*"%char (String "."%char d))) "*.") with false.
  by rewrite !orb_false_l, andb_true_l, orb_true_iff, HasSuffix_spec.
Qed.

(** A pattern host without a star is compared by case folding. *)
Lemma host_matches_plain h ph :
  isWildcardPattern ph = false → host_matches h ph = EqualFold h ph.
Proof.
  unfold isWildcardPattern. intros [Hs _]%orb_false_iff. unfold host_matches.
  rewrite !bool_decide_eq_false_2 by (by intros ->).
  assert (HasPrefix ph "**." = false) as ->.
  { apply not_true_iff_false. intros [t ->]%HasPrefix_spec.
    by discriminate Hs. }
  assert (HasPrefix ph "*." = false) as ->.
  { apply not_true_iff_false. intros [t ->]%HasPrefix_spec.
    by discriminate Hs. }
  done.
Qed.
End MatchLemmas.

(** ** Lemmas: operations *)

Section OpLemmas.
Context {UF : UnicodeFold} {W : World}.

Lemma maxRuleID_bounds rs :
  (0 ≤ maxRuleID rs ≤ int64_max)%Z ∧
  ∀ r num, r ∈ rs → Sscanf_d "rule-" (RuleID r) = Some num → (num ≤ maxRuleID rs)%Z.
Proof.
  unfold maxRuleID. induction rs as [|r rs [IHr IH]] using rev_ind; cbn.
  { split; [by vm_compute|]. by intros ?? ?%not_elem_of_nil. }
  rewrite foldl_app. cbn. revert IHr IH. generalize (foldl
    (λ (maxID : Z) (r0 : Rule), match Sscanf_d "rule-" (RuleID r0) with
      | Some num => if (maxID <? num)%Z then num else maxID | None => maxID end) 0%Z rs).
  intros m IHr IH.
  destruct (Sscanf_d "rule-" (RuleID r)) as [k|] eqn:E.
  - pose proof (Sscanf_d_range _ _ _ E) as [_ Hk].
    destruct (Z.ltb_spec m k); (split; [lia|]);
      (intros r' num [Hin|Hin%list_elem_of_singleton]%elem_of_app Hs;
       [specialize (IH _ _ Hin Hs)|assert (num = k) by congruence]; lia).
  - split; [done|]. intros r' num [Hin|Hin%list_elem_of_singleton]%elem_of_app Hs;
      [by apply (IH r')|congruence].
Qed.

(** *** The invariant of a running engine *)

Record engine_ok (pe : Engine) : Prop := mk_engine_ok {
  ok_mode : defaultMode pe = "balanced";
  ok_range : in_int64 (nextID pe);
  ok_fresh : ∀ r num, r ∈ rules pe →
    Sscanf_d "rule-" (RuleID r) = Some num → (num < nextID pe)%Z;
}.

Inductive EngineOp :=
  | OpLoad (rs : list Rule)
  | OpAdd (name decision : string) (resources : slice string) (scope : string)
  | OpRemove (id : string).

Definition apply_op (op : EngineOp) : M Engine unit :=
  match op with
  | OpLoad rs => LoadRules rs
  | OpAdd name decision resources scope =>
      AddRule name decision resources scope;; mret ()
  | OpRemove id => RemoveRule id;; mret ()
  end.

(** Any operation, with any arguments. *)
Inductive engine_step (pe : Engine) : Engine → Prop :=
  | engine_step_op op tr : engine_step pe (state_after (apply_op op) pe tr).

(** The rule counter stays inside Go's [int]. *)
Definition no_overflow (op : EngineOp) (pe : Engine) : Prop :=
  match op with
  | OpLoad rs => (maxRuleID rs < int64_max)%Z
  | OpAdd _ _ _ _ => (nextID pe < int64_max)%Z
  | OpRemove _ => True
  end.

(** Operations that do not wrap the counter around. *)
Inductive counted_step (pe : Engine) : Engine → Prop :=
  | counted_step_op op tr :
      no_overflow op pe → counted_step pe (state_after (apply_op op) pe tr).

(** *** What each operation does *)

Lemma save_run pe tr :
  save pe tr =
    ((), pe, tr ++ [WriteFile (policyPath pe) (marshal_indent (rules_json (rules pe))) 420]).
Proof. done. Qed.

Lemma LoadRules_state rs pe tr :
  state_after (LoadRules rs) pe tr = set_rules rs (wrap64 (maxRuleID rs + 1)) pe.
Proof. done. Qed.

Definition new_rule (pe : Engine) name decision resources scope : Rule :=
  mkRule ("rule-" +:+ Sprintf_d (nextID pe)) name decision resources scope.

Lemma AddRule_run name decision resources scope pe tr :
  let r := new_rule pe name decision resources scope in
  let pe' := set_rules (rules pe ++ [r]) (wrap64 (nextID pe + 1)) pe in
  AddRule name decision resources scope pe tr =
    (inr r, pe',
     tr ++ [WriteFile (policyPath pe) (marshal_indent (rules_json (rules pe'))) 420]).
Proof. done. Qed.

Lemma RemoveRule_run id pe tr :
  RemoveRule id pe tr =
    match list_find (λ r, RuleID r = id) (rules pe) with
    | Some (i, _) =>
        let pe' := set_rules (take i (rules pe) ++ drop (S i) (rules pe)) (nextID pe) pe in
        (true, pe',
         tr ++ [WriteFile (policyPath pe) (marshal_indent (rules_json (rules pe'))) 420])
    | None => (false, pe, tr)
    end.
Proof.
  unfold RemoveRule, mbind, M_bind, get. cbn.
  by destruct (list_find _ _) as [[i r]|].
Qed.

(** Removal in terms of the list: the first rule of that name goes. *)
Lemma RemoveRule_cases id pe tr :
  (result (RemoveRule id) pe tr = false ∧ state_after (RemoveRule id) pe tr = pe ∧
   id ∉ RuleID <$> rules pe) ∨
  (result (RemoveRule id) pe tr = true ∧
   ∃ l1 r l2, rules pe = l1 ++ r :: l2 ∧ RuleID r = id ∧ (id ∉ RuleID <$> l1) ∧
     state_after (RemoveRule id) pe tr = set_rules (l1 ++ l2) (nextID pe) pe).
Proof.
  unfold result, state_after. rewrite RemoveRule_run.
  destruct (list_find (λ r, RuleID r = id) (rules pe)) as [[i r]|] eqn:E; cbn.
  - right. split; [done|]. apply list_find_Some in E as (Hi & Hr & Hbefore).
    exists (take i (rules pe)), r, (drop (S i) (rules pe)).
    rewrite take_drop_middle by done. split; [done|]. split; [done|]. split; [|done].
    intros (r' & Hid & Hin)%list_elem_of_fmap.
    apply list_elem_of_lookup in Hin as [j Hj].
    apply lookup_take_Some in Hj as [Hj Hlt]. by eapply Hbefore.
  - left. split; [done|]. split; [done|].
    apply list_find_None in E. intros (r & -> & Hin)%list_elem_of_fmap.
    rewrite Forall_forall in E. by apply (E r).
Qed.

Lemma NewEngine_initial {S} dir (s : S) tr pe :
  result (NewEngine dir) s tr = inr pe →
  ∃ path, pe = mkEngine defaultRules 3 path "balanced".
Proof.
  unfold result, NewEngine, try_bind, check, mbind, M_bind.
  set (inner := (if decide (dir = "") then _ else _) : M S _).
  destruct (inner s tr) as [[[e|d] s'] tr']; [done|]. cbn.
  destruct (answer tr' (MkdirAll d 448)); [done|]. cbn.
  intros [= <-]. by eexists.
Qed.

(** The first element with a fresh last key is the last one. *)
Lemma snoc_remove_first rs r l1 r0 l2 :
  RuleID r ∉ RuleID <$> rs → rs ++ [r] = l1 ++ (r0 :: l2) →
  RuleID r0 = RuleID r → l1 ++ l2 = rs.
Proof.
  intros Hfresh Heq Hid. destruct l2 as [|x l2] using rev_ind.
  - apply app_inj_tail in Heq as [-> _]. by rewrite app_nil_r.
  - rewrite app_comm_cons, (assoc_L (++)) in Heq. apply app_inj_tail in Heq as [-> ->].
    destruct Hfresh. rewrite fmap_app, fmap_cons, Hid. set_solver.
Qed.

(** *** Preservation *)

Lemma engine_ok_initial path : engine_ok (mkEngine defaultRules 3 path "balanced").
Proof.
  split; [done|by vm_compute|]. cbn.
  intros r num [->|[->|H]%elem_of_cons]%elem_of_cons; [by vm_compute..|].
  by apply not_elem_of_nil in H.
Qed.

(** What no operation changes. *)
Lemma engine_step_mode pe pe' :
  engine_step pe pe' → defaultMode pe' = defaultMode pe ∧ policyPath pe' = policyPath pe.
Proof.
  intros [op tr]. destruct op as [rs|name dec res sc|id]; [done..|].
  unfold state_after. cbn. rewrite bind_run, RemoveRule_run.
  by destruct (list_find _ _) as [[i r]|].
Qed.

Lemma engine_reachable_mode pe pe' :
  rtc engine_step pe pe' → defaultMode pe' = defaultMode pe ∧ policyPath pe' = policyPath pe.
Proof.
  induction 1 as [|x y z Hxy _ [-> ->]]; [done|]. by apply engine_step_mode.
Qed.

Lemma engine_ok_step pe pe' : engine_ok pe → counted_step pe pe' → engine_ok pe'.
Proof.
  intros [Hm [Hlo Hhi] Hf] [op tr Hov]. destruct op as [rs|name dec res sc|id]; cbn in Hov.
  - cbn [apply_op]. rewrite LoadRules_state.
    destruct (maxRuleID_bounds rs) as [[Hm0 Hm1] Hmax].
    assert (in_int64 (maxRuleID rs + 1)) by (unfold in_int64, int64_min in *; lia).
    split; cbn; [done|apply wrap64_range|]. intros r num Hin Hs.
    rewrite wrap64_id by done. specialize (Hmax _ _ Hin Hs). lia.
  - change (engine_ok (set_rules (rules pe ++ [new_rule pe name dec res sc])
                         (wrap64 (nextID pe + 1)) pe)).
    assert (in_int64 (nextID pe + 1)) by (unfold in_int64, int64_min in *; lia).
    split; cbn; [done|apply wrap64_range|]. rewrite wrap64_id by done.
    intros r num [Hin|Hin%list_elem_of_singleton]%elem_of_app Hs.
    + specialize (Hf _ _ Hin Hs). lia.
    + subst r. cbn in Hs. rewrite Sscanf_d_Sprintf_d in Hs by done.
      injection Hs as <-. lia.
  - assert (state_after (apply_op (OpRemove id)) pe tr
            = state_after (RemoveRule id) pe tr) as ->.
    { unfold state_after. cbn. unfold mbind, M_bind.
      by destruct (RemoveRule id pe tr) as [[??]?]. }
    destruct (RemoveRule_cases id pe tr)
      as [(_ & -> & _)|(_ & l1 & r0 & l2 & Heq & _ & _ & ->)]; [by split|].
    split; cbn; [done|done|]. intros r num Hin. apply Hf. rewrite Heq.
    rewrite elem_of_app, elem_of_cons. rewrite elem_of_app in Hin. tauto.
Qed.

Lemma engine_ok_reachable pe pe' :
  engine_ok pe → rtc counted_step pe pe' → engine_ok pe'.
Proof. intros Hok Hr. induction Hr; eauto using engine_ok_step. Qed.

Lemma AddRule_id_fresh pe name dec res sc :
  engine_ok pe → RuleID (new_rule pe name dec res sc) ∉ RuleID <$> rules pe.
Proof.
  intros [_ Hr Hf] (r & Hid & Hin)%list_elem_of_fmap. cbn in Hid.
  assert (nextID pe < nextID pe)%Z; [|lia].
  apply (Hf r); [done|]. rewrite <- Hid. by apply Sscanf_d_Sprintf_d.
Qed.
End OpLemmas.

(** ** Properties *)

Section Properties.
Context {UF : UnicodeFold} {W : World}.

Lemma wildcard_deny_ignored pe h p sb (Hmode : defaultMode pe = "balanced") :
  (Evaluate (set_rules (filter (λ r, classify r ≠ Some WildcardDeny) (rules pe))
               (nextID pe) pe) h p sb).1
  = (Evaluate pe h p sb).1.
Proof.
  apply Evaluate_ext; [done..|]. intros c Hc. apply has_class_ext. intros r _ Hcl.
  cbn. rewrite list_elem_of_filter. split; [by intros [_ ?]|]. split; [congruence|done].
Qed.

(** C2. What [Evaluate] decides: in the mode every engine is created in, a
    request is allowed exactly when an applicable rule of class exact-allow
    exists, or no applicable exact-deny rule exists and an applicable
    wildcard-allow rule does. *)
Theorem Evaluate_allow_iff pe h p sb (Hmode : defaultMode pe = "balanced") :
  (Evaluate pe h p sb).1 = DecisionAllow ↔
  (∃ r, r ∈ rules pe ∧ applies (request h p) sb r = true ∧ classify r = Some ExactAllow) ∨
  ((¬ ∃ r, r ∈ rules pe ∧ applies (request h p) sb r = true ∧ classify r = Some ExactDeny) ∧
   (∃ r, r ∈ rules pe ∧ applies (request h p) sb r = true ∧ classify r = Some WildcardAllow)).
Proof.
  rewrite Evaluate_allow_classes, <- not_true_iff_false by done.
  by rewrite !has_class_true.
Qed.

(** C3. Deny by default, for every engine the program can reach: whatever
    rules were loaded, added (with resources or none) and removed since
    [NewEngine], and whatever became of the rule counter, an allowed request is
    covered by an allow rule in force that is in the sandbox's scope and lists a
    pattern matching host and port. *)
Theorem Evaluate_allow_has_rule pe0 pe h p sb
    (Hnew : ∃ S (s : S) dir tr, result (NewEngine dir) s tr = inr pe0)
    (Hreach : rtc engine_step pe0 pe)
    (Hallow : (Evaluate pe h p sb).1 = DecisionAllow) :
  ∃ r pattern, r ∈ rules pe ∧ RuleDecision r = "allow" ∧
    (RuleScope r = "" ∨ RuleScope r = sb) ∧
    pattern ∈ elems (RuleResources r) ∧ matchHostPort (request h p) pattern = true.
Proof.
  destruct Hnew as (S & s & dir & tr & Hnew).
  apply NewEngine_initial in Hnew as [path ->].
  apply engine_reachable_mode in Hreach as [Hmode _]. cbn [defaultMode] in Hmode.
  apply Evaluate_allow_classes in Hallow; [|done].
  assert (∃ c r, r ∈ rules pe ∧ applies (request h p) sb r = true ∧ classify r = Some c ∧
            (c = ExactAllow ∨ c = WildcardAllow)) as (c & r & Hin & Ha & Hc & Hca).
  { rewrite !has_class_true in Hallow.
    destruct Hallow as [(r & ? & ? & ?)|(_ & r & ? & ? & ?)]; eauto 10. }
  apply applies_true in Ha as (Hscope & pat & Hpat & Hmatch).
  exists r, pat. split; [done|]. split; [|done].
  apply classify_decision in Hc. by destruct Hca as [-> | ->].
Qed.

(** The rule named with the decision is the last applicable rule of that
    decision, exact or not; only when no rule applies is the name
    [default-deny]. *)
Theorem Evaluate_reports_last pe h p sb (Hmode : defaultMode pe = "balanced") :
  let applying d := applying (request h p) sb d (rules pe) in
  match Evaluate pe h p sb with
  | (DecisionAllow, id) =>
      ∃ before r, applying "allow" = before ++ [r] ∧ id = RuleID r
  | (DecisionDeny, id) =>
      (∃ before r, applying "deny" = before ++ [r] ∧ id = RuleID r) ∨
      (applying "allow" = [] ∧ applying "deny" = [] ∧ id = "default-deny")
  end.
Proof.
  cbv zeta. rewrite Evaluate_classes. cbv zeta. rewrite Hmode.
  pose proof (last_id_split (request h p) sb (rules pe)) as Hlast.
  destruct (has_class _ _ _ ExactAllow) eqn:E1.
  { by apply (Hlast ExactAllow). }
  destruct (has_class _ _ _ ExactDeny) eqn:E2.
  { left. by apply (Hlast ExactDeny). }
  destruct (has_class _ _ _ WildcardAllow) eqn:E3.
  { by apply (Hlast WildcardAllow). }
  destruct (has_class _ _ _ WildcardDeny) eqn:E4.
  { left. by apply (Hlast WildcardDeny). }
  right. edestruct no_class_applying as [-> ->]; [|done]. by intros [].
Qed.

(** The order of the rules does not matter to the decision. *)
Theorem Evaluate_permutation pe rs h p sb
    (Hmode : defaultMode pe = "balanced") (Hperm : rules pe ≡ₚ rs) :
  (Evaluate (set_rules rs (nextID pe) pe) h p sb).1 = (Evaluate pe h p sb).1.
Proof.
  apply Evaluate_ext; [done..|]. intros c _. apply has_class_ext. intros r _ _.
  cbn. by rewrite Hperm.
Qed.

(** Wildcard deny rules never change a decision: without them every
    request is decided the same. *)
Theorem wildcard_deny_inert pe h p sb (Hmode : defaultMode pe = "balanced") :
  (Evaluate (set_rules (filter (λ r, classify r ≠ Some WildcardDeny) (rules pe))
               (nextID pe) pe) h p sb).1
  = (Evaluate pe h p sb).1.
Proof. by apply wildcard_deny_ignored. Qed.

(** Scoping: a rule scoped to one sandbox has no influence, on decision
    or reported name, for requests of another. *)
Theorem Evaluate_scope_isolation pe h p sb :
  Evaluate (set_rules (filter (λ r, in_scope sb r = true) (rules pe)) (nextID pe) pe) h p sb
  = Evaluate pe h p sb.
Proof.
  unfold Evaluate. cbn. f_equal.
  assert (∀ v, foldl (evalStep (h +:+ ":" +:+ p) sb) v
                 (filter (λ r, in_scope sb r = true) (rules pe))
               = foldl (evalStep (h +:+ ":" +:+ p) sb) v (rules pe)) as Hf.
  { induction (rules pe) as [|r rs IH]; intros v; [done|].
    rewrite filter_cons. case_decide as Hs; cbn; [apply IH|].
    rewrite evalStep_applies; [apply IH|]. unfold applies.
    by destruct (in_scope sb r). }
  by rewrite Hf.
Qed.


(** The largest number that a rule name can carry wraps the counter around:
    rules with that name can be loaded, and what is added next is numbered from
    the least integer on. *)
Theorem counter_wraps pe tr :
  let r := mkRule "rule-9223372036854775807" "n" "allow" ["a:1"] "" in
  nextID (state_after (LoadRules [r]) pe tr) = int64_min.
Proof. reflexivity. Qed.

(** Adding a rule and removing it by the returned name gives the engine's
    rules back, in any engine that satisfies the invariant. *)
Theorem AddRule_RemoveRule pe name dec res sc tr (Hok : engine_ok pe) :
  match AddRule name dec res sc pe tr with
  | (inr r, pe1, tr1) =>
      rules pe1 = rules pe ++ [r] ∧
      result (RemoveRule (RuleID r)) pe1 tr1 = true ∧
      rules (state_after (RemoveRule (RuleID r)) pe1 tr1) = rules pe
  | _ => False
  end.
Proof.
  rewrite AddRule_run. cbv zeta. split; [done|].
  pose proof (AddRule_id_fresh pe name dec res sc Hok) as Hfresh.
  set (r := new_rule pe name dec res sc) in *.
  destruct (RemoveRule_cases (RuleID r)
    (set_rules (rules pe ++ [r]) (wrap64 (nextID pe + 1)) pe)
    (tr ++ [WriteFile (policyPath pe) (marshal_indent (rules_json (rules pe ++ [r]))) 420]))
    as [(_ & _ & Hno)|(Hres & l1 & r0 & l2 & Heq & Hid & Hl1 & Hst)].
  { destruct Hno. cbn. rewrite fmap_app. set_solver. }
  split; [exact Hres|]. cbn in Hst, Heq. cbn. rewrite Hst. cbn.
  by eapply snoc_remove_first.
Qed.

(** C40. The pattern language, for ASCII hosts and patterns and ports without a
    colon.  The port of a pattern is compared exactly, and an empty one matches
    all; [*] matches every host, [*.d] the names that end in a dot and [d], and a
    host without stars itself up to case. *)
Theorem matchHostPort_patterns h p q d
    (Hp : x3a ∉ to_bytes p) (Hq : x3a ∉ to_bytes q)
    (Hh : ascii_string h = true) (Hd : ascii_string d = true) :
  (matchHostPort (request h p) (request "*" q) = true ↔ q = "*" ∨ q = "" ∨ q = p) ∧
  (matchHostPort (request h p) (request ("*." +:+ d) q) = true ↔
     (q = "" ∨ q = p) ∧ ∃ x, h = x +:+ "." +:+ d) ∧
  (isWildcardPattern d = false →
     matchHostPort (request h p) (request d q) = true ↔
       (q = "" ∨ q = p) ∧ lower <$> to_bytes h = lower <$> to_bytes d).
Proof.
  rewrite !matchHostPort_request by done. split; [|split].
  - rewrite orb_true_iff, !andb_true_iff, orb_true_iff, !bool_decide_eq_true.
    change (host_matches h "*") with true. naive_solver.
  - rewrite (bool_decide_eq_false_2 ("*." +:+ d = "*")), orb_false_l by done.
    by rewrite andb_true_iff, orb_true_iff, !bool_decide_eq_true, host_matches_star.
  - intros Hw. rewrite host_matches_plain by done.
    rewrite (bool_decide_eq_false_2 (d = "*")), orb_false_l by (by intros ->).
    by rewrite andb_true_iff, orb_true_iff, !bool_decide_eq_true, EqualFold_ascii.
Qed.

(** [**.d] does not match the domain [d] itself, on any port: it is no
    wider than [*.d] there. *)
Theorem doublestar_misses_apex d p q
    (Hp : x3a ∉ to_bytes p) (Hq : x3a ∉ to_bytes q) (Hd : ascii_string d = true) :
  matchHostPort (request d p) (request ("**." +:+ d) q) = false.
Proof.
  rewrite matchHostPort_request by done.
  rewrite (bool_decide_eq_false_2 ("**." +:+ d = "*")), orb_false_l by done.
  apply andb_false_iff. right. apply not_true_iff_false.
  rewrite host_matches_doublestar. intros [[x Hx%(f_equal to_bytes)]|Hf].
  - apply (f_equal length) in Hx. rewrite !to_bytes_app, !length_app in Hx.
    change (length (to_bytes ".")) with 1 in Hx. lia.
  - apply EqualFold_ascii_length in Hf; [|done|].
    + rewrite to_bytes_app, length_app in Hf.
      change (length (to_bytes "**.")) with 3 in Hf. lia.
    + unfold ascii_string in *. by rewrite to_bytes_app, forallb_app, Hd.
Qed.

(** A rule that lists one resource without a star ranks as exact for
    everything it matches: together with [*:port] it allows every host on
    that port, over any exact deny rule. *)
Theorem mixed_rule_overrides_exact_deny pe r res h p sb
    (Hmode : defaultMode pe = "balanced") (Hp : x3a ∉ to_bytes p)
    (Hin : r ∈ rules pe) (Hallow : RuleDecision r = "allow") (Hscope : RuleScope r = "")
    (Hstar : request "*" p ∈ elems (RuleResources r))
    (Hres : res ∈ elems (RuleResources r)) (Hexact : isWildcardPattern res = false) :
  (Evaluate pe h p sb).1 = DecisionAllow.
Proof.
  apply Evaluate_allow_classes; [done|]. left. apply has_class_true.
  exists r. split; [done|]. split.
  - apply applies_true. split; [by left|]. exists (request "*" p). split; [done|].
    rewrite matchHostPort_request by done. rewrite (bool_decide_eq_true_2 (p = p)) by done.
    change (host_matches h "*") with true. by rewrite orb_true_r, orb_true_r.
  - unfold classify. rewrite decide_True by done.
    assert (ruleIsExact r = true) as ->; [|done].
    unfold ruleIsExact. apply existsb_exists. exists res.
    by rewrite <- list_elem_of_In, Hexact.
Qed.

(** Removing by name: nothing changes when no rule has the name, and
    otherwise exactly the first rule of that name goes. *)
Theorem RemoveRule_spec id pe tr :
  let pe' := state_after (RemoveRule id) pe tr in
  if result (RemoveRule id) pe tr
  then ∃ l1 r l2, rules pe = l1 ++ (r :: l2) ∧ RuleID r = id ∧ (id ∉ RuleID <$> l1) ∧
         rules pe' = l1 ++ l2 ∧ nextID pe' = nextID pe
  else (id ∉ RuleID <$> rules pe) ∧ pe' = pe.
Proof.
  cbv zeta. destruct (RemoveRule_cases id pe tr)
    as [(-> & -> & Hno)|(-> & l1 & r & l2 & Heq & Hid & Hl1 & ->)]; [done|].
  by exists l1, r, l2.
Qed.

(** Persistence: an operation either leaves engine and disk alone or
    ends by writing the rules it leaves in force to the rules file. *)
Theorem operations_persist op pe tr :
  let pe' := state_after (apply_op op) pe tr in
  (pe' = pe ∧ trace_after (apply_op op) pe tr = tr) ∨
  trace_after (apply_op op) pe tr
    = tr ++ [WriteFile (policyPath pe) (marshal_indent (rules_json (rules pe'))) 420].
Proof.
  destruct op as [rs|name dec res sc|id]; [by right..|].
  unfold state_after, trace_after. cbn. unfold mbind, M_bind. rewrite RemoveRule_run.
  destruct (list_find _ _) as [[i r]|]; [by right|by left].
Qed.
End Properties.

(** ** Concrete instances *)

Definition demo_rule : Rule :=
  mkRule "rule-3" "allow" "allow" ["*.example.com:443"] "".

Definition demo_engine : Engine :=
  mkEngine (defaultRules ++ [demo_rule]) 4 "/p/rules.json" "balanced".

#[local] Existing Instance no_unicode_folding.
#[local] Existing Instance quiet_world.

Lemma demo_reachable :
  rtc engine_step (mkEngine defaultRules 3 "/p/rules.json" "balanced") demo_engine.
Proof.
  apply rtc_once.
  exact (engine_step_op (mkEngine defaultRules 3 "/p/rules.json" "balanced")
           (OpAdd "allow" "allow" ["*.example.com:443"] "") []).
Defined.

Lemma demo_counted :
  rtc counted_step (mkEngine defaultRules 3 "/p/rules.json" "balanced") demo_engine.
Proof.
  apply rtc_once.
  exact (counted_step_op (mkEngine defaultRules 3 "/p/rules.json" "balanced")
           (OpAdd "allow" "allow" ["*.example.com:443"] "") [] eq_refl).
Defined.

Lemma demo_engine_ok : engine_ok demo_engine.
Proof. exact (engine_ok_reachable _ _ (engine_ok_initial _) demo_counted). Defined.

Lemma Evaluate_allow_iff_witness :
  (∃ r, r ∈ rules demo_engine ∧ applies (request "a.example.com" "443") "s" r = true ∧
        classify r = Some ExactAllow) ∨
  ((¬ ∃ r, r ∈ rules demo_engine ∧ applies (request "a.example.com" "443") "s" r = true ∧
           classify r = Some ExactDeny) ∧
   (∃ r, r ∈ rules demo_engine ∧ applies (request "a.example.com" "443") "s" r = true ∧
         classify r = Some WildcardAllow)).
Proof.
  apply (Evaluate_allow_iff demo_engine "a.example.com" "443" "s" eq_refl).
  vm_compute. reflexivity.
Defined.

Lemma Evaluate_allow_has_rule_witness :
  ∃ r pattern, r ∈ rules demo_engine ∧ RuleDecision r = "allow" ∧
    (RuleScope r = "" ∨ RuleScope r = "s") ∧ pattern ∈ elems (RuleResources r) ∧
    matchHostPort (request "a.example.com" "443") pattern = true.
Proof.
  apply (Evaluate_allow_has_rule
           (mkEngine defaultRules 3 "/p/rules.json" "balanced") demo_engine).
  - exists unit, (), "/p", []. vm_compute. reflexivity.
  - exact demo_reachable.
  - vm_compute. reflexivity.
Defined.

Lemma Evaluate_reports_last_witness :
  ∃ before r, applying (request "a.example.com" "443") "s" "allow" (rules demo_engine)
                = before ++ [r] ∧ "rule-3" = RuleID r.
Proof. exact (Evaluate_reports_last demo_engine "a.example.com" "443" "s" eq_refl). Defined.

Lemma Evaluate_permutation_witness :
  (Evaluate (set_rules (demo_rule :: defaultRules) 4 demo_engine) "a.example.com" "443" "s").1
  = DecisionAllow.
Proof.
  etrans; [apply (Evaluate_permutation demo_engine (demo_rule :: defaultRules))|].
  - reflexivity.
  - symmetry. apply Permutation_cons_append.
  - vm_compute. reflexivity.
Defined.

Lemma wildcard_deny_inert_witness :
  (Evaluate (set_rules (filter (λ r, classify r ≠ Some WildcardDeny) (rules demo_engine))
               (nextID demo_engine) demo_engine) "other.org" "443" "s").1 = DecisionDeny.
Proof.
  etrans; [apply (wildcard_deny_inert demo_engine); reflexivity|].
  vm_compute. reflexivity.
Defined.


Lemma AddRule_RemoveRule_witness :
  rules (state_after (RemoveRule "rule-4")
    (state_after (AddRule "deny" "deny" ["x:1"] "s") demo_engine []) []) = rules demo_engine.
Proof. exact (proj2 (proj2 (AddRule_RemoveRule demo_engine "deny" "deny" ["x:1"] "s" [] demo_engine_ok))). Defined.

Lemma matchHostPort_patterns_witness :
  matchHostPort (request "a.example.com" "443") (request ("*." +:+ "example.com") "443") = true.
Proof.
  apply (matchHostPort_patterns "a.example.com" "443" "443" "example.com");
    [decide_closed|decide_closed|reflexivity..|].
  split; [by right|]. by exists "a".
Defined.

Lemma doublestar_misses_apex_witness :
  matchHostPort (request "example.com" "443") (request ("**." +:+ "example.com") "443") = false.
Proof.
  apply doublestar_misses_apex; [decide_closed..|reflexivity].
Defined.

Lemma mixed_rule_overrides_exact_deny_witness :
  (Evaluate (mkEngine
     [mkRule "rule-1" "deny" "deny" ["evil.org:443"] "";
      mkRule "rule-2" "allow" "allow" ["*:443"; "good.org:80"] ""] 3 "" "balanced")
     "evil.org" "443" "s").1 = DecisionAllow.
Proof.
  apply (mixed_rule_overrides_exact_deny _
    (mkRule "rule-2" "allow" "allow" ["*:443"; "good.org:80"] "") "good.org:80"); try reflexivity.
  - decide_closed.
  - right. left.
  - left.
  - right. left.
Defined.
