(* ===== verification/Http.v ===== *)
(** * [net/http] and [net/url]: requests, responses, headers

    The header operations of [http.Header], the requests that the container
    manager sends to the Docker Engine, and status texts. *)
From S2P Require Export World.

(** ** Headers *)

Definition Header_Get (h : Header) (k : string) : string :=
  match h !! k with Some (v :: _) => v | _ => "" end.
Definition Header_Set (h : Header) (k v : string) : Header := <[k := [v]]> h.
Definition Header_Add (h : Header) (k v : string) : Header :=
  <[k := default [] (h !! k) ++ [v]]> h.
Definition Header_Del (h : Header) (k : string) : Header := delete k h.

(** ** [http.NewRequest]

    The URLs that dandbox builds start with [http://localhost/] or
    [http://127.0.0.1], so parsing can fail for three reasons: a control byte
    before the fragment, or a malformed escape in the path or the fragment. *)

Definition ctl_byte (b : byte) : bool := (b2z b <? 32)%Z || (b2z b =? 127)%Z.

Definition hex_byte (b : byte) : bool := bool_decide (is_Some (hex_value b)).

Fixpoint escapes_ok (l : bytes) : bool :=
  match l with
  | [] => true
  | b :: l' =>
      (if Byte.eqb b x25
       then match l' with c :: d :: _ => hex_byte c && hex_byte d | _ => false end
       else true) && escapes_ok l'
  end.

(** [strings.Cut]: what precedes the first [c], and what follows it. *)
Fixpoint cut (c : byte) (l : bytes) : bytes * bytes :=
  match l with
  | [] => ([], [])
  | b :: l' => if decide (b = c) then ([], l') else let '(x, y) := cut c l' in (b :: x, y)
  end.

Definition url_ok (url : string) : bool :=
  let '(u, fragment) := cut x23 (to_bytes url) in
  let '(path, _) := cut x3f u in
  negb (existsb ctl_byte u) && escapes_ok path && escapes_ok fragment.

(** The text of the error for a URL that does not parse. *)
Class UrlErrors := url_error : string → string.

Section NewRequest.
Context `{UrlErrors} {S : Type}.

Definition NewRequest (method url : string) (headers : list (string * string)) (body : bytes)
    : M S (string + HttpRequest) :=
  mret (if url_ok url then inr (mkHttpRequest method url headers body) else inl (url_error url)).

(** [client.Do(req)] and [client.Get(url)]. *)
Definition Do `{World} (req : HttpRequest) : M S (string + HttpResponse) := call (HttpDo req).

Definition Get `{World} (url : string) : M S (string + HttpResponse) :=
  req ←[id] NewRequest "GET" url [] []; Do req.
End NewRequest.

(** What code sends after [NewRequest] is the request it built. *)
Section OnlyRequests.
Context `{UrlErrors, World} {S : Type} (P : Ext → Prop).

Lemma only_new_request {A} w method url hs body (k : HttpRequest → M S (string + A)) :
  only P (k (mkHttpRequest method url hs body)) →
  only P (try_bind w (NewRequest method url hs body) k).
Proof.
  intros Hk s tr. unfold NewRequest, trace_after. rewrite try_run, ret_run.
  destruct (url_ok url); [apply Hk|]. exists []. by rewrite (right_id_L [] (++)).
Qed.

Lemma only_do req : P (HttpDo req) → only P (Do req : M S _).
Proof. apply only_call. Qed.

Lemma only_http_get url :
  P (HttpDo (mkHttpRequest "GET" url [] [])) → only P (Get url : M S _).
Proof. intros HP. by apply only_new_request, only_do. Qed.
End OnlyRequests.

#[export] Hint Resolve only_new_request only_do only_http_get : effects.

Example url_examples :
  (url_ok "http://localhost/v1.54/containers/abc/json",
   url_ok "http://localhost/v1.54/images/a%zz/json",
   url_ok (of_bytes (to_bytes "http://localhost/" ++ [x0a])),
   url_ok "http://localhost/x?y=%zz") = (true, false, false, true).
Proof. by vm_compute. Qed.

(** ** Status texts *)

Definition status_texts : list (Z * string) :=
  [ (100%Z, "Continue"); (101%Z, "Switching Protocols");
    (102%Z, "Processing"); (103%Z, "Early Hints");
    (200%Z, "OK"); (201%Z, "Created");
    (202%Z, "Accepted"); (203%Z, "Non-Authoritative Information");
    (204%Z, "No Content"); (205%Z, "Reset Content");
    (206%Z, "Partial Content"); (207%Z, "Multi-Status");
    (208%Z, "Already Reported"); (226%Z, "IM Used");
    (300%Z, "Multiple Choices"); (301%Z, "Moved Permanently");
    (302%Z, "Found"); (303%Z, "See Other");
    (304%Z, "Not Modified"); (305%Z, "Use Proxy");
    (307%Z, "Temporary Redirect"); (308%Z, "Permanent Redirect");
    (400%Z, "Bad Request"); (401%Z, "Unauthorized");
    (402%Z, "Payment Required"); (403%Z, "Forbidden");
    (404%Z, "Not Found"); (405%Z, "Method Not Allowed");
    (406%Z, "Not Acceptable"); (407%Z, "Proxy Authentication Required");
    (408%Z, "Request Timeout"); (409%Z, "Conflict");
    (410%Z, "Gone"); (411%Z, "Length Required");
    (412%Z, "Precondition Failed"); (413%Z, "Request Entity Too Large");
    (414%Z, "Request URI Too Long"); (415%Z, "Unsupported Media Type");
    (416%Z, "Requested Range Not Satisfiable"); (417%Z, "Expectation Failed");
    (418%Z, "I'm a teapot"); (421%Z, "Misdirected Request");
    (422%Z, "Unprocessable Entity"); (423%Z, "Locked");
    (424%Z, "Failed Dependency"); (425%Z, "Too Early");
    (426%Z, "Upgrade Required"); (428%Z, "Precondition Required");
    (429%Z, "Too Many Requests"); (431%Z, "Request Header Fields Too Large");
    (451%Z, "Unavailable For Legal Reasons"); (500%Z, "Internal Server Error");
    (501%Z, "Not Implemented"); (502%Z, "Bad Gateway");
    (503%Z, "Service Unavailable"); (504%Z, "Gateway Timeout");
    (505%Z, "HTTP Version Not Supported"); (506%Z, "Variant Also Negotiates");
    (507%Z, "Insufficient Storage"); (508%Z, "Loop Detected");
    (510%Z, "Not Extended"); (511%Z, "Network Authentication Required") ].

(** [http.StatusText]. *)
Definition StatusText (code : Z) : string :=
  match list_find (λ p, p.1 = code) status_texts with
  | Some (_, (_, text)) => text
  | None => ""
  end.

Example status_text_examples : (StatusText 403, StatusText 599) = ("Forbidden", "").
Proof. by vm_compute. Qed.
