(* ===== verification/Secrets.v ===== *)
(** * [internal/secrets]: sentinel replacement and redaction

    [SecretManager] is [secrets.SecretManager].  Requests and responses that
    pass through the proxy have every sentinel replaced by the secret's value;
    header values copied to the client have the values redacted. *)
From S2P Require Export Http.

(** ** Data *)

Record CustomSecret := mkCustomSecret {
  Target : string;
  EnvName : string;
  Sentinel : string;
  Value : string;
}.

#[export] Instance CustomSecret_eq_dec : EqDecision CustomSecret.
Proof. solve_decision. Defined.

Record SecretManager := mkSecretManager { secrets : list CustomSecret }.

Definition NewSecretManager : SecretManager := mkSecretManager [].

Definition secret_json (s : CustomSecret) : Json :=
  JObj [("target", JStr (Target s)); ("env_name", JStr (EnvName s));
        ("sentinel", JStr (Sentinel s)); ("value", JStr (Value s))].

Definition secrets_json (ss : list CustomSecret) : Json := JArr (secret_json <$> ss).




(** ** Operations *)

Definition SetSecrets (ss : list CustomSecret) : M SecretManager unit :=
  put (mkSecretManager ss).

Definition GetSecrets : M SecretManager (list CustomSecret) :=
  sm ← get; mret (secrets sm).

(** One round of the loop of [ReplaceSentinelsInBody]. *)
Definition replaceInBody (result : bytes) (s : CustomSecret) : bytes :=
  if bool_decide (Sentinel s ≠ "") && containsb (to_bytes (Sentinel s)) result
  then replace_all (to_bytes (Sentinel s)) (to_bytes (Value s)) result
  else result.

Definition ReplaceSentinelsInBody (sm : SecretManager) (body : bytes) : bytes :=
  if decide (secrets sm = []) then body
  else foldl replaceInBody body (secrets sm).

(** One round of the inner loop of [ReplaceSentinelsInHeaders]. *)
Definition replaceInValue (newV : string) (s : CustomSecret) : string :=
  if bool_decide (Sentinel s ≠ "") && containsb (to_bytes (Sentinel s)) (to_bytes newV)
  then of_bytes (replace_all (to_bytes (Sentinel s)) (to_bytes (Value s)) (to_bytes newV))
  else newV.

Definition ReplaceSentinelsInHeaders (sm : SecretManager) (headers : Header) : Header :=
  if decide (secrets sm = []) then headers
  else
    fmap (M:=gmap string)
      (λ vals : list string, map (λ v, foldl replaceInValue v (secrets sm)) vals) headers.

Definition redactStep (redacted : string) (s : CustomSecret) : string :=
  if bool_decide (Value s ≠ "") && bool_decide (Value s ≠ Sentinel s)
     && Contains redacted (Value s)
  then ReplaceAll redacted (Value s) "[REDACTED]"
  else redacted.

Definition RedactSecretsInHeader (sm : SecretManager) (value : string) : string :=
  foldl redactStep value (secrets sm).

(** ** Specification: each secret in turn, leftmost occurrences first *)

Inductive replaced_by : list CustomSecret → bytes → bytes → Prop :=
  | replaced_by_nil b : replaced_by [] b b
  | replaced_by_empty s ss b r :
      Sentinel s = "" → replaced_by ss b r → replaced_by (s :: ss) b r
  | replaced_by_cons s ss b m r :
      Sentinel s ≠ "" → replaced (to_bytes (Sentinel s)) (to_bytes (Value s)) b m →
      replaced_by ss m r → replaced_by (s :: ss) b r.

(** ** Lemmas *)

Lemma to_bytes_nonempty s : s ≠ "" ↔ to_bytes s ≠ [].
Proof.
  split; intros H Heq; apply H; [|by subst].
  by rewrite <- (of_to_bytes s), Heq.
Qed.

Lemma replaceInBody_replaced b s :
  Sentinel s ≠ "" →
  replaced (to_bytes (Sentinel s)) (to_bytes (Value s)) b (replaceInBody b s).
Proof.
  intros Hs. pose proof (proj1 (to_bytes_nonempty _) Hs) as Hne.
  unfold replaceInBody. rewrite bool_decide_eq_true_2 by done. cbn.
  destruct (containsb _ _) eqn:E; [by apply replace_all_replaced|].
  apply replaced_id; [done|]. by apply containsb_false.
Qed.

Lemma replaceInBody_empty b s : Sentinel s = "" → replaceInBody b s = b.
Proof. intros Hs. unfold replaceInBody. by rewrite bool_decide_eq_false_2 by auto. Qed.

Lemma replaceInBody_all b s :
  Sentinel s ≠ "" →
  replaceInBody b s = replace_all (to_bytes (Sentinel s)) (to_bytes (Value s)) b.
Proof.
  intros Hs. apply replaced_replace_all; [by apply to_bytes_nonempty|].
  by apply replaceInBody_replaced.
Qed.

Lemma ReplaceSentinelsInBody_foldl sm b :
  ReplaceSentinelsInBody sm b = foldl replaceInBody b (secrets sm).
Proof. unfold ReplaceSentinelsInBody. by case_decide as H; [rewrite H|]. Qed.

Lemma replaceInValue_body v s :
  to_bytes (replaceInValue v s) = replaceInBody (to_bytes v) s.
Proof.
  unfold replaceInValue, replaceInBody.
  destruct (_ && _); [apply to_of_bytes|done].
Qed.

Lemma foldl_replaceInValue v ss :
  to_bytes (foldl replaceInValue v ss) = foldl replaceInBody (to_bytes v) ss.
Proof.
  revert v. induction ss as [|s ss IH]; intros v; [done|]. cbn.
  by rewrite IH, replaceInValue_body.
Qed.

(** An invariant of one round is an invariant of the loop. *)
Lemma foldl_preserves {A B} (P : A → Prop) (f : A → B → A) l a :
  (∀ a x, x ∈ l → P a → P (f a x)) → P a → P (foldl f a l).
Proof.
  revert a. induction l as [|x l IH]; intros a Hf Ha; [done|]. cbn.
  apply IH; [|by apply Hf; [left|]]. intros a' y Hy. apply Hf. by right.
Qed.

(** A round that establishes [P], among rounds that keep it. *)
Lemma foldl_establishes {A B} (P : A → Prop) (f : A → B → A) l a x :
  x ∈ l → (∀ a, P (f a x)) → (∀ a y, y ∈ l → P a → P (f a y)) → P (foldl f a l).
Proof.
  intros Hin Hx Hkeep. apply list_elem_of_split in Hin as (l1 & l2 & ->).
  rewrite foldl_app. cbn. apply foldl_preserves; [|apply Hx].
  intros a' y Hy. apply Hkeep. rewrite elem_of_app, elem_of_cons. tauto.
Qed.

Lemma replaceInBody_keeps_absent v b s :
  (Sentinel s ≠ "" → blocks v (to_bytes (Value s))) →
  ¬ v `infix_of` b → ¬ v `infix_of` (replaceInBody b s).
Proof.
  intros Hb Hno. destruct (decide (Sentinel s = "")) as [E|E].
  - by rewrite replaceInBody_empty.
  - by eapply replaced_absent; [apply Hb|apply replaceInBody_replaced|].
Qed.

Lemma redactStep_run v s :
  Value s ≠ "" → Value s ≠ Sentinel s →
  replaced (to_bytes (Value s)) (to_bytes "[REDACTED]") (to_bytes v) (to_bytes (redactStep v s)).
Proof.
  intros Hv Hs. pose proof (proj1 (to_bytes_nonempty _) Hv) as Hne.
  unfold redactStep. rewrite !bool_decide_eq_true_2 by done. cbn.
  destruct (Contains v (Value s)) eqn:E.
  - unfold ReplaceAll. rewrite to_of_bytes. by apply replace_all_replaced.
  - apply replaced_id; [done|]. by apply containsb_false.
Qed.

(** [v] cannot be spelled with the help of the redaction mark. *)
Definition redactable (v : string) : Prop :=
  v ≠ "" ∧ (x5b ∉ to_bytes v) ∧ (x5d ∉ to_bytes v) ∧ Contains "REDACTED" v = false.

Lemma redactable_blocks v :
  redactable v → blocks (to_bytes v) (to_bytes "[REDACTED]").
Proof.
  intros (Hv & Ha & Hb & Hmid).
  apply (blocks_bracketed _ x5b (to_bytes "REDACTED") x5d); [|done..|].
  - by apply to_bytes_nonempty.
  - by apply containsb_false.
Qed.

Lemma redactStep_keeps_absent v r s :
  redactable v → ¬ to_bytes v `infix_of` to_bytes r →
  ¬ to_bytes v `infix_of` to_bytes (redactStep r s).
Proof.
  intros Hv Hno. unfold redactStep. destruct (_ && _ && _) eqn:E; [|done].
  apply andb_true_iff in E as [[E1%bool_decide_eq_true _]%andb_true_iff _].
  unfold ReplaceAll. rewrite to_of_bytes.
  eapply replaced_absent; [by apply redactable_blocks| |done].
  apply replace_all_replaced. by apply to_bytes_nonempty.
Qed.

Lemma redacted_absent sm value s :
  s ∈ secrets sm → Value s ≠ Sentinel s → redactable (Value s) →
  Contains (RedactSecretsInHeader sm value) (Value s) = false.
Proof.
  intros Hin Hdiff Hred. apply containsb_false. unfold RedactSecretsInHeader.
  apply (foldl_establishes (λ r, ¬ to_bytes (Value s) `infix_of` to_bytes r) _ _ _ s Hin).
  - intros r. pose proof Hred as [Hne _].
    eapply replaced_removes; [by apply to_bytes_nonempty|by apply redactable_blocks|].
    by apply redactStep_run.
  - intros r t _. by apply redactStep_keeps_absent.
Qed.

(** ** Properties *)

(** C7. [ReplaceSentinelsInBody] is the specified replacement: the secrets in
    list order, each by one left-to-right pass over its occurrences; no other
    output satisfies the specification. *)
Theorem body_replacement_refines ss body r :
  replaced_by ss body r ↔ r = ReplaceSentinelsInBody (mkSecretManager ss) body.
Proof.
  rewrite ReplaceSentinelsInBody_foldl. cbn. split.
  - intros H. induction H as [b|s ss b r Hs H IH|s ss b m r Hs Hm H IH]; [done|..]; cbn.
    + by rewrite replaceInBody_empty.
    + apply replaced_replace_all in Hm; [|by apply to_bytes_nonempty].
      by rewrite replaceInBody_all, <- Hm.
  - intros ->. revert body. induction ss as [|s ss IH]; intros b; [constructor|].
    destruct (decide (Sentinel s = "")) as [E|E].
    + apply replaced_by_empty; [done|]. cbn. by rewrite replaceInBody_empty.
    + eapply replaced_by_cons; [done|by apply replaceInBody_replaced|apply IH].
Qed.

(** Traffic without sentinels passes through unchanged. *)
Theorem body_without_sentinels sm body
    (Hno : ∀ s, s ∈ secrets sm → Sentinel s ≠ "" →
             ¬ to_bytes (Sentinel s) `infix_of` body) :
  ReplaceSentinelsInBody sm body = body.
Proof.
  rewrite ReplaceSentinelsInBody_foldl. destruct sm as [ss]. cbn in *.
  induction ss as [|s ss IH]; [done|]. cbn.
  assert (replaceInBody body s = body) as ->.
  { destruct (decide (Sentinel s = "")) as [E|E]; [by apply replaceInBody_empty|].
    rewrite replaceInBody_all by done. apply replace_all_id.
    - by apply to_bytes_nonempty.
    - apply Hno; [by left|done]. }
  apply IH. intros s' Hin. apply Hno. by right.
Qed.

(** C8. No sentinel survives: when the values cannot help to spell the
    sentinels, the body that leaves the proxy contains none of them. *)
Theorem body_sentinels_gone sm body
    (Hsep : ∀ s t, s ∈ secrets sm → t ∈ secrets sm → Sentinel s ≠ "" → Sentinel t ≠ "" →
              blocks (to_bytes (Sentinel s)) (to_bytes (Value t))) :
  ∀ s, s ∈ secrets sm → Sentinel s ≠ "" →
    ¬ to_bytes (Sentinel s) `infix_of` ReplaceSentinelsInBody sm body.
Proof.
  intros s Hin Hs. rewrite ReplaceSentinelsInBody_foldl.
  apply (foldl_establishes (λ b, ¬ to_bytes (Sentinel s) `infix_of` b) _ _ _ s Hin).
  - intros b. eapply replaced_removes; [by apply to_bytes_nonempty|by apply Hsep|].
    by apply replaceInBody_replaced.
  - intros b t Ht. apply replaceInBody_keeps_absent. intros Hts. by apply Hsep.
Qed.

(** Headers and bodies are treated alike: the replaced headers have the
    same names, and each value is the body replacement of the old value. *)
Theorem headers_like_bodies sm headers k :
  ReplaceSentinelsInHeaders sm headers !! k =
    map (λ v, of_bytes (ReplaceSentinelsInBody sm (to_bytes v))) <$> headers !! k.
Proof.
  assert (∀ v, foldl replaceInValue v (secrets sm)
               = of_bytes (ReplaceSentinelsInBody sm (to_bytes v))) as Hv.
  { intros v. rewrite ReplaceSentinelsInBody_foldl, <- foldl_replaceInValue.
    by rewrite of_to_bytes. }
  unfold ReplaceSentinelsInHeaders. case_decide as Hnil.
  - destruct (headers !! k) as [vals|]; [|done]. cbn. f_equal.
    rewrite <- (map_id vals) at 1. apply map_ext. intros v. by rewrite <- Hv, Hnil.
  - rewrite lookup_fmap. destruct (headers !! k) as [vals|]; [|done]. cbn. f_equal.
    apply map_ext, Hv.
Qed.

(** C9. Redaction hides: a secret value that differs from its sentinel, holds
    no bracket and is not part of the word REDACTED, does not occur in the
    redacted text, whatever the other secrets are. *)
Theorem redaction_hides sm value s
    (Hin : s ∈ secrets sm) (Hdiff : Value s ≠ Sentinel s) (Hred : redactable (Value s)) :
  Contains (RedactSecretsInHeader sm value) (Value s) = false.
Proof. by apply redacted_absent. Qed.

(** The target host of a secret plays no part: retargeting every secret
    changes nothing in what is substituted, so every destination the policy
    allows receives the values. *)
Theorem target_ignored (f : CustomSecret → string) ss body headers :
  let retarget s := mkCustomSecret (f s) (EnvName s) (Sentinel s) (Value s) in
  ReplaceSentinelsInBody (mkSecretManager (map retarget ss)) body
    = ReplaceSentinelsInBody (mkSecretManager ss) body ∧
  ReplaceSentinelsInHeaders (mkSecretManager (map retarget ss)) headers
    = ReplaceSentinelsInHeaders (mkSecretManager ss) headers.
Proof.
  cbv zeta.
  assert (∀ b, ReplaceSentinelsInBody (mkSecretManager (map (λ s,
             mkCustomSecret (f s) (EnvName s) (Sentinel s) (Value s)) ss)) b
           = ReplaceSentinelsInBody (mkSecretManager ss) b) as Hb.
  { intros b. rewrite !ReplaceSentinelsInBody_foldl. cbn. revert b.
    induction ss as [|s ss IH]; intros b; [done|]. apply IH. }
  split; [apply Hb|].
  unfold ReplaceSentinelsInHeaders. destruct ss as [|s ss]; [done|].
  rewrite !decide_False by done. apply map_eq. intros k. rewrite !lookup_fmap.
  destruct (headers !! k) as [vals|]; [|done]. cbn. f_equal. apply map_ext. intros v.
  apply (inj to_bytes). rewrite !foldl_replaceInValue, !replaceInValue_body.
  specialize (Hb (to_bytes v)). rewrite !ReplaceSentinelsInBody_foldl in Hb. exact Hb.
Qed.

(** ** Concrete instances *)

Definition demo_secret : CustomSecret :=
  mkCustomSecret "api.example.com" "API_KEY" "SENTINEL_1" "sk-9f3".

Definition demo_secrets : SecretManager := mkSecretManager [demo_secret].

Lemma body_without_sentinels_witness :
  ReplaceSentinelsInBody demo_secrets (to_bytes "no placeholder") = to_bytes "no placeholder".
Proof.
  apply body_without_sentinels. intros s [->|Hs]%elem_of_cons Hne.
  - apply containsb_false. vm_compute. reflexivity.
  - by apply not_elem_of_nil in Hs.
Defined.

Lemma body_sentinels_gone_witness :
  ¬ to_bytes "SENTINEL_1" `infix_of`
      ReplaceSentinelsInBody demo_secrets (to_bytes "key=SENTINEL_1&again=SENTINEL_1").
Proof.
  apply (body_sentinels_gone demo_secrets _) with (s := demo_secret); [|by left|done].
  intros s t [->|Hs]%elem_of_cons [->|Ht]%elem_of_cons _ _;
    try (by apply not_elem_of_nil in Hs); try (by apply not_elem_of_nil in Ht).
  apply blocks_disjoint; [decide_closed..|].
  intros x Hx. revert x Hx. apply Forall_forall. decide_closed.
Defined.

Lemma redaction_hides_witness :
  Contains (RedactSecretsInHeader demo_secrets "Bearer sk-9f3") "sk-9f3" = false.
Proof.
  apply (redaction_hides demo_secrets _ demo_secret); [by left|done|].
  split; [done|]. split; [decide_closed|]. split; [decide_closed|]. vm_compute. reflexivity.
Defined.
