(* ===== verification/Base64.v ===== *)
(** * [encoding/base64], standard alphabet with padding

    The daemon ships the CA certificate and the reload payloads in base64; the
    container package decodes header values.  [decode] follows
    [StdEncoding.DecodeString]: line breaks are ignored, padding is required,
    the unused bits of the last quantum are not checked. *)
From S2P Require Export GoStrings.

Definition enc_char (n : Z) : byte :=
  if (n <? 26)%Z then z2b (65 + n)
  else if (n <? 52)%Z then z2b (71 + n)
  else if (n <? 62)%Z then z2b (n - 4)
  else if (n =? 62)%Z then x2b else x2f.

Definition dec_char (c : byte) : option Z :=
  let x := b2z c in
  if ((65 <=? x) && (x <=? 90))%Z then Some (x - 65)%Z
  else if ((97 <=? x) && (x <=? 122))%Z then Some (x - 71)%Z
  else if ((48 <=? x) && (x <=? 57))%Z then Some (x + 4)%Z
  else if (x =? 43)%Z then Some 62%Z
  else if (x =? 47)%Z then Some 63%Z
  else None.

(** The sextets of 24 bits, and back. *)
Definition sextet (v k : Z) : byte := enc_char (Z.land (Z.shiftr v k) 63).

Fixpoint encode (l : bytes) : bytes :=
  match l with
  | a :: b :: c :: r =>
      let v := Z.lor (Z.shiftl (b2z a) 16) (Z.lor (Z.shiftl (b2z b) 8) (b2z c)) in
      [sextet v 18; sextet v 12; sextet v 6; sextet v 0] ++ encode r
  | [a; b] =>
      let v := Z.lor (Z.shiftl (b2z a) 16) (Z.shiftl (b2z b) 8) in
      [sextet v 18; sextet v 12; sextet v 6; x3d]
  | [a] =>
      let v := Z.shiftl (b2z a) 16 in
      [sextet v 18; sextet v 12; x3d; x3d]
  | [] => []
  end.

Definition quantum (a b c d : Z) : Z :=
  Z.lor (Z.shiftl a 18) (Z.lor (Z.shiftl b 12) (Z.lor (Z.shiftl c 6) d)).

(** One quantum of four characters; padding only at the very end. *)
Definition decode_quad (a b c d : byte) (last : bool) : option bytes :=
  a' ← dec_char a; b' ← dec_char b;
  if decide (c = x3d) then
    if bool_decide (d = x3d) && last then Some [z2b (Z.shiftr (quantum a' b' 0 0) 16)] else None
  else
    c' ← dec_char c;
    if decide (d = x3d) then
      let v := quantum a' b' c' 0 in
      if last then Some [z2b (Z.shiftr v 16); z2b (Z.shiftr v 8)] else None
    else
      d' ← dec_char d;
      let v := quantum a' b' c' d' in
      Some [z2b (Z.shiftr v 16); z2b (Z.shiftr v 8); z2b v].

Fixpoint decode_quads (l : bytes) : option bytes :=
  match l with
  | [] => Some []
  | a :: b :: c :: d :: r =>
      q ← decode_quad a b c d (match r with [] => true | _ => false end);
      rest ← decode_quads r;
      Some (q ++ rest)
  | _ => None
  end.

Definition decode (l : bytes) : option bytes :=
  decode_quads (filter (λ c, c ≠ x0a ∧ c ≠ x0d) l).

Definition EncodeToString (b : bytes) : string := of_bytes (encode b).
Definition DecodeString (s : string) : option bytes := decode (to_bytes s).

Example base64_examples :
  (EncodeToString (to_bytes "hello"), DecodeString "aGVsbG8=", DecodeString "aGVsbG8",
   EncodeToString (to_bytes "any"), EncodeToString (to_bytes "a"))
  = ("aGVsbG8=", Some (to_bytes "hello"), None, "YW55", "YQ==").
Proof. by vm_compute. Qed.

(** ** Round trip *)

Lemma enc_char_dec n : (0 ≤ n < 64)%Z → dec_char (enc_char n) = Some n.
Proof.
  intros Hn.
  assert (Forall (λ k, dec_char (enc_char (Z.of_nat k)) = Some (Z.of_nat k)) (seq 0 64)) as Hall
    by decide_closed.
  rewrite Forall_forall in Hall. specialize (Hall (Z.to_nat n)).
  rewrite Z2Nat.id in Hall by lia. apply Hall, elem_of_seq. lia.
Qed.

Lemma enc_char_plain n :
  (0 ≤ n < 64)%Z → enc_char n ≠ x3d ∧ enc_char n ≠ x0a ∧ enc_char n ≠ x0d.
Proof.
  intros Hn.
  assert (Forall (λ k, enc_char (Z.of_nat k) ≠ x3d ∧ enc_char (Z.of_nat k) ≠ x0a
                       ∧ enc_char (Z.of_nat k) ≠ x0d) (seq 0 64)) as Hall
    by decide_closed.
  rewrite Forall_forall in Hall. specialize (Hall (Z.to_nat n)).
  rewrite Z2Nat.id in Hall by lia. apply Hall, elem_of_seq. lia.
Qed.

Lemma land63 v k : (0 ≤ k)%Z → Z.land (Z.shiftr v k) 63 = ((v `div` 2 ^ k) `mod` 64)%Z.
Proof. intros Hk. rewrite (Z.land_ones _ 6) by lia. by rewrite Z.shiftr_div_pow2. Qed.

Lemma sextet_dec v k : (0 ≤ k)%Z → dec_char (sextet v k) = Some ((v `div` 2 ^ k) `mod` 64)%Z.
Proof.
  intros Hk. unfold sextet. rewrite land63 by done. apply enc_char_dec.
  apply Z.mod_pos_bound. lia.
Qed.

Lemma sextet_plain v k :
  (0 ≤ k)%Z → sextet v k ≠ x3d ∧ sextet v k ≠ x0a ∧ sextet v k ≠ x0d.
Proof.
  intros Hk. unfold sextet. rewrite land63 by done. apply enc_char_plain.
  apply Z.mod_pos_bound. lia.
Qed.

Lemma quantum_add a b c d :
  (0 ≤ b < 64)%Z → (0 ≤ c < 64)%Z → (0 ≤ d < 64)%Z →
  quantum a b c d = (a * 2 ^ 18 + b * 2 ^ 12 + c * 2 ^ 6 + d)%Z.
Proof.
  intros. unfold quantum. rewrite (lor_shiftl c), (lor_shiftl b), (lor_shiftl a) by lia. lia.
Qed.

Lemma byte_of_div q k b :
  (0 ≤ k)%Z → ((q `div` 2 ^ k) `mod` 256 = b2z b)%Z → z2b (Z.shiftr q k) = b.
Proof.
  intros Hk H. rewrite Z.shiftr_div_pow2 by done. apply (inj b2z). by rewrite b2z_z2b.
Qed.

Lemma byte_of_mod q b : (q `mod` 256 = b2z b)%Z → z2b q = b.
Proof. intros H. apply (inj b2z). by rewrite b2z_z2b. Qed.

(** The arithmetic of one quantum. *)
Ltac zdiv := Z.to_euclidean_division_equations; lia.

Lemma quad_three a b c last :
  let v := Z.lor (Z.shiftl (b2z a) 16) (Z.lor (Z.shiftl (b2z b) 8) (b2z c)) in
  decode_quad (sextet v 18) (sextet v 12) (sextet v 6) (sextet v 0) last = Some [a; b; c].
Proof.
  intros v. pose proof (b2z_range a). pose proof (b2z_range b). pose proof (b2z_range c).
  assert (v = b2z a * 65536 + b2z b * 256 + b2z c)%Z as Hv.
  { unfold v. rewrite (lor_shiftl (b2z b)), lor_shiftl by lia. lia. }
  unfold decode_quad. rewrite !sextet_dec by lia. cbn [mbind option_bind].
  rewrite !decide_False by (by apply sextet_plain).
  cbv zeta. rewrite quantum_add by zdiv.
  rewrite (byte_of_div _ 16 a), (byte_of_div _ 8 b), (byte_of_mod _ c); [done|zdiv..].
Qed.

Lemma quad_two a b :
  let v := Z.lor (Z.shiftl (b2z a) 16) (Z.shiftl (b2z b) 8) in
  decode_quad (sextet v 18) (sextet v 12) (sextet v 6) x3d true = Some [a; b].
Proof.
  intros v. pose proof (b2z_range a). pose proof (b2z_range b).
  assert (v = b2z a * 65536 + b2z b * 256)%Z as Hv.
  { unfold v. rewrite (Z.shiftl_mul_pow2 (b2z b)), lor_shiftl by lia. lia. }
  unfold decode_quad. rewrite !sextet_dec by lia. cbn [mbind option_bind].
  rewrite decide_False by (by apply sextet_plain). rewrite decide_True by done.
  cbv zeta. rewrite quantum_add by zdiv.
  rewrite (byte_of_div _ 16 a), (byte_of_div _ 8 b); [done|zdiv..].
Qed.

Lemma quad_one a :
  let v := Z.shiftl (b2z a) 16 in
  decode_quad (sextet v 18) (sextet v 12) x3d x3d true = Some [a].
Proof.
  intros v. pose proof (b2z_range a).
  assert (v = b2z a * 65536)%Z as Hv.
  { unfold v. by rewrite Z.shiftl_mul_pow2 by lia. }
  unfold decode_quad. rewrite !sextet_dec by lia. cbn [mbind option_bind].
  rewrite decide_True by done. cbn [bool_decide andb].
  rewrite quantum_add by zdiv. rewrite (byte_of_div _ 16 a); [done|zdiv..].
Qed.

Lemma bytes_ind3 (P : bytes → Prop) :
  P [] → (∀ a, P [a]) → (∀ a b, P [a; b]) → (∀ a b c r, P r → P (a :: b :: c :: r)) →
  ∀ l, P l.
Proof.
  intros H0 H1 H2 H3.
  assert (∀ n l, length l ≤ n → P l) as H; [|by intros l; apply (H (length l))].
  induction n as [|n IH]; intros [|a [|b [|c r]]] Hl; cbn in Hl; auto; try lia.
  apply H3, IH. lia.
Qed.

Lemma encode_no_breaks l : Forall (λ c, c ≠ x0a ∧ c ≠ x0d) (encode l).
Proof.
  induction l as [|a|a b|a b c r IH] using bytes_ind3; cbn [encode app];
    repeat constructor; try (apply sextet_plain; lia); done.
Qed.

Lemma decode_quads_encode l : decode_quads (encode l) = Some l.
Proof.
  induction l as [|a|a b|a b c r IH] using bytes_ind3; [done|..]; cbn [encode app decode_quads].
  - by rewrite quad_one.
  - by rewrite quad_two.
  - by rewrite quad_three, IH.
Qed.

(** Decoding gives the encoded bytes back. *)
Lemma decode_encode l : decode (encode l) = Some l.
Proof.
  unfold decode. rewrite <- decode_quads_encode. f_equal.
  pose proof (encode_no_breaks l) as H. induction H as [|c r Hc _ IH]; [done|].
  by rewrite filter_cons_True, IH.
Qed.

Lemma DecodeString_EncodeToString b : DecodeString (EncodeToString b) = Some b.
Proof. unfold DecodeString, EncodeToString. rewrite to_of_bytes. apply decode_encode. Qed.
