(* ===== verification/Container.v ===== *)
(** * [internal/container]: the Docker container manager

    [Manager] is [container.Manager]; its operations are code that talks to the
    Docker Engine, the environment and the file system, over any state.  A
    method that returns an [error] returns [inl message] here; the contexts'
    deadlines show up as errors of the calls. *)
From S2P Require Export Base64 Http.

(** ** Data *)

Record Container := mkContainer {
  ID : string;
  Name : string;
  Image : string;
  Status : string;
  Running : bool;
  Sandbox : string;
  Ports : list string;
  ExitCode : Z;
  Error : string;
}.

#[export] Instance Container_eq_dec : EqDecision Container.
Proof. solve_decision. Defined.

Record Manager := mkManager {
  socketPath : string;
  dockerHost : string;
  dataDir : string;
  networkName : string;
}.

Definition NewManager (socketPath dataDir : string) : Manager :=
  mkManager socketPath ("unix://" +:+ socketPath) dataDir "sandbox-net".

Definition DockerSocketPath (m : Manager) : string := socketPath m.

(** ** Helpers *)

Definition dq : string := of_bytes [x22].
Definition jstrs (l : list string) : Json := JArr (JStr <$> l).

(** [fmt.Errorf("... failed (HTTP %d): %s", resp.StatusCode, body)]. *)
Definition http_failed (what : string) (resp : HttpResponse) : string :=
  what +:+ " failed (HTTP " +:+ Sprintf_d (StatusCode resp) +:+ "): " +:+ of_bytes (Body resp).

Definition status_in (codes : list Z) (resp : HttpResponse) : bool :=
  bool_decide (StatusCode resp ∈ codes).

Definition decode_body {A} `{JsonErrors} (target : string) (zero : A) (d : Dec A)
    (resp : HttpResponse) : string + A :=
  match BodyJson resp ≫= d zero with
  | Some x => inr x
  | None => inl (json_error target (Body resp))
  end.

(** What the code decodes of Docker's answers. *)
Record CreateResp := mkCreateResp { createID : string; createWarnings : list string }.
Record InspectState := mkInspectState {
  inspStatus : string; inspRunning : bool; inspExitCode : Z; inspError : string }.
Record InspectResp := mkInspectResp {
  inspID : string; inspName : string; inspImage : string; inspState : InspectState }.
Record ListPort := mkListPort { PrivatePort : Z; PublicPort : Z; PortType : string }.
Record ListEntry := mkListEntry {
  listID : string; listNames : list string; listImage : string; listState : string;
  listPorts : list ListPort }.
Record WaitResp := mkWaitResp { waitStatus : Z; waitError : string }.
Record NetworkEntry := mkNetworkEntry { netID : string; netName : string }.

Section Decoders.
Context `{UnicodeFold}.

Definition dec_create : Dec CreateResp := dec_struct
  [ field "Id" createID (λ v r, mkCreateResp v (createWarnings r)) dec_string;
    field "Warnings" createWarnings (λ v r, mkCreateResp (createID r) v) (dec_list "" dec_string) ].

Definition dec_inspect_state : Dec InspectState := dec_struct
  [ field "Status" inspStatus
      (λ v r, mkInspectState v (inspRunning r) (inspExitCode r) (inspError r)) dec_string;
    field "Running" inspRunning
      (λ v r, mkInspectState (inspStatus r) v (inspExitCode r) (inspError r)) dec_bool;
    field "ExitCode" inspExitCode
      (λ v r, mkInspectState (inspStatus r) (inspRunning r) v (inspError r)) dec_int;
    field "Error" inspError
      (λ v r, mkInspectState (inspStatus r) (inspRunning r) (inspExitCode r) v) dec_string ].

Definition dec_inspect : Dec InspectResp := dec_struct
  [ field "Id" inspID (λ v r, mkInspectResp v (inspName r) (inspImage r) (inspState r)) dec_string;
    field "Name" inspName (λ v r, mkInspectResp (inspID r) v (inspImage r) (inspState r)) dec_string;
    field "Image" inspImage (λ v r, mkInspectResp (inspID r) (inspName r) v (inspState r)) dec_string;
    field "State" inspState (λ v r, mkInspectResp (inspID r) (inspName r) (inspImage r) v)
      dec_inspect_state ].

Definition dec_port : Dec ListPort := dec_struct
  [ field "PrivatePort" PrivatePort (λ v r, mkListPort v (PublicPort r) (PortType r)) dec_int;
    field "PublicPort" PublicPort (λ v r, mkListPort (PrivatePort r) v (PortType r)) dec_int;
    field "Type" PortType (λ v r, mkListPort (PrivatePort r) (PublicPort r) v) dec_string ].

Definition dec_list_entry : Dec ListEntry := dec_struct
  [ field "Id" listID
      (λ v r, mkListEntry v (listNames r) (listImage r) (listState r) (listPorts r)) dec_string;
    field "Names" listNames
      (λ v r, mkListEntry (listID r) v (listImage r) (listState r) (listPorts r))
      (dec_list "" dec_string);
    field "Image" listImage
      (λ v r, mkListEntry (listID r) (listNames r) v (listState r) (listPorts r)) dec_string;
    field "State" listState
      (λ v r, mkListEntry (listID r) (listNames r) (listImage r) v (listPorts r)) dec_string;
    field "Ports" listPorts
      (λ v r, mkListEntry (listID r) (listNames r) (listImage r) (listState r) v)
      (dec_list (mkListPort 0 0 "") dec_port) ].

Definition dec_wait : Dec WaitResp := dec_struct
  [ field "StatusCode" waitStatus (λ v r, mkWaitResp v (waitError r)) dec_int;
    field "Error" waitError (λ v r, mkWaitResp (waitStatus r) v)
      (dec_struct [field "message" id (λ v _, v) dec_string]) ].

Definition dec_network : Dec NetworkEntry := dec_struct
  [ field "Id" netID (λ v r, mkNetworkEntry v (netName r)) dec_string;
    field "Name" netName (λ v r, mkNetworkEntry (netID r) v) dec_string ].
End Decoders.

(** ** Images and networks *)

Section Ops.
Context `{World, UrlErrors, JsonErrors, UnicodeFold} {St : Type}.

Definition json_headers : list (string * string) := [("Content-Type", "application/json")].

(** The request/response exchange that most operations share: build the
    request, send it, check the status. *)
Definition exchange (what failed method url : string) (headers : list (string * string))
    (codes : list Z) : M St (string + HttpResponse) :=
  req ←[id] NewRequest method url headers [];
  resp ←[String.append what] Do req;
  mret (if status_in codes resp then inr resp else inl (http_failed failed resp)).

Definition imageExists (m : Manager) (image : string) : M St (string + bool) :=
  resp ←[id] Get ("http://localhost/v1.54/images/" +:+ image +:+ "/json");
  mret (inr (bool_decide (StatusCode resp = 200%Z))).

Definition pullImage (m : Manager) (image : string) : M St (string + unit) :=
  exists_ ← imageExists m image;
  match exists_ with
  | inr true => mret (inr ())
  | _ =>
      _ ←[id] exchange "pull image: " "pull image" "POST"
        ("http://localhost/v1.54/images/create?fromImage=" +:+ image) [] [200%Z];
      mret (inr ())
  end.

Definition network_request (m : Manager) : Json :=
  JObj [("Driver", JStr "bridge");
        ("IPAM", JObj [("Config", JArr [JObj [("Subnet", JStr "172.28.0.0/16")]])]);
        ("Name", JStr (networkName m))].

Definition network_listed (m : Manager) (resp : HttpResponse) : bool :=
  bool_decide (StatusCode resp = 200%Z) &&
  match BodyJson resp ≫= dec_list (mkNetworkEntry "" "") dec_network [] with
  | Some networks => existsb (λ n, bool_decide (netName n = networkName m)) networks
  | None => false
  end.

Definition ensureNetwork (m : Manager) : M St (string + unit) :=
  resp ←[id] Get ("http://localhost/v1.54/networks?filters={" +:+ dq +:+ "name" +:+ dq +:+ ":["
                  +:+ dq +:+ networkName m +:+ dq +:+ "]}");
  if network_listed m resp then mret (inr ())
  else
    req ←[id] NewRequest "POST" "http://localhost/v1.54/networks/create" json_headers
      (marshal (network_request m));
    resp ←[id] Do req;
    mret (if status_in [201; 200]%Z resp then inr () else inl (http_failed "create network" resp)).

(** ** Creating containers *)

Definition readCA : M St string :=
  caPath ← call (Getenv "SBXSANDBOX_CA_CERT");
  if decide (caPath = "") then mret ""
  else
    r ← call (ReadFile caPath);
    mret (match r with inr data => of_bytes data | inl _ => "" end).

Definition proxyEnv : list string :=
  [ "HTTP_PROXY=http://host.docker.internal:3128";
    "HTTPS_PROXY=http://host.docker.internal:3128";
    "http_proxy=http://host.docker.internal:3128";
    "https_proxy=http://host.docker.internal:3128";
    "NO_PROXY=localhost,127.0.0.1,.local";
    "no_proxy=localhost,127.0.0.1,.local" ].

Definition caScript (caContent : string) : string :=
  if decide (caContent = "") then ""
  else
    "mkdir -p /usr/local/share/ca-certificates && " +:+
    "echo '" +:+ caContent +:+ "' > /usr/local/share/ca-certificates/sbx-ca.crt && " +:+
    "update-ca-certificates 2>/dev/null || true; ".

Definition iptablesScript : string :=
  "iptables -t nat -A OUTPUT -p tcp --dport 3128 -j ACCEPT 2>/dev/null; " +:+
  "iptables -t nat -A OUTPUT -p tcp -d 127.0.0.0/8 -j ACCEPT 2>/dev/null; " +:+
  "iptables -t nat -A OUTPUT -p tcp ! -d 127.0.0.0/8 -j REDIRECT --to-port 3128 2>/dev/null || true; " +:+
  "exec " +:+ dq +:+ "$@" +:+ dq.

Definition initScript (caContent : string) : string := caScript caContent +:+ iptablesScript.

(** [json.Marshal] of the request map: keys in byte order. *)
Definition create_request (m : Manager) (image : string) (args : slice string) (envVars : list string)
    (caContent : string) : Json :=
  JObj [("Cmd", JSlice JStr args);
        ("Entrypoint", jstrs ["/bin/sh"; "-c"; initScript caContent]);
        ("Env", jstrs (envVars ++ proxyEnv));
        ("HostConfig",
          JObj [("CapAdd", jstrs ["NET_ADMIN"; "NET_RAW"]);
                ("ExtraHosts", jstrs ["host.docker.internal:host-gateway"]);
                ("NetworkMode", JStr (networkName m));
                ("Privileged", JBool false)]);
        ("Image", JStr image)].

Definition create_url (sandboxName : string) : string :=
  "http://localhost/v1.54/containers/create?name=" +:+ "sbx-" +:+ sandboxName.

Definition created (image sandboxName : string) (resp : HttpResponse) : string + Container :=
  if status_in [201; 200]%Z resp then
    match decode_body "create" (mkCreateResp "" []) dec_create resp with
    | inl e => inl ("decode create response: " +:+ e)
    | inr r => inr (mkContainer (createID r) ("sbx-" +:+ sandboxName) image "created" false
                      sandboxName [] 0 "")
    end
  else inl (http_failed "create container" resp).

Definition CreateContainer (m : Manager) (image : string) (args : slice string) (envVars : list string)
    (sandboxName : string) : M St (string + Container) :=
  _ ←[String.append "ensure network: "] ensureNetwork m;
  _ ←[String.append ("pull image " +:+ image +:+ ": ")] pullImage m image;
  caContent ← readCA;
  req ←[String.append "create request: "]
    NewRequest "POST" (create_url sandboxName) json_headers
      (marshal (create_request m image args envVars caContent));
  resp ←[String.append "create container: "] Do req;
  mret (created image sandboxName resp).

Definition sshCommand (caContent : string) : list string :=
  [ "/bin/sh"; "-c";
    "mkdir -p /usr/local/share/ca-certificates && echo '" +:+ caContent +:+
    "' > /usr/local/share/ca-certificates/sbx-ca.crt && update-ca-certificates 2>/dev/null || true && exec "
    +:+ dq +:+ "$@" +:+ dq ].

Definition ssh_request (m : Manager) (image : string) (args : slice string) (envVars : list string)
    (sshAuthSock caContent : string) : Json :=
  JObj ((if decide (caContent = "") then [] else [("Cmd", jstrs (sshCommand caContent))]) ++
        [("Entrypoint", JSlice JStr args);
         ("Env", jstrs (proxyEnv ++ ["SSH_AUTH_SOCK=/tmp/ssh-agent.sock"] ++ envVars));
         ("HostConfig",
           JObj [("Binds", jstrs [sshAuthSock +:+ ":/tmp/ssh-agent.sock"]);
                 ("ExtraHosts", jstrs ["host.docker.internal:host-gateway"]);
                 ("NetworkMode", JStr (networkName m));
                 ("Privileged", JBool false)]);
         ("Image", JStr image)]).

Definition ForwardSSHAgent (m : Manager) (image : string) (args : slice string) (envVars : list string)
    (sandboxName : string) : M St (string + Container) :=
  sshAuthSock ← call (Getenv "SSH_AUTH_SOCK");
  if decide (sshAuthSock = "") then CreateContainer m image args envVars sandboxName
  else
    caContent ← readCA;
    req ←[id] NewRequest "POST" (create_url sandboxName) json_headers
      (marshal (ssh_request m image args envVars sshAuthSock caContent));
    resp ←[String.append "create container with SSH: "] Do req;
    mret (created image sandboxName resp).

(** ** Life cycle *)

Definition container_url (containerID action : string) : string :=
  "http://localhost/v1.54/containers/" +:+ containerID +:+ action.

Definition StartContainer (m : Manager) (containerID : string) : M St (string + unit) :=
  _ ←[id] exchange "start container: " "start container" "POST"
    (container_url containerID "/start") json_headers [204; 200; 304]%Z;
  mret (inr ()).

Definition StopContainer (m : Manager) (containerID : string) : M St (string + unit) :=
  _ ←[id] exchange "stop container: " "stop container" "POST"
    (container_url containerID "/stop") [] [204; 200; 304]%Z;
  mret (inr ()).

Definition RemoveContainer (m : Manager) (containerID : string) : M St (string + unit) :=
  _ ←[id] exchange "remove container: " "remove container" "DELETE"
    (container_url containerID "?force=true&v=true") [] [204; 200; 404]%Z;
  mret (inr ()).

Definition InspectContainer (m : Manager) (containerID : string) : M St (string + Container) :=
  resp ←[String.append "inspect container: "] Get (container_url containerID "/json");
  mret (if status_in [200%Z] resp then
          match decode_body "inspect" (mkInspectResp "" "" "" (mkInspectState "" false 0 ""))
                  dec_inspect resp with
          | inl e => inl ("decode inspect: " +:+ e)
          | inr r =>
              let st := inspState r in
              inr (mkContainer (inspID r) (TrimPrefix (inspName r) "/") (inspImage r)
                     (inspStatus st) (inspRunning st) "" [] (inspExitCode st) (inspError st))
          end
        else inl (http_failed "inspect container" resp)).

Definition list_container (c : ListEntry) : Container :=
  let name := match listNames c with n :: _ => TrimPrefix n "/" | [] => "" end in
  mkContainer (listID c) name (listImage c) (listState c) (bool_decide (listState c = "running"))
    "" ((λ p, Sprintf_d (PrivatePort p) +:+ "/" +:+ PortType p) <$> listPorts c) 0 "".

Definition ListContainers (m : Manager) : M St (string + list Container) :=
  resp ←[String.append "list containers: "]
    Get "http://localhost/v1.54/containers/json?all=true";
  mret (if status_in [200%Z] resp then
          match decode_body "list" [] (dec_list (mkListEntry "" [] "" "" []) dec_list_entry) resp with
          | inl e => inl ("decode list: " +:+ e)
          | inr l => inr (list_container <$> l)
          end
        else inl (http_failed "list containers" resp)).

(** The exit code and the error of [WaitForContainerExit]. *)
Definition WaitForContainerExit (m : Manager) (containerID : string) : M St (Z * error) :=
  r ← exchange "wait container: " "wait container" "POST"
        (container_url containerID "/wait") [] [200%Z];
  mret (match r with
        | inl e => ((-1)%Z, Some e)
        | inr resp =>
            match decode_body "wait" (mkWaitResp 0 "") dec_wait resp with
            | inl e => ((-1)%Z, Some ("decode wait response: " +:+ e))
            | inr w =>
                (waitStatus w,
                 if decide (waitError w = "") then None
                 else Some ("container error: " +:+ waitError w))
            end
        end).

(** ** Logs *)

(** The size field of a frame header, [raw[7] | raw[6]<<8 | raw[5]<<16 | raw[4]<<24]. *)
Definition frameSize (b4 b5 b6 b7 : byte) : Z :=
  Z.lor (Z.lor (Z.lor (b2z b7) (Z.shiftl (b2z b6) 8)) (Z.shiftl (b2z b5) 16))
        (Z.shiftl (b2z b4) 24).

(** The loop that strips the frame headers.  Every round but the last drops at
    least nine bytes, so the length of the input is enough fuel. *)
Fixpoint demux (fuel : nat) (raw : bytes) : bytes :=
  match fuel, raw with
  | S f, _ :: _ :: _ :: _ :: b4 :: b5 :: b6 :: b7 :: rest =>
      let n := Z.to_nat (Z.min (frameSize b4 b5 b6 b7) (Z.of_nat (length rest))) in
      match n with
      | O => []
      | _ => take n rest ++ demux f (drop n rest)
      end
  | _, _ => []
  end.

Definition strip_headers (raw : bytes) : bytes := demux (length raw) raw.

Definition GetContainerLogs (m : Manager) (containerID : string) (tail : Z) : M St (string + string) :=
  let tail := if (tail <=? 0)%Z then 100%Z else tail in
  resp ←[id] exchange "get logs: " "get logs" "GET"
    (container_url containerID ("/logs?stdout=true&stderr=true&tail=" +:+ Sprintf_d tail))
    [("Accept", "application/json")] [200%Z];
  mret (match BodyErr resp with
        | Some e => inl ("read logs: " +:+ e)
        | None => inr (of_bytes (strip_headers (Body resp)))
        end).

(** ** Host address, data directory *)

Fixpoint resolve (hosts : list string) : M St string :=
  match hosts with
  | [] => mret "host.docker.internal"
  | host :: rest =>
      r ← call (LookupHost host);
      match r with
      | inr (addr :: _) => mret addr
      | _ => resolve rest
      end
  end.

Definition ResolveHostIP : M St string :=
  resolve ["host.docker.internal"; "172.17.0.1"; "172.28.0.1"].

Definition EnsureDataDir (dataDir : string) : M St error :=
  dir ← (if decide (dataDir = "") then
           home ← call UserHomeDir;
           mret (match home with
                 | inl e => inl ("get home dir: " +:+ e)
                 | inr home => inr (Join [home; ".local"; "share"; "sbxsandbox"])
                 end)
         else mret (inr dataDir));
  match dir with
  | inl e => mret (Some e)
  | inr dir => call (MkdirAll dir 493)
  end.
End Ops.

(** ** Utilities *)

Definition SetRequestBody (r : Request) (body : bytes) : Request :=
  mkRequest (Method r) (ReqURL r) (ReqHost r) (RequestURI r) (ReqHeader r) (Some body)
    (Z.of_nat (length body)) (RemoteAddr r).

Definition ParseHostPort (hostPort : string) : string * string :=
  match LastIndex hostPort x3a with
  | Some idx => (slice_to hostPort idx, slice_from hostPort (idx + 1))
  | None => (hostPort, "80")
  end.

Definition DecodeBase64Header (encoded : string) : string :=
  match DecodeString encoded with Some b => of_bytes b | None => encoded end.

Definition IsClosedConnError (err : error) : bool :=
  match err with
  | None => false
  | Some s =>
      Contains s "use of closed network connection" || Contains s "broken pipe"
      || Contains s "connection reset" || Contains s "http: Server closed"
  end.

(** ** Lemmas: runs *)

Section Runs.
Context `{World, UrlErrors, JsonErrors, UnicodeFold} {St : Type}.

Definition exchanged (what failed : string) (codes : list Z) (r : string + HttpResponse)
    : string + HttpResponse :=
  match r with
  | inl e => inl (what +:+ e)
  | inr resp => if status_in codes resp then inr resp else inl (http_failed failed resp)
  end.

Lemma exchange_run what failed method url hs codes (s : St) tr :
  let e := HttpDo (mkHttpRequest method url hs []) in
  exchange what failed method url hs codes s tr =
  if url_ok url then (exchanged what failed codes (answer tr e), s, tr ++ [e])
  else (inl (url_error url), s, tr).
Proof.
  cbv zeta. unfold exchange, NewRequest, Do. rewrite try_run, ret_run.
  destruct (url_ok url); [|done]. autorewrite with run.
  cbn. by destruct (answer tr _).
Qed.

Lemma exchange_ok what failed method url hs codes (s : St) tr resp s' tr' :
  let e := HttpDo (mkHttpRequest method url hs []) in
  exchange what failed method url hs codes s tr = (inr resp, s', tr') ↔
  url_ok url = true ∧ answer tr e = inr resp ∧ StatusCode resp ∈ codes ∧
  s' = s ∧ tr' = tr ++ [e].
Proof.
  cbv zeta. rewrite exchange_run. unfold exchanged, status_in.
  destruct (url_ok url); [|naive_solver].
  destruct (answer tr _) as [e|r]; [naive_solver|].
  case_bool_decide; naive_solver.
Qed.

Lemma unit_exchange_ok what failed method url hs codes (s : St) tr s' tr' :
  let e := HttpDo (mkHttpRequest method url hs []) in
  try_bind id (exchange what failed method url hs codes) (λ _, mret (inr ())) s tr
    = (inr (), s', tr') ↔
  s' = s ∧ tr' = tr ++ [e] ∧ url_ok url = true ∧
  ∃ resp, answer tr e = inr resp ∧ StatusCode resp ∈ codes.
Proof.
  cbv zeta. rewrite try_run.
  pose proof (exchange_ok what failed method url hs codes s tr) as Hex. cbv zeta in Hex.
  destruct (exchange what failed method url hs codes s tr) as [[[e|r] s1] tr1] eqn:E.
  - split; [done|]. intros (-> & -> & Hu & resp & Ha & Hc).
    assert (exchange what failed method url hs codes s tr = (inr resp, s, tr ++ [HttpDo (mkHttpRequest method url hs [])])) as E2
      by (apply exchange_ok; auto). congruence.
  - apply exchange_ok in E as (Hu & Ha & Hc & -> & ->). rewrite ret_run. split.
    + intros [= <- <-]. split_and!; eauto.
    + by intros (-> & -> & _).
Qed.
End Runs.

(** ** Lemmas: log frames *)

(** A frame as the engine sends it. *)
Definition frame (kind : byte) (payload : bytes) : bytes :=
  let n := Z.of_nat (length payload) in
  [kind; x00; x00; x00; z2b (Z.shiftr n 24); z2b (Z.shiftr n 16); z2b (Z.shiftr n 8); z2b n]
  ++ payload.

Lemma frameSize_add b4 b5 b6 b7 :
  frameSize b4 b5 b6 b7
  = (b2z b4 * 2 ^ 24 + b2z b5 * 2 ^ 16 + b2z b6 * 2 ^ 8 + b2z b7)%Z.
Proof.
  pose proof (b2z_range b4). pose proof (b2z_range b5).
  pose proof (b2z_range b6). pose proof (b2z_range b7).
  unfold frameSize.
  rewrite (Z.lor_comm (b2z b7)), (Z.lor_comm _ (Z.shiftl (b2z b5) 16)), (Z.lor_comm _ (Z.shiftl (b2z b4) 24)).
  rewrite (lor_shiftl (b2z b6)), (lor_shiftl (b2z b5)), (lor_shiftl (b2z b4)) by lia. lia.
Qed.

Lemma frameSize_frame n :
  (0 ≤ n < 2 ^ 32)%Z →
  frameSize (z2b (Z.shiftr n 24)) (z2b (Z.shiftr n 16)) (z2b (Z.shiftr n 8)) (z2b n) = n.
Proof.
  intros Hn. rewrite frameSize_add, !b2z_z2b, !Z.shiftr_div_pow2 by lia.
  Z.to_euclidean_division_equations; lia.
Qed.

Lemma demux_step f b0 b1 b2 b3 b4 b5 b6 b7 rest :
  demux (S f) (b0 :: b1 :: b2 :: b3 :: b4 :: b5 :: b6 :: b7 :: rest) =
  let n := Z.to_nat (Z.min (frameSize b4 b5 b6 b7) (Z.of_nat (length rest))) in
  take n rest ++ (if decide (n = 0) then [] else demux f (drop n rest)).
Proof. cbn [demux]. cbv zeta. by destruct (Z.to_nat _). Qed.

Lemma demux_short f raw : length raw < 8 → demux f raw = [].
Proof.
  intros Hl. destruct f; [done|]. do 8 (destruct raw as [|? raw]; [done|]). cbn in Hl. lia.
Qed.




Lemma demux_prefix f raw extra :
  length raw ≤ f → demux f raw `prefix_of` demux (f + length extra) (raw ++ extra).
Proof.
  revert raw. induction f as [|f IH]; intros raw Hf.
  - destruct raw; [apply prefix_nil|cbn in Hf; lia].
  - destruct (decide (length raw < 8)) as [|Hlen]; [rewrite demux_short by done; apply prefix_nil|].
    destruct raw as [|b0 [|b1 [|b2 [|b3 [|b4 [|b5 [|b6 [|b7 rest]]]]]]]]; cbn in Hlen; try lia.
    cbn [app Nat.add]. rewrite !demux_step. cbv zeta. rewrite length_app. cbn in Hf.
    set (fs := frameSize b4 b5 b6 b7).
    destruct (decide (fs ≤ Z.of_nat (length rest))%Z) as [Hle|Hgt].
    + rewrite !Z.min_l by lia.
      rewrite take_app_le, drop_app_le by lia. apply prefix_app. case_decide; [apply prefix_nil|].
      apply IH. rewrite length_drop. lia.
    + rewrite (Z.min_r fs (Z.of_nat (length rest))), Nat2Z.id by lia.
      rewrite firstn_all, drop_all. rewrite take_app_ge by lia.
      replace (if decide (length rest = 0) then [] else demux f []) with (@nil byte)
        by (case_decide; [done|by destruct f]).
      rewrite app_nil_r, <- (assoc_L (++)). by eexists.
Qed.

(** ** Lemmas: what precedes a container's creation *)

Section Create.
Context `{World, UrlErrors, JsonErrors, UnicodeFold} {St : Type}.
Implicit Types (m : Manager) (s : St) (tr : trace).

Definition get_call (url : string) : Ext := HttpDo (mkHttpRequest "GET" url [] []).
Definition post_call (url : string) : Ext := HttpDo (mkHttpRequest "POST" url [] []).
Definition post_json_call (url : string) (j : Json) : Ext :=
  HttpDo (mkHttpRequest "POST" url json_headers (marshal j)).

Definition network_list_call m : Ext :=
  get_call ("http://localhost/v1.54/networks?filters={" +:+ dq +:+ "name" +:+ dq +:+ ":["
            +:+ dq +:+ networkName m +:+ dq +:+ "]}").
Definition network_create_call m : Ext :=
  post_json_call "http://localhost/v1.54/networks/create" (network_request m).
Definition image_inspect_call (image : string) : Ext :=
  get_call ("http://localhost/v1.54/images/" +:+ image +:+ "/json").
Definition image_pull_call (image : string) : Ext :=
  post_call ("http://localhost/v1.54/images/create?fromImage=" +:+ image).

(** Between [tr] and [tr'] the engine listed the sandbox network, or created
    it. *)
Definition network_ready m tr tr' : Prop :=
  ∃ resp, answer tr (network_list_call m) = inr resp ∧
    ((network_listed m resp = true ∧ tr' = tr ++ [network_list_call m]) ∨
     (∃ resp', answer (tr ++ [network_list_call m]) (network_create_call m) = inr resp' ∧
        StatusCode resp' ∈ [201; 200]%Z ∧
        tr' = tr ++ [network_list_call m; network_create_call m])).

(** Between [tr] and [tr'] the engine had the image, or pulled it. *)
Definition image_ready (image : string) tr tr' : Prop :=
  (∃ resp, answer tr (image_inspect_call image) = inr resp ∧ StatusCode resp = 200%Z ∧
           tr' = tr ++ [image_inspect_call image]) ∨
  (∃ pre resp, pre ∈ [[]; [image_inspect_call image]] ∧
     answer (tr ++ pre) (image_pull_call image) = inr resp ∧ StatusCode resp = 200%Z ∧
     tr' = tr ++ pre ++ [image_pull_call image]).

Lemma Get_run url s tr :
  Get url s tr = if url_ok url then (answer tr (get_call url), s, tr ++ [get_call url])
                 else (inl (url_error url), s, tr).
Proof.
  unfold Get, NewRequest, Do. rewrite try_run, ret_run. by destruct (url_ok url).
Qed.

Lemma ensureNetwork_ok m s tr s' tr' :
  ensureNetwork m s tr = (inr (), s', tr') → s' = s ∧ network_ready m tr tr'.
Proof.
  unfold ensureNetwork. rewrite try_run, Get_run. destruct (url_ok _); [|done].
  destruct (answer _ _) as [e|resp] eqn:Ha; [done|].
  destruct (network_listed m resp) eqn:Hl.
  - rewrite ret_run. intros [= <- <-]. split; [done|]. exists resp. auto.
  - unfold NewRequest, Do. rewrite !try_run, ret_run.
    change (url_ok "http://localhost/v1.54/networks/create") with true. cbv iota.
    rewrite try_run, call_run. destruct (answer (tr ++ _) _) as [e|resp'] eqn:Ha'; [done|].
    rewrite ret_run. unfold status_in. case_bool_decide as Hs; [|done].
    intros [= <- <-]. split; [done|]. exists resp. split; [done|]. right.
    exists resp'. rewrite <- (assoc_L (++)). done.
Qed.

Lemma pullImage_ok m image s tr s' tr' :
  pullImage m image s tr = (inr (), s', tr') → s' = s ∧ image_ready image tr tr'.
Proof.
  unfold pullImage, imageExists. rewrite bind_run, try_run, Get_run.
  assert (∀ pre, pre ∈ [[]; [image_inspect_call image]] →
    try_bind id (exchange "pull image: " "pull image" "POST"
        ("http://localhost/v1.54/images/create?fromImage=" +:+ image) [] [200%Z])
      (λ _, mret (inr ())) s (tr ++ pre) = (inr (), s', tr') →
    s' = s ∧ image_ready image tr tr') as Hpull.
  { intros pre Hpre (-> & -> & _ & resp & Ha & Hc)%unit_exchange_ok. split; [done|].
    right. exists pre, resp. rewrite <- (assoc_L (++)).
    apply list_elem_of_singleton in Hc. auto. }
  destruct (url_ok _).
  - destruct (answer _ _) as [e|resp] eqn:Ha.
    { apply Hpull. right. by left. }
    rewrite ret_run. case_bool_decide as Hc; [|apply Hpull; right; by left].
    rewrite ret_run. intros [= <- <-]. split; [done|].
    left. exists resp. auto.
  - rewrite <- (app_nil_r tr) at 1. apply Hpull. by left.
Qed.

Lemma readCA_state s tr : ∃ ca tr', readCA s tr = (ca, s, tr').
Proof.
  unfold readCA. rewrite bind_run, call_run. case_decide; [by eexists _, _|].
  rewrite bind_run, call_run. by destruct (answer (tr ++ _) _); eexists _, _.
Qed.
End Create.

(** The requests of [CreateContainer], one obligation each. *)
Section OnlyCreate.
Context `{World, UrlErrors, JsonErrors, UnicodeFold} {St : Type} (P : Ext → Prop).

Lemma only_exchange what failed method url hs codes :
  P (HttpDo (mkHttpRequest method url hs [])) →
  only P (exchange what failed method url hs codes : M St _).
Proof.
  intros HP. unfold exchange. apply only_new_request, only_try; [by apply only_do|].
  intros resp. apply only_ret.
Qed.

Lemma only_ensureNetwork m :
  P (network_list_call m) → P (network_create_call m) → only P (ensureNetwork m : M St _).
Proof.
  intros H1' H2'. unfold ensureNetwork. apply only_try; [by apply only_http_get|].
  intros resp. destruct (network_listed m resp); [apply only_ret|].
  apply only_new_request, only_try; [by apply only_do|intros; apply only_ret].
Qed.

Lemma only_pullImage m image :
  P (image_inspect_call image) → P (image_pull_call image) → only P (pullImage m image : M St _).
Proof.
  intros H1' H2'. unfold pullImage, imageExists. apply only_bind.
  - apply only_try; [by apply only_http_get|]. intros. apply only_ret.
  - assert (only P (try_bind id (exchange "pull image: " "pull image" "POST"
        ("http://localhost/v1.54/images/create?fromImage=" +:+ image) [] [200%Z])
        (λ _, mret (inr ())) : M St (string + unit))) as Hx.
    { apply only_try; [by apply only_exchange|]. intros. apply only_ret. }
    intros [e|[]]; [done|apply only_ret|done].
Qed.

Lemma only_readCA :
  (∀ k, P (Getenv k)) → (∀ p, P (ReadFile p)) → only P (readCA : M St string).
Proof.
  intros H1' H2'. unfold readCA. apply only_bind; [by refine (only_call P _ _)|]. intros p.
  case_decide; [apply only_ret|]. apply only_bind; [by refine (only_call P _ _)|].
  intros r. apply only_ret.
Qed.

Lemma only_CreateContainer m image args envVars sandboxName :
  P (network_list_call m) → P (network_create_call m) →
  P (image_inspect_call image) → P (image_pull_call image) →
  (∀ k, P (Getenv k)) → (∀ p, P (ReadFile p)) →
  (∀ ca, P (post_json_call (create_url sandboxName) (create_request m image args envVars ca))) →
  only P (CreateContainer m image args envVars sandboxName : M St _).
Proof.
  intros Hn Hc Hi Hp Hg Hf Hca. unfold CreateContainer.
  apply only_try; [exact (only_ensureNetwork m Hn Hc)|intros []].
  apply only_try; [exact (only_pullImage m image Hi Hp)|intros []].
  apply only_bind; [exact (only_readCA Hg Hf)|intros ca].
  apply only_new_request, only_try; [apply only_do, Hca|intros; apply only_ret].
Qed.
End OnlyCreate.

(** ** Properties *)

Section Properties.
Context `{World, UrlErrors, JsonErrors, UnicodeFold} {St : Type}.
Implicit Types (m : Manager) (s : St) (tr : trace).

Lemma CreateContainer_inv m image args envVars sandboxName s tr c s' tr'
    (Hrun : CreateContainer m image args envVars sandboxName s tr = (inr c, s', tr')) :
  s' = s ∧ ∃ t1 t2 t3 ca resp r,
    network_ready m tr t1 ∧ image_ready image t1 t2 ∧ readCA s t2 = (ca, s, t3) ∧
    let e := post_json_call (create_url sandboxName)
               (create_request m image args envVars ca) in
    tr' = t3 ++ [e] ∧ answer t3 e = inr resp ∧ StatusCode resp ∈ [201; 200]%Z ∧
    BodyJson resp ≫= dec_create (mkCreateResp "" []) = Some r ∧
    c = mkContainer (createID r) ("sbx-" +:+ sandboxName) image "created" false sandboxName [] 0 "".
Proof.
  unfold CreateContainer in Hrun. rewrite try_run in Hrun.
  destruct (ensureNetwork m s tr) as [[[?|[]] s1] t1] eqn:E1; [done|].
  apply ensureNetwork_ok in E1 as [-> Hnet]. rewrite try_run in Hrun.
  destruct (pullImage m image s t1) as [[[?|[]] s2] t2] eqn:E2; [done|].
  apply pullImage_ok in E2 as [-> Himg]. rewrite bind_run in Hrun.
  destruct (readCA_state s t2) as (ca & t3 & E3). rewrite E3 in Hrun.
  unfold NewRequest, Do in Hrun. rewrite try_run, ret_run in Hrun.
  destruct (url_ok _); [|done]. rewrite try_run, call_run in Hrun.
  destruct (answer t3 _) as [e|resp] eqn:Ha; [done|]. rewrite ret_run in Hrun.
  injection Hrun as Hc <- <-. unfold created, status_in, decode_body in Hc.
  case_bool_decide as Hst; [|done].
  destruct (BodyJson resp ≫= _) as [r|] eqn:Hr; [|done]. injection Hc as <-.
  split; [done|]. exists t1, t2, t3, ca, resp, r. split_and!; done.
Qed.

(** Starting, stopping and removing a container each send one request, and
    succeed exactly when the engine answers it with one of the statuses the
    operation accepts: 304 (already started, already stopped) and, for
    removal, 404 (already gone) are successes. *)
Theorem lifecycle_status m containerID s tr :
  let one method action hs codes (r : (string + unit) * St * trace) :=
    let e := HttpDo (mkHttpRequest method (container_url containerID action) hs []) in
    r.1.1 = inr () ↔
    r.1.2 = s ∧ r.2 = tr ++ [e] ∧ url_ok (container_url containerID action) = true ∧
    ∃ resp, answer tr e = inr resp ∧ StatusCode resp ∈ codes in
  one "POST" "/start" json_headers [204; 200; 304]%Z (StartContainer m containerID s tr) ∧
  one "POST" "/stop" [] [204; 200; 304]%Z (StopContainer m containerID s tr) ∧
  one "DELETE" "?force=true&v=true" [] [204; 200; 404]%Z (RemoveContainer m containerID s tr).
Proof.
  assert (∀ what failed method url hs codes,
    let r := try_bind id (exchange what failed method url hs codes)
               (λ _, mret (M:=M St) (inr ())) s tr in
    let e := HttpDo (mkHttpRequest method url hs []) in
    r.1.1 = inr () ↔ r.1.2 = s ∧ r.2 = tr ++ [e] ∧ url_ok url = true ∧
      ∃ resp, answer tr e = inr resp ∧ StatusCode resp ∈ codes) as Hone.
  { intros what failed method url hs codes r e.
    destruct r as [[x s'] tr'] eqn:E. subst r. cbn. split.
    - intros ->. by apply unit_exchange_ok in E.
    - intros Hr. apply (unit_exchange_ok what failed) in Hr. congruence. }
  split_and!; apply Hone.
Qed.

(** A container is only created once its network exists and its image is
    present: on success the engine has listed or created the sandbox network,
    then found or pulled the image, then answered the create request, which is
    the last call; the result carries the identifier the engine gave. *)
Theorem CreateContainer_success m image args envVars sandboxName s tr c s' tr'
    (Hrun : CreateContainer m image args envVars sandboxName s tr = (inr c, s', tr')) :
  s' = s ∧ ∃ t1 t2 t3 ca resp r,
    network_ready m tr t1 ∧ image_ready image t1 t2 ∧ readCA s t2 = (ca, s, t3) ∧
    let e := post_json_call (create_url sandboxName)
               (create_request m image args envVars ca) in
    tr' = t3 ++ [e] ∧ answer t3 e = inr resp ∧ StatusCode resp ∈ [201; 200]%Z ∧
    BodyJson resp ≫= dec_create (mkCreateResp "" []) = Some r ∧
    c = mkContainer (createID r) ("sbx-" +:+ sandboxName) image "created" false sandboxName [] 0 "".
Proof. by apply CreateContainer_inv. Qed.

Lemma network_ready_app m tr tr' : network_ready m tr tr' → ∃ new, tr' = tr ++ new.
Proof. intros (? & _ & [[_ ->]|(? & _ & _ & ->)]); by eexists. Qed.

Lemma image_ready_app image tr tr' : image_ready image tr tr' → ∃ new, tr' = tr ++ new.
Proof. intros [(? & _ & _ & ->)|(? & ? & _ & _ & _ & ->)]; by eexists. Qed.

Lemma readCA_app s tr ca tr' : readCA s tr = (ca, s, tr') → ∃ new, tr' = tr ++ new.
Proof.
  intros Hr. assert (only (λ _, True) (readCA : M St string)) as Ho by (by apply only_readCA).
  destruct (Ho s tr) as (new & Ht & _). unfold trace_after in Ht. rewrite Hr in Ht. by exists new.
Qed.

(** What the entry point of a confined container runs before the command: the
    installation of the CA certificate, when there is one. *)
Definition installs_ca (script : string) : Prop :=
  script = "" ∨ ∃ ca, ca ≠ "" ∧ script =
    "mkdir -p /usr/local/share/ca-certificates && echo '" +:+ ca +:+
    "' > /usr/local/share/ca-certificates/sbx-ca.crt && update-ca-certificates 2>/dev/null || true; ".

Lemma caScript_installs ca : installs_ca (caScript ca).
Proof. unfold caScript, installs_ca. case_decide; [by left|]. right. by exists ca. Qed.

(** C36. Whatever happens, every create request that [CreateContainer] sends asks
    for the sandbox network, an unprivileged container whose only added
    capabilities are NET_ADMIN and NET_RAW (which the entry point needs), the
    proxy's environment after the caller's, and an entry point that, after
    installing the CA certificate, if there is one, has iptables redirect the
    TCP traffic that does not go to port 3128 or to the loopback network to port
    3128 before it runs the command; and no container is returned without such
    a request.  (The other way to create one, with an SSH agent, is
    [ForwardSSHAgent_unconfined].) *)
Theorem CreateContainer_confined m image args envVars sandboxName s tr :
  let run := CreateContainer m image args envVars sandboxName s tr in
  let creates r := req_url r = "http://localhost/v1.54/containers/create?name=sbx-" +:+ sandboxName in
  ∃ new, run.2 = tr ++ new ∧
    (∀ r, HttpDo r ∈ new → creates r → ∃ install, installs_ca install ∧
      req_body r = marshal
        (JObj [("Cmd", JSlice JStr args);
               ("Entrypoint", jstrs ["/bin/sh"; "-c"; install +:+
                  "iptables -t nat -A OUTPUT -p tcp --dport 3128 -j ACCEPT 2>/dev/null; " +:+
                  "iptables -t nat -A OUTPUT -p tcp -d 127.0.0.0/8 -j ACCEPT 2>/dev/null; " +:+
                  "iptables -t nat -A OUTPUT -p tcp ! -d 127.0.0.0/8 -j REDIRECT --to-port 3128 2>/dev/null || true; " +:+
                  "exec " +:+ dq +:+ "$@" +:+ dq]);
               ("Env", jstrs (envVars ++
                  ["HTTP_PROXY=http://host.docker.internal:3128";
                   "HTTPS_PROXY=http://host.docker.internal:3128";
                   "http_proxy=http://host.docker.internal:3128";
                   "https_proxy=http://host.docker.internal:3128";
                   "NO_PROXY=localhost,127.0.0.1,.local";
                   "no_proxy=localhost,127.0.0.1,.local"]));
               ("HostConfig",
                 JObj [("CapAdd", jstrs ["NET_ADMIN"; "NET_RAW"]);
                       ("ExtraHosts", jstrs ["host.docker.internal:host-gateway"]);
                       ("NetworkMode", JStr (networkName m));
                       ("Privileged", JBool false)]);
               ("Image", JStr image)])) ∧
    ((∃ c, run.1.1 = inr c) → ∃ r, last new = Some (HttpDo r) ∧ creates r).
Proof.
  set (P e := match e with
              | HttpDo r => req_url r = create_url sandboxName → ∃ ca,
                  req_body r = marshal (create_request m image args envVars ca)
              | _ => True
              end).
  assert (∀ method url hs body, url ≠ create_url sandboxName →
    P (HttpDo (mkHttpRequest method url hs body))) as Hother by (by intros ???? Hne Heq).
  assert (only P (CreateContainer m image args envVars sandboxName : M St _)) as Honly.
  { apply only_CreateContainer; try apply Hother; try done. intros ca _. by exists ca. }
  intros run creates. destruct (Honly s tr) as (new & Ht & Hnew). exists new. split; [done|]. split.
  - intros r Hr Hu. rewrite Forall_forall in Hnew. destruct (Hnew _ Hr Hu) as [ca ->].
    exists (caScript ca). split; [apply caScript_installs|reflexivity].
  - intros [c Hc]. destruct run as [[r s'] tr'] eqn:Hrun. cbn in Hc. subst r.
    pose proof Hrun as Hinv.
    apply CreateContainer_inv in Hinv as
      (_ & t1 & t2 & t3 & ca & resp & r & Hnet & Himg & Hca & Htr & _).
    eexists (mkHttpRequest _ _ _ _). split; [|reflexivity].
    unfold trace_after in Ht. fold run in Ht. rewrite Hrun in Ht. cbn in Ht.
    apply network_ready_app in Hnet as [k1 ->]. apply image_ready_app in Himg as [k2 ->].
    apply readCA_app in Hca as [k3 ->]. rewrite Htr, <- !(assoc_L (++)) in Ht.
    apply app_inv_head in Ht as <-. by rewrite !(assoc_L (++)), last_snoc.
Qed.

(** With an SSH agent the container bypasses all of that: the calls are the
    environment, the CA file if there is one, and a create request whose entry
    point is the user's command, without capabilities and without the script
    that redirects traffic; neither network nor image is looked at. *)
Theorem ForwardSSHAgent_unconfined m image args envVars sandboxName s tr
    (Hsock : answer tr (Getenv "SSH_AUTH_SOCK") ≠ "") (Hurl : url_ok (create_url sandboxName) = true) :
  let sock := answer tr (Getenv "SSH_AUTH_SOCK") in
  let t1 := tr ++ [Getenv "SSH_AUTH_SOCK"] in
  let caPath := answer t1 (Getenv "SBXSANDBOX_CA_CERT") in
  ∃ ca,
    trace_after (ForwardSSHAgent m image args envVars sandboxName) s tr
    = t1 ++ [Getenv "SBXSANDBOX_CA_CERT"]
         ++ (if decide (caPath = "") then [] else [ReadFile caPath])
         ++ [post_json_call (create_url sandboxName)
               (JObj ((if decide (ca = "") then [] else [("Cmd", jstrs (sshCommand ca))]) ++
                  [("Entrypoint", JSlice JStr args);
                   ("Env", jstrs (proxyEnv ++ ["SSH_AUTH_SOCK=/tmp/ssh-agent.sock"] ++ envVars));
                   ("HostConfig",
                     JObj [("Binds", jstrs [sock +:+ ":/tmp/ssh-agent.sock"]);
                           ("ExtraHosts", jstrs ["host.docker.internal:host-gateway"]);
                           ("NetworkMode", JStr (networkName m));
                           ("Privileged", JBool false)]);
                   ("Image", JStr image)]))].
Proof.
  intros sock t1 caPath. unfold trace_after, ForwardSSHAgent. rewrite bind_run, call_run.
  rewrite decide_False by done. fold sock t1. rewrite bind_run.
  unfold readCA. rewrite bind_run, call_run. fold caPath.
  assert (∀ ca tr0, (try_bind id (NewRequest "POST" (create_url sandboxName) json_headers
      (marshal (ssh_request m image args envVars sock ca)))
      (λ req, try_bind (String.append "create container with SSH: ") (Do req)
         (λ resp, mret (created image sandboxName resp))) s tr0).2
    = tr0 ++ [post_json_call (create_url sandboxName) (ssh_request m image args envVars sock ca)])
    as Hpost.
  { intros ca tr0. unfold NewRequest, Do. rewrite try_run, ret_run, Hurl, try_run, call_run.
    by destruct (answer tr0 _). }
  case_decide as Hca.
  - rewrite ret_run. exists "". rewrite Hpost, (decide_True _ _ Hca).
    by rewrite <- (assoc_L (++)).
  - rewrite bind_run, call_run, ret_run. eexists. rewrite Hpost, (decide_False _ _ Hca).
    rewrite <- !(assoc_L (++)). reflexivity.
Qed.

(** The exit code of a container is believed only when the engine answers
    200 with a well-formed report; it comes without an error exactly when the
    report has no error message, and is -1 when there is no report. *)
Theorem WaitForContainerExit_result m containerID s tr :
  let url := container_url containerID "/wait" in
  let '(code, err) := result (WaitForContainerExit m containerID) s tr in
  match (if url_ok url then answer tr (post_call url) else inl (url_error url)) with
  | inl _ => code = (-1)%Z ∧ err ≠ None
  | inr resp =>
      match (if decide (StatusCode resp = 200%Z)
             then BodyJson resp ≫= dec_wait (mkWaitResp 0 "") else None) with
      | None => code = (-1)%Z ∧ err ≠ None
      | Some w => code = waitStatus w ∧ (err = None ↔ waitError w = "")
      end
  end.
Proof.
  cbv zeta. unfold result, WaitForContainerExit. rewrite bind_run, exchange_run.
  destruct (url_ok _); [|done]. fold (post_call (container_url containerID "/wait")).
  destruct (answer tr (post_call _)) as [e|resp]; [done|].
  cbv beta iota delta [exchanged status_in decode_body fst snd].
  case_bool_decide as Hs; rewrite list_elem_of_singleton in Hs.
  - rewrite decide_True, ret_run by done. cbv beta iota delta [fst snd].
    destruct (BodyJson resp ≫= dec_wait (mkWaitResp 0 "")) as [w|]; [|done]. cbn.
    case_decide; naive_solver.
  - by rewrite decide_False.
Qed.
End Properties.


(** A log cut short anywhere loses only its end: the text of a prefix of
    the stream is a prefix of the text; and an empty frame ends the text, the
    frames behind it being lost. *)
Theorem logs_truncation raw extra kind rest :
  strip_headers raw `prefix_of` strip_headers (raw ++ extra) ∧
  strip_headers (frame kind [] ++ rest) = [].
Proof.
  split.
  - unfold strip_headers. rewrite length_app. by apply demux_prefix.
  - unfold strip_headers, frame. change (Z.of_nat (length [])) with 0%Z. cbv zeta.
    cbn [app length]. rewrite demux_step, frameSize_frame, Z.min_l by lia. done.
Qed.

(** The value that an environment list gives a variable: the last one. *)
Definition binding (k : string) (env : list string) : option string :=
  foldl (λ acc e, if HasPrefix e (k +:+ "=") then Some (TrimPrefix e (k +:+ "=")) else acc)
    None env.

Lemma binding_app k env env' :
  binding k (env ++ env') =
  match binding k env' with Some v => Some v | None => binding k env end.
Proof.
  unfold binding. rewrite foldl_app. generalize (foldl (λ acc e, if HasPrefix e (k +:+ "=")
    then Some (TrimPrefix e (k +:+ "=")) else acc) None env).
  induction env' as [|e env' IH] using rev_ind; intros a; [done|].
  rewrite !foldl_app. cbn. destruct (HasPrefix e _); [done|]. apply IH.
Qed.

(** No caller of [CreateContainer] can choose the proxy of the container:
    for every proxy variable the host gateway is the last value of the list;
    with an SSH agent it is the other way round. *)
Theorem proxy_env_override (envVars : list string) k
    (Hk : k ∈ ["HTTP_PROXY"; "HTTPS_PROXY"; "http_proxy"; "https_proxy"]) :
  binding k (envVars ++ proxyEnv) = Some "http://host.docker.internal:3128" ∧
  ∀ v, binding k envVars = Some v →
    binding k (proxyEnv ++ ["SSH_AUTH_SOCK=/tmp/ssh-agent.sock"] ++ envVars) = Some v.
Proof.
  split.
  - rewrite binding_app. repeat (apply elem_of_cons in Hk as [->|Hk]; [by vm_compute|]).
    by apply not_elem_of_nil in Hk.
  - intros v Hv. by rewrite binding_app, binding_app, Hv.
Qed.

(** [ParseHostPort] splits at the last colon and defaults to port 80;
    [DecodeBase64Header] inverts the encoding. *)
Theorem header_utilities host port b :
  (x3a ∉ to_bytes port → ParseHostPort (host +:+ ":" +:+ port) = (host, port)) ∧
  (x3a ∉ to_bytes host → ParseHostPort host = (host, "80")) ∧
  DecodeBase64Header (EncodeToString b) = of_bytes b.
Proof.
  split_and!.
  - intros Hp. unfold ParseHostPort, LastIndex, slice_to, slice_from.
    rewrite !to_bytes_app. change (to_bytes ":" ++ to_bytes port) with (x3a :: to_bytes port).
    rewrite last_index_of_app by done.
    rewrite take_app_length, <- drop_drop, drop_app_length. cbn.
    by rewrite drop_0, !of_to_bytes.
  - intros Hh. unfold ParseHostPort, LastIndex. by apply last_index_of_None in Hh as ->.
  - unfold DecodeBase64Header. by rewrite DecodeString_EncodeToString.
Qed.

(** ** Concrete instances *)

(** An engine that knows the network and every image, and names each new
    container [c1]. *)
Definition demo_engine : World := λ tr e,
  match e return Resp e with
  | HttpDo r =>
      inr (mkHttpResponse (if decide (req_method r = "POST") then 201 else 200)
             (if decide (req_method r = "POST")
              then marshal (JObj [("Id", JStr "c1"); ("Warnings", JNull)])
              else marshal (JArr [JObj [("Id", JStr "n1"); ("Name", JStr "sandbox-net")]])) None)
  | Getenv k => (if decide (k = "SSH_AUTH_SOCK") then "/tmp/agent" else "") : string
  | e => quiet_world tr e
  end.

Definition demo_url_errors : UrlErrors := λ u, "parse " +:+ u.
Definition demo_json_errors : JsonErrors := λ t _, "invalid " +:+ t.
Definition demo_manager : Manager := NewManager "/run/docker.sock" "".

Definition demo_create : (string + Container) * unit * trace :=
  @CreateContainer demo_engine demo_url_errors demo_json_errors no_unicode_folding unit
    demo_manager "alpine" ["sh"] ["A=b"] "box" () [].

Lemma CreateContainer_success_witness :
  ∃ t1, network_ready (H := demo_engine) (H2 := no_unicode_folding) demo_manager [] t1 ∧
    demo_create.1.1 = inr (mkContainer "c1" "sbx-box" "alpine" "created" false "box" [] 0 "").
Proof.
  assert (demo_create = (inr (mkContainer "c1" "sbx-box" "alpine" "created" false "box" [] 0 ""),
                         (), demo_create.2)) as Hrun by (vm_compute; reflexivity).
  destruct (@CreateContainer_success demo_engine demo_url_errors demo_json_errors
    no_unicode_folding unit demo_manager "alpine" ["sh"] ["A=b"] "box" () [] _ _ _ Hrun)
    as (_ & t1 & _ & _ & _ & _ & _ & Hnet & _).
  exists t1. split; [exact Hnet|]. by rewrite Hrun.
Defined.

Lemma ForwardSSHAgent_unconfined_witness :
  ∃ ca : string,
    length (trace_after (@ForwardSSHAgent demo_engine demo_url_errors demo_json_errors
      no_unicode_folding unit demo_manager "alpine" ["sh"] [] "box") () []) = 3.
Proof.
  destruct (@ForwardSSHAgent_unconfined demo_engine demo_url_errors demo_json_errors
    no_unicode_folding unit demo_manager "alpine" ["sh"] [] "box" () []) as (ca & Ht).
  - vm_compute. intros [=].
  - vm_compute. reflexivity.
  - exists ca. rewrite Ht. vm_compute. reflexivity.
Defined.


Lemma proxy_env_override_witness :
  binding "HTTP_PROXY" (["HTTP_PROXY=http://box-proxy:3128"] ++ proxyEnv)
  = Some "http://host.docker.internal:3128".
Proof. apply proxy_env_override. by left. Defined.
