(* ===== verification/Session.v ===== *)
(** * [internal/proxy]: the proxy's state and one client connection

    [Proxy] is [proxy.Proxy]: its parts, its switches, its counters.  [Conn] is
    a client connection as a handler sees it: the bytes that are still to be
    read, the bytes written so far, and what became of it.  A handler is code
    over the pair of both ([Sess]). *)
From S2P Require Export Policy Secrets Container.

(** ** The proxy *)

Record Proxy := mkProxy {
  policy : Engine;
  secretsMgr : SecretManager;
  httpAddr : string;
  listener : option string;
  running : bool;
  blockedHosts : gmap string Z;
  socks5Enabled : bool;
  rawTCPEnabled : bool;
  sandboxName : string;
  activeConns : Z;
  maxConnections : Z;
  rawTCPIdleTimeout : Z;
  connsTotalHTTP : Z;
  connsTotalCONNECT : Z;
  connsTotalSOCKS5 : Z;
  connsTotalRawTCP : Z;
  deniedTotal : Z;
}.

Definition NewProxy (pol : Engine) (sec : SecretManager) (addr : string) : Proxy :=
  mkProxy pol sec (if decide (addr = "") then ":3128" else addr) None false ∅ true true ""
    0 0 0 0 0 0 0 0.

Section Updates.
Implicit Types p : Proxy.

Definition with_listener (l : option string) (r : bool) p : Proxy :=
  mkProxy (policy p) (secretsMgr p) (httpAddr p) l r (blockedHosts p) (socks5Enabled p)
    (rawTCPEnabled p) (sandboxName p) (activeConns p) (maxConnections p) (rawTCPIdleTimeout p)
    (connsTotalHTTP p) (connsTotalCONNECT p) (connsTotalSOCKS5 p) (connsTotalRawTCP p)
    (deniedTotal p).

Definition with_switches (socks5 rawTCP : bool) (name : string) (maxC timeout : Z) p : Proxy :=
  mkProxy (policy p) (secretsMgr p) (httpAddr p) (listener p) (running p) (blockedHosts p) socks5
    rawTCP name (activeConns p) maxC timeout
    (connsTotalHTTP p) (connsTotalCONNECT p) (connsTotalSOCKS5 p) (connsTotalRawTCP p)
    (deniedTotal p).

Definition with_counters (b : gmap string Z) (act http connect socks5 raw denied : Z) p : Proxy :=
  mkProxy (policy p) (secretsMgr p) (httpAddr p) (listener p) (running p) b (socks5Enabled p)
    (rawTCPEnabled p) (sandboxName p) act (maxConnections p) (rawTCPIdleTimeout p)
    http connect socks5 raw denied.

(** The setters. *)
Definition SetSOCKS5Enabled (enabled : bool) p : Proxy :=
  with_switches enabled (rawTCPEnabled p) (sandboxName p) (maxConnections p) (rawTCPIdleTimeout p) p.
Definition SetRawTCPEnabled (enabled : bool) p : Proxy :=
  with_switches (socks5Enabled p) enabled (sandboxName p) (maxConnections p) (rawTCPIdleTimeout p) p.
Definition SetSandboxName (name : string) p : Proxy :=
  with_switches (socks5Enabled p) (rawTCPEnabled p) name (maxConnections p) (rawTCPIdleTimeout p) p.
Definition SetMaxConnections (max : Z) p : Proxy :=
  with_switches (socks5Enabled p) (rawTCPEnabled p) (sandboxName p) max (rawTCPIdleTimeout p) p.
Definition SetRawTCPIdleTimeout (d : Z) p : Proxy :=
  with_switches (socks5Enabled p) (rawTCPEnabled p) (sandboxName p) (maxConnections p) d p.

(** [p.policy] and [p.secrets] are shared objects: replacing their contents. *)
Definition set_policy (e : Engine) p : Proxy :=
  mkProxy e (secretsMgr p) (httpAddr p) (listener p) (running p) (blockedHosts p) (socks5Enabled p)
    (rawTCPEnabled p) (sandboxName p) (activeConns p) (maxConnections p) (rawTCPIdleTimeout p)
    (connsTotalHTTP p) (connsTotalCONNECT p) (connsTotalSOCKS5 p) (connsTotalRawTCP p)
    (deniedTotal p).
Definition set_secrets (s : SecretManager) p : Proxy :=
  mkProxy (policy p) s (httpAddr p) (listener p) (running p) (blockedHosts p) (socks5Enabled p)
    (rawTCPEnabled p) (sandboxName p) (activeConns p) (maxConnections p) (rawTCPIdleTimeout p)
    (connsTotalHTTP p) (connsTotalCONNECT p) (connsTotalSOCKS5 p) (connsTotalRawTCP p)
    (deniedTotal p).

(** ** Metrics *)

Record MetricsSnapshot := mkMetricsSnapshot {
  ActiveConns : Z;
  CONNECTTotal : Z;
  HTTPTotal : Z;
  SOCKS5Total : Z;
  RawTCPTotal : Z;
  DeniedTotal : Z;
}.

Definition Metrics p : MetricsSnapshot :=
  mkMetricsSnapshot (activeConns p) (connsTotalCONNECT p) (connsTotalHTTP p)
    (connsTotalSOCKS5 p) (connsTotalRawTCP p) (deniedTotal p).

(** [atomic.AddInt64]. *)
Definition add64 (x d : Z) : Z := wrap64 (x + d).

Definition incConn (protocol : string) p : Proxy :=
  let cnt h c s r := with_counters (blockedHosts p) (activeConns p) h c s r (deniedTotal p) p in
  let h := connsTotalHTTP p in let c := connsTotalCONNECT p in
  let s := connsTotalSOCKS5 p in let r := connsTotalRawTCP p in
  if decide (protocol = "http") then cnt (add64 h 1) c s r
  else if decide (protocol = "connect") then cnt h (add64 c 1) s r
  else if decide (protocol = "socks5") then cnt h c (add64 s 1) r
  else if decide (protocol = "rawtcp") then cnt h c s (add64 r 1)
  else p.

Definition incDenied p : Proxy :=
  with_counters (blockedHosts p) (activeConns p) (connsTotalHTTP p) (connsTotalCONNECT p)
    (connsTotalSOCKS5 p) (connsTotalRawTCP p) (add64 (deniedTotal p) 1) p.

Definition addActive (d : Z) p : Proxy :=
  with_counters (blockedHosts p) (add64 (activeConns p) d) (connsTotalHTTP p)
    (connsTotalCONNECT p) (connsTotalSOCKS5 p) (connsTotalRawTCP p) (deniedTotal p) p.

Definition setBlocked (hostPort : string) (t : Z) p : Proxy :=
  with_counters (<[hostPort := t]> (blockedHosts p)) (activeConns p) (connsTotalHTTP p)
    (connsTotalCONNECT p) (connsTotalSOCKS5 p) (connsTotalRawTCP p) (deniedTotal p) p.
End Updates.

(** ** Start and stop *)

Section StartStop.
Context `{World}.

(** [Start] up to the accept loop; the loop hands each connection to
    [dispatch]. *)
Definition Start : M Proxy error :=
  p ← get;
  if running p then mret (Some "proxy already running")
  else
    err ← call (Listen (httpAddr p));
    match err with
    | Some e => mret (Some ("proxy listen on " +:+ httpAddr p +:+ ": " +:+ e))
    | None => modify (with_listener (Some (httpAddr p)) true);; mret None
    end.

(** [Stop]; closing a listener that is open does not fail. *)
Definition Stop : M Proxy error :=
  p ← get;
  if negb (running p) then mret None
  else modify (with_listener (listener p) false);; mret None.

Definition Addr (p : Proxy) : option string := listener p.
End StartStop.

(** ** A connection *)

(** A tunnel that was opened: where to, the idle timeout, and the bytes of the
    client that the reader still held. *)
Record Tunnel := mkTunnel { tunnelAddr : string; tunnelTimeout : Z; tunnelPending : bytes }.

Record Conn := mkConn {
  input : bytes;
  output : bytes;
  tlsOutput : list Response;
  closed : bool;
  crashed : bool;
  tunnel : option Tunnel;
}.

Definition new_conn (input : bytes) : Conn := mkConn input [] [] false false None.

Record Sess := mkSess { px : Proxy; cn : Conn }.

Definition on_proxy (f : Proxy → Proxy) : M Sess unit := modify (λ s, mkSess (f (px s)) (cn s)).
Definition on_conn (f : Conn → Conn) : M Sess unit := modify (λ s, mkSess (px s) (f (cn s))).

Definition conn_write (b : bytes) : M Sess unit :=
  on_conn (λ c, mkConn (input c) (output c ++ b) (tlsOutput c) (closed c) (crashed c) (tunnel c)).

Definition conn_close : M Sess unit :=
  on_conn (λ c, mkConn (input c) (output c) (tlsOutput c) true (crashed c) (tunnel c)).

Definition conn_panic : M Sess unit :=
  on_conn (λ c, mkConn (input c) (output c) (tlsOutput c) (closed c) true (tunnel c)).

Definition tls_write (r : Response) : M Sess unit :=
  on_conn (λ c, mkConn (input c) (output c) (tlsOutput c ++ [r]) (closed c) (crashed c) (tunnel c)).

(** [io.ReadFull(reader, buf[:n])]: all [n] bytes, or an error. *)
Definition read_full (n : nat) : M Sess (option bytes) :=
  s ← get;
  let c := cn s in
  if decide (n ≤ length (input c)) then
    on_conn (λ c, mkConn (drop n (input c)) (output c) (tlsOutput c) (closed c) (crashed c) (tunnel c));;
    mret (Some (take n (input c)))
  else mret None.

(** [reader.Peek(1)]. *)
Definition peek : M Sess (option byte) := s ← get; mret (head (input (cn s))).

(** [tunnelBidirectional]: opened over what the reader holds; both ends are
    closed when it returns (its copying is modelled in the file on tunnels). *)
Definition open_tunnel (addr : string) (timeout : Z) : M Sess unit :=
  on_conn (λ c, mkConn [] (output c) (tlsOutput c) true (crashed c)
                  (Some (mkTunnel addr timeout (input c)))).
