(* ===== verification/Socks5.v ===== *)
(** * [internal/proxy/socks5.go]: the SOCKS5 handler

    [handleSOCKS5] reads the client's bytes, answers as RFC 1928 asks, consults
    the policy and opens the tunnel.  The theorems give its behaviour on every
    well-formed request, and its safety on every input. *)
From S2P Require Export Session.

(** ** The handler *)

(** A reply; the bound address is always 0.0.0.0:0. *)
Definition socks5_reply (rep : byte) : bytes :=
  [x05; rep; x00; x01; x00; x00; x00; x00; x00; x00].

(** [int(buf[0])<<8 | int(buf[1])]. *)
Definition port_of (hi lo : byte) : Z := Z.lor (Z.shiftl (b2z hi) 8) (b2z lo).

Definition dial_timeout : Z := 10000000000.

Section Handler.
Context `{World, UnicodeFold}.

(** The destination host, by address type. *)
Definition read_host (atyp : byte) : M Sess (option string) :=
  if Byte.eqb atyp x01 then
    b ← read_full 4; mret (IP_String <$> b)
  else if Byte.eqb atyp x03 then
    l ← read_full 1;
    match l with
    | Some [n] =>
        if decide (n = x00) then conn_write (socks5_reply x08);; mret None
        else b ← read_full (Z.to_nat (b2z n)); mret (of_bytes <$> b)
    | _ => mret None
    end
  else if Byte.eqb atyp x04 then
    b ← read_full 16; mret (IP_String <$> b)
  else conn_write (socks5_reply x08);; mret None.

(** Policy check, upstream connection, tunnel. *)
Definition socks5_connect (sandbox host portStr : string) : M Sess unit :=
  s ← get;
  let '(decision, ruleID) := Evaluate (policy (px s)) host portStr sandbox in
  if decide (decision = DecisionDeny) then conn_write (socks5_reply x02)
  else
    let addr := JoinHostPort host portStr in
    err ← call (DialTimeout addr dial_timeout);
    match err with
    | Some _ => conn_write (socks5_reply x01)
    | None =>
        conn_write (socks5_reply x00);;
        s ← get;
        open_tunnel addr (rawTCPIdleTimeout (px s))
    end.

Definition socks5_request (sandbox : string) : M Sess unit :=
  r ← read_full 4;
  match r with
  | Some [ver; cmd; rsv; atyp] =>
      if negb (Byte.eqb ver x05) then mret ()
      else if negb (Byte.eqb cmd x01) then conn_write (socks5_reply x07)
      else
        host ← read_host atyp;
        match host with
        | None => mret ()
        | Some host =>
            p ← read_full 2;
            match p with
            | Some [hi; lo] => socks5_connect sandbox host (Sprintf_d (port_of hi lo))
            | _ => mret ()
            end
        end
  | _ => mret ()
  end.

(** Method negotiation, then the request. *)
Definition socks5_session (sandbox : string) : M Sess unit :=
  g ← read_full 2;
  match g with
  | Some [ver; n] =>
      if negb (Byte.eqb ver x05) || bool_decide (n = x00) then mret ()
      else
        ms ← read_full (Z.to_nat (b2z n));
        match ms with
        | None => mret ()
        | Some _ => conn_write [x05; x00];; socks5_request sandbox
        end
  | _ => mret ()
  end.

(** The deferred [conn.Close()] runs on every path. *)
Definition handleSOCKS5 (sandbox : string) : M Sess unit :=
  socks5_session sandbox;; conn_close.
End Handler.

(** ** What a client sends *)

Inductive Address :=
  | IPv4 (ip : bytes)
  | Domain (name : string)
  | IPv6 (ip : bytes).

Definition address_ok (a : Address) : Prop :=
  match a with
  | IPv4 ip => length ip = 4
  | Domain d => 1 ≤ length (to_bytes d) ≤ 255
  | IPv6 ip => length ip = 16
  end.

Definition address_bytes (a : Address) : bytes :=
  match a with
  | IPv4 ip => x01 :: ip
  | Domain d => x03 :: z2b (Z.of_nat (length (to_bytes d))) :: to_bytes d
  | IPv6 ip => x04 :: ip
  end.

Definition address_host (a : Address) : string :=
  match a with Domain d => d | IPv4 ip | IPv6 ip => IP_String ip end.

Definition greeting (methods : bytes) : bytes :=
  [x05; z2b (Z.of_nat (length methods))] ++ methods.

Definition connect_request (a : Address) (port : Z) : bytes :=
  [x05; x01; x00] ++ address_bytes a ++ [z2b (Z.shiftr port 8); z2b port].

(** ** Lemmas *)

Lemma byte_count n : 1 ≤ n ≤ 255 → Z.to_nat (b2z (z2b (Z.of_nat n))) = n ∧ z2b (Z.of_nat n) ≠ x00.
Proof.
  intros Hn. split.
  - rewrite b2z_z2b, Z.mod_small by lia. lia.
  - intros Heq. apply (f_equal b2z) in Heq. rewrite b2z_z2b, Z.mod_small in Heq by lia.
    change (b2z x00) with 0%Z in Heq. lia.
Qed.

Lemma port_of_bytes port :
  (0 ≤ port < 65536)%Z → port_of (z2b (Z.shiftr port 8)) (z2b port) = port.
Proof.
  intros Hp. unfold port_of. rewrite lor_pair by apply b2z_range.
  rewrite !b2z_z2b, Z.shiftr_div_pow2 by lia. Z.to_euclidean_division_equations; lia.
Qed.

Lemma port_of_range hi lo : (0 ≤ port_of hi lo < 65536)%Z.
Proof.
  unfold port_of. pose proof (b2z_range hi). pose proof (b2z_range lo).
  rewrite lor_pair by done. lia.
Qed.

Definition take_input (n : nat) (c : Conn) : Conn :=
  mkConn (drop n (input c)) (output c) (tlsOutput c) (closed c) (crashed c) (tunnel c).

Lemma read_full_run n s tr :
  read_full n s tr =
  if decide (n ≤ length (input (cn s)))
  then (Some (take n (input (cn s))), mkSess (px s) (take_input n (cn s)), tr)
  else (None, s, tr).
Proof. unfold read_full. rewrite bind_run, get_run. by case_decide. Qed.

Lemma read_full_app b rest p o t cl cr tn tr :
  read_full (length b) (mkSess p (mkConn (b ++ rest) o t cl cr tn)) tr
  = (Some b, mkSess p (mkConn rest o t cl cr tn), tr).
Proof.
  rewrite read_full_run. cbn. rewrite decide_True by (rewrite length_app; lia).
  unfold take_input. cbn. by rewrite take_app_length, drop_app_length.
Qed.

Lemma read_full_length n s tr b s' tr' :
  read_full n s tr = (Some b, s', tr') → length b = n.
Proof.
  rewrite read_full_run. case_decide; [|done]. intros [= <- <- <-].
  rewrite length_take. lia.
Qed.

Section Parse.
Context `{World, UnicodeFold}.

Lemma read_full_step n b rest p o t cl cr tn tr :
  length b = n →
  read_full n (mkSess p (mkConn (b ++ rest) o t cl cr tn)) tr
  = (Some b, mkSess p (mkConn rest o t cl cr tn), tr).
Proof. intros <-. apply read_full_app. Qed.

Lemma read_host_run a rest p o t cl cr tn tr :
  address_ok a →
  ∃ atyp tl, address_bytes a = atyp :: tl ∧
    read_host atyp (mkSess p (mkConn (tl ++ rest) o t cl cr tn)) tr
    = (Some (address_host a), mkSess p (mkConn rest o t cl cr tn), tr).
Proof.
  destruct a as [ip|d|ip]; intros Hok; eexists _, _; (split; [reflexivity|]).
  - unfold read_host. cbn [Byte.eqb]. change (Byte.eqb x01 x01) with true. cbv iota.
    by rewrite bind_run, read_full_step.
  - destruct (byte_count _ Hok) as [Hn Hne]. unfold read_host.
    change (Byte.eqb x03 x01) with false. change (Byte.eqb x03 x03) with true. cbv iota.
    rewrite bind_run.
    change ((?x :: ?l) ++ rest) with ([x] ++ (l ++ rest)).
    rewrite (read_full_step 1) by done. rewrite decide_False by done.
    rewrite bind_run, read_full_step by (symmetry; exact Hn). cbn. by rewrite of_to_bytes.
  - unfold read_host. change (Byte.eqb x04 x01) with false.
    change (Byte.eqb x04 x03) with false. change (Byte.eqb x04 x04) with true. cbv iota.
    by rewrite bind_run, read_full_step.
Qed.

(** The run of a request, once the greeting has been answered. *)
Lemma socks5_request_run a port rest sb p o t cl cr tn tr :
  address_ok a → (0 ≤ port < 65536)%Z →
  socks5_request sb (mkSess p (mkConn (connect_request a port ++ rest) o t cl cr tn)) tr
  = socks5_connect sb (address_host a) (Sprintf_d port)
      (mkSess p (mkConn rest o t cl cr tn)) tr.
Proof.
  intros Ha Hp. unfold socks5_request, connect_request. rewrite bind_run.
  edestruct (read_host_run a ([z2b (Z.shiftr port 8); z2b port] ++ rest) p o t cl cr tn tr Ha)
    as (atyp & tl & Hbytes & Hhost).
  rewrite Hbytes, <- !(assoc_L (++)).
  change ([x05; x01; x00] ++ (atyp :: tl) ++ ?X) with ([x05; x01; x00; atyp] ++ (tl ++ X)).
  rewrite (read_full_step 4) by done.
  change (Byte.eqb x05 x05) with true. change (Byte.eqb x01 x01) with true. cbn [negb].
  rewrite bind_run, Hhost, bind_run, (read_full_step 2) by done. by rewrite port_of_bytes.
Qed.

Lemma socks5_connect_run sb host portStr p c tr :
  let addr := JoinHostPort host portStr in
  let wr c b := mkConn (input c) (output c ++ b) (tlsOutput c) (closed c) (crashed c) (tunnel c) in
  socks5_connect sb host portStr (mkSess p c) tr =
  match (Evaluate (policy p) host portStr sb).1 with
  | DecisionDeny => ((), mkSess p (wr c (socks5_reply x02)), tr)
  | DecisionAllow =>
      let tr' := tr ++ [DialTimeout addr dial_timeout] in
      match answer tr (DialTimeout addr dial_timeout) with
      | Some _ => ((), mkSess p (wr c (socks5_reply x01)), tr')
      | None =>
          ((), mkSess p (mkConn [] (output c ++ socks5_reply x00) (tlsOutput c) true (crashed c)
                           (Some (mkTunnel addr (rawTCPIdleTimeout p) (input c)))), tr')
      end
  end.
Proof.
  cbv zeta. unfold socks5_connect. rewrite bind_run, get_run. cbn [px].
  destruct (Evaluate (policy p) host portStr sb) as [[] id]; cbn [fst].
  - rewrite decide_False, bind_run, call_run by done. by destruct (answer tr _).
  - by rewrite decide_True.
Qed.

(** ** Safety *)

(** The connections that the policy of [pe] allows a SOCKS5 client of [sb]. *)
Definition allowed_dial (pe : Engine) (sb : string) (e : Ext) : Prop :=
  match e with
  | DialTimeout addr _ =>
      ∃ host port, (0 ≤ port < 65536)%Z ∧ addr = JoinHostPort host (Sprintf_d port) ∧
        (Evaluate pe host (Sprintf_d port) sb).1 = DecisionAllow
  | _ => False
  end.

Definition policy_is (pe : Engine) (s : Sess) : Prop := policy (px s) = pe.

(** [I] holds of the proxy, whatever becomes of the connection, and fixes the
    policy. *)
Class ProxyInv (pe : Engine) (I : Sess → Prop) : Prop := {
  inv_conn : ∀ s c, I s → I (mkSess (px s) c);
  inv_policy : ∀ s, I s → policy (px s) = pe;
}.

#[export] Instance policy_is_inv pe : ProxyInv pe (policy_is pe).
Proof. by split. Qed.

#[export] Instance proxy_is_inv p : ProxyInv (policy p) (λ s, px s = p).
Proof. split; cbn; congruence. Qed.

Section Guards.
Context (pe : Engine) (I : Sess → Prop) `{!ProxyInv pe I}.

Lemma guarded_on_conn P f : guarded I P (on_conn f).
Proof. apply guarded_modify. intros s. apply (inv_conn s). Qed.

Lemma guarded_read_full P n : guarded I P (read_full n).
Proof.
  apply guarded_get. intros s Hs. cbv zeta beta. case_decide; [|apply guarded_ret].
  apply guarded_bind; [apply guarded_on_conn|]. intros. apply guarded_ret.
Qed.

Lemma guarded_read_host P atyp : guarded I P (read_host atyp).
Proof.
  assert (∀ n (f : bytes → string),
    guarded I P (b ← read_full n; mret (f <$> b))) as Hread.
  { intros n f. apply guarded_bind; [apply guarded_read_full|]. intros. apply guarded_ret. }
  assert (guarded I P (conn_write (socks5_reply x08);; mret None : M Sess (option string)))
    as Hreject.
  { apply guarded_bind; [apply guarded_on_conn|]. intros. apply guarded_ret. }
  unfold read_host. destruct (Byte.eqb atyp x01); [apply Hread|].
  destruct (Byte.eqb atyp x03); [|by destruct (Byte.eqb atyp x04)].
  apply guarded_bind; [apply guarded_read_full|].
  intros [[|n [|? ?]]|]; try apply guarded_ret. by case_decide.
Qed.

Lemma guarded_socks5_connect sb host hi lo :
  guarded I (allowed_dial pe sb)
    (socks5_connect sb host (Sprintf_d (port_of hi lo))).
Proof.
  apply guarded_get. intros s Hs. rewrite (inv_policy s Hs).
  destruct (Evaluate pe host _ sb) as [d id] eqn:E. case_decide as Hd; [apply guarded_on_conn|].
  apply guarded_bind.
  - refine (guarded_call _ _ _ _). exists host, (port_of hi lo). rewrite E.
    split; [apply port_of_range|]. split; [done|]. by destruct d.
  - intros [e|]; [apply guarded_on_conn|]. apply guarded_bind; [apply guarded_on_conn|].
    intros _. apply guarded_get. intros s' _. apply guarded_on_conn.
Qed.

Lemma guarded_socks5_request sb :
  guarded I (allowed_dial pe sb) (socks5_request sb).
Proof.
  unfold socks5_request. apply guarded_bind; [apply guarded_read_full|].
  intros r. repeat case_match; try apply guarded_ret; try apply guarded_on_conn.
  apply guarded_bind; [apply guarded_read_host|]. intros [host|]; [|apply guarded_ret].
  apply guarded_bind; [apply guarded_read_full|].
  intros q. repeat case_match; try apply guarded_ret. apply guarded_socks5_connect.
Qed.

Lemma guarded_handleSOCKS5 sb :
  guarded I (allowed_dial pe sb) (handleSOCKS5 sb).
Proof.
  apply guarded_bind; [|intros; apply guarded_on_conn]. unfold socks5_session.
  apply guarded_bind; [apply guarded_read_full|].
  intros g. repeat case_match; try apply guarded_ret.
  apply guarded_bind; [apply guarded_read_full|]. intros [ms|]; [|apply guarded_ret].
  apply guarded_bind; [apply guarded_on_conn|]. intros _. apply guarded_socks5_request.
Qed.
End Guards.

(** ** Replies *)

Definition out (s : Sess) : bytes := output (cn s).

(** The replies that may follow the choice of method. *)
Definition reply_codes : list byte := [x00; x01; x02; x07; x08].
Definition replied (o o' : bytes) : Prop := o' = o ∨ ∃ r, r ∈ reply_codes ∧ o' = o ++ socks5_reply r.

Lemma read_full_out n s tr : out (state_after (read_full n) s tr) = out s.
Proof. unfold state_after. rewrite read_full_run. by case_decide. Qed.

Lemma read_host_out atyp s tr :
  let r := read_host atyp s tr in
  match r.1.1 with
  | Some _ => out r.1.2 = out s
  | None => replied (out s) (out r.1.2)
  end.
Proof.
  assert (∀ n (f : bytes → string), let r := (b ← read_full n; mret (f <$> b) : M Sess _) s tr in
    match r.1.1 with Some _ => out r.1.2 = out s | None => replied (out s) (out r.1.2) end) as Hread.
  { intros n f. cbv zeta. rewrite bind_run, read_full_run. case_decide; [done|by left]. }
  assert (∀ s', out s' = out s → replied (out s) (out s') ∧
    replied (out s) (out (state_after (conn_write (socks5_reply x08)) s' tr))) as Hrej.
  { intros s' Hs'. split; [by left|]. right. exists x08. split; [decide_closed|]. cbn. by f_equal. }
  cbv zeta. unfold read_host. destruct (Byte.eqb atyp x01); [apply Hread|].
  destruct (Byte.eqb atyp x03).
  - rewrite bind_run, read_full_run. case_decide; [|by left].
    destruct (take 1 _) as [|n [|? ?]]; [by left| |by left].
    case_decide; [apply (Hrej (mkSess (px s) (take_input 1 (cn s)))); done|].
    rewrite bind_run, read_full_run. case_decide; [done|by left].
  - destruct (Byte.eqb atyp x04); [apply Hread|]. by apply Hrej.
Qed.

Lemma socks5_connect_out sb host portStr s tr :
  replied (out s) (out (state_after (socks5_connect sb host portStr) s tr)).
Proof.
  destruct s as [p c]. unfold state_after. rewrite socks5_connect_run. right.
  destruct (Evaluate _ _ _ _).1; [destruct (answer tr _)|]; cbn;
    eexists; (split; [|reflexivity]); decide_closed.
Qed.

Lemma socks5_request_out sb s tr :
  replied (out s) (out (state_after (socks5_request sb) s tr)).
Proof.
  unfold socks5_request, state_after. rewrite bind_run.
  pose proof (read_full_out 4 s tr) as H4. unfold state_after in H4.
  destruct (read_full 4 s tr) as [[r s1] tr1]. cbn in H4. rewrite <- H4.
  destruct r as [[|ver [|cmd [|rsv [|atyp [|? ?]]]]]|]; try by left.
  destruct (negb (Byte.eqb ver x05)); [by left|].
  destruct (negb (Byte.eqb cmd x01)); [right; exists x07; split; [decide_closed|done]|].
  rewrite bind_run. pose proof (read_host_out atyp s1 tr1) as Hh. cbv zeta in Hh.
  destruct (read_host atyp s1 tr1) as [[[host|] s2] tr2]; cbn in Hh; [|done].
  rewrite <- Hh, bind_run. pose proof (read_full_out 2 s2 tr2) as H2'. unfold state_after in H2'.
  destruct (read_full 2 s2 tr2) as [[q s3] tr3]. cbn in H2'. rewrite <- H2'.
  destruct q as [[|hi [|lo [|? ?]]]|]; try by left. apply socks5_connect_out.
Qed.

(** ** Properties *)

(** C10. A well-formed SOCKS5 conversation, for every address type: the client
    is told to use no authentication; the request is parsed to exactly the
    address and port that were encoded; the policy decides; a denied client
    gets reply 2 and nothing is dialled; an allowed one gets reply 1 or 0 as
    the dial fails or succeeds, and on success the tunnel starts with the bytes
    that followed the request.  The connection ends closed. *)
Theorem handleSOCKS5_conversation methods a port rest sb p tr
    (Hm : 1 ≤ length methods ≤ 255) (Ha : address_ok a) (Hp : (0 ≤ port < 65536)%Z) :
  let host := address_host a in
  let addr := JoinHostPort host (Sprintf_d port) in
  let c0 := new_conn (greeting methods ++ connect_request a port ++ rest) in
  let e := DialTimeout addr dial_timeout in
  let ends inp rep tn := mkSess p (mkConn inp ([x05; x00] ++ socks5_reply rep) [] true false tn) in
  handleSOCKS5 sb (mkSess p c0) tr =
  match (Evaluate (policy p) host (Sprintf_d port) sb).1 with
  | DecisionDeny => ((), ends rest x02 None, tr)
  | DecisionAllow =>
      match answer tr e with
      | Some _ => ((), ends rest x01 None, tr ++ [e])
      | None => ((), ends [] x00 (Some (mkTunnel addr (rawTCPIdleTimeout p) rest)), tr ++ [e])
      end
  end.
Proof.
  cbv zeta. destruct (byte_count _ Hm) as [Hn Hne]. unfold handleSOCKS5, socks5_session, new_conn, greeting.
  rewrite bind_run, bind_run, <- (assoc_L (++)), (read_full_step 2) by done.
  change (Byte.eqb x05 x05) with true. rewrite bool_decide_eq_false_2 by done. cbn [negb orb].
  rewrite bind_run, (read_full_step _ methods) by (symmetry; exact Hn).
  rewrite bind_run. unfold conn_write at 1, on_conn at 1. rewrite modify_run.
  cbn [px cn input output tlsOutput closed crashed tunnel].
  rewrite socks5_request_run, socks5_connect_run by done. cbv zeta.
  destruct (Evaluate _ _ _ _).1; [|done]. by destruct (answer tr _).
Qed.

(** On every input, well formed or not, the handler opens at most the
    connections that the policy allows to that very host and port, and leaves
    the policy alone. *)
Theorem handleSOCKS5_safe sb s tr :
  policy (px (state_after (handleSOCKS5 sb) s tr)) = policy (px s) ∧
  ∃ new, trace_after (handleSOCKS5 sb) s tr = tr ++ new ∧
    Forall (allowed_dial (policy (px s)) sb) new.
Proof. by apply (guarded_handleSOCKS5 (policy (px s)) (policy_is (policy (px s))) sb). Qed.

(** On every input the client reads one of three things: nothing, the
    choice of method alone, or that choice and one reply with code 0, 1, 2, 7
    or 8; and the connection ends closed. *)
Theorem handleSOCKS5_replies inp sb p tr :
  let s' := state_after (handleSOCKS5 sb) (mkSess p (new_conn inp)) tr in
  closed (cn s') = true ∧
  (output (cn s') = [] ∨ output (cn s') = [x05; x00] ∨
   ∃ r, r ∈ [x00; x01; x02; x07; x08] ∧
     output (cn s') = [x05; x00; x05; r; x00; x01; x00; x00; x00; x00; x00; x00]).
Proof.
  cbv zeta. unfold handleSOCKS5, state_after. rewrite bind_run.
  set (body := socks5_session sb (mkSess p (new_conn inp)) tr).
  assert (out body.1.2 = [] ∨ replied [x05; x00] (out body.1.2)) as Hout.
  { subst body. unfold socks5_session. rewrite bind_run.
    pose proof (read_full_out 2 (mkSess p (new_conn inp)) tr) as H2'. unfold state_after in H2'.
    destruct (read_full 2 _ tr) as [[g s1] tr1]. cbn in H2'.
    destruct g as [[|ver [|n [|? ?]]]|]; try by left. destruct (_ || _); [by left|].
    rewrite bind_run. pose proof (read_full_out (Z.to_nat (b2z n)) s1 tr1) as Hn.
    unfold state_after in Hn. destruct (read_full _ s1 tr1) as [[ms s2] tr2]. cbn in Hn.
    destruct ms; [|left; cbn; congruence]. right.
    pose proof (socks5_request_out sb (mkSess (px s2) (mkConn (input (cn s2))
      (output (cn s2) ++ [x05; x00]) (tlsOutput (cn s2)) (closed (cn s2)) (crashed (cn s2))
      (tunnel (cn s2)))) tr2) as Hr.
    unfold out at 1 in Hr. cbn [cn output] in Hr. unfold out in Hn, H2'.
    refine (eq_ind _ (λ o, replied o (out _)) Hr _ _). by rewrite Hn, H2'. }
  destruct body as [[u s1] tr1]. cbn in *. split; [done|].
  destruct Hout as [H1|[H1|(r & Hr & H1)]]; unfold out in H1; rewrite H1; eauto.
Qed.
End Parse.

(** ** Concrete instances *)

Definition demo_proxy : Proxy := NewProxy Policy.demo_engine NewSecretManager "".

Lemma handleSOCKS5_conversation_witness :
  let a := Domain "api.example.com" in
  (@handleSOCKS5 quiet_world no_unicode_folding "box"
    (mkSess demo_proxy (new_conn (greeting [x00] ++ connect_request a 443 ++ to_bytes "hello"))) []).2
  = match (@Evaluate no_unicode_folding (policy demo_proxy) "api.example.com" "443" "box").1 with
    | DecisionAllow => [DialTimeout "api.example.com:443" dial_timeout]
    | DecisionDeny => []
    end.
Proof.
  cbv zeta. rewrite (@handleSOCKS5_conversation quiet_world no_unicode_folding [x00]
    (Domain "api.example.com") 443 (to_bytes "hello") "box" demo_proxy []).
  - vm_compute. reflexivity.
  - cbn. lia.
  - vm_compute. lia.
  - lia.
Defined.
