(* ===== verification/RawTcp.v ===== *)
(** * [internal/proxy/rawtcp.go]: connections redirected by iptables

    The destination of such a connection is what the kernel remembers of it
    ([SO_ORIGINAL_DST]); the policy is asked about that destination, and a
    destination that is one of the container's own addresses is dialled on the
    loopback interface instead. *)
From S2P Require Export Socks5.

(** ** Addresses *)

Definition v4InV6Prefix : bytes := replicate 10 x00 ++ [xff; xff].
Definition IPv6loopback : bytes := replicate 15 x00 ++ [x01].

(** [net.IP.Equal]. *)
Definition IP_Equal (ip x : bytes) : bool :=
  if decide (length ip = length x) then bool_decide (ip = x)
  else if decide (length ip = 4 ∧ length x = 16) then
    bool_decide (take 12 x = v4InV6Prefix) && bool_decide (ip = drop 12 x)
  else if decide (length ip = 16 ∧ length x = 4) then
    bool_decide (take 12 ip = v4InV6Prefix) && bool_decide (drop 12 ip = x)
  else false.

Definition IsLoopback (ip : bytes) : bool :=
  match To4 ip with
  | Some ip4 => bool_decide (head ip4 = Some x7f)
  | None => IP_Equal ip IPv6loopback
  end.

Section Handler.
Context `{World, UnicodeFold}.

(** The addresses of the container, computed once when the program starts. *)
Definition getLocalIPs {S} : M S (list bytes) :=
  addrs ← call InterfaceAddrs;
  mret (match addrs with
        | inl _ => []
        | inr l =>
            filter (λ ip, is_Some (To4 ip) ∧ IsLoopback ip = false) (omap id l)
        end).

Definition isLocalIP (localIPs : list bytes) (ip : bytes) : bool :=
  existsb (λ local, IP_Equal local ip) localIPs.

(** The address in the [sockaddr_in] that the kernel fills in: port at offset
    2, IPv4 address at offset 4. *)
Definition getOriginalDst : M Sess (string + bytes * Z) :=
  r ← call SockOriginalDst;
  mret (match r with
        | inl e => inl e
        | inr raw =>
            match raw with
            | _ :: _ :: p0 :: p1 :: a :: b :: c :: d :: _ => inr ([a; b; c; d], port_of p0 p1)
            | _ => inl ("short getsockopt result: " +:+ Sprintf_d (Z.of_nat (length raw)) +:+ " bytes")
            end
        end).

Definition handleRawTCP (localIPs : list bytes) (sandbox : string) : M Sess unit :=
  dst ← getOriginalDst;
  match dst with
  | inl _ => conn_close
  | inr (origIP, origPort) =>
      let host := IP_String origIP in
      let portStr := Sprintf_d origPort in
      s ← get;
      let '(decision, ruleID) := Evaluate (policy (px s)) host portStr sandbox in
      if decide (decision = DecisionDeny) then conn_close
      else
        let host := if isLocalIP localIPs origIP then "127.0.0.1" else host in
        err ← call (DialTimeout (JoinHostPort host portStr) dial_timeout);
        match err with
        | Some _ => conn_close
        | None =>
            s ← get;
            open_tunnel (JoinHostPort host portStr) (rawTCPIdleTimeout (px s))
        end
  end.
End Handler.

(** ** Lemmas *)

Lemma IP_Equal_refl ip : IP_Equal ip ip = true.
Proof. unfold IP_Equal. by rewrite decide_True, bool_decide_eq_true_2. Qed.

Lemma isLocalIP_spec localIPs ip :
  isLocalIP localIPs ip = true ↔ ∃ local, local ∈ localIPs ∧ IP_Equal local ip = true.
Proof.
  unfold isLocalIP. rewrite existsb_exists. split; intros (l & Hin & Heq); exists l;
    (split; [by apply list_elem_of_In|done]).
Qed.

Lemma To4_length ip ip4 : To4 ip = Some ip4 → length ip = 4 ∨ length ip = 16.
Proof. unfold To4. repeat case_match; intros; simplify_eq; auto. Qed.

Section Properties.
Context `{World, UnicodeFold}.

(** The destination in a [sockaddr_in]. *)
Definition sockaddr (family0 family1 : byte) (port : Z) (ip pad : bytes) : bytes :=
  [family0; family1; z2b (Z.shiftr port 8); z2b port] ++ ip ++ pad.

Lemma handleRawTCP_run localIPs sb p c tr :
  let e0 := SockOriginalDst in
  let closed_conn := mkConn (input c) (output c) (tlsOutput c) true (crashed c) (tunnel c) in
  handleRawTCP localIPs sb (mkSess p c) tr =
  match answer tr e0 with
  | inr (_ :: _ :: p0 :: p1 :: a :: b :: c' :: d :: _) =>
      let ip := [a; b; c'; d] in
      let portStr := Sprintf_d (port_of p0 p1) in
      match (Evaluate (policy p) (IP_String ip) portStr sb).1 with
      | DecisionDeny => ((), mkSess p closed_conn, tr ++ [e0])
      | DecisionAllow =>
          let addr := JoinHostPort (if isLocalIP localIPs ip then "127.0.0.1" else IP_String ip)
                        portStr in
          let e1 := DialTimeout addr dial_timeout in
          match answer (tr ++ [e0]) e1 with
          | Some _ => ((), mkSess p closed_conn, tr ++ [e0; e1])
          | None =>
              ((), mkSess p (mkConn [] (output c) (tlsOutput c) true (crashed c)
                               (Some (mkTunnel addr (rawTCPIdleTimeout p) (input c)))),
               tr ++ [e0; e1])
          end
      end
  | _ => ((), mkSess p closed_conn, tr ++ [e0])
  end.
Proof.
  cbv zeta. unfold handleRawTCP, getOriginalDst. rewrite bind_run, bind_run, call_run, ret_run.
  destruct (answer tr SockOriginalDst) as [e|raw]; [done|].
  destruct raw as [|r0 [|r1 [|p0 [|p1 [|a [|b [|c' [|d raw]]]]]]]]; try done.
  rewrite bind_run, get_run. cbn [px].
  destruct (Evaluate _ _ _ _) as [[] id]; cbn [fst]; [|by rewrite decide_True].
  rewrite decide_False, bind_run, call_run by done.
  rewrite <- !(assoc_L (++)). cbn [app]. by destruct (answer (tr ++ _) _).
Qed.

(** C30. A redirected connection, from the bytes of its [sockaddr_in]: the port
    is read in network byte order and the policy is asked about the original
    destination; a denied connection is closed without dialling; an allowed one
    is dialled at that destination, or on the loopback interface when the
    destination is one of the container's own addresses, and tunnelled with the
    bytes already read.  Nothing is ever written to the client here. *)
Theorem handleRawTCP_redirects localIPs sb p inp f0 f1 port ip pad tr
    (Hport : (0 ≤ port < 65536)%Z) (Hip : length ip = 4)
    (Hdst : answer tr SockOriginalDst = inr (sockaddr f0 f1 port ip pad)) :
  let host := IP_String ip in
  let addr := JoinHostPort (if isLocalIP localIPs ip then "127.0.0.1" else host) (Sprintf_d port) in
  let e1 := DialTimeout addr dial_timeout in
  let t1 := tr ++ [SockOriginalDst] in
  handleRawTCP localIPs sb (mkSess p (new_conn inp)) tr =
  match (Evaluate (policy p) host (Sprintf_d port) sb).1 with
  | DecisionDeny => ((), mkSess p (mkConn inp [] [] true false None), t1)
  | DecisionAllow =>
      match answer t1 e1 with
      | Some _ => ((), mkSess p (mkConn inp [] [] true false None), t1 ++ [e1])
      | None =>
          ((), mkSess p (mkConn [] [] [] true false
                           (Some (mkTunnel addr (rawTCPIdleTimeout p) inp))), t1 ++ [e1])
      end
  end.
Proof.
  cbv zeta. rewrite handleRawTCP_run. cbv zeta. rewrite Hdst. unfold sockaddr.
  destruct ip as [|a [|b [|c [|d [|? ?]]]]]; try done. cbn [app].
  rewrite port_of_bytes by done. by rewrite <- (assoc_L (++)).
Qed.

(** The dials that the policy of [pe] allows for redirected connections. *)
Definition allowed_raw (localIPs : list bytes) (pe : Engine) (sb : string) (e : Ext) : Prop :=
  match e with
  | SockOriginalDst => True
  | DialTimeout addr _ =>
      ∃ ip port, length ip = 4 ∧ (0 ≤ port < 65536)%Z ∧
        (Evaluate pe (IP_String ip) (Sprintf_d port) sb).1 = DecisionAllow ∧
        (addr = JoinHostPort (IP_String ip) (Sprintf_d port) ∨
         isLocalIP localIPs ip = true ∧ addr = JoinHostPort "127.0.0.1" (Sprintf_d port))
  | _ => False
  end.

Lemma guarded_handleRawTCP localIPs pe (I : Sess → Prop) `{!ProxyInv pe I} sb :
  guarded I (allowed_raw localIPs pe sb) (handleRawTCP localIPs sb).
Proof.
  intros [p c] tr HI. assert (∀ c', I (mkSess p c')) as HI' by (intros c'; apply (inv_conn _ c' HI)).
  pose proof (inv_policy _ HI) as Hpe. cbn [px] in Hpe. unfold state_after, trace_after. rewrite handleRawTCP_run. cbv zeta.
  assert (∀ e, allowed_raw localIPs pe sb e →
    Forall (allowed_raw localIPs pe sb) [SockOriginalDst; e]) as Htwo by (repeat constructor; done).
  assert (Forall (allowed_raw localIPs pe sb) [SockOriginalDst]) as Hone by (repeat constructor).
  destruct (answer tr SockOriginalDst) as [e|raw]; [split; [apply HI'|eauto]|].
  destruct raw as [|r0 [|r1 [|p0 [|p1 [|a [|b [|c' [|d raw]]]]]]]]; try (split; [apply HI'|eauto]).
  rewrite Hpe.
  destruct (Evaluate pe _ _ sb) as [[] id] eqn:E; cbn [fst]; [|split; [apply HI'|eauto]].
  match goal with |- context [answer _ ?e] => assert (allowed_raw localIPs pe sb e) as He end.
  { exists [a; b; c'; d], (port_of p0 p1). split; [done|]. split; [apply port_of_range|].
    rewrite E. split; [done|]. destruct (isLocalIP _ _); auto. }
  destruct (answer (tr ++ _) _); (split; [apply HI'|eauto]).
Qed.
End Properties.

(** ** Concrete instances *)

Definition redirected_world : World := λ tr e,
  match e return Resp e with
  | SockOriginalDst => inr (sockaddr x02 x00 8443 [x0a; x01; x02; x03] (replicate 8 x00))
  | e => quiet_world tr e
  end.

Definition open_policy : Engine :=
  mkEngine [mkRule "rule-3" "allow" "allow" ["*:*"] ""] 4 "" "balanced".

Lemma handleRawTCP_redirects_witness :
  (@handleRawTCP redirected_world no_unicode_folding [[x0a; x01; x02; x03]] "box"
    (mkSess (NewProxy open_policy NewSecretManager "") (new_conn [x16; x03])) []).2
  = [SockOriginalDst; DialTimeout "127.0.0.1:8443" dial_timeout].
Proof.
  rewrite (@handleRawTCP_redirects redirected_world no_unicode_folding [[x0a; x01; x02; x03]] "box"
    (NewProxy open_policy NewSecretManager "") [x16; x03] x02 x00 8443 [x0a; x01; x02; x03]
    (replicate 8 x00) []).
  - vm_compute. reflexivity.
  - lia.
  - reflexivity.
  - reflexivity.
Defined.
