(* ===== verification/Tunnel.v ===== *)
(** * [tunnelBidirectional]: two copies at once

    The two goroutines of [tunnelBidirectional] interleave freely, so the
    tunnel is a step relation.  A [State] holds what each end will still send
    (in the chunks that reads return), what has been delivered to each end, and
    where each goroutine is.  A read past the last chunk blocks until the other
    end closes its stream, if it ever does, until this side closes the
    connection, or until the idle timeout strikes. *)
From S2P Require Export RawTcp.

(** Where a goroutine is: in [io.Copy], past it, or returned. *)
Inductive Phase := Copying | Copied | Returned.

#[export] Instance Phase_eq_dec : EqDecision Phase.
Proof. solve_decision. Defined.

(** What an end does once it has sent everything: it closes its stream, closes
    it when it sees the end of ours, or says nothing more. *)
Inductive Ending := Closes | ClosesAfter | Silent.

#[export] Instance Ending_eq_dec : EqDecision Ending.
Proof. solve_decision. Defined.

Record State := mkState {
  buffered : bytes;
  fromClient : list bytes;
  clientEnds : Ending;
  fromUpstream : list bytes;
  upstreamEnds : Ending;
  toUpstream : bytes;
  toClient : bytes;
  up : Phase;
  down : Phase;
  upstreamWritable : bool;
  downstreamOpen : bool;
}.

(** The tunnel starts with what the reader already holds. *)
Definition start (pending : bytes) (client : list bytes) (ce : Ending)
    (upstream : list bytes) (ue : Ending) : State :=
  mkState pending client ce upstream ue [] [] Copying Copying true true.

Definition set_up (ph : Phase) (s : State) : State :=
  mkState (buffered s) (fromClient s) (clientEnds s) (fromUpstream s) (upstreamEnds s)
    (toUpstream s) (toClient s) ph (down s) (upstreamWritable s) (downstreamOpen s).
Definition set_down (ph : Phase) (s : State) : State :=
  mkState (buffered s) (fromClient s) (clientEnds s) (fromUpstream s) (upstreamEnds s)
    (toUpstream s) (toClient s) (up s) ph (upstreamWritable s) (downstreamOpen s).

(** Has the end closed its stream, [seen] saying whether it has seen the end of
    ours? *)
Definition closed (e : Ending) (seen : bool) : Prop :=
  match e with Closes => True | ClosesAfter => seen = true | Silent => False end.

(** Why a copy goes on or stops: a chunk was copied; the source is exhausted;
    the read fails because this side closed the connection; reading or writing
    fails for another reason; the read deadline passes. *)
Inductive Label := Chunk | Eof | ClosedRead | Failure | Idle | Close.

#[export] Instance Label_eq_dec : EqDecision Label.
Proof. solve_decision. Defined.

(** One step of the goroutine client -> upstream or upstream -> client.
    [timeout] is the tunnel's idle timeout; only a positive one sets read
    deadlines ([deadlineReader]), which fails on a connection that was closed,
    even when bytes are still buffered. *)
Inductive step (timeout : Z) : Label → State → State → Prop :=
  | up_buffered s :
      up s = Copying → buffered s ≠ [] → (timeout ≤ 0)%Z ∨ downstreamOpen s = true →
      step timeout Chunk s
        (mkState [] (fromClient s) (clientEnds s) (fromUpstream s) (upstreamEnds s)
           (toUpstream s ++ buffered s) (toClient s) Copying (down s)
           (upstreamWritable s) (downstreamOpen s))
  | up_chunk s c rest :
      up s = Copying → buffered s = [] → downstreamOpen s = true → fromClient s = c :: rest →
      step timeout Chunk s
        (mkState [] rest (clientEnds s) (fromUpstream s) (upstreamEnds s)
           (toUpstream s ++ c) (toClient s) Copying (down s)
           (upstreamWritable s) (downstreamOpen s))
  | up_end l s :
      up s = Copying →
      match l with
      | Eof => buffered s = [] ∧ fromClient s = [] ∧ downstreamOpen s = true ∧
               closed (clientEnds s) false
      | ClosedRead => downstreamOpen s = false ∧ (buffered s = [] ∨ (0 < timeout)%Z)
      | Failure => True
      | Idle => (0 < timeout)%Z ∧ buffered s = []
      | Chunk | Close => False
      end →
      step timeout l s (set_up Copied s)
  | up_close s :
      up s = Copied →
      step timeout Close s
        (mkState (buffered s) (fromClient s) (clientEnds s) (fromUpstream s) (upstreamEnds s)
           (toUpstream s) (toClient s) Returned (down s) false (downstreamOpen s))
  | down_chunk s c rest :
      down s = Copying → fromUpstream s = c :: rest →
      step timeout Chunk s
        (mkState (buffered s) (fromClient s) (clientEnds s) rest (upstreamEnds s)
           (toUpstream s) (toClient s ++ c) (up s) Copying
           (upstreamWritable s) (downstreamOpen s))
  | down_end l s :
      down s = Copying →
      match l with
      | Eof => fromUpstream s = [] ∧ closed (upstreamEnds s) (negb (upstreamWritable s))
      | Failure => True
      | Idle => (0 < timeout)%Z
      | Chunk | Close | ClosedRead => False
      end →
      step timeout l s (set_down Copied s)
  | down_close s :
      down s = Copied →
      step timeout Close s
        (mkState (buffered s) (fromClient s) (clientEnds s) (fromUpstream s) (upstreamEnds s)
           (toUpstream s) (toClient s) (up s) Returned (upstreamWritable s) false).

(** [wg.Wait()] returns. *)
Definition finished (s : State) : Prop := up s = Returned ∧ down s = Returned.

Inductive run (timeout : Z) : list Label → State → State → Prop :=
  | run_nil s : run timeout [] s s
  | run_snoc ls l s s' s'' :
      run timeout ls s s' → step timeout l s' s'' → run timeout (ls ++ [l]) s s''.

(** Runs in which nothing goes wrong. *)
Definition clean (ls : list Label) : Prop := Forall (λ l, l ≠ Failure ∧ l ≠ Idle) ls.

(** ** The invariant *)

Record inv (client upstream : bytes) (s : State) : Prop := mkInv {
  inv_up : toUpstream s ++ buffered s ++ concat (fromClient s) = client;
  inv_down : toClient s ++ concat (fromUpstream s) = upstream;
  inv_open : downstreamOpen s = bool_decide (down s ≠ Returned);
  inv_writable : upstreamWritable s = bool_decide (up s ≠ Returned);
}.

(** A step, case by case. *)
Ltac step_cases H :=
  destruct H as [s Hp Hb Hop|s c rest Hp Hb Hop Hc|l s Hp Hl|s Hp|s c rest Hp Hc|l s Hp Hl|s Hp].

Lemma inv_start pending client ce upstream ue :
  inv (pending ++ concat client) (concat upstream) (start pending client ce upstream ue).
Proof. by split. Qed.

Lemma inv_step timeout l client upstream s s' :
  inv client upstream s → step timeout l s s' → inv client upstream s'.
Proof.
  intros [Hu Hd Ho Hw] Hstep. step_cases Hstep; rewrite Hp in *; split; cbn; try done.
  - by rewrite <- Hu, <- (assoc_L (++)).
  - rewrite <- Hu, Hb, Hc. cbn. by rewrite (assoc_L (++)).
  - rewrite <- Hd, Hc. cbn. by rewrite (assoc_L (++)).
Qed.

Lemma inv_run timeout ls client upstream s s' :
  inv client upstream s → run timeout ls s s' → inv client upstream s'.
Proof. intros Hi Hrun. induction Hrun; [done|]. eapply inv_step; [|done]. auto. Qed.


(** In clean runs the copy to the client only ends at the end of its stream. *)
Definition drained (s : State) : Prop := down s = Copying ∨ fromUpstream s = [].

Lemma drained_step timeout l s s' :
  l ≠ Failure → l ≠ Idle → drained s → step timeout l s s' → drained s'.
Proof.
  unfold drained. intros Hf Hi Hd Hstep. step_cases Hstep; cbn; try done; try (by left).
  - destruct l; try done. destruct Hl. by right.
  - rewrite Hp in Hd. destruct Hd as [?|?]; [done|by right].
Qed.

Lemma drained_run timeout ls s s' :
  clean ls → drained s → run timeout ls s s' → drained s'.
Proof.
  intros Hc Hd Hrun. induction Hrun as [|ls l s s' s'' Hrun IH Hstep]; [done|].
  apply Forall_app in Hc as [Hc Hl]. inversion_clear Hl as [|? ? [Hf Hi] _].
  eapply drained_step; [exact Hf|exact Hi| |exact Hstep]. auto.
Qed.

(** ** Termination *)









(** ** Properties *)

(** C11. Whatever the interleaving, failures and timeouts: what each end has
    received is at every moment a prefix of what the other sent, in order and
    without gaps, starting with the bytes that were already buffered; the
    client's connection stays open until its own copy returns, even after the
    client has finished sending. *)
Theorem tunnel_integrity timeout ls pending client ce upstream ue s
    (Hrun : run timeout ls (start pending client ce upstream ue) s) :
  toUpstream s `prefix_of` pending ++ concat client ∧
  toClient s `prefix_of` concat upstream ∧
  (downstreamOpen s = true ↔ down s ≠ Returned) ∧
  (upstreamWritable s = true ↔ up s ≠ Returned).
Proof.
  destruct (inv_run _ _ _ _ _ _ (inv_start pending client ce upstream ue) Hrun) as [Hu Hd Ho Hw].
  rewrite Ho, Hw, !bool_decide_eq_true. split_and!; [| |done|done].
  - rewrite <- Hu. by apply prefix_app_r.
  - rewrite <- Hd. by apply prefix_app_r.
Qed.



(** C13. When nothing fails and no timeout strikes, the client has received all
    that upstream sent by the time the tunnel is torn down. *)
Theorem tunnel_delivers timeout ls pending client ce upstream ue s
    (Hclean : clean ls) (Hrun : run timeout ls (start pending client ce upstream ue) s)
    (Hfin : finished s) :
  toClient s = concat upstream.
Proof.
  destruct (inv_run _ _ _ _ _ _ (inv_start pending client ce upstream ue) Hrun) as [_ Hd _ _].
  assert (drained s) as [H|H].
  { eapply drained_run; [exact Hclean| |exact Hrun]. by left. }
  - destruct Hfin as [_ Hfin]. congruence.
  - rewrite H in Hd. cbn in Hd. by rewrite app_nil_r in Hd.
Qed.

(** The idle timeout watches each direction by itself: while upstream is
    still sending, a client that stays silent gets its direction cut, upstream
    sees the end of the stream, and what the client says later is lost. *)
Theorem tunnel_idle_per_direction timeout late c (Ht : (0 < timeout)%Z) :
  ∃ ls s, run timeout ls (start [] [late] Closes [c] Closes) s ∧ finished s ∧ (Failure ∉ ls) ∧
    toUpstream s = [] ∧ upstreamWritable s = false ∧ toClient s = c ∧ fromClient s = [late].
Proof.
  exists ([] ++ [Idle] ++ [Close] ++ [Chunk] ++ [Eof] ++ [Close]),
    (mkState [] [late] Closes [] Closes [] c Returned Returned false false).
  split_and!; [|by split|decide_closed|reflexivity..].
  rewrite !(assoc_L (++)). eapply run_snoc; [eapply run_snoc; [eapply run_snoc; [eapply run_snoc;
    [eapply run_snoc; [constructor|]|]|]|]|].
  - by apply up_end.
  - by apply up_close.
  - by eapply down_chunk.
  - by apply down_end.
  - by apply down_close.
Qed.

(** ** Concrete instances *)

(** The client asks and waits, upstream answers and closes, the tunnel ends. *)
Definition demo_labels : list Label := [] ++ [Chunk] ++ [Chunk] ++ [Eof] ++ [Close] ++ [ClosedRead] ++ [Close].
Definition demo_start : State := start [x47] [] Silent [[x4f]] Closes.
Definition demo_end : State := mkState [] [] Silent [] Closes [x47] [x4f] Returned Returned false false.

Lemma demo_run : run 0 demo_labels demo_start demo_end.
Proof.
  unfold demo_labels. rewrite !(assoc_L (++)).
  eapply run_snoc; [eapply run_snoc; [eapply run_snoc; [eapply run_snoc;
    [eapply run_snoc; [eapply run_snoc; [constructor|]|]|]|]|]|].
  - apply up_buffered; [done..|by left].
  - by eapply down_chunk.
  - by apply down_end.
  - by apply down_close.
  - apply up_end; [done|]. split; [done|by left].
  - by apply up_close.
Qed.

Lemma tunnel_integrity_witness : toUpstream demo_end `prefix_of` [x47] ++ concat [].
Proof. apply (tunnel_integrity 0 demo_labels [x47] [] Silent [[x4f]] Closes demo_end demo_run). Defined.


Lemma tunnel_delivers_witness : toClient demo_end = concat [[x4f]].
Proof.
  apply (tunnel_delivers 0 demo_labels [x47] [] Silent [[x4f]] Closes demo_end).
  - repeat constructor; discriminate.
  - exact demo_run.
  - by split.
Defined.

Lemma tunnel_idle_per_direction_witness :
  ∃ ls s, run 30 ls (start [] [[x61]] Closes [[x62]] Closes) s ∧ toUpstream s = [].
Proof.
  destruct (tunnel_idle_per_direction 30 [x61] [x62]) as (ls & s & Hrun & _ & _ & Hu & _).
  - lia.
  - exists ls, s. split; [exact Hrun|exact Hu].
Defined.
