(* ===== verification/ProxyHttp.v ===== *)
(** * [internal/proxy/proxy.go]: plain HTTP and intercepted HTTPS

    The handlers for requests in HTTP form: [handleProxy] splits them into
    [CONNECT] (a TLS tunnel that the proxy terminates itself) and plain
    requests.  Reading requests, TLS and the upstream transport are calls of
    the outside world; a MITM session is bounded by the number of requests
    considered. *)
From S2P Require Export Socks5.

(** ** The response writer over the connection *)

(** [httpConnResponseWriter]; the connection is part of the session. *)
Record ResponseWriter := mkResponseWriter {
  header : Header;
  code : Z;
  wroteHeader : bool;
}.

Definition new_writer : ResponseWriter := mkResponseWriter ∅ 0 false.

Definition crlf : bytes := [x0d; x0a].

Section Writer.
Context `{MapOrder}.

Definition status_line (code : Z) : bytes :=
  let text := StatusText code in
  let text := if decide (text = "") then "status code " +:+ Sprintf_d code else text in
  to_bytes ("HTTP/1.1 " +:+ Sprintf_d code +:+ " " +:+ text) ++ crlf.

Definition header_lines (h : Header) : bytes :=
  map_order h ≫= λ '(k, vals), vals ≫= λ v, to_bytes (k +:+ ": " +:+ v) ++ crlf.

Definition WriteHeader (w : ResponseWriter) (code : Z) : M Sess ResponseWriter :=
  if wroteHeader w then mret w
  else
    conn_write (status_line code);;
    conn_write (header_lines (header w));;
    conn_write crlf;;
    mret (mkResponseWriter (header w) code true).

Definition Write (w : ResponseWriter) (b : bytes) : M Sess ResponseWriter :=
  w ← (if wroteHeader w then mret w else WriteHeader w 200);
  conn_write b;;
  mret w.

(** [http.Error]. *)
Definition HttpError (w : ResponseWriter) (msg : string) (code : Z) : M Sess ResponseWriter :=
  let h := Header_Del (header w) "Content-Length" in
  let h := Header_Set h "Content-Type" "text/plain; charset=utf-8" in
  let h := Header_Set h "X-Content-Type-Options" "nosniff" in
  w ← WriteHeader (mkResponseWriter h (ProxyHttp.code w) (wroteHeader w)) code;
  Write w (to_bytes msg ++ [x0a]).
End Writer.

(** ** Sentinel replacement in messages *)

Definition replaceSentinelsInRequest (p : Proxy) (r : Request) : Header * bytes :=
  (ReplaceSentinelsInHeaders (secretsMgr p) (ReqHeader r),
   match ReqBody r with
   | Some body => ReplaceSentinelsInBody (secretsMgr p) body
   | None => []
   end).

Definition replaceSentinelsInResponse (p : Proxy) (resp : Response) : option bytes :=
  ReplaceSentinelsInBody (secretsMgr p) <$> RespBody resp.

(** The request that goes upstream: headers and body replaced, the URL rebuilt
    on the host and port that the policy saw. *)
Definition upstream_request (p : Proxy) (scheme host port remote : string) (r : Request) : Request :=
  let '(headers, body) := replaceSentinelsInRequest p r in
  let r := SetRequestBody
             (mkRequest (Method r) (ReqURL r) (ReqHost r) (RequestURI r) headers (ReqBody r)
                (ContentLength r) (RemoteAddr r)) body in
  mkRequest (Method r) (mkURL scheme (host +:+ ":" +:+ port) (Path (ReqURL r)) (RawQuery (ReqURL r)))
    (ReqHost r) "" (ReqHeader r) (ReqBody r) (ContentLength r) remote.

(** The response of a MITM session, as written to the client. *)
Definition mitm_response (p : Proxy) (resp : Response) : Response :=
  match replaceSentinelsInResponse p resp with
  | Some b => mkResponse (RespStatus resp) (RespHeader resp) (Some b) (Z.of_nat (length b))
  | None => resp
  end.

Definition bad_gateway : Response :=
  mkResponse 502 ∅ (Some (to_bytes "Bad Gateway" ++ [x0a])) 0.

Section Handlers.
Context `{World, UnicodeFold, MapOrder}.

(** What a denied request leaves behind. *)
Definition deny (host port : string) : M Sess unit :=
  now ← call TimeNow;
  on_proxy (setBlocked (host +:+ ":" +:+ port) (now `div` 1000000000)%Z);;
  on_proxy incDenied.

Definition blocked_message (ruleID : string) : string :=
  "Blocked by policy (rule: " +:+ ruleID +:+ ")".

(** The loop over the requests of an intercepted connection. *)
Fixpoint mitm (fuel : nat) (host port remote : string) : M Sess unit :=
  match fuel with
  | O => mret ()
  | S fuel =>
      r ← call (ReadRequest true);
      match r with
      | inl _ => mret ()
      | inr req =>
          s ← get;
          up ← call (RoundTrip (upstream_request (px s) "https" host port remote req));
          match up with
          | inl _ => tls_write bad_gateway
          | inr resp => s ← get; tls_write (mitm_response (px s) resp)
          end;;
          mitm fuel host port remote
      end
  end.

Definition handleCONNECT (fuel : nat) (w : ResponseWriter) (r : Request)
    (host port sandbox : string) : M Sess unit :=
  s ← get;
  let '(decision, ruleID) := Evaluate (policy (px s)) host port sandbox in
  if decide (decision = DecisionDeny) then
    deny host port;;
    HttpError w (blocked_message ruleID) 403;;
    mret ()
  else
    let established := to_bytes "HTTP/1.1 200 Connection established" ++ crlf ++ crlf in
    err ← call (WriteConn established);
    match err with
    | Some _ => conn_close
    | None =>
        conn_write established;;
        hs ← call TlsHandshake;
        match hs with
        | Some _ => conn_close
        | None => mitm fuel host port (RemoteAddr r);; conn_close
        end
    end.

(** The copy of the upstream headers, values redacted. *)
Definition copy_headers (sm : SecretManager) (h : Header) : Header :=
  foldl (λ acc kv, foldl (λ acc v, Header_Add acc kv.1 (RedactSecretsInHeader sm v)) acc kv.2)
    ∅ (map_order h).

Definition handleHTTP (w : ResponseWriter) (r : Request) (host port sandbox : string) : M Sess unit :=
  s ← get;
  let '(decision, ruleID) := Evaluate (policy (px s)) host port sandbox in
  if decide (decision = DecisionDeny) then
    deny host port;;
    HttpError w (blocked_message ruleID) 403;;
    mret ()
  else
    up ← call (RoundTrip (upstream_request (px s) "http" host port (RemoteAddr r) r));
    match up with
    | inl _ => HttpError w "Bad Gateway" 502;; mret ()
    | inr resp =>
        s ← get;
        let respBody := replaceSentinelsInResponse (px s) resp in
        let w := mkResponseWriter (copy_headers (secretsMgr (px s)) (RespHeader resp))
                   (code w) (wroteHeader w) in
        w ← WriteHeader w (RespStatus resp);
        match respBody with
        | Some b => Write w b;; mret ()
        | None => conn_panic
        end
    end.

(** [net.SplitHostPort(r.Host)], with port 80 by default. *)
Definition request_target (r : Request) : string * string :=
  match SplitHostPort (ReqHost r) with
  | Some (h, p) => (h, p)
  | None => (ReqHost r, "80")
  end.

Definition sandbox_header : string := "X-Sandbox-Name".

Definition with_header (h : Header) (r : Request) : Request :=
  mkRequest (Method r) (ReqURL r) (ReqHost r) (RequestURI r) h (ReqBody r) (ContentLength r)
    (RemoteAddr r).

Definition handleProxy (fuel : nat) (w : ResponseWriter) (r : Request) : M Sess unit :=
  let '(host, port) := request_target r in
  let sandbox := Header_Get (ReqHeader r) sandbox_header in
  let r := if decide (sandbox = "") then r
           else with_header (Header_Del (ReqHeader r) sandbox_header) r in
  if decide (Method r = "CONNECT") then
    on_proxy (incConn "connect");; handleCONNECT fuel w r host port sandbox
  else
    on_proxy (incConn "http");; handleHTTP w r host port sandbox.

Definition handleHTTPFromReader (fuel : nat) (sandbox : string) : M Sess unit :=
  req ← call (ReadRequest false);
  match req with
  | inl _ => conn_close
  | inr r =>
      let r := if decide (sandbox = "") then r
               else with_header (Header_Set (ReqHeader r) sandbox_header sandbox) r in
      handleProxy fuel new_writer r
  end.
End Handlers.

(** [isClosedConnError]. *)
Definition isClosedConnError (err : error) : bool :=
  match err with
  | None => false
  | Some s =>
      Contains s "use of closed network connection" || Contains s "broken pipe"
      || Contains s "connection reset" || Contains s "http: Server closed"
      || (Contains s "tls: " && Contains s "closed")
  end.

(** ** Lemmas: runs of the writer *)

Section WriterRuns.
Context `{MapOrder}.

Definition write_out (b : bytes) (s : Sess) : Sess :=
  mkSess (px s) (mkConn (input (cn s)) (output (cn s) ++ b) (tlsOutput (cn s)) (closed (cn s))
                   (crashed (cn s)) (tunnel (cn s))).

Lemma write_out_app a b s : write_out b (write_out a s) = write_out (a ++ b) s.
Proof. unfold write_out. cbn. by rewrite (assoc_L (++)). Qed.

Lemma conn_write_run b s tr : conn_write b s tr = ((), write_out b s, tr).
Proof. done. Qed.

Definition head_bytes (h : Header) (code : Z) : bytes :=
  status_line code ++ header_lines h ++ crlf.

Lemma WriteHeader_run w code s tr :
  wroteHeader w = false →
  WriteHeader w code s tr
  = (mkResponseWriter (header w) code true, write_out (head_bytes (header w) code) s, tr).
Proof.
  intros Hw. unfold WriteHeader. rewrite Hw, !bind_run, !conn_write_run.
  rewrite !bind_run, !conn_write_run, !bind_run, conn_write_run, ret_run, !write_out_app.
  unfold head_bytes. by rewrite (assoc_L (++)).
Qed.

Lemma Write_run w b s tr :
  wroteHeader w = true → Write w b s tr = (w, write_out b s, tr).
Proof. intros Hw. unfold Write. by rewrite bind_run, Hw. Qed.

(** The headers of [http.Error]. *)
Definition error_header (h : Header) : Header :=
  <["X-Content-Type-Options" := ["nosniff"]]>
    (<["Content-Type" := ["text/plain; charset=utf-8"]]> (delete "Content-Length" h)).

Definition error_bytes (h : Header) (msg : string) (code : Z) : bytes :=
  head_bytes (error_header h) code ++ to_bytes msg ++ [x0a].

Lemma HttpError_run w msg code s tr :
  wroteHeader w = false →
  ∃ w', HttpError w msg code s tr = (w', write_out (error_bytes (header w) msg code) s, tr).
Proof.
  intros Hw. unfold HttpError. rewrite bind_run, WriteHeader_run by done.
  rewrite Write_run by done. rewrite write_out_app. by eexists.
Qed.
End WriterRuns.

Section Lemmas.
Context `{World, UnicodeFold, MapOrder}.

(** What a denial changes: the list of blocked hosts and one counter. *)
Definition denied (host port : string) (now : Z) (p : Proxy) : Proxy :=
  incDenied (setBlocked (host +:+ ":" +:+ port) (now `div` 1000000000)%Z p).

Lemma handleHTTP_run w r host port sb s tr :
  wroteHeader w = false →
  let p := px s in
  let up := upstream_request p "http" host port (RemoteAddr r) r in
  let tr' := tr ++ [RoundTrip up] in
  handleHTTP w r host port sb s tr =
  match Evaluate (policy p) host port sb with
  | (DecisionDeny, id) =>
      ((), write_out (error_bytes (header w) (blocked_message id) 403)
             (mkSess (denied host port (answer tr TimeNow) p) (cn s)), tr ++ [TimeNow])
  | (DecisionAllow, _) =>
      match answer tr (RoundTrip up) with
      | inl _ => ((), write_out (error_bytes (header w) "Bad Gateway" 502) s, tr')
      | inr resp =>
          let h := copy_headers (secretsMgr p) (RespHeader resp) in
          match replaceSentinelsInResponse p resp with
          | Some b => ((), write_out (head_bytes h (RespStatus resp) ++ b) s, tr')
          | None =>
              ((), state_after conn_panic (write_out (head_bytes h (RespStatus resp)) s) tr', tr')
          end
      end
  end.
Proof.
  intros Hw. cbv zeta. unfold handleHTTP. rewrite bind_run, get_run.
  destruct (Evaluate _ _ _ _) as [[] id]; cbv beta iota.
  - rewrite decide_False, bind_run, call_run by done.
    destruct (answer tr (RoundTrip _)) as [e|resp]; cbv beta iota.
    + rewrite bind_run. edestruct HttpError_run as [w' ->]; [done|]. done.
    + rewrite bind_run, get_run. rewrite bind_run, WriteHeader_run by done.
      destruct (replaceSentinelsInResponse _ _) as [b|]; [|done].
      rewrite bind_run, Write_run by done. cbv beta iota. by rewrite write_out_app.
  - rewrite decide_True by done. unfold deny. rewrite !bind_run, call_run.
    unfold on_proxy. rewrite bind_run, !modify_run. cbn [px cn].
    rewrite bind_run. edestruct HttpError_run as [w' ->]; [done|]. done.
Qed.

Lemma handleCONNECT_run fuel w r host port sb s tr :
  wroteHeader w = false →
  let p := px s in
  let est := to_bytes "HTTP/1.1 200 Connection established" ++ crlf ++ crlf in
  let s1 := write_out est s in
  let t1 := tr ++ [WriteConn est] in
  handleCONNECT fuel w r host port sb s tr =
  match Evaluate (policy p) host port sb with
  | (DecisionDeny, id) =>
      ((), write_out (error_bytes (header w) (blocked_message id) 403)
             (mkSess (denied host port (answer tr TimeNow) p) (cn s)), tr ++ [TimeNow])
  | (DecisionAllow, _) =>
      match answer tr (WriteConn est) with
      | Some _ => ((), state_after conn_close s tr, t1)
      | None =>
          match answer t1 TlsHandshake with
          | Some _ => ((), state_after conn_close s1 t1, t1 ++ [TlsHandshake])
          | None => (mitm fuel host port (RemoteAddr r);; conn_close) s1 (t1 ++ [TlsHandshake])
          end
      end
  end.
Proof.
  intros Hw. cbv zeta. unfold handleCONNECT. rewrite bind_run, get_run.
  destruct (Evaluate _ _ _ _) as [[] id]; cbv beta iota.
  - rewrite decide_False, bind_run, call_run by done. destruct (answer tr _); [done|].
    rewrite bind_run, conn_write_run, bind_run, call_run. by destruct (answer _ TlsHandshake).
  - rewrite decide_True by done. unfold deny. rewrite !bind_run, call_run.
    unfold on_proxy. rewrite bind_run, !modify_run. cbn [px cn].
    rewrite bind_run. edestruct HttpError_run as [w' ->]; [done|]. done.
Qed.

(** ** Safety *)

(** The calls that the policy [pe] allows to requests of sandbox [sb].  A
    request goes upstream if its URL names a host and a port (what follows the
    last colon) that the policy allows; its headers are those of some request
    with the sentinels replaced. *)
Definition allowed_http (pe : Engine) (sm : SecretManager) (sb : string) (e : Ext) : Prop :=
  match e with
  | RoundTrip req =>
      ∃ host port, UrlHost (ReqURL req) = host +:+ ":" +:+ port ∧ (x3a ∉ to_bytes port) ∧
        (Evaluate pe host port sb).1 = DecisionAllow ∧
        (Scheme (ReqURL req) = "http" ∨ Scheme (ReqURL req) = "https") ∧
        ∃ r, ReqHeader req = ReplaceSentinelsInHeaders sm (ReqHeader r)
  | ReadRequest _ | TimeNow | WriteConn _ | TlsHandshake => True
  | _ => False
  end.

Definition config_is (pe : Engine) (sm : SecretManager) (s : Sess) : Prop :=
  policy (px s) = pe ∧ secretsMgr (px s) = sm.

(** Counters are all that the handlers change in the proxy. *)
Definition counts (f : Proxy → Proxy) : Prop :=
  ∀ p, ∃ b act h c s r d, f p = with_counters b act h c s r d p.

Class HttpInv (pe : Engine) (sm : SecretManager) (I : Sess → Prop) : Prop := {
  http_proxy_inv :: ProxyInv pe I;
  inv_counters : ∀ s f, counts f → I s → I (mkSess (f (px s)) (cn s));
  inv_secrets : ∀ s, I s → secretsMgr (px s) = sm;
}.

#[export] Instance config_is_inv pe sm : HttpInv pe sm (config_is pe sm).
Proof.
  split; [split; [by intros s c []|by intros s []]| |by intros s []].
  intros s f Hf [? ?]. destruct (Hf (px s)) as (b & a & h & c & s5 & r & d & E).
  by split; cbn; rewrite E.
Qed.

Lemma counts_incConn k : counts (incConn k).
Proof.
  intros p. unfold incConn.
  repeat (case_decide; [by do 7 eexists|]). destruct p. by do 7 eexists.
Qed.

Lemma counts_incDenied : counts incDenied.
Proof. intros p. by do 7 eexists. Qed.

Lemma counts_setBlocked hp t : counts (setBlocked hp t).
Proof. intros p. by do 7 eexists. Qed.

Lemma counts_addActive d : counts (addActive d).
Proof. intros p. by do 7 eexists. Qed.

Section Guards.
Context (pe : Engine) (sm : SecretManager) (I : Sess → Prop) `{!HttpInv pe sm I}.

Lemma guarded_conn P f : guarded I P (on_conn f).
Proof. eapply guarded_on_conn. apply _. Qed.

Lemma guarded_counter P f : counts f → guarded I P (on_proxy f).
Proof. intros Hf. apply guarded_modify. intros s. by apply inv_counters. Qed.

Lemma guarded_WriteHeader P w c : guarded I P (WriteHeader w c).
Proof.
  unfold WriteHeader. destruct (wroteHeader w); [apply guarded_ret|].
  repeat (apply guarded_bind; [apply guarded_conn|intros _]). apply guarded_ret.
Qed.

Lemma guarded_Write P w b : guarded I P (Write w b).
Proof.
  unfold Write. apply guarded_bind.
  - destruct (wroteHeader w); [apply guarded_ret|apply guarded_WriteHeader].
  - intros w'. apply guarded_bind; [apply guarded_conn|intros _]. apply guarded_ret.
Qed.

Lemma guarded_deny_reply sb w msg host port :
  guarded I (allowed_http pe sm sb)
    (deny host port;; HttpError w msg 403;; mret ()).
Proof.
  apply guarded_bind.
  - apply guarded_bind; [refine (guarded_call _ _ TimeNow _); exact Logic.I|intros now].
    apply guarded_bind; [|intros _];
      apply guarded_counter; [apply counts_setBlocked|apply counts_incDenied].
  - intros _. apply guarded_bind; [|intros; apply guarded_ret].
    unfold HttpError. apply guarded_bind; [apply guarded_WriteHeader|]. intros. apply guarded_Write.
Qed.

Lemma guarded_round_trip sb scheme host port remote r p :
  scheme = "http" ∨ scheme = "https" → x3a ∉ to_bytes port →
  (Evaluate pe host port sb).1 = DecisionAllow → secretsMgr p = sm →
  guarded I (allowed_http pe sm sb)
    (call (RoundTrip (upstream_request p scheme host port remote r)) : M Sess _).
Proof.
  intros Hsch Hp He <-. refine (guarded_call _ _ (RoundTrip _) _).
  exists host, port. split_and!; [done..|]. by exists r.
Qed.

Lemma guarded_mitm sb fuel host port remote :
  x3a ∉ to_bytes port → (Evaluate pe host port sb).1 = DecisionAllow →
  guarded I (allowed_http pe sm sb) (mitm fuel host port remote).
Proof.
  intros Hp He. induction fuel as [|fuel IH]; [apply guarded_ret|]. cbn [mitm].
  apply guarded_bind; [refine (guarded_call _ _ (ReadRequest true) _); exact Logic.I|].
  intros [e|req]; [apply guarded_ret|]. apply guarded_get. intros s HI. pose proof (inv_secrets s HI) as Hs.
  apply guarded_bind; [apply guarded_round_trip; auto|]. intros up.
  apply guarded_bind; [|intros _; exact IH].
  destruct up as [e|resp]; [apply guarded_conn|]. apply guarded_get. intros s' _.
  apply guarded_conn.
Qed.

Lemma guarded_handleHTTP sb w r host port :
  x3a ∉ to_bytes port → guarded I (allowed_http pe sm sb) (handleHTTP w r host port sb).
Proof.
  intros Hp. apply guarded_get. intros s HI. pose proof (inv_secrets s HI) as Hs. rewrite (inv_policy s HI).
  destruct (Evaluate pe host port sb) as [d id] eqn:E. case_decide as Hd.
  { apply guarded_deny_reply. }
  apply guarded_bind; [apply guarded_round_trip; [auto|done|rewrite E; by destruct d|done]|].
  intros [e|resp].
  - apply guarded_bind; [|intros; apply guarded_ret].
    unfold HttpError. apply guarded_bind; [apply guarded_WriteHeader|]. intros. apply guarded_Write.
  - apply guarded_get. intros s' _. cbv zeta. apply guarded_bind; [apply guarded_WriteHeader|].
    intros w'. destruct (replaceSentinelsInResponse _ _); [|apply guarded_conn].
    apply guarded_bind; [apply guarded_Write|]. intros. apply guarded_ret.
Qed.

Lemma guarded_handleCONNECT sb fuel w r host port :
  x3a ∉ to_bytes port → guarded I (allowed_http pe sm sb) (handleCONNECT fuel w r host port sb).
Proof.
  intros Hp. apply guarded_get. intros s HI. pose proof (inv_secrets s HI) as Hs. rewrite (inv_policy s HI).
  destruct (Evaluate pe host port sb) as [d id] eqn:E. case_decide as Hd.
  { apply guarded_deny_reply. }
  cbv zeta. apply guarded_bind; [refine (guarded_call _ _ (WriteConn _) _); exact Logic.I|].
  intros [e|]; [apply guarded_conn|].
  apply guarded_bind; [apply guarded_conn|intros _].
  apply guarded_bind; [refine (guarded_call _ _ TlsHandshake _); exact Logic.I|].
  intros [e|]; [apply guarded_conn|].
  apply guarded_bind; [apply guarded_mitm; [done|rewrite E; by destruct d]|].
  intros _. apply guarded_conn.
Qed.

(** A port is what follows the last colon. *)
Lemma request_target_port r : x3a ∉ to_bytes (request_target r).2.
Proof.
  unfold request_target. destruct (SplitHostPort (ReqHost r)) as [[h p]|] eqn:E; cbn [snd].
  - by eapply SplitHostPort_port.
  - decide_closed.
Qed.

(** The scope that the request's header selects. *)
Definition request_scope (r : Request) : string := Header_Get (ReqHeader r) sandbox_header.

Lemma guarded_handleProxy fuel w r :
  guarded I (allowed_http pe sm (request_scope r)) (handleProxy fuel w r).
Proof.
  pose proof (request_target_port r) as Hp. unfold handleProxy.
  destruct (request_target r) as [host port]. cbv zeta. cbn [snd] in Hp.
  assert (∀ k, guarded I (allowed_http pe sm (request_scope r))
                 (on_proxy (incConn k))) as Hinc by (intros k; apply guarded_counter, counts_incConn).
  case_decide; (apply guarded_bind; [apply Hinc|intros _]);
    [by apply guarded_handleCONNECT|by apply guarded_handleHTTP].
Qed.

Lemma scope_of_named sandbox r :
  sandbox ≠ "" →
  request_scope (with_header (Header_Set (ReqHeader r) sandbox_header sandbox) r) = sandbox.
Proof.
  intros _. unfold request_scope, Header_Get, Header_Set. cbn. by rewrite lookup_insert_eq.
Qed.

(** With a configured name the scope is that name; without one the client
    chooses. *)
Definition allowed_any_http (pe : Engine) (sm : SecretManager) (sandbox : string) (e : Ext) : Prop :=
  ∃ sb, (sandbox ≠ "" → sb = sandbox) ∧ allowed_http pe sm sb e.

Lemma guarded_handleHTTPFromReader fuel sandbox :
  guarded I (allowed_any_http pe sm sandbox) (handleHTTPFromReader fuel sandbox).
Proof.
  unfold handleHTTPFromReader.
  apply guarded_bind; [refine (guarded_call _ _ (ReadRequest false) _); by exists sandbox|].
  intros [e|r]; [apply guarded_conn|]. cbv zeta.
  eapply guarded_weaken; [|apply guarded_handleProxy]. intros e He.
  eexists. split; [|exact He]. intros Hne. rewrite decide_False by done. by apply scope_of_named.
Qed.
End Guards.
End Lemmas.

(** ** Specification of what is sent and relayed *)

(** What goes upstream for a request [r] to that host and port. *)
Definition forwarded (sm : SecretManager) (scheme host port remote : string) (r : Request) : Request :=
  let body := match ReqBody r with Some b => ReplaceSentinelsInBody sm b | None => [] end in
  mkRequest (Method r) (mkURL scheme (host +:+ ":" +:+ port) (Path (ReqURL r)) (RawQuery (ReqURL r)))
    (ReqHost r) "" (ReplaceSentinelsInHeaders sm (ReqHeader r)) (Some body)
    (Z.of_nat (length body)) remote.

Lemma upstream_request_forwarded p scheme host port remote r :
  upstream_request p scheme host port remote r = forwarded (secretsMgr p) scheme host port remote r.
Proof. done. Qed.

(** What the client of an intercepted connection gets for the answer. *)
Definition relayed (sm : SecretManager) (up : string + Response) : Response :=
  match up with
  | inl _ => mkResponse 502 ∅ (Some (to_bytes "Bad Gateway" ++ [x0a])) 0
  | inr resp =>
      match RespBody resp with
      | Some b =>
          let b' := ReplaceSentinelsInBody sm b in
          mkResponse (RespStatus resp) (RespHeader resp) (Some b') (Z.of_nat (length b'))
      | None => resp
      end
  end.

(** The headers of a relayed answer: every value redacted. *)
Definition redacted_header (sm : SecretManager) (h : Header) : Header :=
  omap (λ vals, if decide (vals = []) then None else Some (RedactSecretsInHeader sm <$> vals)) h.

(** ** Lemmas: copied headers *)

Section Copied.
Context `{MapOrder, !MapOrderOk}.
Context (sm : SecretManager).

Definition add_all (k : string) (acc : Header) (vals : list string) : Header :=
  foldl (λ acc v, Header_Add acc k (RedactSecretsInHeader sm v)) acc vals.

Lemma add_all_lookup k acc vals k' :
  add_all k acc vals !! k' =
  if decide (k' = k ∧ vals ≠ [])
  then Some (default [] (acc !! k) ++ (RedactSecretsInHeader sm <$> vals))
  else acc !! k'.
Proof.
  revert acc. induction vals as [|v vals IH]; intros acc; cbn.
  { by rewrite decide_False by tauto. }
  unfold add_all in IH. rewrite IH. unfold Header_Add. rewrite lookup_insert_eq. cbn.
  destruct (decide (k' = k)) as [->|Hne].
  - rewrite (decide_True (P := k = k ∧ v :: vals ≠ [])) by done. case_decide as Hv.
    + by rewrite <- (assoc_L (++)).
    + rewrite lookup_insert_eq. destruct vals; [done|]. exfalso. by apply Hv.
  - rewrite !decide_False by tauto. by rewrite lookup_insert_ne.
Qed.

Definition copied (vals : option (list string)) : option (list string) :=
  match vals with
  | Some (v :: vs) => Some (RedactSecretsInHeader sm <$> v :: vs)
  | _ => None
  end.

Lemma copy_fold l acc k :
  NoDup l.*1 → (∀ k, k ∈ l.*1 → acc !! k = None) →
  foldl (λ acc kv, add_all kv.1 acc kv.2) acc l !! k =
  match (list_to_map l : Header) !! k with
  | Some (v :: vs) => Some (RedactSecretsInHeader sm <$> v :: vs)
  | _ => acc !! k
  end.
Proof.
  revert acc. induction l as [|[k0 vals] l IH]; intros acc; [done|].
  cbn -[add_all]. intros [Hnin Hnd]%NoDup_cons Hacc. rewrite IH; [|done|].
  - rewrite !add_all_lookup. destruct (decide (k = k0)) as [->|Hne].
    + rewrite lookup_insert_eq.
      rewrite (not_elem_of_list_to_map_1 l k0 Hnin).
      rewrite (Hacc k0) by left. cbn. destruct vals as [|v vs].
      * rewrite decide_False by (intros [_ []]; done). done.
      * by rewrite decide_True.
    + rewrite lookup_insert_ne by done. rewrite decide_False by tauto. done.
  - intros k' Hk'. rewrite add_all_lookup, decide_False by (intros [-> _]; done).
    apply Hacc. by right.
Qed.

Lemma copy_headers_lookup h k : copy_headers sm h !! k = copied (h !! k).
Proof.
  pose proof (map_order_perm _ h) as Hp.
  assert (NoDup (map_order h).*1) as Hnd
    by (rewrite Hp; apply NoDup_fst_map_to_list).
  assert ((list_to_map (map_order h) : Header) = h) as Hm.
  { rewrite <- (list_to_map_to_list h) at 2. by apply list_to_map_proper. }
  unfold copy_headers. change (foldl _ ∅ (map_order h))
    with (foldl (λ acc kv, add_all kv.1 acc kv.2) (∅ : Header) (map_order h)).
  rewrite copy_fold by (done || by intros; rewrite lookup_empty).
  rewrite Hm, lookup_empty. by destruct (h !! k) as [[|v vs]|].
Qed.

Lemma copy_headers_redacted h : copy_headers sm h = redacted_header sm h.
Proof.
  apply map_eq. intros k. rewrite copy_headers_lookup. unfold redacted_header. rewrite lookup_omap.
  by destruct (h !! k) as [[|v vs]|].
Qed.
End Copied.

(** ** Properties *)

Section Properties.
Context `{World, UnicodeFold, MapOrder}.

(** C29. A denied request, plain or CONNECT, is answered 403 with the rule that
    the policy reports; nothing goes upstream, the destination is recorded with
    the time, the denial is counted, and the connection is not closed. *)
Theorem denied_requests fuel r host port sb s tr id
    (Hdeny : Evaluate (policy (px s)) host port sb = (DecisionDeny, id)) :
  let body := to_bytes ("Blocked by policy (rule: " +:+ id +:+ ")") ++ [x0a] in
  let h : Header := <["X-Content-Type-Options" := ["nosniff"]]>
                      {[ "Content-Type" := ["text/plain; charset=utf-8"] ]} in
  let p' := denied host port (answer tr TimeNow) (px s) in
  let c := cn s in
  let s' := mkSess p' (mkConn (input c) (output c ++ head_bytes h 403 ++ body) (tlsOutput c)
                         (closed c) (crashed c) (tunnel c)) in
  handleHTTP new_writer r host port sb s tr = ((), s', tr ++ [TimeNow]) ∧
  handleCONNECT fuel new_writer r host port sb s tr = ((), s', tr ++ [TimeNow]) ∧
  deniedTotal p' = wrap64 (deniedTotal (px s) + 1) ∧
  blockedHosts p' !! (host +:+ ":" +:+ port) = Some (answer tr TimeNow `div` 1000000000)%Z.
Proof.
  cbv zeta. rewrite handleHTTP_run, handleCONNECT_run by done. rewrite Hdeny.
  split_and!; [reflexivity..|]. apply lookup_insert_eq.
Qed.

(** C28. An allowed plain request: exactly one upstream request, to the host and
    port that the policy allowed, carrying the replaced headers and body with
    the right length; the answer is relayed with its status, each of its header
    values redacted, and its body with the sentinels replaced.  The connection
    is neither closed nor read again. *)
Theorem handleHTTP_forwards `{!MapOrderOk} r host port sb s tr id resp b
    (Hallow : Evaluate (policy (px s)) host port sb = (DecisionAllow, id))
    (Hbody : RespBody resp = Some b) :
  let sm := secretsMgr (px s) in
  let body := match ReqBody r with Some b => ReplaceSentinelsInBody sm b | None => [] end in
  let up := mkRequest (Method r)
              (mkURL "http" (host +:+ ":" +:+ port) (Path (ReqURL r)) (RawQuery (ReqURL r)))
              (ReqHost r) "" (ReplaceSentinelsInHeaders sm (ReqHeader r)) (Some body)
              (Z.of_nat (length body)) (RemoteAddr r) in
  let h : Header := omap (λ vals, if decide (vals = []) then None
                                  else Some (RedactSecretsInHeader sm <$> vals)) (RespHeader resp) in
  let c := cn s in
  answer tr (RoundTrip up) = inr resp →
  handleHTTP new_writer r host port sb s tr =
  ((), mkSess (px s)
         (mkConn (input c)
            (output c ++ head_bytes h (RespStatus resp) ++ ReplaceSentinelsInBody sm b)
            (tlsOutput c) (closed c) (crashed c) (tunnel c)),
   tr ++ [RoundTrip up]).
Proof.
  cbv zeta. intros Hans. rewrite handleHTTP_run, Hallow, upstream_request_forwarded by done.
  unfold forwarded. cbv zeta. rewrite Hans, copy_headers_redacted.
  unfold replaceSentinelsInResponse. by rewrite Hbody.
Qed.

(** No header of a relayed answer shows a secret: whatever the upstream
    sends, a redactable value that differs from its sentinel occurs in none of
    the values copied to the client. *)
Theorem relayed_headers_redacted `{!MapOrderOk} sm h k vals v s
    (Hk : copy_headers sm h !! k = Some vals) (Hv : v ∈ vals)
    (Hs : s ∈ secrets sm) (Hdiff : Value s ≠ Sentinel s) (Hred : redactable (Value s)) :
  Contains v (Value s) = false.
Proof.
  rewrite copy_headers_lookup in Hk. unfold copied in Hk.
  destruct (h !! k) as [[|v0 vs]|]; simplify_eq.
  apply list_elem_of_fmap in Hv as (v1 & -> & _). by apply redacted_absent.
Qed.

(** A session of the intercepted connection, of at most [n] requests: what it
    reads, sends upstream and writes back.  Before the rounds are used up it
    only ends when no request can be read. *)
Inductive exchanges (sm : SecretManager) (host port remote : string) :
    nat → trace → trace → list Response → Prop :=
  | exchanges_rounds tr : exchanges sm host port remote 0 tr tr []
  | exchanges_stop n tr e :
      answer tr (ReadRequest true) = inl e →
      exchanges sm host port remote (S n) tr (tr ++ [ReadRequest true]) []
  | exchanges_cons n tr tr' req outs :
      answer tr (ReadRequest true) = inr req →
      let up := RoundTrip (forwarded sm "https" host port remote req) in
      exchanges sm host port remote n (tr ++ [ReadRequest true; up]) tr' outs →
      exchanges sm host port remote (S n) tr tr'
        (relayed sm (answer (tr ++ [ReadRequest true]) up) :: outs).

(** One answer, written. *)
Lemma mitm_write (up : string + Response) s tr :
  match up with
  | inl _ => tls_write bad_gateway
  | inr resp => s ← get; tls_write (mitm_response (px s) resp)
  end s tr
  = ((), mkSess (px s) (mkConn (input (cn s)) (output (cn s))
           (tlsOutput (cn s) ++ [relayed (secretsMgr (px s)) up])
           (closed (cn s)) (crashed (cn s)) (tunnel (cn s))), tr).
Proof.
  destruct up as [e|resp]; [done|]. rewrite bind_run, get_run. cbn [relayed].
  unfold mitm_response, replaceSentinelsInResponse. by destruct (RespBody resp).
Qed.

(** C27. A MITM session, of any length: request by request, each is rebuilt on
    the host and port of the CONNECT - whatever host the request names - with
    its sentinels replaced, and sent upstream, and exactly one answer is written
    for it, in order: the upstream answer with the sentinels replaced and the
    length of the new body, or 502.  As long as a request can be read the
    session goes on, up to the number of rounds considered. *)
Theorem mitm_exchanges fuel host port remote s tr :
  let s' := state_after (mitm fuel host port remote) s tr in
  ∃ outs,
    exchanges (secretsMgr (px s)) host port remote fuel tr
      (trace_after (mitm fuel host port remote) s tr) outs ∧
    px s' = px s ∧ tlsOutput (cn s') = tlsOutput (cn s) ++ outs.
Proof.
  cbv zeta. unfold state_after, trace_after. revert s tr. induction fuel as [|fuel IH]; intros s tr.
  { exists []. split_and!; [constructor|done|by rewrite app_nil_r]. }
  cbn [mitm]. rewrite bind_run, call_run. destruct (answer tr (ReadRequest true)) as [e|req] eqn:Hr.
  { exists []. split_and!; [by eapply exchanges_stop|done|by rewrite app_nil_r]. }
  rewrite bind_run, get_run, bind_run, call_run, bind_run, upstream_request_forwarded, mitm_write.
  set (up := RoundTrip _).
  match goal with |- context [mitm fuel host port remote ?s1 ?t1] =>
    destruct (IH s1 t1) as (outs & Hx & Hp & Ho) end.
  eexists (_ :: outs). split_and!; [|exact Hp|rewrite Ho; cbn; by rewrite <- (assoc_L (++))].
  eapply exchanges_cons; [exact Hr|].
  change [ReadRequest true; RoundTrip (forwarded _ _ _ _ _ _)] with ([ReadRequest true] ++ [up]).
  rewrite (assoc_L (++)). exact Hx.
Qed.
End Properties.

(** ** Concrete instances *)

Definition allow_all : Engine := mkEngine [mkRule "rule-3" "a" "allow" ["*:*"] ""] 4 "" "balanced".
Definition demo_session : Sess :=
  mkSess (NewProxy allow_all demo_secrets "") (new_conn []).

Definition demo_request (method host : string) : Request :=
  mkRequest method (mkURL "http" host "/v1" "") host "http://h/v1"
    {[ "Authorization" := ["Bearer SENTINEL_1"] ]} (Some (to_bytes "k=SENTINEL_1")) 12 "10.0.0.2:999".

Definition demo_response : Response :=
  mkResponse 200 {[ "Content-Length" := ["10"] ]} (Some (to_bytes "SENTINEL_1")) 10.

Definition demo_upstream : World := λ tr e,
  match e return Resp e with
  | RoundTrip _ => inr demo_response
  | ReadRequest _ => inr (demo_request "GET" "example.com")
  | e => quiet_world tr e
  end.

(** The relayed answer to a plain request keeps the upstream's
    Content-Length although the body was replaced: there is a session in which
    the client is told ten bytes and receives six. *)
Theorem plain_http_length_mismatch :
  ∃ (W : World) (F : UnicodeFold) (O : MapOrder) s r host port sb h b,
    output (cn (state_after (@handleHTTP W F O new_writer r host port sb) s []))
      = head_bytes h 200 ++ b ∧
    h !! "Content-Length" = Some [Sprintf_d 10] ∧ length b = 6.
Proof.
  exists demo_upstream, no_unicode_folding, some_order, demo_session,
    (demo_request "GET" "example.com"), "example.com", "80", "",
    (@copy_headers some_order demo_secrets (RespHeader demo_response)), (to_bytes "sk-9f3").
  split_and!; vm_compute; reflexivity.
Qed.

Lemma denied_requests_witness :
  (handleHTTP (H := quiet_world) (H0 := no_unicode_folding) (H1 := some_order) new_writer
     (demo_request "GET" "example.com") "example.com" "80" "box"
     (mkSess (NewProxy (mkEngine [] 3 "" "balanced") NewSecretManager "") (new_conn [])) []).2
  = [TimeNow].
Proof.
  edestruct (@denied_requests quiet_world no_unicode_folding some_order 1
    (demo_request "GET" "example.com") "example.com" "80" "box"
    (mkSess (NewProxy (mkEngine [] 3 "" "balanced") NewSecretManager "") (new_conn [])) [])
    as [H _].
  - vm_compute. reflexivity.
  - rewrite H. reflexivity.
Defined.

Lemma handleHTTP_forwards_witness :
  output (cn (handleHTTP (H := demo_upstream) (H0 := no_unicode_folding) (H1 := some_order)
     new_writer (demo_request "GET" "example.com") "example.com" "80" "box" demo_session []).1.2)
  = @head_bytes some_order {[ "Content-Length" := ["10"] ]} 200 ++ to_bytes "sk-9f3".
Proof.
  rewrite (@handleHTTP_forwards demo_upstream no_unicode_folding some_order some_order_ok
    (demo_request "GET" "example.com") "example.com" "80" "box" demo_session [] "rule-3"
    demo_response (to_bytes "SENTINEL_1")).
  - vm_compute. reflexivity.
  - vm_compute. reflexivity.
  - reflexivity.
  - reflexivity.
Defined.

Lemma relayed_headers_redacted_witness :
  Contains "Bearer [REDACTED]" "sk-9f3" = false.
Proof.
  apply (@relayed_headers_redacted some_order some_order_ok demo_secrets
    {[ "X-Auth" := ["Bearer sk-9f3"] ]} "X-Auth" ["Bearer [REDACTED]"] "Bearer [REDACTED]" demo_secret).
  - vm_compute. reflexivity.
  - by left.
  - by left.
  - done.
  - split; [done|]. split; [decide_closed|]. split; [decide_closed|]. vm_compute. reflexivity.
Defined.
