(* ===== verification/Dispatch.v ===== *)
(** * [Proxy.dispatch]: one listener, three protocols

    [dispatch] admits a connection, looks at its first byte and hands it to the
    handler of the protocol.  First comes the function itself, with the safety
    theorem of the whole proxy; then the connection limit, where many
    [dispatch]es run at once on two atomic counters. *)
From S2P Require Export Tunnel ProxyHttp.

Section Dispatch.
Context `{World, UnicodeFold, MapOrder}.

(** The switch over the first byte. *)
Definition dispatch_protocol (localIPs : list bytes) (fuel : nat) : M Sess unit :=
  b ← peek;
  match b with
  | None => conn_close
  | Some b =>
      s ← get;
      let p := px s in
      if Byte.eqb b x05 then
        if negb (socks5Enabled p) then on_proxy incDenied;; conn_close
        else on_proxy (incConn "socks5");; handleSOCKS5 (sandboxName p)
      else if ((65 <=? b2z b) && (b2z b <=? 90))%Z then
        handleHTTPFromReader fuel (sandboxName p)
      else
        if negb (rawTCPEnabled p) then on_proxy incDenied;; conn_close
        else on_proxy (incConn "rawtcp");; handleRawTCP localIPs (sandboxName p)
  end.

Definition dispatch (localIPs : list bytes) (fuel : nat) : M Sess unit :=
  s ← get;
  let maxConns := maxConnections (px s) in
  if (0 <? maxConns)%Z then
    on_proxy (addActive 1);;
    s ← get;
    let cur := activeConns (px s) in
    if (maxConns <? cur)%Z then on_proxy (addActive (-1));; conn_close
    else dispatch_protocol localIPs fuel;; on_proxy (addActive (-1))
  else dispatch_protocol localIPs fuel.

(** ** Safety *)

(** What a connection may make the proxy do: dial or send only where the
    policy [pe], asked for the sandbox [sb], allows it. *)
Definition permitted (localIPs : list bytes) (pe : Engine) (sm : SecretManager) (sb : string)
    (e : Ext) : Prop :=
  match e with
  | DialTimeout _ _ => allowed_dial pe sb e ∨ allowed_raw localIPs pe sb e
  | RoundTrip _ => allowed_any_http pe sm sb e
  | SockOriginalDst | ReadRequest _ | TimeNow | WriteConn _ | TlsHandshake => True
  | _ => False
  end.

Definition named (pe : Engine) (sm : SecretManager) (sb : string) (s : Sess) : Prop :=
  config_is pe sm s ∧ sandboxName (px s) = sb.

#[export] Instance named_inv pe sm sb : HttpInv pe sm (named pe sm sb).
Proof.
  split; [split; [by intros s c [[? ?] ?]|by intros s [[? ?] ?]]| |by intros s [[? ?] ?]].
  intros s f Hf [[? ?] ?]. destruct (Hf (px s)) as (b & a & h & c & s5 & r & d & E).
  by split; [split|]; cbn; rewrite E.
Qed.

Lemma guarded_dispatch_protocol localIPs fuel pe sm sb :
  guarded (named pe sm sb) (permitted localIPs pe sm sb) (dispatch_protocol localIPs fuel).
Proof.
  apply guarded_bind; [apply guarded_get; intros; apply guarded_ret|].
  intros [b|]; [|by eapply guarded_conn; apply _]. apply guarded_get.
  intros s [_ Hsb]. cbv zeta. rewrite Hsb.
  assert (∀ f, counts f → guarded (named pe sm sb) (permitted localIPs pe sm sb) (on_proxy f)) as Hcnt
    by (intros f Hf; by eapply guarded_counter; [apply _|]).
  assert (guarded (named pe sm sb) (permitted localIPs pe sm sb) conn_close) as Hclose
    by (eapply guarded_conn; apply _).
  destruct (Byte.eqb b x05); [|destruct (_ && _)%Z].
  - destruct (negb _); (apply guarded_bind; [|intros _]).
    + apply Hcnt, counts_incDenied.
    + exact Hclose.
    + apply Hcnt, counts_incConn.
    + eapply guarded_weaken; [|eapply guarded_handleSOCKS5; apply _].
      intros [] He; try done. by left.
  - eapply guarded_weaken; [|eapply guarded_handleHTTPFromReader; apply _].
    intros [] (sb' & Hsb' & He); try done. by exists sb'.
  - destruct (negb _); (apply guarded_bind; [|intros _]).
    + apply Hcnt, counts_incDenied.
    + exact Hclose.
    + apply Hcnt, counts_incConn.
    + eapply guarded_weaken; [|eapply guarded_handleRawTCP; apply _].
      intros [] He; try done. by right.
Qed.

Lemma guarded_dispatch localIPs fuel pe sm sb :
  guarded (named pe sm sb) (permitted localIPs pe sm sb) (dispatch localIPs fuel).
Proof.
  assert (∀ d, guarded (named pe sm sb) (permitted localIPs pe sm sb) (on_proxy (addActive d))) as Hact
    by (intros d; eapply guarded_counter; [apply _|apply counts_addActive]).
  apply guarded_get. intros s _. cbv zeta.
  destruct (0 <? _)%Z; [|apply guarded_dispatch_protocol].
  apply guarded_bind; [apply Hact|intros _]. apply guarded_get. intros s' _.
  destruct (_ <? _)%Z; (apply guarded_bind; [|intros _]).
  - apply Hact.
  - eapply guarded_conn; apply _.
  - apply guarded_dispatch_protocol.
  - apply Hact.
Qed.

(** ** The counters *)

(** Tunnels leave the proxy as it is. *)
Lemma handleSOCKS5_proxy sb s tr : px (state_after (handleSOCKS5 sb) s tr) = px s.
Proof. by apply (guarded_handleSOCKS5 _ (λ s', px s' = px s) sb). Qed.

Lemma handleRawTCP_proxy localIPs sb s tr :
  px (state_after (handleRawTCP localIPs sb) s tr) = px s.
Proof. by apply (guarded_handleRawTCP localIPs _ (λ s', px s' = px s) sb). Qed.

(** ** Properties *)

(** C1. The proxy's promise: whatever bytes a connection carries, whichever
    protocol they select, and whatever the network answers, the proxy dials only
    where the policy, asked about that host and port and the sandbox it serves,
    says allow, and every request it sends has such a host and port in its URL,
    whatever URL the client wrote (a proxy without a sandbox name asks about the
    scope that the client names; a redirected connection to one of the
    container's own addresses goes to the loopback interface instead); the
    policy and the secrets stay as they are. *)
Theorem dispatch_safe localIPs fuel s tr :
  let p := px s in
  let s' := state_after (dispatch localIPs fuel) s tr in
  policy (px s') = policy p ∧ secretsMgr (px s') = secretsMgr p ∧
  ∃ new, trace_after (dispatch localIPs fuel) s tr = tr ++ new ∧
    Forall (permitted localIPs (policy p) (secretsMgr p) (sandboxName p)) new.
Proof.
  cbv zeta. destruct (guarded_dispatch localIPs fuel (policy (px s)) (secretsMgr (px s))
    (sandboxName (px s)) s tr) as [[[? ?] _] ?]; [done|]. done.
Qed.

(** Calls that reach another host. *)
Definition outgoing (e : Ext) : bool :=
  match e with DialTimeout _ _ | RoundTrip _ => true | _ => false end.

(** C4. Isolation by default: as long as no allow rule is in the scope of the
    sandbox - with the default rules in particular - no connection of any
    protocol makes the proxy reach another host, whatever scope the client
    claims in its headers. *)
Theorem no_allow_rule_isolates localIPs fuel s tr
    (Hmode : defaultMode (policy (px s)) = "balanced") (Hname : sandboxName (px s) ≠ "")
    (Hrules : ∀ r, r ∈ rules (policy (px s)) → RuleDecision r = "allow" →
                RuleScope r ≠ "" ∧ RuleScope r ≠ sandboxName (px s)) :
  ∃ new, trace_after (dispatch localIPs fuel) s tr = tr ++ new ∧
    Forall (λ e, outgoing e = false) new.
Proof.
  destruct (guarded_dispatch localIPs fuel (policy (px s)) (secretsMgr (px s))
    (sandboxName (px s)) s tr) as [_ (new & Ht & Hnew)]; [done|].
  exists new. split; [done|]. eapply Forall_impl; [exact Hnew|].
  assert (∀ h p, (Evaluate (policy (px s)) h p (sandboxName (px s))).1 = DecisionDeny) as Hdeny
    by (intros h p; by apply no_allow_rule_denies).
  intros [] He; try done; cbn in He.
  - destruct He as [(h & p & _ & _ & Ha)|(ip & p & _ & _ & Ha & _)]; by rewrite Hdeny in Ha.
  - destruct He as (sb & Hsb & h & p & _ & _ & Ha & _).
    rewrite (Hsb Hname), Hdeny in Ha. done.
Qed.

(** Where a connection goes: without a connection limit, byte 5 selects
    SOCKS5, an upper-case letter HTTP, anything else a redirected connection;
    a protocol that is switched off is counted as denied and closed without a
    call; the connection counters of SOCKS5 and raw TCP count exactly their
    connections, and no denial by the policy of either is ever counted. *)
Theorem dispatch_routes localIPs fuel s tr b rest
    (Hmax : (maxConnections (px s) ≤ 0)%Z) (Hin : input (cn s) = b :: rest) :
  let p := px s in
  let r := dispatch localIPs fuel s tr in
  (b = x05 → socks5Enabled p = true →
     r = handleSOCKS5 (sandboxName p) (mkSess (incConn "socks5" p) (cn s)) tr ∧
     px r.1.2 = incConn "socks5" p) ∧
  (b = x05 → socks5Enabled p = false →
     r.2 = tr ∧ px r.1.2 = incDenied p ∧ closed (cn r.1.2) = true) ∧
  ((65 ≤ b2z b ≤ 90)%Z → r = handleHTTPFromReader fuel (sandboxName p) s tr) ∧
  (b ≠ x05 → ¬ (65 ≤ b2z b ≤ 90)%Z → rawTCPEnabled p = true →
     r = handleRawTCP localIPs (sandboxName p) (mkSess (incConn "rawtcp" p) (cn s)) tr ∧
     px r.1.2 = incConn "rawtcp" p) ∧
  (b ≠ x05 → ¬ (65 ≤ b2z b ≤ 90)%Z → rawTCPEnabled p = false →
     r.2 = tr ∧ px r.1.2 = incDenied p ∧ closed (cn r.1.2) = true).
Proof.
  cbv zeta. unfold dispatch. rewrite bind_run, get_run. cbv zeta.
  rewrite (proj2 (Z.ltb_ge _ _)) by done. unfold dispatch_protocol, peek.
  rewrite bind_run, bind_run, get_run, ret_run, Hin. cbn [head].
  rewrite bind_run, get_run. cbv zeta.
  assert (Byte.eqb b x05 = bool_decide (b = x05)) as -> by (destruct b; reflexivity).
  assert (((65 <=? b2z b) && (b2z b <=? 90))%Z = bool_decide (65 ≤ b2z b ≤ 90)%Z) as ->.
  { apply Bool.eq_iff_eq_true. rewrite bool_decide_eq_true, andb_true_iff, !Z.leb_le. done. }
  unfold on_proxy.
  split_and!.
  - intros -> ->. cbn [bool_decide negb]. rewrite bool_decide_eq_true_2 by done. cbn [negb].
    rewrite bind_run, modify_run. split; [done|].
    apply (handleSOCKS5_proxy _ (mkSess (incConn "socks5" (px s)) (cn s))).
  - intros -> ->. rewrite bool_decide_eq_true_2 by done. done.
  - intros Hb. rewrite bool_decide_eq_false_2 by (intros ->; change (b2z x05) with 5%Z in Hb; lia).
    by rewrite bool_decide_eq_true_2.
  - intros Hb Hl ->. rewrite !bool_decide_eq_false_2 by done. cbn [negb].
    rewrite bind_run, modify_run. split; [done|].
    apply (handleRawTCP_proxy _ _ (mkSess (incConn "rawtcp" (px s)) (cn s))).
  - intros Hb Hl ->. rewrite !bool_decide_eq_false_2 by done. done.
Qed.
End Dispatch.

(** ** The connection limit

    Each accepted connection runs [dispatch] in its own goroutine; the shared
    state is the limit and the counter, accessed by single atomic operations.
    A [Phase] is where a goroutine stands between them. *)
Module Limit.

Inductive Phase :=
  | Accepted
  | LimitLoaded (maxConns : Z)
  | Counted (maxConns cur : Z)
  | Serving (tracked : bool)
  | Gone.

Record State := mkState { limit : Z; active : Z; conns : list Phase }.

(** [goroutine]: one atomic step of the [dispatch] of connection [i]. *)
Inductive goroutine : State → State → Prop :=
  | load s i :
      conns s !! i = Some Accepted →
      goroutine s (mkState (limit s) (active s) (<[i := LimitLoaded (limit s)]> (conns s)))
  | unlimited s i m :
      conns s !! i = Some (LimitLoaded m) → (m ≤ 0)%Z →
      goroutine s (mkState (limit s) (active s) (<[i := Serving false]> (conns s)))
  | count s i m :
      conns s !! i = Some (LimitLoaded m) → (0 < m)%Z →
      goroutine s (mkState (limit s) (add64 (active s) 1)
                     (<[i := Counted m (add64 (active s) 1)]> (conns s)))
  | reject s i m cur :
      conns s !! i = Some (Counted m cur) → (m < cur)%Z →
      goroutine s (mkState (limit s) (add64 (active s) (-1)) (<[i := Gone]> (conns s)))
  | serve_new s i m cur :
      conns s !! i = Some (Counted m cur) → (cur ≤ m)%Z →
      goroutine s (mkState (limit s) (active s) (<[i := Serving true]> (conns s)))
  | finish s i (tracked : bool) :
      conns s !! i = Some (Serving tracked) →
      goroutine s (mkState (limit s) (if tracked then add64 (active s) (-1) else active s)
                     (<[i := Gone]> (conns s))).

(** The accept loop starts goroutines; [SetMaxConnections] changes the limit. *)
Inductive step : State → State → Prop :=
  | accept s : step s (mkState (limit s) (active s) (conns s ++ [Accepted]))
  | run s s' : goroutine s s' → step s s'
  | set_limit s m : step s (mkState m (active s) (conns s)).

Definition fixed_step (s s' : State) : Prop := step s s' ∧ limit s' = limit s.

(** ** Counting *)

Fixpoint cnt (f : Phase → bool) (l : list Phase) : nat :=
  match l with
  | [] => 0
  | x :: l' => (if f x then 1 else 0) + cnt f l'
  end.

Lemma cnt_app f l1 l2 : cnt f (l1 ++ l2) = cnt f l1 + cnt f l2.
Proof. induction l1 as [|x l1 IH]; [done|]. cbn. rewrite IH. lia. Qed.

Lemma cnt_insert f l i x y :
  l !! i = Some x →
  cnt f (<[i := y]> l) + (if f x then 1 else 0) = cnt f l + (if f y then 1 else 0).
Proof.
  revert i. induction l as [|z l IH]; intros [|i]; [done..| |].
  - intros [= ->]. cbn. destruct (f x), (f y); lia.
  - intros Hi. specialize (IH i Hi).
    change (cnt f (<[S i := y]> (z :: l))) with ((if f z then 1 else 0) + cnt f (<[i := y]> l)).
    change (cnt f (z :: l)) with ((if f z then 1 else 0) + cnt f l).
    destruct (f z), (f x), (f y); lia.
Qed.

Lemma cnt_le f g l : (∀ x, f x = true → g x = true) → cnt f l ≤ cnt g l.
Proof.
  intros Hfg. induction l as [|x l IH]; cbn; [done|]. specialize (Hfg x).
  destruct (f x), (g x); naive_solver lia.
Qed.

Lemma cnt_length f l : cnt f l ≤ length l.
Proof. induction l as [|x l IH]; cbn; [done|]. destruct (f x); lia. Qed.

Lemma cnt_lt f l i x : l !! i = Some x → f x = false → cnt f l < length l.
Proof.
  intros Hi Hf. pose proof (cnt_insert f l i x x Hi).
  apply list_elem_of_split_length in Hi as (l1 & l2 & -> & _).
  rewrite cnt_app, length_app. cbn. rewrite Hf.
  pose proof (cnt_length f l1). pose proof (cnt_length f l2). lia.
Qed.

(** Connections that hold a unit of the counter; connections that are served,
    or have been promised to be, under the limit [m]. *)
Definition holds (ph : Phase) : bool :=
  match ph with Counted _ _ | Serving true => true | _ => false end.
Definition good (m : Z) (ph : Phase) : bool :=
  match ph with
  | Counted m' cur => bool_decide (cur ≤ m)%Z
  | Serving true => true
  | _ => false
  end.
Definition served (ph : Phase) : bool :=
  match ph with Serving _ => true | _ => false end.

Definition small (s : State) : Prop := (Z.of_nat (length (conns s)) ≤ int64_max)%Z.

Definition counter_ok (s : State) : Prop := active s = Z.of_nat (cnt holds (conns s)).

(** Under a fixed limit: every phase carries that limit, nobody is untracked. *)
Definition phase_ok (m : Z) (ph : Phase) : bool :=
  match ph with
  | LimitLoaded m' => bool_decide (m' = m)
  | Counted m' cur => bool_decide (m' = m)
  | Serving tracked => tracked
  | _ => true
  end.

Record limit_ok (m : Z) (s : State) : Prop := mkLimitOk {
  ok_limit : limit s = m;
  ok_phases : Forall (λ ph, phase_ok m ph = true) (conns s);
  ok_good : (Z.of_nat (cnt (good m) (conns s)) ≤ m)%Z;
}.

Lemma add64_small a d : in_int64 (a + d) → add64 a d = (a + d)%Z.
Proof. apply wrap64_id. Qed.

Lemma small_step s s' : step s s' → small s' → small s.
Proof.
  unfold small. intros Hs.
  destruct Hs as [s|s s' Hg|s m]; cbn; rewrite ?length_app; cbn; try lia.
  destruct Hg; cbn; by rewrite length_insert.
Qed.

Lemma counter_step s s' : small s → counter_ok s → step s s' → counter_ok s'.
Proof.
  unfold small, counter_ok. intros Hsm Hc Hs.
  pose proof (cnt_length holds (conns s)) as Hlen.
  destruct Hs as [s|s s' Hg|s m]; cbn in *; [by rewrite cnt_app; cbn; lia| |done].
  destruct Hg as [s i Hi|s i m Hi Hm|s i m Hi Hm|s i m cur Hi Hm|s i m cur Hi Hm|s i t Hi]; cbn;
    match goal with |- context [<[i := ?y]> _] =>
      pose proof (cnt_insert holds (conns s) i _ y Hi) as Hcnt end; cbn in Hcnt; try lia.
  - pose proof (cnt_lt holds (conns s) i _ Hi eq_refl) as Hlt.
    rewrite (add64_small (active s) 1) in * by (unfold in_int64, int64_min, int64_max in *; lia). lia.
  - rewrite (add64_small (active s) (-1)) in * by (unfold in_int64, int64_min, int64_max in *; lia). lia.
  - destruct t; [|lia].
    rewrite (add64_small (active s) (-1)) in * by (unfold in_int64, int64_min, int64_max in *; lia). lia.
Qed.

Lemma limit_step m s s' :
  (0 < m)%Z → small s' → counter_ok s' → limit_ok m s → fixed_step s s' → limit_ok m s'.
Proof.
  intros Hpos Hsm Hc [Hl Hp Hg] [Hs Hfix].
  assert (∀ i y, phase_ok m y = true →
            Forall (λ ph, phase_ok m ph = true) (<[i := y]> (conns s))) as Hins
    by (intros i y Hy; by apply Forall_insert).
  assert (∀ i x, conns s !! i = Some x → phase_ok m x = true) as Hat
    by (intros i x Hi; rewrite Forall_lookup in Hp; by apply (Hp i)).
  destruct Hs as [s|s s' Hgo|s m']; cbn in *.
  - split; [done| |].
    + cbn. apply Forall_app; split; [done|by constructor].
    + cbn. rewrite cnt_app. cbn. lia.
  - destruct Hgo as [s i Hi|s i m0 Hi Hm|s i m0 Hi Hm|s i m0 cur Hi Hm|s i m0 cur Hi Hm|s i t Hi];
      cbn in *; specialize (Hat i _ Hi); cbn in Hat;
      match goal with |- limit_ok _ (mkState _ _ (<[i := ?y]> _)) =>
        pose proof (cnt_insert (good m) (conns s) i _ y Hi) as Hcnt end; cbn in Hcnt.
    + split; [done| |cbn; lia]. cbn. apply Hins. by rewrite Hl; apply bool_decide_eq_true.
    + apply bool_decide_eq_true in Hat. lia.
    + split; [done|by apply Hins|]. cbn. case_bool_decide as Hcur; [|lia].
      assert (cnt (good m) (<[i:=Counted m0 (add64 (active s) 1)]> (conns s))
              ≤ cnt holds (<[i:=Counted m0 (add64 (active s) 1)]> (conns s))) as Hle.
      { apply cnt_le. intros [| | |[]|]; cbn; done. }
      unfold counter_ok in Hc. cbn in Hc. lia.
    + split; [done|by apply Hins|]. cbn. lia.
    + split; [done|by apply Hins|]. cbn. apply bool_decide_eq_true in Hat. subst m0.
      rewrite bool_decide_eq_true_2 in Hcnt by done. lia.
    + split; [done|by apply Hins|]. cbn. destruct t; lia.
  - split; [cbn; congruence|done|done].
Qed.

(** ** Properties *)

(** The counter is exact: in every interleaving, with limits changed at any
    time, [activeConns] is the number of connections that hold a unit of it,
    and returns to zero when all are gone. *)
Theorem active_exact m s
    (Hrun : rtc step (mkState m 0 []) s) (Hsmall : small s) :
  active s = Z.of_nat (cnt holds (conns s)) ∧
  (Forall (λ ph, ph = Gone) (conns s) → active s = 0%Z).
Proof.
  assert (counter_ok s) as Hc.
  { revert s Hrun Hsmall. refine (rtc_ind_r _ _ _ _); [done|].
    intros s s' _ Hs IH Hsm'. pose proof (small_step _ _ Hs Hsm'). apply (counter_step s); auto. }
  split; [exact Hc|]. intros Hgone. rewrite Hc. clear -Hgone.
  induction Hgone as [|ph l -> _ IH]; [done|]. exact IH.
Qed.

(** C14. The limit holds: under a fixed positive limit no interleaving of the
    goroutines ever serves more connections than the limit, although the
    counter itself may exceed it for a moment. *)
Theorem limit_respected m s (Hpos : (0 < m)%Z)
    (Hrun : rtc fixed_step (mkState m 0 []) s) (Hsmall : small s) :
  (Z.of_nat (cnt served (conns s)) ≤ m)%Z.
Proof.
  assert (counter_ok s ∧ limit_ok m s) as [_ [_ Hp Hg]].
  { revert s Hrun Hsmall. refine (rtc_ind_r _ _ _ _).
    - intros _. split; [done|]. split; [done|constructor|cbn; lia].
    - intros s s' _ Hs IH Hsm'. pose proof Hs as [Hs0 _].
      pose proof (small_step _ _ Hs0 Hsm') as Hsm. destruct (IH Hsm) as [Hc Hl].
      assert (counter_ok s') by (by eapply counter_step).
      split; [done|]. by eapply limit_step. }
  etrans; [|exact Hg]. apply inj_le. clear Hg. induction Hp as [|ph l Hph _ IH]; [done|].
  cbn. destruct ph as [| |m' cur|[]|]; cbn in *; try done; lia.
Qed.

(** ** Concrete instances *)

(** One connection, admitted under a limit of one. *)
Definition one_served : State := mkState 1 1 [Serving true].

Lemma one_served_reached : rtc fixed_step (mkState 1 0 []) one_served.
Proof.
  eapply rtc_l; [split; [apply accept|done]|]. cbn.
  eapply rtc_l; [split; [apply run, (load _ 0); reflexivity|done]|]. cbn.
  eapply rtc_l; [split; [apply run; eapply (count _ 0); [reflexivity|lia]|done]|]. cbn.
  eapply rtc_l; [split; [apply run; eapply (serve_new _ 0); [reflexivity|vm_compute; discriminate]|done]|]. cbn.
  reflexivity.
Qed.

Lemma limit_respected_witness : (Z.of_nat (cnt served (conns one_served)) ≤ 1)%Z.
Proof.
  apply (limit_respected 1 one_served); [lia|apply one_served_reached|].
  unfold small, int64_max. cbn. lia.
Defined.

Lemma active_exact_witness : active one_served = Z.of_nat (cnt holds (conns one_served)).
Proof.
  apply (active_exact 1 one_served).
  - eapply rtc_subrel; [|apply one_served_reached]. by intros s s' [? _].
  - unfold small, int64_max. cbn. lia.
Defined.
End Limit.

(** ** Concrete instances *)

Definition isolated : Sess :=
  mkSess (SetSandboxName "box" (NewProxy (mkEngine defaultRules 3 "" "balanced") NewSecretManager ""))
    (new_conn (greeting [x00] ++ connect_request (Domain "example.com") 443)).

Lemma no_allow_rule_isolates_witness :
  ∃ new, trace_after (@dispatch quiet_world no_unicode_folding some_order [] 1) isolated [] = [] ++ new ∧
    Forall (λ e, outgoing e = false) new.
Proof.
  apply (@no_allow_rule_isolates quiet_world no_unicode_folding some_order [] 1 isolated []).
  - reflexivity.
  - discriminate.
  - intros r Hr. cbn in Hr. repeat (apply elem_of_cons in Hr as [->|Hr]; [discriminate|]).
    by apply not_elem_of_nil in Hr.
Defined.

Lemma dispatch_routes_witness :
  px (@dispatch quiet_world no_unicode_folding some_order [] 1 isolated []).1.2
  = incConn "socks5" (px isolated).
Proof.
  edestruct (@dispatch_routes quiet_world no_unicode_folding some_order [] 1 isolated [])
    as [[H1 H2] _].
  - cbn. lia.
  - reflexivity.
  - reflexivity.
  - reflexivity.
  - exact H2.
Defined.
