(* ===== verification/Host.v ===== *)
(** * [internal/docker] and [internal/cmdutil]: the host

    Finding the Docker socket of sandboxd, and running commands on the host. *)
From S2P Require Export World.

(** ** [docker.DetectSocket] *)

Definition DefaultSocketPath : string := "/tmp/sboxd-501-sandboxes/docker.sock".

Section Docker.
Context `{World} {S : Type}.

Definition perUserSocket : M S string :=
  base ← call (Getenv "XDG_STATE_HOME");
  if decide (base = "") then
    home ← call UserHomeDir;
    mret (match home with
          | inl _ => ""
          | inr home => home +:+ "/.local/state" +:+ "/sandboxes/sandboxes/sandboxd/docker.sock"
          end)
  else mret (base +:+ "/sandboxes/sandboxes/sandboxd/docker.sock").

(** The loop over the candidates: the first that is a socket. *)
Fixpoint first_socket (candidates : list string) : M S string :=
  match candidates with
  | [] => mret DefaultSocketPath
  | p :: rest =>
      ok ← call (StatSocket p);
      if ok : bool then mret p else first_socket rest
  end.

Definition DetectSocket : M S string :=
  p ← perUserSocket;
  uid ← call Getuid;
  first_socket ([DefaultSocketPath; "/tmp/sboxd-sandboxes/docker.sock"]
    ++ (if decide (p = "") then [] else [p])
    ++ ["/tmp/sboxd-" +:+ Sprintf_d uid +:+ "-sandboxes/docker.sock"]).
End Docker.

(** ** [cmdutil.RunCmd] *)

(** White space at either end, as [strings.TrimSpace] removes it. *)
Definition spaces : list bytes := [x0a] :: scan_spaces.

Fixpoint trim_left (fuel : nat) (l : bytes) : bytes :=
  match fuel, list_find (λ w, prefixb w l = true) spaces with
  | S f, Some (_, w) => trim_left f (drop (length w) l)
  | _, _ => l
  end.

Fixpoint trim_right (fuel : nat) (l : bytes) : bytes :=
  match fuel, list_find (λ w, suffixb w l = true) spaces with
  | S f, Some (_, w) => trim_right f (take (length l - length w) l)
  | _, _ => l
  end.

Definition TrimSpace (s : string) : string :=
  let l := trim_left (length (to_bytes s)) (to_bytes s) in
  of_bytes (trim_right (length l) l).

(** The length of the input is enough fuel for both. *)
Lemma space_nonempty w : w ∈ spaces → 1 ≤ length w.
Proof. revert w. apply Forall_forall. repeat constructor; cbn; lia. Qed.

Lemma left_space l i w :
  list_find (λ w, prefixb w l = true) spaces = Some (i, w) → 1 ≤ length w ≤ length l.
Proof.
  intros (Hi%list_elem_of_lookup_2%space_nonempty & Hp%prefixb_spec & _)%list_find_Some.
  split; [done|by apply prefix_length].
Qed.

Lemma right_space l i w :
  list_find (λ w, suffixb w l = true) spaces = Some (i, w) → 1 ≤ length w ≤ length l.
Proof.
  intros (Hi%list_elem_of_lookup_2%space_nonempty & Hp%suffixb_spec & _)%list_find_Some.
  split; [done|by apply suffix_length].
Qed.

Lemma trim_left_fuel f g l : length l ≤ f → length l ≤ g → trim_left f l = trim_left g l.
Proof.
  revert g l. induction f as [|f IH]; intros [|g] l Hf Hg; cbn [trim_left]; [done|..];
    destruct (list_find _ spaces) as [[i w]|] eqn:E; try done; apply left_space in E; [lia..|].
  apply IH; rewrite length_drop; lia.
Qed.

Lemma trim_right_fuel f g l : length l ≤ f → length l ≤ g → trim_right f l = trim_right g l.
Proof.
  revert g l. induction f as [|f IH]; intros [|g] l Hf Hg; cbn [trim_right]; [done|..];
    destruct (list_find _ spaces) as [[i w]|] eqn:E; try done; apply right_space in E; [lia..|].
  apply IH; rewrite length_take; lia.
Qed.

(** An error of the package: what [exec] reported, or that with stderr. *)
Inductive CmdErr :=
  | ExecError (err : string)
  | CmdError (err stderr : string).

(** [Error()] and [Unwrap()]. *)
Definition CmdErr_Error (e : CmdErr) : string :=
  match e with
  | ExecError err => err
  | CmdError err stderr => if decide (stderr = "") then err else err +:+ ": " +:+ stderr
  end.

Definition CmdErr_Unwrap (e : CmdErr) : string :=
  match e with ExecError err | CmdError err _ => err end.

Section Cmd.
Context `{World} {S : Type}.

(** The deadline that [RunCmd] adds shows up as an error of the command. *)
Definition RunCmd (name : string) (args : list string) : M S (bytes * option CmdErr) :=
  r ← call (RunCommand name args);
  let '((stdout, stderr), err) := r in
  mret (match err with
        | Some e =>
            if decide (stderr = "") then (stdout, Some (ExecError e))
            else (stdout, Some (CmdError e (TrimSpace stderr)))
        | None => (stdout, None)
        end).
End Cmd.

(** ** Properties *)

Section Properties.
Context `{World} {S : Type}.

Lemma first_socket_spec candidates (s : S) tr :
  let p := result (first_socket candidates) s tr in
  (∃ pre post, candidates = pre ++ p :: post ∧
     answer (tr ++ (StatSocket <$> pre)) (StatSocket p) = true ∧
     ∀ i q, pre !! i = Some q → answer (tr ++ (StatSocket <$> take i pre)) (StatSocket q) = false)
  ∨ (p = DefaultSocketPath ∧
     ∀ i q, candidates !! i = Some q →
       answer (tr ++ (StatSocket <$> take i candidates)) (StatSocket q) = false).
Proof.
  cbv zeta. revert tr. induction candidates as [|q l IH]; intros tr.
  { right. split; [done|]. by intros i q. }
  unfold result in *. cbn [first_socket]. rewrite bind_run, call_run.
  destruct (answer tr (StatSocket q)) eqn:Hq.
  - left. exists [], l. cbn. rewrite (right_id_L [] (++)). by split_and!.
  - destruct (IH (tr ++ [StatSocket q])) as [(pre & post & Hl & Ha & Hpre)|[Hd Hall]].
    + left. exists (q :: pre), post. split_and!.
      * by rewrite Hl at 1.
      * rewrite <- (assoc_L (++)) in Ha. exact Ha.
      * intros [|i] q'; cbn; [intros [= <-]; cbn; by rewrite (right_id_L [] (++))|].
        intros Hi. specialize (Hpre i q' Hi). by rewrite <- (assoc_L (++)) in Hpre.
    + right. split; [done|].
      intros [|i] q'; cbn; [intros [= <-]; cbn; by rewrite (right_id_L [] (++))|].
      intros Hi. specialize (Hall i q' Hi). by rewrite <- (assoc_L (++)) in Hall.
Qed.

(** [DetectSocket] answers the first of its candidates that exists and is a
    socket - the two well-known paths, the per-user path when there is one, the
    path named after the user id - and the default path when none is. *)
Theorem DetectSocket_first (s : S) tr :
  ∃ pre_calls user uid,
    let candidates := ["/tmp/sboxd-501-sandboxes/docker.sock"; "/tmp/sboxd-sandboxes/docker.sock"]
        ++ (if decide (user = "") then [] else [user])
        ++ ["/tmp/sboxd-" +:+ Sprintf_d uid +:+ "-sandboxes/docker.sock"] in
    let asked pre q := answer ((tr ++ pre_calls) ++ (StatSocket <$> pre)) (StatSocket q) in
    let p := result DetectSocket s tr in
    (∃ pre post, candidates = pre ++ p :: post ∧ asked pre p = true ∧
       ∀ i q, pre !! i = Some q → asked (take i pre) q = false)
    ∨ (p = "/tmp/sboxd-501-sandboxes/docker.sock" ∧
       ∀ i q, candidates !! i = Some q → asked (take i candidates) q = false).
Proof.
  assert (∃ user c, perUserSocket s tr = (user, s, tr ++ c)) as (user & c & Hu).
  { unfold perUserSocket. rewrite bind_run, call_run. case_decide.
    - rewrite bind_run, call_run, ret_run, <- (assoc_L (++)). by eexists _, _.
    - rewrite ret_run. by eexists _, _. }
  exists (c ++ [Getuid]), user, (answer (tr ++ c) Getuid). cbv zeta.
  unfold result, DetectSocket. rewrite bind_run, Hu, bind_run, call_run, (assoc_L (++) tr).
  apply first_socket_spec.
Qed.

(** A command succeeds exactly when [exec] reports no error; what it wrote
    to stdout is returned in every case; the text of an error starts with what
    [exec] reported, which is also what it unwraps to, followed by the trimmed
    stderr when that is not empty. *)
Theorem RunCmd_outcome name args (s : S) tr :
  let '((stdout, stderr), err) := answer tr (RunCommand name args) in
  let '(out, e) := result (RunCmd name args) s tr in
  trace_after (RunCmd name args) s tr = tr ++ [RunCommand name args] ∧
  out = stdout ∧
  match err with
  | None => e = None
  | Some x => ∃ e', e = Some e' ∧ CmdErr_Unwrap e' = x ∧
      CmdErr_Error e' = if decide (stderr = "" ∨ TrimSpace stderr = "") then x
                        else x +:+ ": " +:+ TrimSpace stderr
  end.
Proof.
  destruct (answer tr (RunCommand name args)) as [[stdout stderr] err] eqn:Ha.
  unfold result, trace_after, RunCmd. rewrite bind_run, call_run, Ha. cbv beta iota.
  rewrite ret_run. destruct err as [x|]; cbn; [|done].
  case_decide as Hs; cbn.
  - split_and!; [done..|]. eexists. split_and!; [done|done|]. cbn.
    by rewrite decide_True by auto.
  - split_and!; [done..|]. eexists. split_and!; [done|done|]. cbn.
    destruct (decide (TrimSpace stderr = "")).
    + by rewrite decide_True by auto.
    + by rewrite decide_False by tauto.
Qed.
End Properties.

Example trim_examples :
  (TrimSpace (of_bytes ([x20; x0a] ++ to_bytes "a b" ++ [xc2; xa0; x09])), TrimSpace "  ") = ("a b", "").
Proof. by vm_compute. Qed.
