(* ===== verification/Wire.v ===== *)
(** * Rules and secrets on the wire

    The daemon sends its rules and secrets to the proxy sidecars as JSON, which
    the sidecars decode again, and both read such JSON from clients, files and
    the environment.  Here are the decoders and the round trips. *)
From S2P Require Export Policy Secrets.

(** ** HTTP requests and replies of the two APIs *)

(** What a handler answers: status, [Content-Type], body. *)
Record Reply := mkReply { status : Z; contentType : string; replyBody : bytes }.

(** [json.NewDecoder(r.Body).Decode(&v)]. *)
Definition decode_request `{JsonErrors} {A} (target : string) (zero : A) (d : Dec A) (body : bytes)
    : string + A :=
  match Decode body ≫= d zero with
  | Some x => inr x
  | None => inl (json_error target body)
  end.

(** ** Decoders *)

Section Decoders.
Context `{UnicodeFold}.

Definition zero_rule : Rule := mkRule "" "" "" nil_slice "".

Definition dec_rule : Dec Rule := dec_struct
  [ field "id" RuleID
      (λ v r, mkRule v (RuleName r) (RuleDecision r) (RuleResources r) (RuleScope r)) dec_string;
    field "name" RuleName
      (λ v r, mkRule (RuleID r) v (RuleDecision r) (RuleResources r) (RuleScope r)) dec_string;
    field "decision" RuleDecision
      (λ v r, mkRule (RuleID r) (RuleName r) v (RuleResources r) (RuleScope r)) dec_string;
    field "resources" RuleResources
      (λ v r, mkRule (RuleID r) (RuleName r) (RuleDecision r) v (RuleScope r))
      (dec_slice "" dec_string);
    field "scope" RuleScope
      (λ v r, mkRule (RuleID r) (RuleName r) (RuleDecision r) (RuleResources r) v) dec_string ].

Definition zero_secret : CustomSecret := mkCustomSecret "" "" "" "".

Definition dec_secret : Dec CustomSecret := dec_struct
  [ field "target" Target (λ v s, mkCustomSecret v (EnvName s) (Sentinel s) (Value s)) dec_string;
    field "env_name" EnvName (λ v s, mkCustomSecret (Target s) v (Sentinel s) (Value s)) dec_string;
    field "sentinel" Sentinel (λ v s, mkCustomSecret (Target s) (EnvName s) v (Value s)) dec_string;
    field "value" Value (λ v s, mkCustomSecret (Target s) (EnvName s) (Sentinel s) v) dec_string ].

Definition dec_rules : Dec (list Rule) := dec_list zero_rule dec_rule.
Definition dec_secrets : Dec (list CustomSecret) := dec_list zero_secret dec_secret.
End Decoders.

(** ** Payloads of the reload endpoints *)

(** The bytes of a string literal written with [marshal]. *)
Definition wrap_payload (key : string) (inner : bytes) : bytes :=
  [x7b; x22] ++ to_bytes key ++ [x22; x3a] ++ inner ++ [x7d].

Definition rules_payload (rs : list Rule) : bytes := wrap_payload "rules" (marshal (rules_json rs)).
Definition secrets_payload (ss : list CustomSecret) : bytes :=
  wrap_payload "secrets" (marshal (secrets_json ss)).

(** ** Lemmas *)

Lemma imap_pair_mapM {A} (zero : A) (d : Dec A) (js : list Json) (xs : list A) k :
  Forall2 (λ j x, d zero j = Some x) js xs →
  mapM (λ '(i, j), d (nth i [] zero) j) (imap (λ i, pair (k + i)) js) = Some xs.
Proof.
  intros H. revert k. induction H as [|j x js xs Hj _ IH]; intros k; [done|].
  cbn [imap mapM]. destruct (k + 0); cbn [nth]; rewrite Hj; cbn;
    (rewrite (imap_ext _ (λ i, pair (S k + i))); [|intros i' x' _; unfold compose; f_equal; lia]);
    by rewrite IH.
Qed.

Lemma dec_list_nil {A} (zero : A) (d : Dec A) js xs :
  Forall2 (λ j x, d zero j = Some x) js xs → dec_list zero d [] (JArr js) = Some xs.
Proof. intros H. cbn. by apply (imap_pair_mapM zero d js xs 0). Qed.

Lemma dec_list_map {A} (zero : A) (d : Dec A) (f : A → Json) xs :
  (∀ x, x ∈ xs → d zero (f x) = Some x) → dec_list zero d [] (JArr (f <$> xs)) = Some xs.
Proof.
  intros H. apply dec_list_nil, Forall2_fmap_l, Forall2_same_length_lookup_2; [done|].
  intros i x y Hx Hy. assert (x = y) as -> by congruence. apply H.
  by eapply list_elem_of_lookup_2.
Qed.

Lemma dec_slice_json {A} (zero : A) (d : Dec A) (f : A → Json) (s : slice A) :
  (∀ x, d zero (f x) = Some x) → dec_slice zero d nil_slice (JSlice f s) = Some s.
Proof.
  intros H. destruct s as [|l]; [done|]. cbn [dec_slice JSlice elems].
  by rewrite (dec_list_map zero d f l) by (intros; apply H).
Qed.

Section RoundTrip.
Context `{UnicodeFold}.

Lemma dec_rule_json r : dec_rule zero_rule (rule_json r) = Some r.
Proof.
  destruct r as [i n d res sc]. unfold rule_json, omit_empty. cbn [RuleID RuleName RuleDecision RuleResources RuleScope].
  assert (dec_slice "" dec_string nil_slice (JSlice JStr res) = Some res) as Hres
    by (by apply dec_slice_json).
  unfold dec_rule, zero_rule. cbn [app].
  destruct (bool_decide (sc = "")) eqn:E; cbn [app]; dec_fields;
    rewrite Hres; cbn [mbind option_bind]; dec_fields; [|done].
  by apply bool_decide_eq_true in E as ->.
Qed.

Lemma dec_secret_json s : dec_secret zero_secret (secret_json s) = Some s.
Proof. destruct s. unfold dec_secret, secret_json. by dec_fields. Qed.

Lemma dec_rules_json rs : dec_rules [] (rules_json rs) = Some rs.
Proof. apply dec_list_map. intros r _. apply dec_rule_json. Qed.

Lemma dec_secrets_json ss : dec_secrets [] (secrets_json ss) = Some ss.
Proof. apply dec_list_map. intros s _. apply dec_secret_json. Qed.
End RoundTrip.

(** *** Texts *)

Definition rule_text_ok (r : Rule) : bool :=
  valid_utf8 (RuleID r) && valid_utf8 (RuleName r) && valid_utf8 (RuleDecision r)
  && forallb valid_utf8 (elems (RuleResources r)) && valid_utf8 (RuleScope r).

Definition secret_text_ok (s : CustomSecret) : bool :=
  valid_utf8 (Target s) && valid_utf8 (EnvName s) && valid_utf8 (Sentinel s) && valid_utf8 (Value s).

Lemma rule_json_ok d r : rule_text_ok r = true → json_ok (S (S d)) (rule_json r) = true.
Proof.
  unfold rule_text_ok. rewrite !andb_true_iff. intros ((((Hi & Hn) & Hd) & Hr) & Hs).
  unfold rule_json, omit_empty. cbn -[valid_utf8 forallb].
  assert (json_ok (S d) (JSlice JStr (RuleResources r)) = true) as Hres.
  { destruct (RuleResources r) as [|l]; [done|]. cbn -[valid_utf8] in *.
    induction l as [|x l IH]; [done|]. cbn in *.
    apply andb_true_iff in Hr as [-> Hr]. by apply IH. }
  case_bool_decide; cbn -[valid_utf8 forallb]; cbn [forallb fst snd json_ok];
    rewrite Hi, Hn, Hd, Hres, ?Hs; done.
Qed.

Lemma secret_json_ok d s : secret_text_ok s = true → json_ok (S d) (secret_json s) = true.
Proof.
  unfold secret_text_ok. rewrite !andb_true_iff. intros (((Ht & He) & Hs) & Hv).
  cbn -[valid_utf8]. by rewrite Ht, He, Hs, Hv.
Qed.

Lemma forallb_fmap {A B} (f : A → B) (p : B → bool) l : forallb p (f <$> l) = forallb (p ∘ f) l.
Proof. induction l as [|x l IH]; [done|]. cbn. by rewrite IH. Qed.

Lemma forallb_impl {A} (p q : A → bool) l :
  (∀ x, p x = true → q x = true) → forallb p l = true → forallb q l = true.
Proof. rewrite !forallb_forall. auto. Qed.

Lemma rules_json_ok d rs :
  forallb rule_text_ok rs = true → json_ok (S (S (S d))) (rules_json rs) = true.
Proof.
  intros H. unfold rules_json. cbn [json_ok]. rewrite forallb_fmap.
  eapply forallb_impl; [|exact H]. intros r. apply (rule_json_ok d).
Qed.

Lemma secrets_json_ok d ss :
  forallb secret_text_ok ss = true → json_ok (S (S d)) (secrets_json ss) = true.
Proof.
  intros H. unfold secrets_json. cbn [json_ok]. rewrite forallb_fmap.
  eapply forallb_impl; [|exact H]. intros s. apply (secret_json_ok d).
Qed.

(** The depth of a value plays no part in its compact text. *)
Lemma print_compact j k k' : print (λ _, []) [] k j = print (λ _, []) [] k' j.
Proof.
  revert k k'. induction j as [|b|n|s|s|l IH|fs IH] using Json_nested_ind; intros k k'; try done.
  - destruct l as [|j l]; [done|]. rewrite !print_array.
    assert (print (λ _, []) [] (S k) <$> j :: l = print (λ _, []) [] (S k') <$> j :: l) as E.
    { apply list_fmap_ext. intros i x Hx. rewrite Forall_lookup in IH. by apply (IH i x Hx). }
    by rewrite E.
  - destruct fs as [|kv fs]; [done|]. rewrite !print_object.
    assert (print_field (λ _, []) [] (S k) <$> kv :: fs
            = print_field (λ _, []) [] (S k') <$> kv :: fs) as E.
    { apply list_fmap_ext. intros i [key x] Hx. rewrite Forall_lookup in IH.
      unfold print_field. do 3 f_equal. by apply (IH i (key, x) Hx). }
    by rewrite E.
Qed.

Lemma wrap_payload_marshal key j :
  quote key = x22 :: to_bytes key ++ [x22] →
  wrap_payload key (marshal j) = marshal (JObj [(key, j)]).
Proof.
  intros Hq. unfold marshal. rewrite print_object. unfold wrap_payload. cbn [fmap list_fmap join_with].
  unfold print_field. rewrite Hq. rewrite (print_compact j 1 0). cbn [app].
  rewrite <- !(assoc_L (++)). done.
Qed.

Lemma rules_payload_marshal rs : rules_payload rs = marshal (JObj [("rules", rules_json rs)]).
Proof. by apply wrap_payload_marshal. Qed.

Lemma secrets_payload_marshal ss : secrets_payload ss = marshal (JObj [("secrets", secrets_json ss)]).
Proof. by apply wrap_payload_marshal. Qed.

Lemma max_depth_five : ∃ d, max_depth = S (S (S (S (S d)))).
Proof. exists (max_depth - 5). by vm_compute. Qed.

Lemma Decode_rules_payload rs :
  forallb rule_text_ok rs = true →
  Decode (rules_payload rs) = Some (JObj [("rules", rules_json rs)]).
Proof.
  intros H. rewrite rules_payload_marshal. apply Decode_marshal.
  destruct max_depth_five as [d ->]. cbn [json_ok forallb fst snd].
  change (valid_utf8 "rules") with true. by rewrite (rules_json_ok (S d)).
Qed.

Lemma Decode_secrets_payload ss :
  forallb secret_text_ok ss = true →
  Decode (secrets_payload ss) = Some (JObj [("secrets", secrets_json ss)]).
Proof.
  intros H. rewrite secrets_payload_marshal. apply Decode_marshal.
  destruct max_depth_five as [d ->]. cbn [json_ok forallb fst snd].
  change (valid_utf8 "secrets") with true. by rewrite (secrets_json_ok (S (S d))).
Qed.
