(* ===== verification/CA.v ===== *)
(** * [internal/ca]: the certificate authority

    [CACertManager] loads or creates the CA of the MITM proxy and issues one
    certificate per host.  Keys, signatures and the parsing of certificates are
    calls of the outside world; PEM is a parameter.  What is modelled is what
    the package decides: when to create a CA, what goes into its templates, for
    which names, and the cache. *)
From S2P Require Export Container.

(** [pem.EncodeToMemory] and the first block that [pem.Decode] finds. *)
Class Pem := {
  pem_encode : string → bytes → bytes;
  pem_decode : bytes → option bytes;
}.
Class PemOk `{Pem} := pem_round_trip t b : pem_decode (pem_encode t b) = Some b.

(** An issued certificate: the template it was made from, and its key pair. *)
Record Cert := mkCert { certTemplate : CertTemplate; certPEM : bytes; certKeyPEM : bytes }.

Record CACertManager := mkCACertManager {
  caCert : option bytes;
  caKey : option bytes;
  caCertPEM : bytes;
  caKeyPEM : bytes;
  certPath : string;
  keyPath : string;
  certCache : gmap string Cert;
  caKeySize : Z;
}.

Definition second : Z := 1000000000.
Definition hour : Z := 3600 * second.

Definition caTemplate (serial notBefore notAfter : Z) : CertTemplate :=
  mkCertTemplate serial "dandbox CA" ["dandbox"] notBefore notAfter
    ["CertSign"; "KeyEncipherment"; "DigitalSignature"] [] true true [] [].

(** ** Names *)

(** [parseHosts]. *)
Definition parseHosts (host : string) : list string :=
  let host := match SplitHostPort host with Some (h, _) => h | None => host end in
  if HasPrefix host "*." then [host; slice_from host 2]
  else if Contains host "*" then [host]
  else [host; "*." +:+ host].

Definition hostTemplate (host : string) (serial notBefore notAfter : Z) : CertTemplate :=
  let hosts := parseHosts host in
  mkCertTemplate serial host ["dandbox"] notBefore notAfter
    ["KeyEncipherment"; "DigitalSignature"] ["ServerAuth"] false false
    (filter (λ h, ParseIP h = None) hosts) (omap ParseIP hosts).

Section CA.
Context `{World, Pem}.

(** ** Loading, creating, saving *)

Section Create.
Context {S : Type}.

Definition fail {A} (e : string) : M S (string + A) := mret (inl e).

Definition loadCA (m : CACertManager) : M S (string + CACertManager) :=
  certPEM ←[id] call (ReadFile (certPath m));
  keyPEM ←[id] call (ReadFile (keyPath m));
  match pem_decode certPEM with
  | None => fail "failed to decode CA cert PEM"
  | Some cert =>
      err ← call (ParseCertificate cert);
      match err with
      | Some e => fail e
      | None =>
          match pem_decode keyPEM with
          | None => fail "failed to decode CA key PEM"
          | Some der =>
              key ←[String.append "parse CA key: "] call (ParsePKCS8PrivateKey der);
              mret (inr (mkCACertManager (Some cert) (Some key) certPEM keyPEM
                           (certPath m) (keyPath m) (certCache m) (caKeySize m)))
          end
      end
  end.

Definition createCA (m : CACertManager) : M S (string + CACertManager) :=
  let keySize := if (caKeySize m =? 0)%Z then 4096%Z else caKeySize m in
  key ←[String.append "generate CA key: "] call (RsaGenerateKey keySize);
  serial ←[String.append "generate serial: "] call RandSerial;
  t1 ← call TimeNow;
  t2 ← call TimeNow;
  let template := caTemplate serial (t1 - 24 * hour) (t2 + 10 * 365 * 24 * hour) in
  certDER ←[String.append "create CA cert: "] call (CreateCertificate template None key key);
  err ← call (ParseCertificate certDER);
  match err with
  | Some e => fail ("parse CA cert: " +:+ e)
  | None =>
      keyBytes ←[String.append "marshal CA key: "] call (MarshalPKCS8PrivateKey key);
      mret (inr (mkCACertManager (Some certDER) (Some key) (pem_encode "CERTIFICATE" certDER)
                   (pem_encode "PRIVATE KEY" keyBytes)
                   (certPath m) (keyPath m) (certCache m) (caKeySize m)))
  end.

Definition saveCA (m : CACertManager) : M S error :=
  err ← call (WriteFile (certPath m) (caCertPEM m) 420);
  match err with
  | Some e => mret (Some e)
  | None => call (WriteFile (keyPath m) (caKeyPEM m) 384)
  end.

(** Load, or else create and save. *)
Definition openCA (m : CACertManager) : M S (string + CACertManager) :=
  loaded ← loadCA m;
  match loaded with
  | inr m => mret (inr m)
  | inl _ =>
      m ←[String.append "create CA: "] createCA m;
      err ← saveCA m;
      match err with
      | Some e => fail ("save CA: " +:+ e)
      | None => mret (inr m)
      end
  end.

Definition NewCACertManagerWithKeySize (caDir : string) (keySize : Z) : M S (string + CACertManager) :=
  dir ← (if decide (caDir = "") then
           home ← call UserHomeDir;
           mret (match home with
                 | inl e => inl ("get home dir: " +:+ e)
                 | inr home => inr (Join [home; ".config"; "sbxsandbox"; "ca"])
                 end)
         else mret (inr caDir));
  match dir with
  | inl e => fail e
  | inr caDir =>
      err ← call (MkdirAll caDir 448);
      match err with
      | Some e => fail ("create CA dir: " +:+ e)
      | None =>
          openCA (mkCACertManager None None [] [] (Join [caDir; "ca-cert.pem"])
                    (Join [caDir; "ca-key.pem"]) ∅ keySize)
      end
  end.

Definition NewCACertManager (caDir : string) : M S (string + CACertManager) :=
  NewCACertManagerWithKeySize caDir 4096.
End Create.

(** ** Certificates for hosts *)

Definition generateCert (m : CACertManager) (host : string) : M CACertManager (string + Cert) :=
  serial ←[String.append "generate serial: "] call RandSerial;
  key ←[String.append "generate key: "] call (RsaGenerateKey 2048);
  t1 ← call TimeNow;
  t2 ← call TimeNow;
  let template := hostTemplate host serial (t1 - 1 * hour) (t2 + 24 * hour) in
  certDER ←[String.append "create cert: "]
    call (CreateCertificate template (caCert m) key (default [] (caKey m)));
  keyBytes ← call (MarshalPKCS8PrivateKey key);
  let certPEM := pem_encode "CERTIFICATE" certDER in
  let keyPEM := pem_encode "PRIVATE KEY" (match keyBytes with inr b => b | inl _ => [] end) in
  err ← call (X509KeyPair certPEM keyPEM);
  mret (match err with
        | Some e => inl ("parse key pair: " +:+ e)
        | None => inr (mkCert template certPEM keyPEM)
        end).

Definition cache_cert (host : string) (c : Cert) (m : CACertManager) : CACertManager :=
  mkCACertManager (caCert m) (caKey m) (caCertPEM m) (caKeyPEM m) (certPath m) (keyPath m)
    (<[host := c]> (certCache m)) (caKeySize m).

(** [getCert]; the argument is the server name of the client's hello. *)
Definition getCert (serverName : string) : M CACertManager (string + Cert) :=
  let host := if decide (serverName = "") then "localhost" else serverName in
  m ← get;
  match certCache m !! host with
  | Some cached => mret (inr cached)
  | None =>
      cert ←[id] generateCert m host;
      modify (cache_cert host cert);;
      mret (inr cert)
  end.
End CA.

(** ** Properties *)

Section Properties.
Context `{World, Pem}.

Lemma parseHosts_head host :
  ∃ rest, parseHosts host =
    (match SplitHostPort host with Some (h, _) => h | None => host end) :: rest.
Proof. unfold parseHosts. repeat case_match; by eexists. Qed.

Lemma generateCert_run m host s tr c s' tr' :
  generateCert m host s tr = (inr c, s', tr') →
  s' = s ∧ ∃ serial now1 now2,
    certTemplate c = hostTemplate host serial (now1 - 1 * hour) (now2 + 24 * hour).
Proof.
  unfold generateCert. intros Hrun.
  rewrite try_run, call_run in Hrun. destruct (answer tr RandSerial) as [|serial]; [done|].
  rewrite try_run, call_run in Hrun. destruct (answer _ (RsaGenerateKey 2048)) as [|key]; [done|].
  rewrite bind_run, call_run, bind_run, call_run in Hrun. cbv zeta in Hrun.
  rewrite try_run, call_run in Hrun. destruct (answer _ (CreateCertificate _ _ _ _)); [done|].
  rewrite bind_run, call_run in Hrun. rewrite bind_run, call_run, ret_run in Hrun.
  destruct (answer _ (X509KeyPair _ _)); [done|]. injection Hrun as <- <- <-.
  split; [done|]. by eexists _, _, _.
Qed.

Lemma generateCert_keeps m host : keeps eq (generateCert m host).
Proof.
  unfold generateCert. apply keeps_try; [apply _|apply (keeps_call _ RandSerial)|intros serial].
  apply keeps_try; [apply _|apply (keeps_call _ (RsaGenerateKey _))|intros key].
  do 2 (apply keeps_bind; [apply _|apply (keeps_call _ TimeNow)|intros ?]).
  apply keeps_try; [apply _|apply (keeps_call _ (CreateCertificate _ _ _ _))|intros der].
  apply keeps_bind; [apply _|apply (keeps_call _ (MarshalPKCS8PrivateKey _))|intros kb].
  apply keeps_bind; [apply _|apply (keeps_call _ (X509KeyPair _ _))|intros err].
  apply keeps_ret. apply _.
Qed.

(** A certificate issued for a host is valid for that host: for every name
    without a port its subject alternative names contain the name itself,
    among the IP addresses when it is one and among the DNS names otherwise; it
    is a server certificate, no CA, and its key and the issuing CA are fresh
    answers of the outside world. *)
Theorem generateCert_names_host m host s tr c s' tr'
    (Hrun : generateCert m host s tr = (inr c, s', tr'))
    (Hport : SplitHostPort host = None) :
  let t := certTemplate c in
  match ParseIP host with
  | Some ip => ip ∈ IPAddresses t
  | None => host ∈ DNSNames t
  end ∧ CommonName t = host ∧ IsCA t = false ∧ ExtKeyUsage t = ["ServerAuth"].
Proof.
  apply generateCert_run in Hrun as (_ & serial & n1 & n2 & Ht). cbv zeta. rewrite Ht.
  split_and!; [|done..]. destruct (parseHosts_head host) as [rest Hh]. rewrite Hport in Hh.
  unfold hostTemplate. cbn [IPAddresses DNSNames]. rewrite Hh.
  destruct (ParseIP host) as [ip|] eqn:Hip.
  - apply list_elem_of_omap. exists host. split; [left|done].
  - apply list_elem_of_filter. split; [done|left].
Qed.

(** One certificate per host: after [getCert] has answered, the cache holds
    the answer under the host, and asking again - at any later time, its
    validity of 24 hours passed or not - gives the same certificate without a
    single call; other hosts' entries are untouched, and an error changes
    nothing. *)
Theorem getCert_cached serverName m tr :
  let host := if decide (serverName = "") then "localhost" else serverName in
  let '(r, m', tr') := getCert serverName m tr in
  match r with
  | inl _ => m' = m
  | inr c =>
      certCache m' !! host = Some c ∧
      (∀ k, k ≠ host → certCache m' !! k = certCache m !! k) ∧
      ∀ later, getCert serverName m' later = (inr c, m', later)
  end.
Proof.
  cbv zeta. unfold getCert. set (host := if decide (serverName = "") then _ else _).
  rewrite bind_run, get_run. destruct (certCache m !! host) as [c|] eqn:Hc.
  { rewrite ret_run. split_and!; [done|done|]. intros later.
    by rewrite bind_run, get_run, Hc. }
  rewrite try_run. destruct (generateCert m host m tr) as [[[e|c] m1] tr1] eqn:Hg.
  - pose proof (generateCert_keeps m host m tr) as Hs. unfold state_after in Hs. by rewrite Hg in Hs.
  - apply generateCert_run in Hg as (-> & _). rewrite bind_run, modify_run, ret_run. cbn [certCache cache_cert].
    split_and!.
    + apply lookup_insert_eq.
    + intros k Hk. by apply lookup_insert_ne.
    + intros later. rewrite bind_run, get_run. cbn [certCache cache_cert]. by rewrite lookup_insert_eq.
Qed.

(** A run of [createCA] that succeeds. *)
Lemma createCA_run {S} m (s : S) tr m' s' tr' :
  createCA m s tr = (inr m', s', tr') →
  ∃ der key kb serial n1 n2 t,
    m' = mkCACertManager (Some der) (Some key) (pem_encode "CERTIFICATE" der)
           (pem_encode "PRIVATE KEY" kb) (certPath m) (keyPath m) (certCache m) (caKeySize m) ∧
    t = caTemplate serial (n1 - 24 * hour) (n2 + 10 * 365 * 24 * hour) ∧
    CreateCertificate t None key key ∈ tr' ∧
    (∃ t1, answer t1 (MarshalPKCS8PrivateKey key) = inr kb) ∧
    ∃ t2, answer t2 (ParseCertificate der) = None.
Proof.
  unfold createCA, fail. intros Hrun.
  rewrite try_run, call_run in Hrun. destruct (answer tr (RsaGenerateKey _)) as [|key]; [done|].
  rewrite try_run, call_run in Hrun. destruct (answer _ RandSerial) as [|serial]; [done|].
  rewrite bind_run, call_run, bind_run, call_run in Hrun. cbv zeta in Hrun.
  rewrite try_run, call_run in Hrun. destruct (answer _ (CreateCertificate _ _ _ _)) as [|der]; [done|].
  rewrite bind_run, call_run in Hrun. destruct (answer _ (ParseCertificate der)) eqn:Hp; [done|].
  rewrite try_run, call_run in Hrun.
  destruct (answer _ (MarshalPKCS8PrivateKey key)) as [|kb] eqn:Hk; [done|].
  rewrite ret_run in Hrun. injection Hrun as <- <- <-.
  eexists der, key, kb, serial, _, _, _. split_and!; [reflexivity|reflexivity| |by eexists|by eexists].
  rewrite !elem_of_app. left. left. right. by left.
Qed.

(** A run of [openCA] that found no CA on disk: it created one, and both of its
    files were written without an error. *)
Lemma openCA_created {S} m (s : S) tr m' s' tr' e :
  result (loadCA m) s tr = inl e → openCA m s tr = (inr m', s', tr') →
  ∃ (s1 : S) t1 (s2 : S) t2, createCA m s1 t1 = (inr m', s2, t2) ∧
    answer t2 (WriteFile (certPath m') (caCertPEM m') 420) = None ∧
    answer (t2 ++ [WriteFile (certPath m') (caCertPEM m') 420])
      (WriteFile (keyPath m') (caKeyPEM m') 384) = None ∧
    tr' = t2 ++ [WriteFile (certPath m') (caCertPEM m') 420;
                 WriteFile (keyPath m') (caKeyPEM m') 384].
Proof.
  unfold result, openCA. intros Hl Ho. rewrite bind_run in Ho.
  destruct (loadCA m s tr) as [[[?|?] s1] t1]; [|done].
  rewrite try_run in Ho. destruct (createCA m s1 t1) as [[[?|m2] s2] t2] eqn:Hc; [done|].
  rewrite bind_run in Ho. unfold saveCA in Ho. rewrite bind_run, call_run in Ho.
  destruct (answer t2 _) eqn:H1'; [done|]. rewrite call_run in Ho.
  destruct (answer (t2 ++ _) _) eqn:H2'; [done|]. rewrite ret_run in Ho. injection Ho as <- <- <-.
  exists s1, t1, s2, t2. rewrite <- (assoc_L (++)). done.
Qed.

(** C38. Restarting keeps the CA: when one process finds no CA on disk, creates one
    and saves it, the next that opens the same two files gets that CA,
    certificate, key and PEM texts alike, without writing anything, as long as
    nothing else wrote the files in between.  The standard library is taken to
    parse a certificate whenever it has parsed it before, and a key from its own
    encoding. *)
Theorem created_CA_is_loaded `{!PemOk, !FilesKept} {S} m (s : S) tr m' s' tr' e new m2 (s2 : S)
    (Hmissing : result (loadCA m) s tr = inl e)
    (Hopen : openCA m s tr = (inr m', s', tr'))
    (Hapart : certPath m ≠ keyPath m)
    (Hnew : Forall (λ e, ∀ p data perm, p = certPath m ∨ p = keyPath m → e ≠ WriteFile p data perm) new)
    (Hcert : certPath m2 = certPath m) (Hkey : keyPath m2 = keyPath m)
    (Hparse : ∀ t1 t2 der, answer t1 (ParseCertificate der) = None →
                answer t2 (ParseCertificate der) = None)
    (Hpkcs8 : ∀ t1 t2 key der, answer t1 (MarshalPKCS8PrivateKey key) = inr der →
                answer t2 (ParsePKCS8PrivateKey der) = inr key) :
  ∃ der key, caCert m' = Some der ∧ caKey m' = Some key ∧
    ∃ der', openCA m2 s2 (tr' ++ new) =
      (inr (mkCACertManager (Some der) (Some key) (caCertPEM m') (caKeyPEM m')
              (certPath m) (keyPath m) (certCache m2) (caKeySize m2)), s2,
       tr' ++ new ++ [ReadFile (certPath m); ReadFile (keyPath m); ParseCertificate der;
                      ParsePKCS8PrivateKey der']).
Proof.
  destruct (openCA_created _ _ _ _ _ _ _ Hmissing Hopen) as (s1 & t1 & s3 & t2 & Hc & Hw1 & Hw2 & ->).
  apply createCA_run in Hc as (der & key & kb & serial & n1 & n2 & tp & -> & _ & _ & [t3 Hm] & [t4 Hp]).
  cbn [certPath keyPath caCert caKey caCertPEM caKeyPEM] in *. exists der, key.
  split; [done|]. split; [done|]. exists kb.
  assert (∀ p, p = certPath m ∨ p = keyPath m → last_write p new = None) as Hnone.
  { intros p Hpath. apply last_write_none. eapply Forall_impl; [exact Hnew|]. naive_solver. }
  set (t := (t2 ++ _) ++ new).
  assert (answer t (ReadFile (certPath m)) = inr (pem_encode "CERTIFICATE" der)) as Hr1.
  { unfold t. rewrite <- (assoc_L (++)). apply (written_file _ _ 420); [|done].
    cbn [app]. rewrite last_write_other by done. by apply Hnone; left. }
  assert (answer (t ++ [ReadFile (certPath m)]) (ReadFile (keyPath m))
          = inr (pem_encode "PRIVATE KEY" kb)) as Hr2.
  { replace (t ++ [ReadFile (certPath m)]) with
      ((t2 ++ [WriteFile (certPath m) (pem_encode "CERTIFICATE" der) 420]) ++
       WriteFile (keyPath m) (pem_encode "PRIVATE KEY" kb) 384 :: new ++ [ReadFile (certPath m)])
      by (unfold t; by rewrite <- !(assoc_L (++))).
    apply (written_file _ _ 384); [|done]. rewrite last_write_app. cbn.
    by apply Hnone; right. }
  unfold openCA, loadCA. rewrite bind_run, Hcert, Hkey.
  rewrite try_run, call_run, Hr1, try_run, call_run, Hr2, !pem_round_trip.
  rewrite bind_run, call_run, (Hparse _ _ _ Hp), try_run, call_run, (Hpkcs8 _ _ _ _ Hm).
  rewrite !ret_run. unfold t. by rewrite <- !(assoc_L (++)).
Qed.

(** Opening the CA has two outcomes: the pair on disk is used and nothing is
    written; or, whatever made loading fail, a new CA replaces it - a
    self-signed CA certificate valid for ten years, written readable, and its
    key, written for the owner alone. *)
Theorem openCA_outcomes {S} m (s : S) tr m' s' tr'
    (Hopen : openCA m s tr = (inr m', s', tr')) :
  let '(loaded, s1, t1) := loadCA m s tr in
  match loaded with
  | inr m1 => m' = m1 ∧ tr' = t1
  | inl _ =>
      ∃ pre der key kb,
        tr' = pre ++ [WriteFile (certPath m) (pem_encode "CERTIFICATE" der) 420;
                      WriteFile (keyPath m) (pem_encode "PRIVATE KEY" kb) 384] ∧
        caCert m' = Some der ∧ caKey m' = Some key ∧
        ∃ t, CreateCertificate t None key key ∈ pre ∧ IsCA t = true ∧
          CommonName t = "dandbox CA" ∧ certPath m' = certPath m ∧ keyPath m' = keyPath m
  end.
Proof.
  unfold openCA in Hopen. rewrite bind_run in Hopen.
  destruct (loadCA m s tr) as [[[e|m1] s1] t1].
  - rewrite try_run in Hopen. destruct (createCA m s1 t1) as [[[e2|m2] s2] t2] eqn:Hc; [done|].
    apply createCA_run in Hc as (der & key & kb & serial & n1 & n2 & tp & -> & -> & Hin & _).
    rewrite bind_run in Hopen. unfold saveCA in Hopen.
    cbn [certPath keyPath caCertPEM caKeyPEM] in Hopen. rewrite bind_run, call_run in Hopen.
    destruct (answer t2 _); [done|]. rewrite call_run in Hopen.
    destruct (answer (t2 ++ _) _); [done|]. rewrite ret_run in Hopen. injection Hopen as <- _ <-.
    exists t2, der, key, kb. rewrite <- (assoc_L (++)). split_and!; [done..|].
    eexists. split_and!; [exact Hin|done..].
  - rewrite ret_run in Hopen. by injection Hopen as -> -> ->.
Qed.
End Properties.

(** ** Concrete instances *)

(** A PEM that keeps the bytes, for concrete runs. *)
Definition plain_pem : Pem := {| pem_encode := λ _ b, b; pem_decode := λ b, Some b |}.

Definition empty_manager : CACertManager := mkCACertManager None None [] [] "c.pem" "k.pem" ∅ 2048.

Lemma generateCert_names_host_witness :
  ∃ c : Cert, "example.com" ∈ DNSNames (certTemplate c).
Proof.
  destruct (@generateCert quiet_world plain_pem empty_manager "example.com" empty_manager [])
    as [[[e|c] s'] tr'] eqn:Hrun; [vm_compute in Hrun; discriminate Hrun|].
  exists c.
  destruct (@generateCert_names_host quiet_world plain_pem empty_manager "example.com"
    empty_manager [] c s' tr' Hrun) as [H _].
  - vm_compute. reflexivity.
  - exact H.
Defined.

Lemma created_CA_is_loaded_witness :
  let W := with_files quiet_world in
  ∃ m' tr', @openCA W plain_pem unit empty_manager () [] = (inr m', (), tr') ∧
    result (@openCA W plain_pem unit empty_manager) () tr' = inr m'.
Proof.
  intros W.
  destruct (@openCA W plain_pem unit empty_manager () []) as [[[e|m'] []] tr'] eqn:Hrun;
    [vm_compute in Hrun; discriminate Hrun|].
  exists m', tr'. split; [reflexivity|]. pose proof Hrun as Hval. vm_compute in Hval.
  injection Hval as Hm _. unfold result.
  destruct (@created_CA_is_loaded W plain_pem (λ t b, eq_refl) (with_files_kept quiet_world) unit
    empty_manager () [] m' () tr' "file does not exist" [] empty_manager ()) as (der & key & Hd & Hk & d & He).
  - vm_compute. reflexivity.
  - exact Hrun.
  - vm_compute. discriminate.
  - constructor.
  - reflexivity.
  - reflexivity.
  - reflexivity.
  - intros t1 t2 key der Hk. change ((inr key : string + bytes) = inr der) in Hk.
    injection Hk as <-. reflexivity.
  - rewrite app_nil_r in He. rewrite He. subst m'. injection Hd as <-. injection Hk as <-. reflexivity.
Defined.

Lemma openCA_outcomes_witness :
  ∃ pre cert key, (@openCA quiet_world plain_pem unit empty_manager () []).2
    = pre ++ [WriteFile "c.pem" cert 420; WriteFile "k.pem" key 384].
Proof.
  destruct (@openCA quiet_world plain_pem unit empty_manager () []) as [[[e|m'] s'] tr'] eqn:Hrun;
    [vm_compute in Hrun; discriminate Hrun|].
  pose proof (@openCA_outcomes quiet_world plain_pem unit empty_manager () [] m' s' tr' Hrun) as H.
  cbn in H. destruct H as (pre & der & key & kb & Ht & _).
  exists pre, der, kb. exact Ht.
Defined.
