(* ===== verification/Daemon.v ===== *)
(** * [internal/daemon]: the daemon and its HTTP API

    [Daemon] is [daemon.Daemon]; a handler is code over it that answers a
    [Reply].  A handler runs without interruption here; [Concurrent] takes the
    handlers of the runtimes apart where other requests can run in between. *)
From S2P Require Export Wire CA Host.

(** ** Data *)

(** The text of a time in RFC 3339, and back. *)
Class TimeFormat := {
  time_text : Z → string;
  time_parse : string → option Z;
}.

(** The instants of the years 0 to 9999, in nanoseconds from 1970, which are the
    ones that the format can express. *)
Definition time_ok (t : Z) : bool :=
  ((-62167219200 * 10 ^ 9 <=? t) && (t <? 253402300800 * 10 ^ 9))%Z.

Class TimeFormatOk `{TimeFormat} := {
  time_round_trip t : time_ok t = true → time_parse (time_text t) = Some t;
  time_text_ok t : time_ok t = true → valid_utf8 (time_text t) = true;
}.

(** The zero [time.Time]: the start of the year 1. *)
Definition zero_time : Z := -62135596800 * 10 ^ 9.

Record SandboxState := mkSandboxState {
  sbID : string;
  sbName : string;
  sbAgentName : string;
  sbImage : string;
  sbWorkspace : string;
  sbContainerID : string;
  sbRunning : bool;
  sbProxyAddr : string;
  sbCreatedAt : Z;
  sbLabels : gmap string string;
  sbSecrets : list CustomSecret;
}.

Record ContainerConfig := mkContainerConfig {
  cfgName : string;
  cfgImage : string;
  cfgWorkspace : string;
  cfgProxyPort : string;
  cfgProxySidecarImage : string;
  cfgProxySidecarBin : string;
  cfgCA : option CACertManager;
  cfgSecrets : option SecretManager;
  cfgPolicy : Engine;
  cfgTimezone : string;
  cfgLabels : gmap string string;
}.

Record DaemonConfig := mkDaemonConfig {
  SocketPath : string;
  PolicyDir : string;
  CACertDir : string;
  DockerSocket : string;
  StateDir : string;
  DefaultImage : string;
  ProxySidecarImage : string;
  ProxySidecarBin : string;
  ConfigCA : option CACertManager;
}.

Record Daemon := mkDaemon {
  sandboxes : gmap string SandboxState;
  cfg : DaemonConfig;
  dPolicy : Engine;
  dSecrets : SecretManager;
  ca : CACertManager;
  cm : Manager;
  dSocketPath : string;
  httpServer : bool;
  stateDir : string;
}.

Definition set_sandboxes (f : gmap string SandboxState → gmap string SandboxState) (d : Daemon) : Daemon :=
  mkDaemon (f (sandboxes d)) (cfg d) (dPolicy d) (dSecrets d) (ca d) (cm d) (dSocketPath d) (httpServer d) (stateDir d).
Definition set_policy (e : Engine) (d : Daemon) : Daemon :=
  mkDaemon (sandboxes d) (cfg d) e (dSecrets d) (ca d) (cm d) (dSocketPath d) (httpServer d) (stateDir d).
Definition set_secrets (s : SecretManager) (d : Daemon) : Daemon :=
  mkDaemon (sandboxes d) (cfg d) (dPolicy d) s (ca d) (cm d) (dSocketPath d) (httpServer d) (stateDir d).

Definition set_server (path : string) (up : bool) (d : Daemon) : Daemon :=
  mkDaemon (sandboxes d) (cfg d) (dPolicy d) (dSecrets d) (ca d) (cm d) path up (stateDir d).

Definition with_container (cid : string) (run : bool) (addr : string) (s : SandboxState) : SandboxState :=
  mkSandboxState (sbID s) (sbName s) (sbAgentName s) (sbImage s) (sbWorkspace s) cid run addr
    (sbCreatedAt s) (sbLabels s) (sbSecrets s).

Section Json.
Context `{TimeFormat}.

Definition sandbox_json (s : SandboxState) : Json :=
  JObj ([("id", JStr (sbID s)); ("name", JStr (sbName s)); ("agent_name", JStr (sbAgentName s));
         ("image", JStr (sbImage s)); ("workspace", JStr (sbWorkspace s))]
        ++ omit_empty (bool_decide (sbContainerID s = "")) "container_id" (JStr (sbContainerID s))
        ++ [("running", JBool (sbRunning s)); ("proxy_addr", JStr (sbProxyAddr s));
            ("created_at", JStr (time_text (sbCreatedAt s)))]
        ++ omit_empty (bool_decide (sbLabels s = ∅)) "labels" (JMap JStr (sbLabels s))
        ++ omit_empty (bool_decide (sbSecrets s = [])) "secrets" (secrets_json (sbSecrets s))).

Definition sandboxes_json (m : gmap string SandboxState) : Json := JMap sandbox_json m.

Definition zero_sandbox : SandboxState := mkSandboxState "" "" "" "" "" "" false "" zero_time ∅ [].

Definition dec_time : Dec Z := λ cur j,
  match j with JStr s => time_parse s | JNull => Some cur | _ => None end.

Context `{UnicodeFold}.

Definition dec_sandbox : Dec SandboxState :=
  dec_struct
  [ field "id" sbID (λ v s, mkSandboxState v (sbName s) (sbAgentName s) (sbImage s)
      (sbWorkspace s) (sbContainerID s) (sbRunning s) (sbProxyAddr s) (sbCreatedAt s) (sbLabels s)
      (sbSecrets s)) dec_string;
    field "name" sbName (λ v s, mkSandboxState (sbID s) v (sbAgentName s) (sbImage s)
      (sbWorkspace s) (sbContainerID s) (sbRunning s) (sbProxyAddr s) (sbCreatedAt s) (sbLabels s)
      (sbSecrets s)) dec_string;
    field "agent_name" sbAgentName (λ v s, mkSandboxState (sbID s) (sbName s) v (sbImage s)
      (sbWorkspace s) (sbContainerID s) (sbRunning s) (sbProxyAddr s) (sbCreatedAt s) (sbLabels s)
      (sbSecrets s)) dec_string;
    field "image" sbImage (λ v s, mkSandboxState (sbID s) (sbName s) (sbAgentName s) v
      (sbWorkspace s) (sbContainerID s) (sbRunning s) (sbProxyAddr s) (sbCreatedAt s) (sbLabels s)
      (sbSecrets s)) dec_string;
    field "workspace" sbWorkspace (λ v s, mkSandboxState (sbID s) (sbName s) (sbAgentName s)
      (sbImage s) v (sbContainerID s) (sbRunning s) (sbProxyAddr s) (sbCreatedAt s) (sbLabels s)
      (sbSecrets s)) dec_string;
    field "container_id" sbContainerID (λ v s, mkSandboxState (sbID s) (sbName s)
      (sbAgentName s) (sbImage s) (sbWorkspace s) v (sbRunning s) (sbProxyAddr s) (sbCreatedAt s)
      (sbLabels s) (sbSecrets s)) dec_string;
    field "running" sbRunning (λ v s, mkSandboxState (sbID s) (sbName s) (sbAgentName s)
      (sbImage s) (sbWorkspace s) (sbContainerID s) v (sbProxyAddr s) (sbCreatedAt s) (sbLabels s)
      (sbSecrets s)) dec_bool;
    field "proxy_addr" sbProxyAddr (λ v s, mkSandboxState (sbID s) (sbName s) (sbAgentName s)
      (sbImage s) (sbWorkspace s) (sbContainerID s) (sbRunning s) v (sbCreatedAt s) (sbLabels s)
      (sbSecrets s)) dec_string;
    field "created_at" sbCreatedAt (λ v s, mkSandboxState (sbID s) (sbName s) (sbAgentName s)
      (sbImage s) (sbWorkspace s) (sbContainerID s) (sbRunning s) (sbProxyAddr s) v (sbLabels s)
      (sbSecrets s)) dec_time;
    field "labels" sbLabels (λ v s, mkSandboxState (sbID s) (sbName s) (sbAgentName s)
      (sbImage s) (sbWorkspace s) (sbContainerID s) (sbRunning s) (sbProxyAddr s) (sbCreatedAt s) v
      (sbSecrets s)) (dec_map "" dec_string);
    field "secrets" sbSecrets (λ v s, mkSandboxState (sbID s) (sbName s) (sbAgentName s)
      (sbImage s) (sbWorkspace s) (sbContainerID s) (sbRunning s) (sbProxyAddr s) (sbCreatedAt s)
      (sbLabels s) v) dec_secrets ].

(** The bodies that clients send. *)
Record CreateSpec := mkCreateSpec {
  RuntimeName : string; AgentName : string; WorkspaceDir : string; SpecImage : string;
  SpecSecrets : list CustomSecret }.

Definition zero_spec : CreateSpec := mkCreateSpec "" "" "" "" [].

Definition dec_spec : Dec CreateSpec := dec_struct
  [ field "RuntimeName" RuntimeName
      (λ v s, mkCreateSpec v (AgentName s) (WorkspaceDir s) (SpecImage s) (SpecSecrets s)) dec_string;
    field "AgentName" AgentName
      (λ v s, mkCreateSpec (RuntimeName s) v (WorkspaceDir s) (SpecImage s) (SpecSecrets s)) dec_string;
    field "WorkspaceDir" WorkspaceDir
      (λ v s, mkCreateSpec (RuntimeName s) (AgentName s) v (SpecImage s) (SpecSecrets s)) dec_string;
    field "Image" SpecImage
      (λ v s, mkCreateSpec (RuntimeName s) (AgentName s) (WorkspaceDir s) v (SpecSecrets s)) dec_string;
    field "Secrets" SpecSecrets
      (λ v s, mkCreateSpec (RuntimeName s) (AgentName s) (WorkspaceDir s) (SpecImage s) v) dec_secrets ].

Definition dec_create_request : Dec CreateSpec := dec_struct [field "spec" id (λ v _, v) dec_spec].

Record PolicyAction := mkPolicyAction {
  Action : string; Resources : slice string; Scope : string; ActionID : string }.

Definition dec_action : Dec PolicyAction := dec_struct
  [ field "action" Action (λ v a, mkPolicyAction v (Resources a) (Scope a) (ActionID a)) dec_string;
    field "resources" Resources (λ v a, mkPolicyAction (Action a) v (Scope a) (ActionID a))
      (dec_slice "" dec_string);
    field "scope" Scope (λ v a, mkPolicyAction (Action a) (Resources a) v (ActionID a)) dec_string;
    field "id" ActionID (λ v a, mkPolicyAction (Action a) (Resources a) (Scope a) v) dec_string ].

Definition dec_actions : Dec (list PolicyAction) :=
  dec_struct [field "actions" id (λ v _, v) (dec_list (mkPolicyAction "" nil_slice "" "") dec_action)].

Definition dec_preset : Dec string := dec_struct [field "preset" id (λ v _, v) dec_string].

Definition dec_secrets_request : Dec (list CustomSecret) :=
  dec_struct [field "secrets" id (λ v _, v) dec_secrets].
End Json.

(** ** Replies *)

Definition writeJSON (st : Z) (j : Json) : Reply := mkReply st "application/json" (marshal j ++ [x0a]).
Definition writeError (st : Z) (msg : string) : Reply := writeJSON st (JObj [("error", JStr msg)]).
Definition writeHeader (st : Z) : Reply := mkReply st "" [].

Section Handlers.
Context `{World, UrlErrors, JsonErrors, UnicodeFold, MapOrder, TimeFormat}.

(** ** State persistence *)

Definition state_path (d : Daemon) : string := Join [stateDir d; "sandboxes.json"].

Definition saveState : M Daemon unit :=
  d ← get;
  call (WriteFile (state_path d) (marshal_indent (sandboxes_json (sandboxes d))) 420);;
  mret ().

(** A [null] in the place of a sandbox or of the whole map would leave nil
    pointers behind; [saveState] writes neither, and they read as an empty
    sandbox and an empty map here. *)
Definition loadState : M Daemon unit :=
  d ← get;
  data ← call (ReadFile (state_path d));
  match data with
  | inl _ => mret ()
  | inr data =>
      match Unmarshal data ≫= dec_map zero_sandbox dec_sandbox ∅ with
      | Some m => modify (set_sandboxes (λ _, m))
      | None => mret ()
      end
  end.

(** ** Propagation to the sidecars *)

(** [cmdutil.RunCmd] of docker exec over the manager's socket. *)
Definition execInContainer (containerID : string) (cmd : list string) : M Daemon (string + string) :=
  d ← get;
  r ← RunCmd "docker" (["--host"; "unix://" +:+ DockerSocketPath (cm d); "exec"; containerID] ++ cmd);
  mret (match r.2 with
        | Some e => inl (CmdErr_Error e)
        | None => inr (of_bytes r.1)
        end).

Definition find_container (name : string) (l : list Container) : option Container :=
  snd <$> list_find (λ c, Name c = name) l.

Definition reload_command (payload : bytes) (endpoint : string) : list string :=
  ["sh"; "-c";
   "printf '%s' " +:+ EncodeToString payload +:+ " | base64 -d | curl -s -X POST http://localhost:9099"
   +:+ endpoint +:+ " -H 'Content-Type: application/json' -d @-"].

Definition sidecar_name (name : string) : string := "sbx-" +:+ name +:+ "-proxy".

(** One round of the loop over the running sandboxes. *)
Definition propagateTo (payload : bytes) (endpoint name : string) : M Daemon unit :=
  d ← get;
  containers ← ListContainers (cm d);
  match containers with
  | inl _ => mret ()
  | inr l =>
      match find_container (sidecar_name name) l with
      | Some c =>
          if bool_decide (ID c = "") || negb (Running c) then mret ()
          else execInContainer (ID c) (reload_command payload endpoint);; mret ()
      | None => mret ()
      end
  end.

Definition running_names (d : Daemon) : list string :=
  fst <$> filter (λ kv, sbRunning kv.2 = true) (map_order (sandboxes d)).

Definition propagateToSidecars (payload : bytes) (endpoint : string) : M Daemon unit :=
  d ← get;
  for_each (running_names d) (propagateTo payload endpoint).

Definition propagatePolicyToSidecars : M Daemon unit :=
  d ← get; propagateToSidecars (rules_payload (rules (dPolicy d))) "/policy/reload".

Definition propagateSecretsToSidecars : M Daemon unit :=
  d ← get; propagateToSidecars (secrets_payload (secrets (dSecrets d))) "/secrets/reload".

(** ** Runtime life cycle *)

Definition handleHealth : M Daemon Reply :=
  mret (writeJSON 200 (JObj [("api_version", JStr "0.1.0"); ("status", JStr "healthy");
                             ("version", JStr "0.1.0")])).

Definition handleInfo : M Daemon Reply :=
  d ← get;
  mret (writeJSON 200
    (JObj [("ca_cert_path", JStr (certPath (ca d)));
           ("docker_socket", JStr (DockerSocketPath (cm d)));
           ("proxy_sidecar_image", JStr (ProxySidecarImage (cfg d)));
           ("socket_path", JStr (dSocketPath d));
           ("version", JStr "0.1.0")])).

(** The sandbox of a request, at two readings of the clock. *)
Definition new_sandbox (req : CreateSpec) (t1 t2 : Z) : SandboxState :=
  let agent := if decide (AgentName req = "") then "shell" else AgentName req in
  mkSandboxState (RuntimeName req +:+ "-" +:+ Sprintf_d t1) (RuntimeName req)
    agent (SpecImage req) (WorkspaceDir req) "" false "pending-sidecar" t2 ∅ (SpecSecrets req).

Definition handleCreateRuntime (body : bytes) : M Daemon Reply :=
  match decode_request "CreateRuntimeRequest" zero_spec dec_create_request body with
  | inl e => mret (writeError 400 ("invalid JSON: " +:+ e))
  | inr req =>
      if decide (RuntimeName req = "") then mret (writeError 400 "spec.RuntimeName is required")
      else if decide (WorkspaceDir req = "") then mret (writeError 400 "spec.WorkspaceDir is required")
      else
        d ← get;
        match sandboxes d !! RuntimeName req with
        | Some _ => mret (writeError 409 ("sandbox already exists: " +:+ RuntimeName req))
        | None =>
            t1 ← call TimeNow;
            t2 ← call TimeNow;
            let st := new_sandbox req t1 t2 in
            modify (set_sandboxes (insert (sbName st) st));;
            saveState;;
            mret (writeJSON 201 (sandbox_json st))
        end
  end.

(** What the engine's answer makes of a sandbox. *)
Definition refreshed (r : string + Container) (s : SandboxState) : SandboxState :=
  match r with
  | inl _ => with_container "" false (sbProxyAddr s) s
  | inr c => with_container (sbContainerID s) (Running c) (sbProxyAddr s) s
  end.

(** The loop of [handleListRuntimes]: each container's status is refreshed. *)
Fixpoint refresh (l : list (string * SandboxState)) : M Daemon (list SandboxState) :=
  match l with
  | [] => mret []
  | (name, s) :: l' =>
      d ← get;
      s' ← (if decide (sbContainerID s = "") then mret s
            else
              c ← InspectContainer (cm d) (sbContainerID s);
              modify (set_sandboxes (insert name (refreshed c s)));;
              mret (refreshed c s));
      rest ← refresh l';
      mret (s' :: rest)
  end.

Definition handleListRuntimes : M Daemon Reply :=
  d ← get;
  states ← refresh (map_order (sandboxes d));
  mret (writeJSON 200 (JArr (sandbox_json <$> states))).

Definition not_found (name : string) : Reply := writeError 404 ("sandbox not found: " +:+ name).
Definition name_required : Reply := writeError 400 "name is required".

Definition handleGetRuntime (name : string) : M Daemon Reply :=
  if decide (name = "") then mret name_required
  else
    d ← get;
    mret (match sandboxes d !! name with
          | None => not_found name
          | Some s => writeJSON 200 (sandbox_json s)
          end).

(** Remove the first container of that name, if the engine lists one. *)
Definition remove_by_name (name : string) : M Daemon unit :=
  d ← get;
  containers ← ListContainers (cm d);
  match containers with
  | inl _ => mret ()
  | inr l =>
      match find_container name l with
      | Some c => RemoveContainer (cm d) (ID c);; mret ()
      | None => mret ()
      end
  end.

(** The container that a deleted sandbox ran in. *)
Definition remove_sandbox (d : Daemon) (name : string) (s : SandboxState) : M Daemon unit :=
  if decide (sbContainerID s = "") then remove_by_name ("sbx-" +:+ name)
  else
    c ← InspectContainer (cm d) (sbContainerID s);
    match c with
    | inl _ => mret ()
    | inr _ => RemoveContainer (cm d) (sbContainerID s);; mret ()
    end.

Definition handleDeleteRuntime (name : string) : M Daemon Reply :=
  if decide (name = "") then mret name_required
  else
    d ← get;
    match sandboxes d !! name with
    | None => mret (not_found name)
    | Some s =>
        modify (set_sandboxes (delete name));;
        remove_sandbox d name s;;
        remove_by_name ("sbx-" +:+ (name +:+ "-proxy"));;
        saveState;;
        mret (writeHeader 204)
    end.

(** *** Starting *)

(** The secrets of the configuration that are passed on: name and sentinel. *)
Definition sentinel_env (c : ContainerConfig) : list string :=
  match cfgSecrets c with
  | None => []
  | Some sm =>
      (λ s, EnvName s +:+ "=" +:+ Sentinel s)
        <$> filter (λ s, EnvName s ≠ "" ∧ Sentinel s ≠ "") (secrets sm)
  end.

Definition sandbox_env (c : ContainerConfig) : list string :=
  let proxyPort := if decide (cfgProxyPort c = "") then "3128" else cfgProxyPort c in
  let proxyAddr := cfgName c +:+ "-proxy" +:+ ":" +:+ proxyPort in
  ["WORKSPACE_DIR=" +:+ cfgWorkspace c;
   "no_proxy=localhost,127.0.0.1,::1"; "NO_PROXY=localhost,127.0.0.1,::1";
   "http_proxy=http://" +:+ proxyAddr; "HTTP_PROXY=http://" +:+ proxyAddr;
   "https_proxy=http://" +:+ proxyAddr; "HTTPS_PROXY=http://" +:+ proxyAddr;
   "SSH_AUTH_SOCK=/run/ssh-agent.sock"]
  ++ (if decide (cfgTimezone c = "") then [] else ["TZ=" +:+ cfgTimezone c])
  ++ (match cfgCA c with
      | Some m => ["PROXY_CA_CERT_B64=" +:+ EncodeToString (caCertPEM m)]
      | None => []
      end)
  ++ sentinel_env c.

Definition sandbox_args : list string :=
  ["sh"; "-c"; "trap 'kill -TERM -- -1; wait' TERM; sleep infinity & wait"].

Definition createAndStartContainer (c : ContainerConfig) : M Daemon (string + string) :=
  d ← get;
  container ←[String.append "create sandbox container: "]
    CreateContainer (cm d) (cfgImage c) sandbox_args (sandbox_env c) (cfgName c);
  _ ←[String.append "start sandbox container: "] StartContainer (cm d) (ID container);
  mret (inr (ID container)).

Definition default_image (agent : string) : string :=
  if decide (agent = "") then "docker/sandbox-templates:shell-docker"
  else "docker/sandbox-templates:" +:+ agent +:+ "-docker".

Definition start_image (s : SandboxState) : string :=
  if decide (sbImage s = "") then default_image (sbAgentName s) else sbImage s.

Definition start_config (d : Daemon) (name : string) (s : SandboxState) : ContainerConfig :=
  mkContainerConfig name (start_image s) (sbWorkspace s) "3128" (ProxySidecarImage (cfg d))
    (ProxySidecarBin (cfg d)) (Some (ca d)) (Some (dSecrets d)) (dPolicy d) "UTC" (sbLabels s).

(** The secrets of a sandbox, if it has any, become those of the daemon. *)
Definition set_own_secrets (s : SandboxState) : M Daemon unit :=
  if decide (sbSecrets s = []) then mret ()
  else zoom dSecrets set_secrets (SetSecrets (sbSecrets s)).

(** The daemon's secrets, if it has any, are sent to the sidecars. *)
Definition push_secrets : M Daemon unit :=
  d ← get;
  if decide (secrets (dSecrets d) = []) then mret () else propagateSecretsToSidecars.

Definition started (name cid : string) (s : SandboxState) : SandboxState :=
  with_container cid true (name +:+ "-proxy:3128") s.

Definition start_reply (cid : string) : Reply :=
  writeJSON 200 (JObj [("container_id", JStr cid); ("status", JStr "running")]).

Definition handleStartRuntime (name : string) : M Daemon Reply :=
  if decide (name = "") then mret name_required
  else
    d ← get;
    match sandboxes d !! name with
    | None => mret (not_found name)
    | Some s =>
        if sbRunning s then mret (writeError 409 "sandbox already running")
        else
          set_own_secrets s;;
          d ← get;
          r ← createAndStartContainer (start_config d name s);
          match r with
          | inl e => mret (writeError 500 ("container create failed: " +:+ e))
          | inr containerID =>
              modify (set_sandboxes (insert name (started name containerID s)));;
              saveState;;
              push_secrets;;
              mret (start_reply containerID)
          end
    end.

Definition stop_container (d : Daemon) (s : SandboxState) : M Daemon unit :=
  if decide (sbContainerID s = "") then mret ()
  else StopContainer (cm d) (sbContainerID s);; mret ().

Definition stopped (s : SandboxState) : SandboxState :=
  with_container (sbContainerID s) false (sbProxyAddr s) s.

Definition handleStopRuntime (name : string) : M Daemon Reply :=
  if decide (name = "") then mret name_required
  else
    d ← get;
    match sandboxes d !! name with
    | None => mret (not_found name)
    | Some s =>
        stop_container d s;;
        modify (set_sandboxes (insert name (stopped s)));;
        saveState;;
        mret (writeHeader 204)
    end.

(** ** Policy *)

Definition on_policy {A} (m : M Engine A) : M Daemon A := zoom dPolicy set_policy m.

Definition handleListPolicyRules : M Daemon Reply :=
  rs ← on_policy ListRules;
  mret (writeJSON 200 (JObj [("rules", rules_json rs)])).

(** Does a rule list one of the resources? *)
Definition lists_resource (resources : list string) (r : Rule) : bool :=
  existsb (λ res, bool_decide (res ∈ elems (RuleResources r))) resources.

(** The loop of [removeResourcesByPattern] over a snapshot of the rules. *)
Fixpoint remove_matching (resources : list string) (rs : list Rule) : M Daemon Z :=
  match rs with
  | [] => mret 0%Z
  | r :: rs' =>
      ok ← (if lists_resource resources r then on_policy (RemoveRule (RuleID r)) else mret false);
      n ← remove_matching resources rs';
      mret (if ok : bool then 1 + n else n)%Z
  end.

Definition removeResourcesByPattern (resources : list string) : M Daemon Z :=
  rs ← on_policy ListRules; remove_matching resources rs.

Definition add_action (a : PolicyAction) : M Daemon Json :=
  r ← on_policy (AddRule (Action a) (Action a) (Resources a) (Scope a));
  mret (match r with
        | inl e => JObj [("action", JStr (Action a)); ("error", JStr e)]
        | inr r => JObj [("action", JStr (Action a)); ("id", JStr (RuleID r));
                         ("resources", JSlice JStr (Resources a))]
        end).

Definition apply_action (a : PolicyAction) : M Daemon Json :=
  if decide (Action a = "allow") then add_action a
  else if decide (Action a = "deny") then add_action a
  else if decide (Action a = "remove-resource") then
    n ← removeResourcesByPattern (elems (Resources a));
    mret (JObj [("action", JStr (Action a)); ("removed", JNum n); ("resources", JSlice JStr (Resources a))])
  else if decide (Action a = "remove-id") then
    ok ← on_policy (RemoveRule (ActionID a));
    mret (JObj [("action", JStr (Action a)); ("id", JStr (ActionID a)); ("removed", JBool ok)])
  else mret (JObj [("action", JStr (Action a)); ("error", JStr ("unknown action: " +:+ Action a))]).

Fixpoint apply_actions (l : list PolicyAction) : M Daemon (list Json) :=
  match l with
  | [] => mret []
  | a :: l' => r ← apply_action a; rs ← apply_actions l'; mret (r :: rs)
  end.

Definition handleApplyPolicyActions (body : bytes) : M Daemon Reply :=
  match decode_request "ApplyPolicyRequest" [] dec_actions body with
  | inl e => mret (writeError 400 ("invalid JSON: " +:+ e))
  | inr actions =>
      results ← apply_actions actions;
      propagatePolicyToSidecars;;
      mret (writeJSON 200 (JObj [("results", JArr results)]))
  end.

Definition handlePolicySetup : M Daemon Reply :=
  mret (writeJSON 200 (JObj [("needed", JBool false)])).

(** The rules of the presets, in the order they are added. *)
Definition preset_rules (preset : string) : option (list (string * string * list string)) :=
  if decide (preset = "allow-all") then Some [("allow-all", "allow", ["*:*"])]
  else if decide (preset = "deny-all") then Some [("deny-all", "deny", ["*:*"])]
  else if decide (preset = "balanced") then
    Some [("balanced-https", "deny", ["*:443"]); ("balanced-http", "deny", ["*:80"])]
  else None.

Fixpoint add_presets (l : list (string * string * list string)) : M Daemon (option string) :=
  match l with
  | [] => mret None
  | (name, decision, resources) :: l' =>
      r ← on_policy (AddRule name decision resources "");
      match r with inl e => mret (Some e) | inr _ => add_presets l' end
  end.

Definition handleSetPolicyProfile (body : bytes) : M Daemon Reply :=
  match decode_request "preset" "" dec_preset body with
  | inl e => mret (writeError 400 ("invalid JSON: " +:+ e))
  | inr preset =>
      match preset_rules preset with
      | None => mret (writeError 400 ("unknown preset: " +:+ preset))
      | Some l =>
          e ← add_presets l;
          mret (match e with
                | Some _ => writeError 500 "failed to add rule"
                | None => writeJSON 200 (JObj [("status", JStr "ok")])
                end)
      end
  end.

Definition handleDeletePolicyRules : M Daemon Reply :=
  rs ← on_policy ListRules;
  for_each rs (λ r, on_policy (RemoveRule (RuleID r));; mret ());;
  propagatePolicyToSidecars;;
  rs ← on_policy ListRules;
  mret (writeJSON 200 (JObj [("rules", rules_json rs); ("status", JStr "ok")])).

Definition handleDeletePolicyRuleByID (id : string) : M Daemon Reply :=
  if decide (id = "") then mret (writeError 400 "rule id is required")
  else
    ok ← on_policy (RemoveRule id);
    if negb ok then mret (writeError 404 ("rule not found: " +:+ id))
    else
      propagatePolicyToSidecars;;
      rs ← on_policy ListRules;
      mret (writeJSON 200 (JObj [("deleted", JStr id); ("rules", rules_json rs); ("status", JStr "ok")])).

(** ** Secrets, log, templates, CA *)

Definition redacted_value (v : string) : string :=
  let n := length (to_bytes v) in
  if decide (4 < n) then slice_to v 2 +:+ "..." +:+ slice_from v (n - 2)
  else if decide (0 < n) then "***"
  else v.

Definition redacted_secret (s : CustomSecret) : Json :=
  JObj [("env_name", JStr (EnvName s)); ("sentinel", JStr (Sentinel s));
        ("target", JStr (Target s)); ("value", JStr (redacted_value (Value s)))].

Definition handleListSecrets : M Daemon Reply :=
  ss ← zoom dSecrets set_secrets GetSecrets;
  mret (writeJSON 200 (JArr (redacted_secret <$> ss))).

Definition handleSetSecrets (body : bytes) : M Daemon Reply :=
  match decode_request "secrets" [] dec_secrets_request body with
  | inl e => mret (writeError 400 ("invalid JSON: " +:+ e))
  | inr ss =>
      zoom dSecrets set_secrets (SetSecrets ss);;
      propagateSecretsToSidecars;;
      mret (writeJSON 200 (JObj [("status", JStr "ok")]))
  end.

Definition handleNetworkLog : M Daemon Reply :=
  mret (writeJSON 200 (JObj [("entries", JArr [])])).

Definition template_json (id repository tag : string) : Json :=
  JObj [("flavor", JStr id); ("id", JStr id); ("repository", JStr repository); ("tag", JStr tag)].

Definition handleListTemplates : M Daemon Reply :=
  mret (writeJSON 200 (JArr
    [template_json "shell" "docker/sandbox-templates" "shell-docker";
     template_json "claude" "containifyci/claude-code" "latest";
     template_json "codex" "containifyci/codex" "latest";
     template_json "franky" "containifyci/franky" "latest"])).

Definition handleCACert : M Daemon Reply :=
  d ← get; mret (mkReply 200 "application/x-pem-file" (caCertPEM (ca d))).

(** ** Routes *)

(** A request to the API; the segments of the path are split off. *)
Record ApiRequest := mkApiRequest { apiMethod : string; apiPath : list string; apiBody : bytes }.

(** [registerRoutes]: the patterns of the multiplexer; [None] when no pattern
    matches. *)
Definition route (r : ApiRequest) : option (M Daemon Reply) :=
  let m x := bool_decide (apiMethod r = x) in
  let get := m "GET" || m "HEAD" in
  match apiPath r with
  | [a] =>
      if bool_decide (a = "runtime") then
        if m "POST" then Some (handleCreateRuntime (apiBody r))
        else if get then Some handleListRuntimes else None
      else if bool_decide (a = "secrets") then
        if get then Some handleListSecrets
        else if m "POST" then Some (handleSetSecrets (apiBody r)) else None
      else if bool_decide (a = "template") then if get then Some handleListTemplates else None
      else if bool_decide (a = "ca.pem") then if get then Some handleCACert else None
      else None
  | [a; b] =>
      if bool_decide (a = "daemon") then
        if bool_decide (b = "health") then if get then Some handleHealth else None
        else if bool_decide (b = "info") then if get then Some handleInfo else None
        else None
      else if bool_decide (a = "runtime") then
        if bool_decide (b = "") then None
        else if get then Some (handleGetRuntime b)
        else if m "DELETE" then Some (handleDeleteRuntime b) else None
      else if bool_decide (a = "policy") then
        if bool_decide (b = "rules") then
          if get then Some handleListPolicyRules
          else if m "POST" then Some (handleApplyPolicyActions (apiBody r))
          else if m "DELETE" then Some handleDeletePolicyRules else None
        else if bool_decide (b = "setup") then
          if get then Some handlePolicySetup
          else if m "POST" then Some (handleSetPolicyProfile (apiBody r)) else None
        else None
      else if bool_decide (a = "network") && bool_decide (b = "log") then
        if get then Some handleNetworkLog else None
      else None
  | [a; b; c] =>
      if bool_decide (a = "runtime") && bool_decide (b ≠ "") then
        if m "POST" then
          if bool_decide (c = "start") then Some (handleStartRuntime b)
          else if bool_decide (c = "stop") then Some (handleStopRuntime b) else None
        else None
      else if bool_decide (a = "policy") && bool_decide (b = "rules") && bool_decide (c ≠ "") then
        if m "DELETE" then Some (handleDeletePolicyRuleByID c) else None
      else None
  | _ => None
  end.
End Handlers.

(** ** Start-up *)

Section NewDaemon.
Context `{World, UrlErrors, JsonErrors, UnicodeFold, MapOrder, TimeFormat, Pem}.

Definition detectDockerSocket {S} (cfgSocket : string) : M S string :=
  if decide (cfgSocket = "") then DetectSocket else mret cfgSocket.

Definition with_dirs (home : string) (c : DaemonConfig) : DaemonConfig :=
  let dir d rest := if decide (d = "") then Join (home :: rest) else d in
  mkDaemonConfig (SocketPath c)
    (dir (PolicyDir c) [".config"; "sbxsandbox"; "policy"])
    (dir (CACertDir c) [".config"; "sbxsandbox"; "ca"])
    (DockerSocket c)
    (dir (StateDir c) [".local"; "state"; "sbxsandbox"])
    (DefaultImage c) (ProxySidecarImage c) (ProxySidecarBin c) (ConfigCA c).

(** The state read into a new daemon. *)
Definition with_loaded {S} (d : Daemon) : M S Daemon :=
  λ s tr, let '(_, d', tr') := loadState d tr in (d', s, tr').

Definition NewDaemon {S} (c : DaemonConfig) : M S (string + Daemon) :=
  home ← call UserHomeDir;
  let c := with_dirs (match home with inr h => h | inl _ => "" end) c in
  err ← call (MkdirAll (StateDir c) 448);
  match err with
  | Some e => mret (inl ("create state dir: " +:+ e))
  | None =>
      caMgr ←[String.append "init CA: "]
        (match ConfigCA c with Some m => mret (inr m) | None => NewCACertManager (CACertDir c) end);
      pol ←[String.append "init policy: "] NewEngine (PolicyDir c);
      sock ← detectDockerSocket (DockerSocket c);
      d ← with_loaded (mkDaemon ∅ c pol NewSecretManager caMgr (NewManager sock "") (SocketPath c)
                         false (StateDir c));
      mret (inr d)
  end.

(** [Daemon.Start] up to the goroutine that serves requests, and [Daemon.Stop];
    closing the server drops no state. *)
Definition StartDaemon : M Daemon error :=
  d ← get;
  path ← (if decide (dSocketPath d = "") then
            home ← call UserHomeDir;
            mret (Join [match home with inr h => h | inl _ => "" end; ".config"; "sbxsandbox";
                        "sbxsandbox.sock"])
          else mret (dSocketPath d));
  modify (set_server path (httpServer d));;
  err ← call (MkdirAll (Dir path) 448);
  match err with
  | Some e => mret (Some ("create socket dir: " +:+ e))
  | None =>
      call (RemoveFile path);;
      err ← call (ListenUnix path);
      match err with
      | Some e => mret (Some ("listen on " +:+ path +:+ ": " +:+ e))
      | None =>
          call (Chmod path 432);;
          modify (set_server path true);;
          mret None
      end
  end.

Definition StopDaemon : M Daemon error :=
  saveState;;
  d ← get;
  (if decide (dSocketPath d = "") then mret () else call (RemoveFile (dSocketPath d));; mret ());;
  mret None.
End NewDaemon.
