(* ===== verification/Persistence.v ===== *)
(** * The daemon's state file

    [saveState] and [loadState] are inverse on states whose texts are UTF-8:
    what a daemon saved, the next one finds again. *)
From S2P Require Export Daemon.

(** ** Go maps through JSON *)

Section Maps.
Context {A : Type} (zero : A) (d : Dec A) (f : A → Json).

Lemma dec_map_fold (l : list (string * A)) (m : gmap string A) :
  (∀ k v, (k, v) ∈ l → d zero (f v) = Some v) → NoDup l.*1 →
  (∀ k, k ∈ l.*1 → m !! k = None) →
  foldl (λ acc kv, m ← acc; v ← d zero kv.2; Some (<[kv.1 := v]> m)) (Some m)
    ((λ '(k, v), (k, f v)) <$> l) = Some (list_to_map l ∪ m).
Proof.
  revert m. induction l as [|[k v] l IH]; intros m Hd Hnd Hm.
  - cbn. by rewrite (left_id_L ∅ (∪)).
  - cbn in Hnd. apply NoDup_cons in Hnd as [Hk Hnd].
    assert (list_to_map ((k, v) :: l) ∪ m = list_to_map l ∪ <[k := v]> m) as ->.
    { cbn. rewrite <- insert_union_r, insert_union_l; [done|]. by apply not_elem_of_list_to_map. }
    rewrite <- (IH (<[k := v]> m)); [|intros; eapply Hd; by right|done|].
    + cbn. by rewrite (Hd k v) by (by left).
    + intros k' Hk'. rewrite lookup_insert_ne by (intros ->; done). apply Hm. by right.
Qed.

Lemma dec_map_JMap (m : gmap string A) :
  (∀ k v, m !! k = Some v → d zero (f v) = Some v) →
  dec_map zero d ∅ (JMap f m) = Some m.
Proof.
  intros Hd. unfold JMap, dec_map.
  set (l := merge_sort _ (map_to_list m)).
  assert (l ≡ₚ map_to_list m) as Hperm by apply merge_sort_Permutation.
  assert (NoDup l.*1) as Hnd by (rewrite Hperm; apply NoDup_fst_map_to_list).
  rewrite dec_map_fold; [|intros k v|done|done].
  - rewrite (right_id_L ∅ (∪)). f_equal.
    rewrite (list_to_map_proper _ _ Hnd Hperm). apply list_to_map_to_list.
  - rewrite Hperm, elem_of_map_to_list. apply Hd.
Qed.

Lemma JMap_ok n (m : gmap string A) :
  (∀ k v, m !! k = Some v → valid_utf8 k = true ∧ json_ok n (f v) = true) →
  json_ok (S n) (JMap f m) = true.
Proof.
  intros Hok. unfold JMap. cbn [json_ok]. rewrite forallb_fmap, forallb_forall.
  intros [k v] Hin. cbn. rewrite andb_true_iff. apply Hok.
  by rewrite <- elem_of_map_to_list, <- (merge_sort_Permutation (λ a b, String.le a.1 b.1)),
    list_elem_of_In.
Qed.
End Maps.

(** ** One sandbox *)

Definition labels_text_ok (m : gmap string string) : Prop :=
  map_Forall (λ k v, valid_utf8 k = true ∧ valid_utf8 v = true) m.

(** All texts of a sandbox are UTF-8; others are not preserved by JSON. *)
Definition sandbox_text_ok (s : SandboxState) : Prop :=
  Forall (λ t, valid_utf8 t = true)
    [sbID s; sbName s; sbAgentName s; sbImage s; sbWorkspace s; sbContainerID s; sbProxyAddr s] ∧
  labels_text_ok (sbLabels s) ∧ forallb secret_text_ok (sbSecrets s) = true ∧
  time_ok (sbCreatedAt s) = true.

Section RoundTrip.
Context `{UnicodeFold, TimeFormatOk}.

Lemma dec_labels (m : gmap string string) : dec_map "" dec_string ∅ (JMap JStr m) = Some m.
Proof. by apply dec_map_JMap. Qed.

Lemma dec_sandbox_json s :
  time_ok (sbCreatedAt s) = true → dec_sandbox zero_sandbox (sandbox_json s) = Some s.
Proof.
  destruct s as [i n a im w c r p t l ss]. cbn [sbCreatedAt]. intros Ht. unfold sandbox_json, omit_empty.
  cbn [sbID sbName sbAgentName sbImage sbWorkspace sbContainerID sbRunning sbProxyAddr sbCreatedAt
       sbLabels sbSecrets].
  unfold dec_sandbox, zero_sandbox.
  repeat case_bool_decide; subst; cbn [app]; dec_fields; rewrite time_round_trip by done;
    cbn [mbind option_bind]; dec_fields; rewrite ?dec_labels; cbn [mbind option_bind]; dec_fields;
    rewrite ?dec_secrets_json; cbn [mbind option_bind]; by dec_fields.
Qed.

Lemma sandbox_json_ok n s :
  sandbox_text_ok s → json_ok (S (S (S n))) (sandbox_json s) = true.
Proof.
  intros (Hs & Hl & Hss & Ht). rewrite !Forall_cons in Hs.
  destruct Hs as (Hi & Hn & Ha & Him & Hw & Hc & Hp & _).
  assert (json_ok (S (S n)) (JMap JStr (sbLabels s)) = true) as Hlabels
    by (apply JMap_ok; exact Hl).
  assert (json_ok (S (S n)) (secrets_json (sbSecrets s)) = true) as Hsecrets
    by (by apply secrets_json_ok).
  assert (valid_utf8 (time_text (sbCreatedAt s)) = true) as Htime by (by apply time_text_ok).
  unfold sandbox_json, omit_empty.
  repeat case_bool_decide; cbn [json_ok app]; cbn [forallb fst snd json_ok];
    rewrite ?Hi, ?Hn, ?Ha, ?Him, ?Hw, ?Hc, ?Hp, ?Hlabels, ?Hsecrets, ?Htime; reflexivity.
Qed.

(** The texts of all sandboxes and their names. *)
Definition state_text_ok (m : gmap string SandboxState) : Prop :=
  map_Forall (λ k s, valid_utf8 k = true ∧ sandbox_text_ok s) m.

Lemma sandboxes_read (m : gmap string SandboxState) :
  state_text_ok m →
  Unmarshal (marshal_indent (sandboxes_json m)) ≫= dec_map zero_sandbox dec_sandbox ∅ = Some m.
Proof.
  intros Hok. rewrite Unmarshal_marshal_indent.
  - cbn [mbind option_bind]. apply dec_map_JMap. intros k s Hk.
    apply dec_sandbox_json. apply (Hok k s Hk).
  - destruct max_depth_five as [n ->]. apply JMap_ok. intros k s Hk.
    destruct (Hok k s Hk). split; [done|by apply sandbox_json_ok].
Qed.
End RoundTrip.

(** ** What the handlers leave in the file *)

(** *** Computations that neither write a file nor change their state *)

Definition no_write (e : Ext) : Prop := ∀ p data perm, e ≠ WriteFile p data perm.

Definition quiet {S A} (m : M S A) : Prop := keeps eq m ∧ only no_write m.

Section Quiet.
Context {S : Type}.

Lemma quiet_ret {A} (x : A) : quiet (mret x : M S A).
Proof. split; [apply keeps_ret; apply _|apply only_ret]. Qed.

Lemma quiet_get : quiet (get : M S S).
Proof. split; [apply keeps_get; apply _|apply only_get]. Qed.

Lemma quiet_call `{World} e : no_write e → quiet (call e : M S _).
Proof. intros He. split; [refine (keeps_call _ _)|refine (only_call _ _ He)]. Qed.

Lemma quiet_bind {A B} (m : M S A) (k : A → M S B) :
  quiet m → (∀ x, quiet (k x)) → quiet (m ≫= k).
Proof.
  intros [Hm1 Hm2] Hk. split.
  - apply keeps_bind; [apply _|done|]. intros x. apply Hk.
  - apply only_bind; [done|]. intros x. apply Hk.
Qed.

Lemma quiet_try {A B} w (m : M S (string + A)) (k : A → M S (string + B)) :
  quiet m → (∀ x, quiet (k x)) → quiet (try_bind w m k).
Proof. intros Hm Hk. apply quiet_bind; [done|]. intros [e|x]; [apply quiet_ret|apply Hk]. Qed.

Lemma quiet_for_each {A} (l : list A) (f : A → M S unit) :
  (∀ x, quiet (f x)) → quiet (for_each l f).
Proof. intros Hf. induction l as [|x l IH]; [apply quiet_ret|]. by apply quiet_bind. Qed.
End Quiet.

(** Goes through the code of a quiet computation. *)
Ltac quiet :=
  repeat first
    [ assumption | solve [eauto with quiet] | apply quiet_ret | apply quiet_get
    | refine (quiet_call _ _); intros ???; discriminate
    | apply quiet_try | apply quiet_bind | apply quiet_for_each
    | match goal with
      | |- quiet (if ?b then _ else _) => destruct b
      | |- quiet (match ?x with _ => _ end) => destruct x
      end
    | progress intros ].

Create HintDb quiet.
Create HintDb inert.

Section QuietOps.
Context `{World, UrlErrors, JsonErrors, UnicodeFold} {St : Type}.

Lemma quiet_exchange what failed method url hs codes :
  quiet (exchange what failed method url hs codes : M St _).
Proof. unfold exchange, NewRequest, Do. quiet. Qed.
#[local] Hint Resolve quiet_exchange : quiet.

Lemma quiet_Get url : quiet (Get url : M St _).
Proof. unfold Get, NewRequest, Do. quiet. Qed.
#[local] Hint Resolve quiet_Get : quiet.

Lemma quiet_Start m id : quiet (StartContainer m id : M St _).
Proof. unfold StartContainer. quiet. Qed.

Lemma quiet_Stop m id : quiet (StopContainer m id : M St _).
Proof. unfold StopContainer. quiet. Qed.

Lemma quiet_Remove m id : quiet (RemoveContainer m id : M St _).
Proof. unfold RemoveContainer. quiet. Qed.

Lemma quiet_Inspect m id : quiet (InspectContainer m id : M St _).
Proof. unfold InspectContainer. quiet. Qed.

Lemma quiet_List m : quiet (ListContainers m : M St _).
Proof. unfold ListContainers. quiet. Qed.

Lemma quiet_Create m image args env name : quiet (CreateContainer m image args env name : M St _).
Proof.
  unfold CreateContainer, ensureNetwork, pullImage, imageExists, readCA, NewRequest, Do. quiet.
Qed.

Lemma quiet_RunCmd name args : quiet (RunCmd name args : M St _).
Proof. unfold RunCmd. quiet. Qed.
End QuietOps.

#[export] Hint Resolve quiet_Start quiet_Stop quiet_Remove quiet_Inspect quiet_List quiet_Create
  quiet_RunCmd : quiet.

Section QuietDaemon.
Context `{World, UrlErrors, JsonErrors, UnicodeFold, MapOrder, TimeFormat}.

Lemma quiet_remove_by_name name : quiet (remove_by_name name).
Proof. unfold remove_by_name. quiet. Qed.

Lemma quiet_propagate payload endpoint : quiet (propagateToSidecars payload endpoint).
Proof. unfold propagateToSidecars, propagateTo, execInContainer. quiet. Qed.

Lemma quiet_propagate_policy : quiet propagatePolicyToSidecars.
Proof. unfold propagatePolicyToSidecars. pose proof quiet_propagate. quiet. Qed.

Lemma quiet_propagate_secrets : quiet propagateSecretsToSidecars.
Proof. unfold propagateSecretsToSidecars. pose proof quiet_propagate. quiet. Qed.

Lemma quiet_createAndStart c : quiet (createAndStartContainer c).
Proof. unfold createAndStartContainer. quiet. Qed.

Lemma quiet_remove_sandbox d name s : quiet (remove_sandbox d name s).
Proof. pose proof quiet_remove_by_name. unfold remove_sandbox. quiet. Qed.

Lemma quiet_stop_container d s : quiet (stop_container d s).
Proof. unfold stop_container. quiet. Qed.

Lemma quiet_push_secrets : quiet push_secrets.
Proof. pose proof quiet_propagate_secrets. unfold push_secrets. quiet. Qed.
End QuietDaemon.

#[export] Hint Resolve quiet_remove_sandbox quiet_stop_container quiet_push_secrets quiet_remove_by_name quiet_propagate_policy quiet_propagate_secrets
  quiet_createAndStart : quiet.

(** *** Computations that leave the sandboxes and their file alone *)

Section Disk.
Context `{World, UrlErrors, JsonErrors, UnicodeFold, MapOrder, TimeFormat}.

(** Only the engine's own file is written besides the state file. *)
Definition apart (d : Daemon) (_ : trace) : Prop := policyPath (dPolicy d) ≠ state_path d.

Definition on_disk (d : Daemon) (tr : trace) : Prop :=
  apart d tr ∧ last_write (state_path d) tr = Some (marshal_indent (sandboxes_json (sandboxes d))).

Definition same_files (d0 d : Daemon) : Prop :=
  sandboxes d = sandboxes d0 ∧ stateDir d = stateDir d0 ∧
  policyPath (dPolicy d) = policyPath (dPolicy d0).

Definition policy_write (path : string) (e : Ext) : Prop :=
  match e with WriteFile p _ _ => p = path | _ => True end.

Definition inert {A} (m : M Daemon A) : Prop :=
  ∀ d0, guarded (same_files d0) (policy_write (policyPath (dPolicy d0))) m.

Lemma no_write_policy path e : no_write e → policy_write path e.
Proof. intros He. destruct e; try done. exfalso. by eapply He. Qed.

Lemma inert_quiet {A} (m : M Daemon A) : quiet m → inert m.
Proof.
  intros [Hk Ho] d0. eapply guarded_weaken; [apply (no_write_policy _)|].
  by apply guarded_stateless.
Qed.

Lemma inert_bind {A B} (m : M Daemon A) (k : A → M Daemon B) :
  inert m → (∀ x, inert (k x)) → inert (m ≫= k).
Proof. intros Hm Hk d0. apply guarded_bind; [apply Hm|]. intros x. apply Hk. Qed.

Lemma inert_for_each {A} (l : list A) (f : A → M Daemon unit) :
  (∀ x, inert (f x)) → inert (for_each l f).
Proof. intros Hf d0. apply guarded_for_each. intros x. apply Hf. Qed.

(** What the engine's operations do is its own business. *)
Definition engine_op {A} (m : M Engine A) : Prop :=
  ∀ path, guarded (λ pe, policyPath pe = path) (policy_write path) m.

Lemma engine_op_save : engine_op save.
Proof.
  intros path. unfold save. apply guarded_get. intros pe Hpe.
  apply guarded_bind; [by refine (guarded_call _ _ _ _)|]. intros. apply guarded_ret.
Qed.

Lemma engine_op_update pe f {A} (x : A) :
  policyPath (f pe) = policyPath pe →
  ∀ path, policyPath pe = path →
    guarded (λ pe, policyPath pe = path) (policy_write path) (put (f pe);; save;; mret x).
Proof.
  intros Hf path Hpe. apply guarded_bind.
  - intros s tr _. cbn. split; [by rewrite Hf|]. exists []. by rewrite (right_id_L [] (++)).
  - intros _. apply guarded_bind; [apply engine_op_save|]. intros. apply guarded_ret.
Qed.

Lemma engine_op_AddRule name decision resources scope :
  engine_op (AddRule name decision resources scope).
Proof.
  intros path. unfold AddRule. apply guarded_get. intros pe Hpe.
  by apply (engine_op_update pe (λ pe, set_rules _ _ pe)).
Qed.

Lemma engine_op_RemoveRule id : engine_op (RemoveRule id).
Proof.
  intros path. unfold RemoveRule. apply guarded_get. intros pe Hpe.
  destruct (list_find _ _) as [[i r]|]; [|apply guarded_ret].
  by apply (engine_op_update pe (λ pe, set_rules _ _ pe)).
Qed.

Lemma engine_op_ListRules : engine_op ListRules.
Proof. intros path. unfold ListRules. apply guarded_get. intros. apply guarded_ret. Qed.

Lemma inert_on_policy {A} (m : M Engine A) : engine_op m → inert (on_policy m).
Proof.
  intros Hm d0. eapply guarded_zoom; [| |apply Hm].
  - by intros d (_ & _ & ?).
  - by intros pe d ? (? & ? & _).
Qed.

Lemma inert_on_secrets {A} (m : M SecretManager A) :
  only no_write m → inert (zoom dSecrets set_secrets m).
Proof.
  intros Hm d0. apply (guarded_zoom (λ _, True)); [done|by intros s d _ (?&?&?)|].
  intros s tr _. split; [done|]. destruct (Hm s tr) as (new & Ht & Hn). exists new.
  split; [done|]. eapply Forall_impl; [exact Hn|]. apply no_write_policy.
Qed.

(** Inert computations keep the file in step with the state. *)
Lemma inert_last_write {A} (m : M Daemon A) d tr :
  inert m → apart d tr →
  last_write (state_path d) (trace_after m d tr) = last_write (state_path d) tr ∧
  same_files d (state_after m d tr).
Proof.
  intros Hm Ha. destruct (Hm d d tr) as (Hs & new & -> & Hn); [done|]. split; [|done].
  rewrite last_write_app, last_write_none; [done|].
  eapply Forall_impl; [exact Hn|]. intros e He data perm ->. by apply Ha.
Qed.

Lemma same_files_path d0 d : same_files d0 d → state_path d = state_path d0.
Proof. intros (_ & Hs & _). unfold state_path. by rewrite Hs. Qed.

Lemma inert_apart {A} (m : M Daemon A) : inert m → hoare apart m apart.
Proof.
  intros Hm d tr Ha. destruct (inert_last_write m d tr Hm Ha) as [_ Hs].
  unfold apart. rewrite (same_files_path _ _ Hs). destruct Hs as (_ & _ & ->). exact Ha.
Qed.

Lemma inert_on_disk {A} (m : M Daemon A) : inert m → hoare on_disk m on_disk.
Proof.
  intros Hm d tr [Ha Hd]. split; [by apply inert_apart|].
  destruct (inert_last_write m d tr Hm Ha) as [Hw Hs].
  rewrite (same_files_path _ _ Hs), Hw, Hd. by destruct Hs as (-> & _).
Qed.

(** Saving brings the file up to date. *)
Lemma saveState_on_disk : hoare apart saveState on_disk.
Proof.
  intros d tr Ha. split; [exact Ha|].
  change (trace_after saveState d tr) with (tr ++ [WriteFile (state_path d)
    (marshal_indent (sandboxes_json (sandboxes d))) 420]).
  rewrite last_write_app. unfold last_write at 1. cbn [omap list_omap]. by rewrite decide_True.
Qed.

Lemma modify_apart f : hoare apart (modify (set_sandboxes f)) apart.
Proof. by apply hoare_modify. Qed.

(** *** The handlers *)

#[local] Hint Resolve inert_bind inert_for_each inert_on_policy engine_op_AddRule
  engine_op_RemoveRule engine_op_ListRules : inert.

Ltac inert :=
  repeat first
    [ solve [eauto with inert] | apply inert_bind | apply inert_for_each
    | apply inert_quiet; solve [quiet]
    | match goal with
      | |- inert (if ?b then _ else _) => destruct b
      | |- inert (match ?x with _ => _ end) => destruct x
      end
    | progress intros ].

Lemma inert_apply_action a : inert (apply_action a).
Proof.
  unfold apply_action, add_action, removeResourcesByPattern. inert.
  generalize (Resources a). intros res.
  match goal with |- inert (remove_matching _ ?l) => induction l as [|r rs IH] end;
    cbn [remove_matching]; inert.
Qed.

Lemma inert_apply_actions l : inert (apply_actions l).
Proof. pose proof inert_apply_action. induction l; cbn [apply_actions]; inert. Qed.

Lemma inert_add_presets l : inert (add_presets l).
Proof. induction l as [|[[??]?] l IH]; cbn [add_presets]; inert. Qed.

(** What a sandbox has apart from what the engine says of its container. *)
Definition settled (s : SandboxState) : SandboxState := with_container "" false (sbProxyAddr s) s.

(** The file holds the sandboxes up to what the engine says of them: those in
    memory, or some whose texts are UTF-8. *)
Definition synced (d : Daemon) (tr : trace) : Prop :=
  apart d tr ∧ ∃ m, last_write (state_path d) tr = Some (marshal_indent (sandboxes_json m)) ∧
    settled <$> m = settled <$> sandboxes d ∧ (m = sandboxes d ∨ state_text_ok m).

Lemma inert_synced {A} (m : M Daemon A) : inert m → hoare synced m synced.
Proof.
  intros Hm d tr (Ha & sm & Hd & Hs). split; [by apply inert_apart|].
  destruct (inert_last_write m d tr Hm Ha) as [Hw Hsame]. exists sm.
  rewrite (same_files_path _ _ Hsame), Hw. by destruct Hsame as (-> & _).
Qed.

(** How much the file holds: what saving establishes and inert code keeps. *)
Class DiskInv (Q : Daemon → trace → Prop) : Prop := {
  disk_apart : ∀ d tr, Q d tr → apart d tr;
  disk_saved : ∀ d tr, on_disk d tr → Q d tr;
  disk_inert : ∀ A (m : M Daemon A), inert m → hoare Q m Q;
}.

#[export] Instance on_disk_inv : DiskInv on_disk.
Proof. split; [by intros d tr [? _]|done|]. intros A m. apply inert_on_disk. Qed.

#[export] Instance synced_inv : DiskInv synced.
Proof.
  split; [by intros d tr [? _]| |intros A m; apply inert_synced].
  intros d tr [Ha Hd]. split; [done|]. exists (sandboxes d). auto.
Qed.

Section DiskInv.
Context (Q : Daemon → trace → Prop) `{!DiskInv Q}.

Lemma on_disk_ret {A} (x : A) : hoare Q (mret x : M Daemon A) Q.
Proof. apply hoare_ret. Qed.

(** The end of the handlers that save. *)
Lemma save_and {A} (m : M Daemon A) : inert m → hoare apart (saveState;; m) Q.
Proof.
  intros Hm. eapply hoare_bind; [|intros _; by apply disk_inert].
  eapply hoare_weaken; [done| |apply saveState_on_disk]. intros d tr. apply disk_saved.
Qed.

Lemma inert_then {A B} (m : M Daemon A) (k : A → M Daemon B) Q' :
  inert m → (∀ x, hoare apart (k x) Q') → hoare apart (m ≫= k) Q'.
Proof. intros Hm. apply hoare_bind. by apply inert_apart. Qed.

Lemma on_disk_apart {A} (m : M Daemon A) Q' : hoare apart m Q' → hoare Q m Q'.
Proof. apply hoare_weaken; [apply disk_apart|done]. Qed.

(** Looking a sandbox up and, when it is there, changing the state. *)
Lemma on_disk_lookup {A} (name : string) (none : A) (k : Daemon → SandboxState → M Daemon A) :
  (∀ d s, hoare Q (k d s) Q) →
  hoare Q (d ← get; match sandboxes d !! name with None => mret none | Some s => k d s end) Q.
Proof.
  intros Hk. eapply hoare_bind; [apply hoare_get|]. intros d.
  destruct (sandboxes d !! name); [apply Hk|apply on_disk_ret].
Qed.

Lemma disk_create body : hoare Q (handleCreateRuntime body) Q.
Proof.
  unfold handleCreateRuntime. destruct (decode_request _ _ _ _) as [e|r]; [apply on_disk_ret|].
  case_decide; [apply on_disk_ret|]. case_decide; [apply on_disk_ret|].
  eapply hoare_bind; [apply hoare_get|]. intros d.
  destruct (sandboxes d !! RuntimeName r); [apply on_disk_ret|].
  apply on_disk_apart. apply inert_then; [apply inert_quiet; quiet|]. intros t1.
  apply inert_then; [apply inert_quiet; quiet|]. intros t2.
  eapply hoare_bind; [apply modify_apart|]. intros _. apply save_and. inert.
Qed.

Lemma disk_delete name : hoare Q (handleDeleteRuntime name) Q.
Proof.
  unfold handleDeleteRuntime. case_decide; [apply on_disk_ret|].
  refine (on_disk_lookup _ _ _ _). intros d s. apply on_disk_apart.
  eapply hoare_bind; [apply modify_apart|]. intros _. apply inert_then; [|intros _].
  { eapply inert_quiet. quiet. }
  apply inert_then; [apply inert_quiet; quiet|]. intros _. apply save_and. inert.
Qed.

Lemma disk_stop name : hoare Q (handleStopRuntime name) Q.
Proof.
  unfold handleStopRuntime. case_decide; [apply on_disk_ret|].
  refine (on_disk_lookup _ _ _ _). intros d s. apply on_disk_apart. apply inert_then; [|intros _].
  { apply inert_quiet. quiet. }
  eapply hoare_bind; [apply modify_apart|]. intros _. apply save_and. inert.
Qed.

Lemma inert_SetSecrets ss : inert (zoom dSecrets set_secrets (SetSecrets ss)).
Proof. apply inert_on_secrets. intros sm tr. exists []. by rewrite (right_id_L [] (++)). Qed.

Lemma disk_start name : hoare Q (handleStartRuntime name) Q.
Proof.
  unfold handleStartRuntime. case_decide; [apply on_disk_ret|].
  refine (on_disk_lookup _ _ _ _). intros d s. destruct (sbRunning s); [apply on_disk_ret|].
  eapply hoare_bind; [|intros _].
  { apply disk_inert. unfold set_own_secrets.
    case_decide; [apply inert_quiet; quiet|apply inert_SetSecrets]. }
  eapply hoare_bind; [apply hoare_get|]. intros d'.
  eapply hoare_bind; [apply disk_inert, inert_quiet; quiet|].
  intros [e|cid]; [apply on_disk_ret|]. apply on_disk_apart.
  eapply hoare_bind; [apply modify_apart|]. intros _. apply save_and, inert_quiet. quiet.
Qed.

End DiskInv.

(** The other handlers leave the sandboxes alone. *)
Lemma inert_delete_rules : inert handleDeletePolicyRules.
Proof. unfold handleDeletePolicyRules. inert. Qed.

Lemma inert_delete_rule id : inert (handleDeletePolicyRuleByID id).
Proof. unfold handleDeletePolicyRuleByID. inert. Qed.

Lemma inert_actions body : inert (handleApplyPolicyActions body).
Proof. pose proof inert_apply_actions. unfold handleApplyPolicyActions. inert. Qed.

Lemma inert_profile body : inert (handleSetPolicyProfile body).
Proof. pose proof inert_add_presets. unfold handleSetPolicyProfile. inert. Qed.

Lemma inert_set_secrets body : inert (handleSetSecrets body).
Proof. pose proof inert_SetSecrets. unfold handleSetSecrets. inert. Qed.

Lemma inert_list_rules : inert handleListPolicyRules.
Proof. unfold handleListPolicyRules. inert. Qed.

Lemma inert_list_secrets : inert handleListSecrets.
Proof.
  unfold handleListSecrets. apply inert_bind; [|intros; inert].
  apply inert_on_secrets. apply (quiet_get (S := SecretManager)).
Qed.

(** Requests other than [GET /runtime], which refreshes the sandboxes from the
    engine and does not save them. *)
Definition refreshes (r : ApiRequest) : bool :=
  bool_decide (apiPath r = ["runtime"]) && bool_decide (apiMethod r ≠ "POST").

Lemma inert_queries :
  inert handleHealth ∧ inert handleInfo ∧ inert handlePolicySetup ∧ inert handleNetworkLog ∧
  inert handleListTemplates ∧ inert handleCACert ∧ ∀ name, inert (handleGetRuntime name).
Proof.
  split_and!; try (intros ?); apply inert_quiet;
    unfold handleHealth, handleInfo, handleGetRuntime, handlePolicySetup, handleNetworkLog,
      handleListTemplates, handleCACert; quiet.
Qed.

(** What a route may do, if there is one. *)
Definition routed (P : M Daemon Reply → Prop) (o : option (M Daemon Reply)) : Prop :=
  match o with Some h => P h | None => True end.

Lemma routed_if P (b : bool) o1 o2 :
  (b = true → routed P o1) → (b = false → routed P o2) → routed P (if b then o1 else o2).
Proof. destruct b; auto. Qed.

#[local] Hint Resolve inert_delete_rules inert_delete_rule inert_actions inert_profile
  inert_set_secrets inert_list_rules inert_list_secrets : inert.

(** What holds of the handlers that touch the sandboxes, and of all that leave
    them alone, holds of every route. *)
Lemma routed_all (P : M Daemon Reply → Prop) r :
  (∀ m, inert m → P m) →
  (∀ b, P (handleCreateRuntime b)) → (refreshes r = true → P handleListRuntimes) →
  (∀ n, P (handleDeleteRuntime n)) → (∀ n, P (handleStartRuntime n)) →
  (∀ n, P (handleStopRuntime n)) → routed P (route r).
Proof.
  destruct r as [m p b]. unfold refreshes. cbn [apiMethod apiPath].
  destruct inert_queries as (Hh & Hi & Hs & Hl & Ht & Hc & Hg).
  intros. unfold route. cbn [apiMethod apiPath apiBody].
  destruct p as [|x [|y [|z [|? ?]]]]; try exact I;
    repeat (apply routed_if; intros ?); try exact I; cbn [routed]; auto with inert.
  repeat match goal with
    | H : bool_decide (x = _) = true |- _ => apply bool_decide_eq_true in H; subst x
    | H : bool_decide (m = "POST") = false |- _ => apply bool_decide_eq_false in H
    end.
  rewrite !bool_decide_true in * by done. auto.
Qed.

(** The requests about something other than the runtimes. *)
Definition about_runtimes (r : ApiRequest) : bool := bool_decide (head (apiPath r) = Some "runtime").

Lemma routed_inert r : about_runtimes r = false → routed inert (route r).
Proof.
  destruct r as [m p b]. unfold about_runtimes. cbn [apiPath]. intros Hr%bool_decide_eq_false.
  destruct inert_queries as (Hh & Hi & Hs & Hl & Ht & Hc & Hg).
  unfold route. cbn [apiMethod apiPath apiBody].
  destruct p as [|x [|y [|z [|? ?]]]]; try exact I; cbn [head] in Hr;
    rewrite ?(bool_decide_false (x = "runtime")) by congruence;
    repeat (apply routed_if; intros ?); try exact I; try done; cbn [routed]; auto with inert.
Qed.

Lemma route_disk Q Q' `{!DiskInv Q} r :
  (∀ d tr, Q' d tr → Q d tr) → (refreshes r = true → hoare Q' handleListRuntimes Q) →
  routed (λ h, hoare Q' h Q) (route r).
Proof.
  intros HQ Hlist.
  assert (∀ h : M Daemon Reply, hoare Q h Q → hoare Q' h Q) as Hweak
    by (intros h; by apply hoare_weaken).
  apply routed_all; auto using disk_create, disk_delete, disk_start, disk_stop.
  intros m Hm. by apply Hweak, disk_inert.
Qed.

(** *** The listing *)

(** The listing's loop changes what the engine says of the sandboxes, and
    writes nothing. *)
Lemma refresh_settled d0 l :
  Forall (λ kv, settled <$> sandboxes d0 !! kv.1 = Some (settled kv.2)) l →
  guarded (λ d, stateDir d = stateDir d0 ∧ dPolicy d = dPolicy d0 ∧
                settled <$> sandboxes d = settled <$> sandboxes d0) no_write (refresh l).
Proof.
  induction 1 as [|[name s] l Hs _ IH]; cbn [refresh]; [apply guarded_ret|].
  apply guarded_get. intros d _. cbn [fst snd] in Hs.
  apply guarded_bind; [|intros s'; apply guarded_bind; [exact IH|intros; apply guarded_ret]].
  case_decide; [apply guarded_ret|].
  apply guarded_bind; [apply guarded_stateless; apply quiet_Inspect|]. intros c.
  apply guarded_bind; [|intros; apply guarded_ret].
  apply guarded_modify. intros d' (Hdir & Hpol & Hset). split_and!; [done..|].
  cbn [sandboxes set_sandboxes]. rewrite fmap_insert, Hset. apply insert_id.
  rewrite lookup_fmap, Hs. f_equal. by destruct c.
Qed.

Lemma disk_list `{!MapOrderOk} :
  hoare (λ d tr, synced d tr ∧ state_text_ok (sandboxes d)) handleListRuntimes synced.
Proof.
  intros d tr [(Ha & m & Hd & Hset & Hm) Hok]. unfold handleListRuntimes.
  assert (guarded (λ d', stateDir d' = stateDir d ∧ dPolicy d' = dPolicy d ∧
            settled <$> sandboxes d' = settled <$> sandboxes d) no_write
            (states ← refresh (map_order (sandboxes d));
             mret (writeJSON 200 (JArr (sandbox_json <$> states))))) as Hg.
  { apply guarded_bind; [|intros; apply guarded_ret]. apply refresh_settled.
    apply Forall_forall. intros [n s]. rewrite (map_order_perm _ _), elem_of_map_to_list.
    cbn [fst snd]. by intros ->. }
  destruct (Hg d tr) as ((Hdir & Hpol & Hset') & new & Ht & Hnew); [done|].
  unfold state_after, trace_after in *. rewrite bind_run, get_run.
  destruct (_ ≫= _) as [[reply d'] tr']. cbn in *. subst tr'.
  assert (state_path d' = state_path d) as Hpath by (unfold state_path; by rewrite Hdir).
  split; [unfold apart; by rewrite Hpath, Hpol|]. exists m. rewrite Hpath, last_write_app, last_write_none.
  - split; [done|]. split; [by rewrite Hset'|]. right. by destruct Hm as [->|?].
  - eapply Forall_impl; [exact Hnew|]. intros e He. apply He.
Qed.

(** One request served: the daemon's state and the calls made so far.  The texts
    of the sandboxes are UTF-8, as those that JSON decodes to are. *)
Inductive serve (P : ApiRequest → Prop) : Daemon * trace → Daemon * trace → Prop :=
  | serve_request d tr r h :
      state_text_ok (sandboxes d) → route r = Some h → P r →
      serve P (d, tr) (state_after h d tr, trace_after h d tr).

Lemma serve_disk Q `{!DiskInv Q} (P : ApiRequest → Prop) x y :
  (∀ r, P r → refreshes r = true →
     hoare (λ d tr, Q d tr ∧ state_text_ok (sandboxes d)) handleListRuntimes Q) →
  rtc (serve P) x y → Q x.1 x.2 → Q y.1 y.2.
Proof.
  intros Hlist. induction 1 as [|x y z Hstep _ IH]; [done|]. intros Hx. apply IH.
  destruct Hstep as [d tr r h Hok Hr HP].
  pose proof (route_disk Q (λ d tr, Q d tr ∧ state_text_ok (sandboxes d)) r) as Hh.
  rewrite Hr in Hh. apply Hh; [by intros ?? [? _]|by apply Hlist|by split].
Qed.

(** What loading finds in a file that was last written with these sandboxes. *)
Lemma loadState_read d' tr path m `{!FilesKept, !TimeFormatOk} :
  state_path d' = path → state_text_ok m → write_ok path tr →
  last_write path tr = Some (marshal_indent (sandboxes_json m)) →
  state_after loadState d' tr = set_sandboxes (λ _, m) d'.
Proof.
  intros Hp Hok Hwok Hw. unfold state_after, loadState.
  rewrite bind_run, get_run, bind_run, call_run, Hp, (files_kept _ _ _ Hw Hwok).
  by rewrite sandboxes_read.
Qed.

(** C15. What a crash can lose.  Whatever requests the daemon has served, a daemon
    that starts on the same state directory finds the sandboxes of the last
    one, each as it was but for the container and the running status, which a
    listing ([GET /runtime]) refreshes from the engine and does not save; and if
    no listing was among the requests, it finds exactly the sandboxes in memory.
    (The last write of the state file succeeded, and the texts are UTF-8.) *)
Theorem crash_recovery `{!FilesKept, !TimeFormatOk, !MapOrderOk} d0 tr0 d tr d' new
    (Hstart : on_disk d0 tr0) (Hserved : rtc (serve (λ _, True)) (d0, tr0) (d, tr))
    (Hwrite : write_ok (state_path d) tr)
    (Htexts : state_text_ok (sandboxes d))
    (Hdir : stateDir d' = stateDir d)
    (Hnew : Forall (λ e, ∀ data perm, e ≠ WriteFile (state_path d) data perm) new) :
  let d1 := state_after loadState d' (tr ++ new) in
  d1 = set_sandboxes (λ _, sandboxes d1) d' ∧
  settled <$> sandboxes d1 = settled <$> sandboxes d ∧
  (rtc (serve (λ r, refreshes r = false)) (d0, tr0) (d, tr) → sandboxes d1 = sandboxes d).
Proof.
  assert (∀ m, last_write (state_path d) tr = Some (marshal_indent (sandboxes_json m)) →
    state_text_ok m → state_after loadState d' (tr ++ new) = set_sandboxes (λ _, m) d') as Hload.
  { intros m Hm Hok. apply last_write_none in Hnew.
    refine (loadState_read _ _ (state_path d) _ _ Hok _ _).
    - unfold state_path. by rewrite Hdir.
    - by apply write_ok_app.
    - by rewrite last_write_app, Hnew. }
  cbv zeta. apply (serve_disk synced) in Hserved; [|intros; apply disk_list|by apply disk_saved].
  destruct Hserved as (_ & m & Hm & Hset & Hmok). cbn [fst snd] in Hm, Hset, Hmok.
  rewrite (Hload m Hm) by (by destruct Hmok as [->|?]). split_and!; [done..|].
  intros Hsaving. apply (serve_disk on_disk) in Hsaving as [_ Hw]; [|congruence|done].
  cbn [fst snd] in Hw. pose proof (Hload _ Hw Htexts) as Heq.
  rewrite (Hload m Hm) in Heq by (by destruct Hmok as [->|?]). exact (f_equal sandboxes Heq).
Qed.

Lemma StopDaemon_run d tr :
  StopDaemon d tr =
    (let tr' := tr ++ [WriteFile (state_path d) (marshal_indent (sandboxes_json (sandboxes d))) 420] in
     (None, d, if decide (dSocketPath d = "") then tr' else tr' ++ [RemoveFile (dSocketPath d)])).
Proof.
  unfold StopDaemon. rewrite bind_run. unfold saveState at 1. autorewrite with run.
  by case_decide.
Qed.

(** Stopping the daemon saves whatever its state has become, listing or
    not, and removes its socket. *)
Theorem StopDaemon_saves d tr (Hapart : apart d tr) :
  on_disk (state_after StopDaemon d tr) (trace_after StopDaemon d tr) ∧
  state_after StopDaemon d tr = d ∧
  (dSocketPath d ≠ "" → last (trace_after StopDaemon d tr) = Some (RemoveFile (dSocketPath d))).
Proof.
  split_and!.
  - apply (save_and on_disk (d ← get;
      (if decide (dSocketPath d = "") then mret () else call (RemoveFile (dSocketPath d));; mret ());;
      mret None)); [|done].
    apply inert_quiet. quiet.
  - unfold state_after. rewrite StopDaemon_run. by case_decide.
  - intros Hs. unfold trace_after. rewrite StopDaemon_run. cbv zeta. cbn [snd].
    rewrite decide_False by done. apply last_snoc.
Qed.
End Disk.

(** ** Concrete instances *)

(** A time format: the number of nanoseconds. *)
Definition ns_format : TimeFormat := {|
  time_text := Sprintf_d;
  time_parse s := match Unmarshal (to_bytes s) with Some (JNum n) => Some n | _ => None end |}.

Lemma valid_digits ds : forallb is_digit ds = true → valid_go 0 ds = true.
Proof.
  induction ds as [|b ds IH]; [done|]. cbn [forallb valid_go]. intros [Hb Hd]%andb_true_iff.
  assert (ascii_byte b = true) as ->; [|by apply IH].
  unfold is_digit, ascii_byte in *. apply andb_true_iff in Hb as [? ?%Z.leb_le].
  apply Z.ltb_lt. lia.
Qed.

Lemma valid_Sprintf_d n : valid_utf8 (Sprintf_d n) = true.
Proof.
  unfold valid_utf8. destruct (decide (0 ≤ n)%Z) as [Hn|Hn].
  - rewrite Sprintf_d_nonneg by done.
    destruct (pretty_N_digits (Z.to_N n)) as (ds & -> & Hd & _). by apply valid_digits.
  - rewrite Sprintf_d_neg, to_bytes_app by lia. change (to_bytes "-") with [x2d].
    destruct (pretty_N_digits (Z.to_N (- n))) as (ds & -> & Hd & _).
    change (valid_go 0 ds = true). by apply valid_digits.
Qed.

#[export] Instance ns_format_ok : @TimeFormatOk ns_format.
Proof.
  split; intros t _; [|apply valid_Sprintf_d].
  change (match Unmarshal (marshal (JNum t)) with Some (JNum n) => Some n | _ => None end = Some t).
  by rewrite Unmarshal_marshal.
Qed.

(** A daemon with one sandbox on disk, which a client then stops. *)
#[local] Instance demo_world : World := with_files quiet_world.
#[local] Instance demo_kept : FilesKept := with_files_kept quiet_world.
#[local] Instance demo_url_errors : UrlErrors := λ u, "parse " +:+ u.
#[local] Instance demo_json_errors : JsonErrors := λ t _, "invalid " +:+ t.
#[local] Instance demo_folding : UnicodeFold := no_unicode_folding.
#[local] Instance demo_order : MapOrder := some_order.
#[local] Instance demo_times : TimeFormat := ns_format.

Definition demo_ca : CACertManager :=
  mkCACertManager None None (to_bytes "PEM") [] "/ca/ca.crt" "/ca/ca.key" ∅ 2048.

Definition demo_daemon (dir : string) (m : gmap string SandboxState) : Daemon :=
  mkDaemon m (mkDaemonConfig "" "" "" "" dir "" "" "" None)
    (mkEngine defaultRules 3 "/p/rules.json" "balanced") NewSecretManager demo_ca
    (NewManager "/run/docker.sock" "") "" false dir.

Definition demo_sandbox : SandboxState :=
  mkSandboxState "box-1" "box" "shell" "" "/w" "c1" true "box-proxy:3128" 5 {["k" := "v"]}
    [mkCustomSecret "t" "E" "S" "V"].

Definition demo_stop : ApiRequest := mkApiRequest "POST" ["runtime"; "box"; "stop"] [].

Definition demo_saved : Daemon := demo_daemon "/s" {["box" := demo_sandbox]}.
Definition demo_trace : trace := trace_after saveState demo_saved [].

Lemma demo_texts run :
  state_text_ok {["box" := with_container "c1" run "box-proxy:3128" demo_sandbox]}.
Proof.
  apply map_Forall_singleton. split; [reflexivity|]. split; [repeat constructor|].
  split; [|split; reflexivity]. apply map_Forall_singleton. split; reflexivity.
Qed.

Lemma crash_recovery_witness :
  let h := handleStopRuntime "box" in
  sandboxes (state_after loadState (demo_daemon "/s" ∅) (trace_after h demo_saved demo_trace))
  = {["box" := with_container "c1" false "box-proxy:3128" demo_sandbox]}.
Proof.
  intros h. rewrite <- (app_nil_r (trace_after h demo_saved demo_trace)).
  assert (sandboxes (state_after h demo_saved demo_trace)
          = {["box" := with_container "c1" false "box-proxy:3128" demo_sandbox]}) as Hd
    by (vm_compute; reflexivity).
  assert (∀ P : ApiRequest → Prop, P demo_stop → rtc (serve P) (demo_saved, demo_trace)
    (state_after h demo_saved demo_trace, trace_after h demo_saved demo_trace)) as Hserved
    by (intros P HP; apply rtc_once, (serve_request P _ _ demo_stop h);
        [exact (demo_texts true)|reflexivity|exact HP]).
  rewrite <- Hd.
  apply (crash_recovery demo_saved demo_trace (state_after h demo_saved demo_trace)
             (trace_after h demo_saved demo_trace) (demo_daemon "/s" ∅) []).
  - split; [vm_compute; discriminate|vm_compute; reflexivity].
  - by apply Hserved.
  - intros pre data perm post _ _. reflexivity.
  - rewrite Hd. exact (demo_texts false).
  - reflexivity.
  - constructor.
  - by apply Hserved.
Defined.

Lemma StopDaemon_saves_witness :
  on_disk (state_after StopDaemon demo_saved []) (trace_after StopDaemon demo_saved []).
Proof. apply StopDaemon_saves. vm_compute. discriminate. Defined.
