(* ===== verification/Dandbox.v ===== *)
(** * [cmd/dandbox]: the daemon process

    [run] is the life of the process: flags, start-up, the requests that are
    served until a signal arrives, shutdown.  The listener's goroutines are not
    interleaved here: requests are served one after the other. *)
From S2P Require Export Persistence.

(** ** Flags

    [flag.FlagSet.Parse], for flags that take a text. *)

Inductive FlagWord :=
  | NoFlag
  | Terminator
  | BadSyntax
  | FlagName (name : string) (value : option string).

Definition flag_word (s : string) : FlagWord :=
  match to_bytes s with
  | x2d :: b :: r =>
      if decide (b = x2d ∧ r = []) then Terminator
      else
        match (if decide (b = x2d) then r else b :: r) with
        | [] => BadSyntax
        | c :: r =>
            if decide (c = x2d ∨ c = x3d) then BadSyntax
            else
              match list_find (λ b, b = x3d) r with
              | Some (i, _) => FlagName (of_bytes (c :: take i r)) (Some (of_bytes (drop (S i) r)))
              | None => FlagName (of_bytes (c :: r)) None
              end
        end
  | _ => NoFlag
  end.

Fixpoint parse_flags (known : list string) (acc : gmap string string) (args : list string)
    : string + gmap string string :=
  match args with
  | [] => inr acc
  | s :: rest =>
      match flag_word s with
      | NoFlag | Terminator => inr acc
      | BadSyntax => inl ("bad flag syntax: " +:+ s)
      | FlagName name value =>
          if decide (name ∉ known) then
            inl (if decide (name = "help" ∨ name = "h") then "flag: help requested"
                 else "flag provided but not defined: -" +:+ name)
          else
            match value, rest with
            | Some v, _ => parse_flags known (<[name := v]> acc) rest
            | None, v :: rest => parse_flags known (<[name := v]> acc) rest
            | None, [] => inl ("flag needs an argument: -" +:+ name)
            end
      end
  end.

(** The flags of [run]; the image is printed and not used. *)
Record RunFlags := mkRunFlags {
  runSocket : string;
  runDockerSocket : string;
  runStateDir : string;
  runPolicyDir : string;
  runCaDir : string;
  runSidecarImage : string;
}.

Definition flag_names : list string :=
  ["socket"; "docker-socket"; "state-dir"; "policy-dir"; "ca-dir"; "proxy-sidecar-image"].

Definition parse_args (args : list string) : string + RunFlags :=
  match parse_flags flag_names ∅ args with
  | inl e => inl e
  | inr m =>
      let get k := default "" (m !! k) in
      inr (mkRunFlags (get "socket") (get "docker-socket") (get "state-dir") (get "policy-dir")
             (get "ca-dir") (get "proxy-sidecar-image"))
  end.

Example parse_args_examples :
  (parse_args ["-socket"; "/s"; "--ca-dir=/ca"; "-socket="; "rest"; "-x"],
   parse_args ["-x"], parse_args ["-socket"], parse_args ["--"; "-x"], parse_args ["-=a"],
   parse_args ["-h"])
  = (inr (mkRunFlags "" "" "" "" "/ca" ""), inl "flag provided but not defined: -x",
     inl "flag needs an argument: -socket", inr (mkRunFlags "" "" "" "" "" ""),
     inl "bad flag syntax: -=a", inl "flag: help requested").
Proof. by vm_compute. Qed.

(** ** The process *)

Section Run.
Context `{World, UrlErrors, JsonErrors, UnicodeFold, MapOrder, TimeFormat, Pem}.

(** The configuration that [run] builds from the flags and its environment. *)
Definition main_config (home sidecarBin : string) (f : RunFlags) : DaemonConfig :=
  mkDaemonConfig
    (if decide (runSocket f = "") then Join [home; ".config"; "sbxsandbox"; "sbxsandbox.sock"]
     else runSocket f)
    (runPolicyDir f) (runCaDir f) (runDockerSocket f)
    (if decide (runStateDir f = "") then Join [home; ".local"; "state"; "sbxsandbox"]
     else runStateDir f)
    "" "containifyci/proxy-sidecar:latest" sidecarBin None.

(** The requests that arrive before the signal. *)
Definition serve_all (reqs : list ApiRequest) : M Daemon unit :=
  for_each reqs (λ r, match route r with Some h => h;; mret () | None => mret () end).

(** [d.Start()], the requests, [d.Stop()]. *)
Definition session (reqs : list ApiRequest) : M Daemon error :=
  err ← StartDaemon;
  match err with
  | Some e => mret (Some ("failed to start daemon: " +:+ e))
  | None => serve_all reqs;; StopDaemon;; mret None
  end.

(** A session on the daemon that was just made. *)
Definition session_of {S} (d : Daemon) (reqs : list ApiRequest) : M S (string + Daemon) :=
  λ s tr, let '(err, d', tr') := session reqs d tr in
          (match err with Some e => inl e | None => inr d' end, s, tr').

(** [run]; the daemon as it is at the end takes the place of a nil error. *)
Definition run {S} (args : list string) (reqs : list ApiRequest) : M S (string + Daemon) :=
  match parse_args args with
  | inl e => mret (inl e)
  | inr f =>
      home ←[String.append "cannot determine home directory: "] call UserHomeDir;
      bin ← call (Getenv "PROXY_SIDECAR_BIN");
      d ←[String.append "failed to initialize daemon: "] NewDaemon (main_config home bin f);
      session_of d reqs
  end.
End Run.

(** ** What start-up writes *)

(** Files are written at these paths only. *)
Definition writes_in (paths : list string) (e : Ext) : Prop :=
  match e with WriteFile p _ _ => p ∈ paths | _ => True end.

Section StartUp.
Context `{World, Pem}.

Lemma no_write_in paths e : no_write e → writes_in paths e.
Proof. intros He. destruct e; try done. exfalso. by eapply He. Qed.

Lemma writes_mono ps qs tr :
  ps ⊆ qs → Forall (writes_in ps) tr → Forall (writes_in qs) tr.
Proof. intros Hsub Hps. eapply Forall_impl; [exact Hps|]. intros []; cbn; auto. Qed.

Lemma quiet_writes {S A} paths (m : M S A) : quiet m → only (writes_in paths) m.
Proof.
  intros [_ Ho] s tr. destruct (Ho s tr) as (new & Ht & Hn). exists new. split; [done|].
  eapply Forall_impl; [exact Hn|apply no_write_in].
Qed.

Lemma quiet_loadCA {S} m : quiet (loadCA m : M S _).
Proof. unfold loadCA, fail. quiet. Qed.

Lemma quiet_createCA {S} m : quiet (createCA m : M S _).
Proof.
  unfold createCA, fail. do 2 (apply quiet_try; [quiet|intros ?]).
  do 2 (apply quiet_bind; [quiet|intros ?]). cbv zeta. quiet.
Qed.

(** [quiet] in a run. *)
Lemma quiet_run {S A} paths (m : M S A) s tr x s' tr' :
  quiet m → m s tr = (x, s', tr') →
  s' = s ∧ ∃ new, tr' = tr ++ new ∧ Forall (writes_in paths) new.
Proof.
  intros Hq Hrun. destruct (quiet_writes paths m Hq s tr) as (new & Ht & Hn).
  destruct Hq as [Hk _]. specialize (Hk s tr). unfold state_after, trace_after in *.
  rewrite Hrun in Hk, Ht. cbn in Hk, Ht. split; [done|]. by exists new.
Qed.

Lemma loadCA_paths {S} m (s : S) tr m' s' tr' :
  loadCA m s tr = (inr m', s', tr') → certPath m' = certPath m ∧ keyPath m' = keyPath m.
Proof.
  unfold loadCA, fail. intros Hrun.
  rewrite try_run, call_run in Hrun. destruct (answer tr _) as [|cp]; [done|].
  rewrite try_run, call_run in Hrun. destruct (answer _ _) as [|kp]; [done|].
  destruct (pem_decode cp) as [cert|]; [|done]. rewrite bind_run, call_run in Hrun.
  destruct (answer _ _); [done|]. destruct (pem_decode kp) as [der|]; [|done].
  rewrite try_run, call_run in Hrun. destruct (answer _ _); [done|].
  rewrite ret_run in Hrun. by injection Hrun as <- _ _.
Qed.

(** The paths of the manager do not change while its CA is opened, and only
    they are written. *)
Lemma openCA_writes {S} m (s : S) tr m' s' tr' :
  openCA m s tr = (inr m', s', tr') →
  certPath m' = certPath m ∧ keyPath m' = keyPath m ∧
  ∃ new, tr' = tr ++ new ∧ Forall (writes_in [certPath m; keyPath m]) new.
Proof.
  unfold openCA. rewrite bind_run. set (ps := [certPath m; keyPath m]).
  destruct (loadCA m s tr) as [[[e|m1] s1] t1] eqn:Hl;
    destruct (quiet_run ps _ _ _ _ _ _ (quiet_loadCA m) Hl) as (_ & n1 & -> & H1').
  - rewrite try_run. destruct (createCA m s1 _) as [[[e2|m2] s2] t2] eqn:Hc; [done|].
    destruct (quiet_run ps _ _ _ _ _ _ (quiet_createCA m) Hc) as (_ & n2 & -> & H2').
    apply createCA_run in Hc as (der & key & kb & _ & _ & _ & _ & -> & _).
    unfold saveCA. cbn [certPath keyPath caCertPEM caKeyPEM]. rewrite !bind_run, !call_run.
    destruct (answer _ _); [done|]. rewrite call_run. destruct (answer _ _); [done|].
    rewrite ret_run. intros [= <- _ <-]. split; [done|]. split; [done|].
    eexists (n1 ++ n2 ++ [_; _]). split; [by rewrite <- !(assoc_L (++))|].
    rewrite !Forall_app. split_and!; [done..|]. repeat constructor; set_solver.
  - rewrite ret_run. intros [= <- _ <-]. apply loadCA_paths in Hl as [-> ->].
    split; [done|]. split; [done|]. by exists n1.
Qed.

Lemma NewCACertManager_writes {S} dir (s : S) tr m s' tr' :
  NewCACertManager dir s tr = (inr m, s', tr') →
  ∃ new, tr' = tr ++ new ∧ Forall (writes_in [certPath m; keyPath m]) new.
Proof.
  unfold NewCACertManager, NewCACertManagerWithKeySize, fail. rewrite bind_run.
  set (pick := (if decide (dir = "") then _ else _) : M S _).
  assert (quiet pick) as Hq by (unfold pick; quiet).
  destruct (pick s tr) as [[[e|d] s1] t1] eqn:Hp; [done|]. rewrite bind_run, call_run.
  destruct (answer t1 _); [done|]. intros Hopen.
  apply openCA_writes in Hopen as (-> & -> & n2 & -> & H2').
  cbn [certPath keyPath] in *.
  destruct (quiet_run [Join [d; "ca-cert.pem"]; Join [d; "ca-key.pem"]] _ _ _ _ _ _ Hq Hp)
    as (_ & n1 & -> & H1').
  exists (n1 ++ [MkdirAll d 448] ++ n2). rewrite !Forall_app. split_and!; try done.
  - by rewrite <- !(assoc_L (++)).
  - by repeat constructor.
Qed.

Lemma NewEngine_writes {S} dir (s : S) tr pol s' tr' :
  NewEngine dir s tr = (inr pol, s', tr') →
  ∃ new, tr' = tr ++ new ∧ Forall (writes_in [policyPath pol]) new.
Proof.
  unfold NewEngine, check. rewrite try_run.
  set (pick := (if decide (dir = "") then _ else _) : M S _).
  assert (quiet pick) as Hq by (unfold pick; quiet).
  destruct (pick s tr) as [[[e|d] s1] t1] eqn:Hp; [done|]. rewrite bind_run, call_run.
  destruct (answer t1 _); [done|]. cbv zeta. rewrite then_ret_run.
  unfold state_after, trace_after, zoom. rewrite save_run. cbn [fst snd].
  intros [= <- _ <-]. cbn [policyPath set_rules].
  destruct (quiet_run [Join [d; "rules.json"]] _ _ _ _ _ _ Hq Hp) as (_ & n1 & -> & H1').
  eexists (n1 ++ [_; _]). split; [by rewrite <- !(assoc_L (++))|].
  apply Forall_app. split; [done|]. repeat constructor.
Qed.
End StartUp.

(** ** Restarting *)

Section Restart.
Context `{World, UrlErrors, JsonErrors, UnicodeFold, MapOrder, TimeFormat, Pem}.

Lemma quiet_first_socket {S} l : quiet (first_socket l : M S _).
Proof. induction l as [|p l IH]; cbn [first_socket]; quiet. Qed.

Lemma quiet_detect {S} cfgSocket : quiet (detectDockerSocket cfgSocket : M S _).
Proof.
  pose proof @quiet_first_socket. unfold detectDockerSocket, DetectSocket, perUserSocket. quiet.
Qed.

Lemma loadState_sets d tr :
  let d' := state_after loadState d tr in d' = set_sandboxes (λ _, sandboxes d') d.
Proof.
  cbv zeta. unfold state_after, loadState. rewrite bind_run, get_run, bind_run, call_run.
  destruct (answer tr _) as [e|b]; [by destruct d|]. by destruct (Unmarshal b ≫= _); destruct d.
Qed.

(** The files that start-up writes. *)
Definition startup_files (d : Daemon) : list string :=
  [policyPath (dPolicy d); certPath (Daemon.ca d); keyPath (Daemon.ca d)].

(** A new daemon is what [loadState] makes of one without sandboxes, and what
    was written before that are its policy and its CA; a CA that was handed
    over is not written. *)
Lemma NewDaemon_loads {S} c (s : S) tr d s' tr' :
  NewDaemon c s tr = (inr d, s', tr') →
  ∃ new, Forall (writes_in (startup_files d)) new ∧
    d = state_after loadState (set_sandboxes (λ _, ∅) d) (tr ++ new) ∧
    dSocketPath d = SocketPath c ∧ ProxySidecarImage (cfg d) = ProxySidecarImage c.
Proof.
  unfold NewDaemon. rewrite bind_run, call_run. cbv zeta.
  set (c1 := with_dirs _ c). rewrite bind_run, call_run. destruct (answer _ (MkdirAll _ _)); [done|].
  rewrite try_run. set (t0 := (tr ++ _) ++ _).
  set (open_ca := (match ConfigCA c1 with Some m => mret (inr m)
                   | None => NewCACertManager (CACertDir c1) end) : M S (string + CACertManager)).
  destruct (open_ca s t0) as [[[e|m] s1] t1] eqn:Hca; [done|]. unfold open_ca in Hca.
  assert (∃ n1, t1 = t0 ++ n1 ∧ Forall (writes_in [certPath m; keyPath m]) n1) as (n1 & -> & H1').
  { destruct (ConfigCA c1); [|by eapply NewCACertManager_writes].
    rewrite ret_run in Hca. injection Hca as <- _ <-. exists []. by rewrite (right_id_L [] (++)). }
  rewrite try_run. destruct (NewEngine _ s1 _) as [[[e|pol] s2] t2] eqn:Hpol; [done|].
  apply NewEngine_writes in Hpol as (n2 & -> & H2'). rewrite bind_run.
  destruct (detectDockerSocket _ s2 _) as [[sock s3] t3] eqn:Hsock. rewrite bind_run.
  destruct (quiet_run (startup_files d) _ _ _ _ _ _ (quiet_detect (DockerSocket c1)) Hsock)
    as (_ & n3 & -> & H3').
  unfold with_loaded. set (d0 := mkDaemon _ _ _ _ _ _ _ _ _).
  set (t3 := _ ++ n3). pose proof (loadState_sets d0 t3) as Hd. unfold state_after in Hd.
  destruct (loadState d0 t3) as [[u d1] t4] eqn:Hload. rewrite ret_run. intros [= -> _ _].
  cbv zeta in Hd. cbn [fst snd] in Hd.
  assert (startup_files d = [policyPath pol; certPath m; keyPath m]) as Hfiles by (by rewrite Hd).
  assert (set_sandboxes (λ _, ∅) d = d0) as -> by (by rewrite Hd).
  exists ([UserHomeDir; MkdirAll (StateDir c1) 448] ++ n1 ++ n2 ++ n3).
  replace (tr ++ _) with t3 by (unfold t3, t0; by rewrite <- !(assoc_L (++))).
  split_and!; [|unfold state_after; by rewrite Hload|by rewrite Hd..].
  rewrite Hfiles in *. rewrite !Forall_app. split_and!; [by repeat constructor| | |done].
  - eapply writes_mono; [|exact H1']. set_solver.
  - eapply writes_mono; [|exact H2']. set_solver.
Qed.

(** *** Sessions *)

Lemma StartDaemon_state d tr :
  ∃ path up, state_after StartDaemon d tr = set_server path up d.
Proof.
  unfold state_after, StartDaemon. rewrite bind_run, get_run, bind_run.
  destruct (decide (dSocketPath d = "")); cbn [dSocketPath];
    [rewrite bind_run, call_run|]; rewrite ret_run, bind_run, modify_run, bind_run, call_run;
    (destruct (answer _ (MkdirAll _ _)); [by eexists _, _|]);
    rewrite bind_run, call_run, bind_run, call_run;
    (destruct (answer _ (ListenUnix _)); [by eexists _, _|]);
    rewrite bind_run, call_run; by eexists _, _.
Qed.

(** A session that ends well: the daemon after it is the one that stopped, and
    saving it was the last write. *)
Lemma session_stops reqs d tr d' tr' :
  session reqs d tr = (None, d', tr') →
  last_write (state_path d') tr' = Some (marshal_indent (sandboxes_json (sandboxes d'))) ∧
  (reqs = [] → ∃ path up, d' = set_server path up d).
Proof.
  unfold session. rewrite bind_run. destruct (StartDaemon_state d tr) as (path & up & Hd).
  unfold state_after in Hd. destruct (StartDaemon d tr) as [[[e|] d1] t1]; [done|].
  cbn in Hd. subst d1. rewrite bind_run.
  destruct (serve_all reqs _ t1) as [[u d2] t2] eqn:Hserve. rewrite then_ret_run.
  unfold state_after, trace_after. rewrite StopDaemon_run. cbv zeta. cbn [fst snd].
  intros [= <- <-]. split.
  - case_decide; [by rewrite last_write_app; unfold last_write; cbn; rewrite decide_True|].
    rewrite !last_write_app. unfold last_write. cbn. by rewrite decide_True.
  - intros ->. cbn in Hserve. injection Hserve as _ <- _. by eexists _, _.
Qed.

(** The end of a run that succeeds. *)
Lemma run_inv {S} args reqs (s : S) tr d s' tr' :
  run args reqs s tr = (inr d, s', tr') →
  ∃ f home bin d0 t1, parse_args args = inr f ∧
    NewDaemon (main_config home bin f) s ((tr ++ [UserHomeDir]) ++ [Getenv "PROXY_SIDECAR_BIN"])
    = (inr d0, s', t1) ∧
    session reqs d0 t1 = (None, d, tr').
Proof.
  unfold run. destruct (parse_args args) as [e|f]; [done|].
  rewrite try_run, call_run. destruct (answer tr UserHomeDir) as [e|home]; [done|].
  rewrite bind_run, call_run, try_run.
  destruct (NewDaemon _ s _) as [[[e|d0] s1] t1] eqn:Hnew; [done|].
  unfold session_of. destruct (session reqs d0 t1) as [[[e|] d1] t2] eqn:Hs; [done|].
  intros [= <- <- <-]. by eexists f, home, _, d0, t1.
Qed.

Lemma writes_apart path ps tr :
  path ∉ ps → Forall (writes_in ps) tr →
  Forall (λ e, ∀ data perm, e ≠ WriteFile path data perm) tr.
Proof.
  intros Hp Hps. eapply Forall_impl; [exact Hps|]. intros e He data perm ->. by apply Hp.
Qed.

(** C16. Restarting the process keeps the sandboxes: whatever requests the first
    one has served until it was told to stop, one that is started again on the
    same state directory has exactly its sandboxes, as long as the last write of
    the state file succeeded, nothing else wrote it and the policy and the CA
    live in other files. *)
Theorem restart_keeps_sandboxes `{!FilesKept, !TimeFormatOk} args args' reqs tr d tr1 new d' tr2
    (Hfirst : run args reqs () tr = (inr d, (), tr1))
    (Hsecond : run args' [] () (tr1 ++ new) = (inr d', (), tr2))
    (Hwrite : write_ok (state_path d) tr1)
    (Hnew : Forall (λ e, ∀ data perm, e ≠ WriteFile (state_path d) data perm) new)
    (Hdir : stateDir d' = stateDir d) (Hapart : state_path d' ∉ startup_files d')
    (Htexts : state_text_ok (sandboxes d)) :
  sandboxes d' = sandboxes d.
Proof.
  apply run_inv in Hfirst as (_ & _ & _ & d1 & t & _ & _ & Hfirst).
  apply session_stops in Hfirst as [Hsaved _].
  apply run_inv in Hsecond as (f & home & bin & d0 & t1 & _ & Hload & Hsecond).
  apply session_stops in Hsecond as [_ Hd]. destruct (Hd eq_refl) as (path & up & ->).
  apply NewDaemon_loads in Hload as (n & Hn & Hd0 & _).
  assert (state_path d0 = state_path d) as Hpath by (unfold state_path; by rewrite <- Hdir).
  change (sandboxes (set_server path up d0)) with (sandboxes d0). rewrite Hd0.
  assert (last_write (state_path d) n = None) as Hn0.
  { apply last_write_none, (writes_apart _ (startup_files d0)); [|done]. by rewrite <- Hpath. }
  assert (last_write (state_path d) new = None) as Hnew0 by by apply last_write_none.
  rewrite (loadState_read (set_sandboxes (λ _, ∅) d0) _ (state_path d) (sandboxes d) Hpath Htexts);
    [done| |].
  - rewrite <- !(assoc_L (++)). apply write_ok_app; [|done].
    by rewrite !last_write_app, Hn0, Hnew0.
  - by rewrite !last_write_app, Hn0, Hnew0.
Qed.

(** The flag [-proxy-sidecar-image] has no effect: the configuration names a
    built-in image. *)
Theorem sidecar_image_ignored {S} args args' reqs f image (s : S) tr
    (Hf : parse_args args = inr f)
    (Hf' : parse_args args' = inr (mkRunFlags (runSocket f) (runDockerSocket f) (runStateDir f)
             (runPolicyDir f) (runCaDir f) image)) :
  run args' reqs s tr = run args reqs s tr.
Proof. unfold run. by rewrite Hf, Hf'. Qed.
End Restart.

(** ** Concrete instances *)

#[local] Instance demo_world : World := with_files quiet_world.
#[local] Instance demo_kept : FilesKept := with_files_kept quiet_world.
#[local] Instance demo_url_errors : UrlErrors := λ u, "parse " +:+ u.
#[local] Instance demo_json_errors : JsonErrors := λ t _, "invalid " +:+ t.
#[local] Instance demo_folding : UnicodeFold := no_unicode_folding.
#[local] Instance demo_order : MapOrder := some_order.
#[local] Instance demo_times : TimeFormat := ns_format.
#[local] Instance demo_pem : Pem := plain_pem.

Definition demo_args : list string := ["-state-dir"; "/s"; "--ca-dir=/ca"; "-policy-dir"; "/p"].

(** A client creates a sandbox and lists what there is. *)
Definition demo_requests : list ApiRequest :=
  [mkApiRequest "POST" ["runtime"]
     (marshal (JObj [("spec", JObj [("RuntimeName", JStr "box"); ("WorkspaceDir", JStr "/w")])]));
   mkApiRequest "GET" ["runtime"] []].

Definition demo_box : SandboxState :=
  mkSandboxState "box-0" "box" "shell" "" "/w" "" false "pending-sidecar" 0 ∅ [].

Lemma restart_keeps_sandboxes_witness :
  ∃ d d' tr1 tr2, run demo_args demo_requests () [] = (inr d, (), tr1) ∧
    run demo_args [] () tr1 = (inr d', (), tr2) ∧
    sandboxes d = {["box" := demo_box]} ∧ sandboxes d' = sandboxes d.
Proof.
  assert (match (run demo_args demo_requests () []).1.1 with
          | inr d => sandboxes d = {["box" := demo_box]} ∧ state_path d = "/s/sandboxes.json" ∧
              stateDir d = "/s"
          | inl _ => False end) as H1 by (vm_compute; auto).
  assert (match (run demo_args [] () (run demo_args demo_requests () []).2).1.1 with
          | inr d => stateDir d = "/s" ∧
              startup_files d = ["/p/rules.json"; "/ca/ca-cert.pem"; "/ca/ca-key.pem"]
          | inl _ => False end) as H2 by (vm_compute; auto).
  destruct (run demo_args demo_requests () []) as [[[e|d] []] tr1] eqn:E1; [destruct H1|].
  destruct (run demo_args [] () ((inr d : string + Daemon, (), tr1)).2) as [[[e|d'] []] tr2] eqn:E2;
    [destruct H2|].
  destruct H1 as (Hd & Hp & Hs), H2 as (Hs' & Hf).
  exists d, d', tr1, tr2. split; [reflexivity|]. split; [exact E2|]. split; [exact Hd|].
  apply (restart_keeps_sandboxes demo_args demo_args demo_requests [] d tr1 [] d' tr2 E1).
  - rewrite app_nil_r. exact E2.
  - intros pre data perm post _ _. reflexivity.
  - constructor.
  - congruence.
  - rewrite Hf. unfold state_path. rewrite Hs'. vm_compute.
    intros H. repeat (apply elem_of_cons in H as [H|H]; [discriminate|]).
    apply elem_of_nil in H. destruct H.
  - rewrite Hd. apply map_Forall_singleton. split; [reflexivity|].
    split; [repeat constructor|]. split; [apply map_Forall_empty|]. split; reflexivity.
Defined.

Lemma sidecar_image_ignored_witness :
  run ("-proxy-sidecar-image=mine" :: demo_args) [] () [] = run demo_args [] () [].
Proof.
  apply (sidecar_image_ignored demo_args _ [] (mkRunFlags "" "" "/s" "/p" "/ca" "") "mine");
    vm_compute; reflexivity.
Defined.
