(* ===== verification/Runtime.v ===== *)
(** * The life cycle of a sandbox

    What clients of the daemon's API may rely on: creating, reading, starting,
    stopping and deleting sandboxes, against an engine that answers anything. *)
From S2P Require Export Persistence.

Section Runtime.
Context `{World, UrlErrors, JsonErrors, UnicodeFold, MapOrder, TimeFormat}.
Implicit Types (d : Daemon) (tr : trace).

(** ** Calls *)

(** Removing a container is the one request with method [DELETE]. *)
Definition removal (e : Ext) : Prop :=
  match e with HttpDo r => req_method r = "DELETE" | _ => False end.

Definition keeps_containers {S A} (m : M S A) : Prop := only (λ e, ¬ removal e) m.

Ltac other_call := cbn; (discriminate || tauto).

Ltac calls :=
  repeat first
    [ apply only_ret | apply only_get | apply only_modify
    | refine (only_call _ _ _); other_call
    | apply only_new_request | apply only_do; other_call
    | apply only_exchange; other_call | apply only_http_get; other_call
    | apply only_try | apply only_bind | apply only_for_each
    | match goal with
      | |- only _ (if ?b then _ else _) => destruct b
      | |- only _ (match ?x with _ => _ end) => destruct x
      end
    | progress intros ].

Lemma keeps_containers_Create {S} m image args env name :
  keeps_containers (CreateContainer m image args env name : M S _).
Proof. apply only_CreateContainer; cbn; (discriminate || (intros; discriminate || tauto)). Qed.

Lemma keeps_containers_Start {S} m id : keeps_containers (StartContainer m id : M S _).
Proof. unfold keeps_containers, StartContainer. calls. Qed.

Lemma keeps_containers_Stop {S} m id : keeps_containers (StopContainer m id : M S _).
Proof. unfold keeps_containers, StopContainer. calls. Qed.

Lemma keeps_containers_save : keeps_containers saveState.
Proof. unfold keeps_containers, saveState. calls. Qed.

Lemma keeps_containers_secrets : keeps_containers propagateSecretsToSidecars.
Proof.
  unfold keeps_containers, propagateSecretsToSidecars, propagateToSidecars, propagateTo,
    execInContainer, RunCmd, ListContainers. calls.
Qed.

(** ** Starting *)

(** The daemon once the sandbox's secrets are the current ones. *)
Definition use_secrets (s : SandboxState) d : Daemon :=
  if decide (sbSecrets s = []) then d else set_secrets (mkSecretManager (sbSecrets s)) d.

(** What follows a successful creation. *)
Definition after_start (name cid : string) (s : SandboxState) : M Daemon Reply :=
  modify (set_sandboxes (insert name (started name cid s)));;
  saveState;;
  push_secrets;;
  mret (start_reply cid).

Lemma set_own_secrets_run s d tr : set_own_secrets s d tr = ((), use_secrets s d, tr).
Proof. unfold set_own_secrets, use_secrets. by destruct (decide (sbSecrets s = [])). Qed.

Lemma use_secrets_sandboxes s d : sandboxes (use_secrets s d) = sandboxes d.
Proof. unfold use_secrets. by case_decide. Qed.

Lemma use_secrets_cm s d : cm (use_secrets s d) = cm d.
Proof. unfold use_secrets. by case_decide. Qed.

Lemma start_run name s d tr :
  name ≠ "" → sandboxes d !! name = Some s → sbRunning s = false →
  handleStartRuntime name d tr =
  let '(r, d', tr') :=
    createAndStartContainer (start_config (use_secrets s d) name s) (use_secrets s d) tr in
  match r with
  | inl e => (writeError 500 ("container create failed: " +:+ e), d', tr')
  | inr cid => after_start name cid s d' tr'
  end.
Proof.
  intros Hn Hs Hrun. unfold handleStartRuntime. rewrite decide_False by done.
  rewrite bind_run, get_run, Hs, Hrun, bind_run, set_own_secrets_run.
  cbv beta iota. rewrite bind_run, get_run, bind_run.
  by destruct (createAndStartContainer _ (use_secrets s d) tr) as [[[e|cid] d'] tr'].
Qed.

Lemma createAndStart_state c d tr : state_after (createAndStartContainer c) d tr = d.
Proof. symmetry. apply (quiet_createAndStart c). Qed.

Lemma keeps_containers_push : keeps_containers push_secrets.
Proof.
  apply only_bind; [apply only_get|]. intros d.
  destruct (decide _); [apply only_ret|apply keeps_containers_secrets].
Qed.

Lemma after_start_spec name cid s d tr :
  let r := after_start name cid s d tr in
  status r.1.1 = 200%Z ∧ sandboxes r.1.2 = <[name := started name cid s]> (sandboxes d) ∧
  cm r.1.2 = cm d ∧ ∃ new, r.2 = tr ++ new ∧ Forall (λ e, ¬ removal e) new.
Proof.
  cbv zeta. unfold after_start. rewrite bind_run, modify_run, bind_run.
  set (d1 := set_sandboxes _ d).
  change (saveState d1 tr) with ((), d1, trace_after saveState d1 tr). cbv beta iota.
  destruct (keeps_containers_save d1 tr) as (n1 & -> & H1').
  destruct (keeps_containers_push d1 (tr ++ n1)) as (n2 & Ht & H2').
  destruct quiet_push_secrets as [Hq _]. specialize (Hq d1 (tr ++ n1)).
  unfold state_after, trace_after in Hq, Ht. rewrite bind_run.
  destruct (push_secrets d1 (tr ++ n1)) as [[[] d2] t2]. cbn in Hq, Ht. subst d2 t2.
  rewrite ret_run. split_and!; [done..|].
  exists (n1 ++ n2). by rewrite (assoc_L (++)), Forall_app.
Qed.

Definition create_call (name : string) (j : Json) : Ext := post_json_call (create_url name) j.
Definition start_call (cid : string) : Ext :=
  HttpDo (mkHttpRequest "POST" (container_url cid "/start") json_headers []).

(** In the calls [tr'] that follow [tr], the engine created a container of that
    name and then started it, [cid] being the identifier it gave. *)
Definition created_and_started (name cid : string) tr tr' : Prop :=
  ∃ new j resp resp' r,
    tr' = (tr ++ new) ++ [create_call name j; start_call cid] ∧
    Forall (λ e, ¬ removal e) new ∧
    answer (tr ++ new) (create_call name j) = inr resp ∧ StatusCode resp ∈ [201; 200]%Z ∧
    BodyJson resp ≫= dec_create (mkCreateResp "" []) = Some r ∧ createID r = cid ∧
    answer ((tr ++ new) ++ [create_call name j]) (start_call cid) = inr resp' ∧
    StatusCode resp' ∈ [204; 200; 304]%Z.

(** What comes before the creation removes nothing. *)
Lemma prepare_new {S} m image (s : S) tr t1 t2 ca t3 :
  network_ready m tr t1 → image_ready image t1 t2 → readCA s t2 = (ca, s, t3) →
  ∃ new, t3 = tr ++ new ∧ Forall (λ e, ¬ removal e) new.
Proof.
  intros Hn Hi Hr.
  assert (∃ n1, t1 = tr ++ n1 ∧ Forall (λ e, ¬ removal e) n1) as (n1 & -> & H1').
  { destruct Hn as (resp & _ & [[_ ->]|(r & _ & _ & ->)]); eexists; (split; [done|]);
      repeat constructor; discriminate. }
  assert (∃ n2, t2 = (tr ++ n1) ++ n2 ∧ Forall (λ e, ¬ removal e) n2) as (n2 & -> & H2').
  { destruct Hi as [(resp & _ & _ & ->)|(pre & resp & Hpre & _ & _ & ->)];
      [eexists; (split; [done|]); repeat constructor; discriminate|].
    eexists. split; [done|]. apply Forall_app. split; [|repeat constructor; discriminate].
    apply elem_of_cons in Hpre as [->|Hx]; [constructor|].
    apply list_elem_of_singleton in Hx as ->. repeat constructor; discriminate. }
  destruct (only_readCA (St := S) (λ e, ¬ removal e) (λ _, id) (λ _, id) s ((tr ++ n1) ++ n2))
    as (n3 & Ht & H3'). unfold trace_after in Ht. rewrite Hr in Ht. cbn in Ht. subst t3.
  exists (n1 ++ n2 ++ n3). rewrite !Forall_app. by rewrite !(assoc_L (++)).
Qed.

Lemma createAndStart_ok c d tr cid d' tr' :
  createAndStartContainer c d tr = (inr cid, d', tr') →
  created_and_started (cfgName c) cid tr tr'.
Proof.
  unfold createAndStartContainer. rewrite bind_run, get_run, try_run.
  destruct (CreateContainer _ _ _ _ _ d tr) as [[[e|ct] d1] t1] eqn:E; [done|].
  apply CreateContainer_inv in E as (-> & u1 & u2 & u3 & caText & resp & r & Hn & Hi & Hr & E).
  destruct (prepare_new _ _ _ _ _ _ _ _ Hn Hi Hr) as (new & -> & Hnew).
  destruct E as (-> & Ha & Hst & Hdec & ->). rewrite try_run. cbn [ID].
  unfold StartContainer.
  match goal with |- context [try_bind id (exchange ?a ?b ?c ?e ?f ?g) ?k ?s ?t] =>
    destruct (try_bind id (exchange a b c e f g) k s t) as [[[e'|[]] d2] t2] eqn:E2 end; [done|].
  apply unit_exchange_ok in E2 as (-> & -> & _ & resp' & Ha' & Hst').
  rewrite ret_run. intros [= <- <- <-].
  exists new, (create_request (cm d) (cfgImage c) sandbox_args
(sandbox_env c) caText), resp, resp', r.
  split_and!; try done. by rewrite <- (assoc_L (++) (tr ++ new)).
Qed.

(** The engine gives a name to one container at a time: while a container it
    created has not been removed, it creates no other of that name. *)
Class NamesUnique : Prop :=
  names_unique tr new name j j' resp :
    answer tr (create_call name j) = inr resp → StatusCode resp ∈ [201; 200]%Z →
    Forall (λ e, ¬ removal e) new →
    match answer (tr ++ create_call name j :: new) (create_call name j') with
    | inl _ => True
    | inr resp' => StatusCode resp' = 409%Z
    end.

(** C20. Starting a sandbox.  An unknown one is 404, a running one 409, both
    without a call or a change.  For any other, either the reply is 200, and
    then a new container was created for it and started in this very request,
    and is what the sandbox now runs in; or the reply is 500 and no sandbox
    changes: a container that was created and did not start is forgotten. *)
Theorem start_outcome name d tr (Hname : name ≠ "") :
  let '(reply, d', tr') := handleStartRuntime name d tr in
  match sandboxes d !! name with
  | None => status reply = 404%Z ∧ d' = d ∧ tr' = tr
  | Some s =>
      if sbRunning s then status reply = 409%Z ∧ d' = d ∧ tr' = tr
      else
        (status reply = 200%Z ∧ ∃ cid t, created_and_started name cid tr t ∧ t `prefix_of` tr' ∧
           sandboxes d' = <[name := started name cid s]> (sandboxes d)) ∨
        (status reply = 500%Z ∧ sandboxes d' = sandboxes d)
  end.
Proof.
  destruct (sandboxes d !! name) as [s|] eqn:Hs;
    [destruct (sbRunning s) eqn:Hrun|]; cycle 1.
  - rewrite (start_run name s) by done.
    pose proof (createAndStart_state (start_config (use_secrets s d) name s) (use_secrets s d) tr) as Hst.
    unfold state_after in Hst.
    destruct (createAndStartContainer _ _ tr) as [[[e|cid] d1] tr1] eqn:E; cbn in Hst; subst d1.
    { right. by rewrite use_secrets_sandboxes. }
    pose proof (after_start_spec name cid s (use_secrets s d) tr1) as Ha. cbv zeta in Ha.
    destruct (after_start _ _ _ _ tr1) as [[rep d'] tr']. cbn [fst snd] in Ha.
    destruct Ha as (Hrep & Hd & _ & new & -> & _). left. split; [done|].
    exists cid, tr1. split; [by apply createAndStart_ok in E|]. split; [by eexists|].
    by rewrite Hd, use_secrets_sandboxes.
  - unfold handleStartRuntime. rewrite decide_False by done. by rewrite bind_run, get_run, Hs.
  - unfold handleStartRuntime. rewrite decide_False by done.
    by rewrite bind_run, get_run, Hs, Hrun.
Qed.

(** *** Stopping *)

Lemma keeps_containers_stop d s : keeps_containers (stop_container d s).
Proof.
  unfold stop_container. case_decide; [apply only_ret|].
  apply only_bind; [apply keeps_containers_Stop|]. intros. apply only_ret.
Qed.

Lemma stop_run name s d tr :
  name ≠ "" → sandboxes d !! name = Some s →
  ∃ new, Forall (λ e, ¬ removal e) new ∧
    handleStopRuntime name d tr =
    (writeHeader 204, set_sandboxes (insert name (stopped s)) d, tr ++ new).
Proof.
  intros Hn Hs. destruct (keeps_containers_stop d s d tr) as (n1 & Ht & H1').
  destruct (quiet_stop_container d s) as [Hq _]. specialize (Hq d tr).
  unfold state_after, trace_after in *. set (d' := set_sandboxes (insert name (stopped s)) d).
  exists (n1 ++ [WriteFile (state_path d') (marshal_indent (sandboxes_json (sandboxes d'))) 420]).
  split; [by apply Forall_app; split; [|repeat constructor; tauto]|].
  unfold handleStopRuntime. rewrite decide_False by done. rewrite bind_run, get_run, Hs, bind_run.
  destruct (stop_container d s d tr) as [[[] d1] t1]. cbn in Hq, Ht. subst d1 t1.
  rewrite bind_run, modify_run, then_ret_run. by rewrite (assoc_L (++)).
Qed.

(** The engine holds a container of that name, [tr] says. *)
Definition held (name : string) tr : Prop :=
  ∃ pre j resp post, tr = pre ++ create_call name j :: post ∧ Forall (λ e, ¬ removal e) post ∧
    answer pre (create_call name j) = inr resp ∧ StatusCode resp ∈ [201; 200]%Z.

Lemma held_app name tr new :
  held name tr → Forall (λ e, ¬ removal e) new → held name (tr ++ new).
Proof.
  intros (pre & j & resp & post & -> & Hp & Ha & Hst) Hn.
  exists pre, j, resp, (post ++ new). rewrite Forall_app. split_and!; try done.
  by rewrite <- (assoc_L (++)).
Qed.

Lemma start_ok_inv name d tr :
  name ≠ "" → status (result (handleStartRuntime name) d tr) = 200%Z →
  held name (trace_after (handleStartRuntime name) d tr) ∧
  ∃ s, sandboxes (state_after (handleStartRuntime name) d tr) !! name = Some s.
Proof.
  intros Hn. unfold result, trace_after, state_after.
  destruct (sandboxes d !! name) as [s|] eqn:Hs;
    [destruct (sbRunning s) eqn:Hrun|]; cycle 1.
  - rewrite (start_run name s) by done.
    destruct (createAndStartContainer _ _ tr) as [[[e|cid] d1] tr1] eqn:E; [done|].
    pose proof (after_start_spec name cid s d1 tr1) as Ha. cbv zeta in Ha.
    destruct (after_start _ _ _ _ tr1) as [[rep d'] tr']. cbn [fst snd] in Ha.
    destruct Ha as (_ & Hd & _ & new & -> & Hnew). intros _. cbn [fst snd]. split.
    + apply held_app; [|done].
      apply createAndStart_ok in E as (n & j & resp & resp' & r & -> & _ & Hc & Hst & _).
      exists (tr ++ n), j, resp, [start_call cid]. split_and!; try done.
      repeat constructor. discriminate.
    + rewrite Hd, lookup_insert_eq. by eexists.
  - unfold handleStartRuntime. rewrite decide_False by done. by rewrite bind_run, get_run, Hs.
  - unfold handleStartRuntime. rewrite decide_False by done.
    by rewrite bind_run, get_run, Hs, Hrun.
Qed.

Lemma start_held `{!NamesUnique} name s d tr :
  name ≠ "" → sandboxes d !! name = Some s → sbRunning s = false → held name tr →
  status (result (handleStartRuntime name) d tr) = 500%Z ∧
  sandboxes (state_after (handleStartRuntime name) d tr) = sandboxes d.
Proof.
  intros Hn Hs Hrun Hheld. unfold result, state_after. rewrite (start_run name s) by done.
  pose proof (createAndStart_state (start_config (use_secrets s d) name s) (use_secrets s d) tr) as Hst.
  unfold state_after in Hst.
  destruct (createAndStartContainer _ _ tr) as [[[e|cid] d1] tr1] eqn:E; cbn in Hst; subst d1;
    [cbn [fst snd]; by rewrite use_secrets_sandboxes|]. exfalso.
  apply createAndStart_ok in E as (n & j & resp & resp' & r & _ & Hnew & Hc & Hok & _).
  destruct (held_app name tr n Hheld Hnew) as (pre & j0 & resp0 & post & Heq & Hp & Ha & Hst).
  pose proof (names_unique pre post name j0 j resp0 Ha Hst Hp) as Hu.
  rewrite Heq in Hc. cbn [cfgName start_config] in Hc. rewrite Hc in Hu. rewrite Hu in Hok.
  by rewrite !elem_of_cons, elem_of_nil in Hok; destruct_or! Hok.
Qed.

(** C21. A sandbox that was started and stopped cannot be started again, as long
    as the engine refuses a second container of the same name: starting always
    creates a container, the stopped one is still there, and the request ends
    in 500 without a change of any sandbox.  (The container is only removed
    with the sandbox.) *)
Theorem restart_refused `{!NamesUnique} name d tr (Hname : name ≠ "")
    (Hstarted : status (result (handleStartRuntime name) d tr) = 200%Z) :
  let d1 := state_after (handleStartRuntime name) d tr in
  let t1 := trace_after (handleStartRuntime name) d tr in
  let d2 := state_after (handleStopRuntime name) d1 t1 in
  let t2 := trace_after (handleStopRuntime name) d1 t1 in
  (∃ s, sandboxes d2 !! name = Some s ∧ sbRunning s = false) ∧
  status (result (handleStartRuntime name) d2 t2) = 500%Z ∧
  sandboxes (state_after (handleStartRuntime name) d2 t2) = sandboxes d2.
Proof.
  intros d1 t1 d2 t2.
  destruct (start_ok_inv name d tr Hname Hstarted) as [Hheld (s & Hs)].
  fold t1 in Hheld. fold d1 in Hs.
  destruct (stop_run name s d1 t1 Hname Hs) as (new & Hnew & Hstop).
  set (s' := with_container (sbContainerID s) false (sbProxyAddr s) s) in Hstop.
  assert (d2 = set_sandboxes (insert name s') d1) as Hd2 by (unfold d2, state_after; by rewrite Hstop).
  assert (t2 = t1 ++ new) as Ht2 by (unfold t2, trace_after; by rewrite Hstop).
  assert (sandboxes d2 !! name = Some s') as Hs' by (rewrite Hd2; apply lookup_insert_eq).
  split; [by exists s'|]. apply (start_held name s'); try done. rewrite Ht2. by apply held_app.
Qed.

(** ** Creating and reading *)

(** C22. Creating a sandbox.  A body that does not decode and a missing name or
    workspace are refused with 400, a name that is taken with 409, without a call
    or a change.  Otherwise the reply is 201 with the new sandbox, which is all
    that changes: it has the name, agent ("shell" if none is given), image,
    workspace and secrets of the request, the times of the clock, no container
    and no labels.  Reading it gives the same text, and another request for its
    name is refused. *)
Theorem create_outcome body d tr :
  let '(reply, d', tr') := handleCreateRuntime body d tr in
  let refused code := status reply = code ∧ d' = d ∧ tr' = tr in
  match decode_request "CreateRuntimeRequest" zero_spec dec_create_request body with
  | inl _ => refused 400%Z
  | inr req =>
      let name := RuntimeName req in
      if decide (name = "" ∨ WorkspaceDir req = "") then refused 400%Z
      else
        match sandboxes d !! name with
        | Some _ => refused 409%Z
        | None =>
            let s := {| sbID := name +:+ "-" +:+ Sprintf_d (answer tr TimeNow);
                        sbName := name;
                        sbAgentName := if decide (AgentName req = "") then "shell" else AgentName req;
                        sbImage := SpecImage req;
                        sbWorkspace := WorkspaceDir req;
                        sbContainerID := "";
                        sbRunning := false;
                        sbProxyAddr := "pending-sidecar";
                        sbCreatedAt := answer (tr ++ [TimeNow]) TimeNow;
                        sbLabels := ∅;
                        sbSecrets := SpecSecrets req |} in
            reply = writeJSON 201 (sandbox_json s) ∧ d' = set_sandboxes (insert name s) d ∧
            tr' = tr ++ [TimeNow; TimeNow;
                         WriteFile (state_path d) (marshal_indent (sandboxes_json (<[name := s]> (sandboxes d)))) 420] ∧
            handleGetRuntime name d' tr' = (writeJSON 200 (sandbox_json s), d', tr') ∧
            ∀ body' req', decode_request "CreateRuntimeRequest" zero_spec dec_create_request body' = inr req' →
              RuntimeName req' = name → WorkspaceDir req' ≠ "" →
              handleCreateRuntime body' d' tr'
              = (writeError 409 ("sandbox already exists: " +:+ name), d', tr')
        end
  end.
Proof.
  unfold handleCreateRuntime at 1. destruct (decode_request _ _ _ body) as [e|r]; [done|].
  destruct (decide (RuntimeName r = "" ∨ WorkspaceDir r = "")) as [Hbad|Hgood].
  { case_decide; [done|]. case_decide; [done|]. by destruct Hbad. }
  rewrite !decide_False by tauto. rewrite bind_run, get_run.
  destruct (sandboxes d !! RuntimeName r) as [s|] eqn:Hs; [done|].
  rewrite !bind_run, call_run, bind_run, call_run, bind_run, modify_run, then_ret_run.
  cbv zeta. unfold new_sandbox. cbv zeta. cbn [sbName].
  change (state_after saveState ?x ?t) with x.
  change (trace_after saveState ?x ?t) with
    (t ++ [WriteFile (state_path x) (marshal_indent (sandboxes_json (sandboxes x))) 420]).
  set (st := mkSandboxState _ _ _ _ _ _ _ _ _ _ _). split_and!; [done|done| | |].
  - by rewrite <- !(assoc_L (++)).
  - unfold handleGetRuntime. rewrite decide_False by tauto. rewrite bind_run, get_run, ret_run.
    cbn [sandboxes set_sandboxes]. by rewrite lookup_insert_eq.
  - intros body' req Hdec' Hname Hws. unfold handleCreateRuntime. rewrite Hdec', Hname.
    rewrite decide_False, decide_False by tauto. rewrite bind_run, get_run.
    cbn [sandboxes set_sandboxes]. by rewrite lookup_insert_eq, ret_run.
Qed.

(** ** Deleting *)

Definition list_call : Ext := get_call "http://localhost/v1.54/containers/json?all=true".
Definition remove_call (cid : string) : Ext :=
  HttpDo (mkHttpRequest "DELETE" (container_url cid "?force=true&v=true") [] []).
Definition inspect_call (cid : string) : Ext := get_call (container_url cid "/json").

(** What the engine lists, asked after [tr]. *)
Definition lists d tr (l : list Container) : Prop := result (ListContainers (cm d)) d tr = inr l.

(** The first container of that name in a listing. *)
Definition first_named (l : list Container) (name : string) (c : Container) : Prop :=
  ∃ l1 l2, l = l1 ++ c :: l2 ∧ Name c = name ∧ Forall (λ x, Name x ≠ name) l1.

Lemma first_named_unique l name c c' : first_named l name c → first_named l name c' → c = c'.
Proof.
  intros (l1 & l2 & -> & Hc & Hl) (k1 & k2 & Heq & Hc' & Hk). revert k1 Heq Hk.
  induction Hl as [|x l1 Hx Hl IH]; intros k1 Heq Hk.
  - destruct Hk; cbn in Heq; injection Heq as ->; [done|by intros; subst].
  - destruct Hk as [|y k1 Hy Hk]; cbn in Heq; injection Heq as -> Heq; [done|by eapply IH].
Qed.

Lemma find_container_first l name c : find_container name l = Some c ↔ first_named l name c.
Proof.
  assert (∀ c, find_container name l = Some c → first_named l name c) as Hfind.
  { clear c. intros c. unfold find_container. destruct (list_find _ l) as [[i c0]|] eqn:Hf; [|done].
    intros [= ->]. apply list_find_Some in Hf as (Hi & Hname & Hbefore).
    exists (take i l), (drop (S i) l). split; [by rewrite take_drop_middle|]. split; [done|].
    apply Forall_lookup. intros j x [Hj Hlt]%lookup_take_Some. by eapply Hbefore. }
  split; [apply Hfind|]. intros Hc. destruct (find_container name l) as [c'|] eqn:Hf.
  - f_equal. eapply first_named_unique; [by apply Hfind|done].
  - unfold find_container in Hf. destruct (list_find _ l) as [[i c0]|] eqn:Hn; [done|].
    apply list_find_None in Hn. rewrite Forall_forall in Hn.
    destruct Hc as (l1 & l2 & -> & Hname & _). destruct (Hn c); [set_solver|done].
Qed.

(** The identifier of the container that the engine, asked after [tr], lists
    first under a name. *)
Definition listed d (name : string) tr (id : string) : Prop :=
  ∃ l c, lists d tr l ∧ first_named l name c ∧ ID c = id.

(** An identifier that a URL can be made of. *)
Definition removable (id : string) : Prop := url_ok (container_url id "?force=true&v=true") = true.

Lemma Remove_run m id d tr :
  ∃ r, RemoveContainer m id d tr
       = (r, d, tr ++ if url_ok (container_url id "?force=true&v=true") then [remove_call id] else []).
Proof.
  unfold RemoveContainer. rewrite try_run, exchange_run. destruct (url_ok _).
  - destruct (exchanged _ _ _ _) as [e|r]; [by eexists|]. rewrite ret_run. by eexists.
  - eexists. by rewrite (right_id_L [] (++)).
Qed.

Lemma List_run m d tr :
  ∃ r, ListContainers m d tr = (r, d, tr ++ [list_call]).
Proof.
  unfold ListContainers. rewrite try_run, Get_run.
  change (url_ok "http://localhost/v1.54/containers/json?all=true") with true. cbv iota.
  fold list_call. destruct (answer tr list_call) as [e|r]; [by eexists|]. rewrite ret_run. by eexists.
Qed.

Lemma remove_by_name_run name d tr :
  ∃ new, remove_by_name name d tr = ((), d, tr ++ list_call :: new) ∧
    (∀ e, e ∈ new → ∃ id, listed d name tr id ∧ e = remove_call id) ∧
    (∀ id, listed d name tr id → removable id → remove_call id ∈ new).
Proof.
  unfold remove_by_name, listed, lists, result. rewrite bind_run, get_run, bind_run.
  destruct (List_run (cm d) d tr) as [r ->]. cbn [fst snd]. destruct r as [e|l].
  { exists []. split; [done|]. split; [by intros e' ?%not_elem_of_nil|by intros id (? & ? & ? & _)]. }
  destruct (find_container name l) as [c|] eqn:Hf.
  - apply find_container_first in Hf. rewrite then_ret_run. unfold state_after, trace_after.
    destruct (Remove_run (cm d) (ID c) d (tr ++ [list_call])) as [r ->]. cbn [fst snd].
    exists (if url_ok (container_url (ID c) "?force=true&v=true") then [remove_call (ID c)] else []).
    split; [by rewrite <- (assoc_L (++))|]. split.
    + intros e He. exists (ID c). split; [by exists l, c|].
      destruct (url_ok _); [by apply list_elem_of_singleton in He|by apply not_elem_of_nil in He].
    + intros id (l' & c' & [= <-] & Hc' & <-) Hok. rewrite (first_named_unique _ _ _ _ Hc' Hf) in Hok |- *.
      unfold removable in Hok. rewrite Hok. by left.
  - exists []. split; [done|]. split; [by intros e' ?%not_elem_of_nil|].
    intros id (l' & c' & [= <-] & Hc'%find_container_first & _). congruence.
Qed.

(** The engine knows the container, asked after [tr]. *)
Definition inspected d (id : string) tr : Prop :=
  ∃ c, result (InspectContainer (cm d) id) d tr = inr c.

Lemma Inspect_run id d tr :
  ∃ n, InspectContainer (cm d) id d tr = (result (InspectContainer (cm d) id) d tr, d, tr ++ n) ∧
    ∀ e, e ∈ n → ¬ removal e.
Proof.
  unfold result, InspectContainer. rewrite try_run, Get_run. destruct (url_ok _).
  - destruct (answer tr _) as [e|resp]; [|rewrite ret_run]; exists [inspect_call id];
      (split; [done|]); intros e' ->%list_elem_of_singleton; discriminate.
  - exists []. split; [by rewrite (right_id_L [] (++))|]. by intros e ?%not_elem_of_nil.
Qed.

Lemma remove_sandbox_run d0 name s d tr :
  cm d0 = cm d →
  ∃ new, remove_sandbox d0 name s d tr = ((), d, tr ++ new) ∧
    if decide (sbContainerID s = "")
    then (∀ e, e ∈ new → removal e → ∃ id, listed d ("sbx-" +:+ name) tr id ∧ e = remove_call id) ∧
         (∀ id, listed d ("sbx-" +:+ name) tr id → removable id → remove_call id ∈ new)
    else (∀ e, e ∈ new → removal e → e = remove_call (sbContainerID s)) ∧
         (inspected d (sbContainerID s) tr → removable (sbContainerID s) →
          remove_call (sbContainerID s) ∈ new).
Proof.
  intros Hcm. unfold remove_sandbox. rewrite Hcm. case_decide as Hid.
  - destruct (remove_by_name_run ("sbx-" +:+ name) d tr) as (new & Hr & Hsafe & Hall).
    exists (list_call :: new). split; [done|]. split.
    + intros e [->|He]%elem_of_cons Hrm; [done|by apply Hsafe].
    + intros id Hl Hok. apply elem_of_cons. right. by apply Hall.
  - destruct (Inspect_run (sbContainerID s) d tr) as (n & Hi & Hn). unfold inspected.
    rewrite bind_run, Hi. destruct (result _ d tr) as [e|c].
    + exists n. split; [done|]. split; [|by intros [? ?]]. intros e' He Hrm. by destruct (Hn e' He).
    + rewrite then_ret_run. unfold state_after, trace_after.
      destruct (Remove_run (cm d) (sbContainerID s) d (tr ++ n)) as [r ->]. cbn [fst snd].
      eexists (n ++ _). split; [by rewrite (assoc_L (++))|]. split.
      * intros e [He|He]%elem_of_app Hrm; [by destruct (Hn e He)|].
        destruct (url_ok _); [by apply list_elem_of_singleton in He|by apply not_elem_of_nil in He].
      * intros _ Hok. unfold removable in Hok. rewrite Hok. set_solver.
Qed.

(** C23. Deleting a sandbox: an unknown name is 404 without a call or a change;
    a known one is always forgotten and answered 204, whatever the engine says,
    and nothing else changes.  The containers that are removed are its own, and
    they are removed: the one it ran in, if the engine still knows it, or, if it
    has none, the first one that the engine lists under its name; and then the
    first one listed under the name of its sidecar. *)
Theorem delete_outcome name d tr (Hname : name ≠ "") :
  let '(reply, d', tr') := handleDeleteRuntime name d tr in
  match sandboxes d !! name with
  | None => status reply = 404%Z ∧ d' = d ∧ tr' = tr
  | Some s =>
      status reply = 204%Z ∧ d' = set_sandboxes (delete name) d ∧
      ∃ n1 n2 save, tr' = tr ++ n1 ++ n2 ++ [save] ∧
        save = WriteFile (state_path d) (marshal_indent (sandboxes_json (delete name (sandboxes d)))) 420 ∧
        (if decide (sbContainerID s = "")
         then (∀ e, e ∈ n1 → removal e → ∃ id, listed d' ("sbx-" +:+ name) tr id ∧ e = remove_call id) ∧
              (∀ id, listed d' ("sbx-" +:+ name) tr id → removable id → remove_call id ∈ n1)
         else (∀ e, e ∈ n1 → removal e → e = remove_call (sbContainerID s)) ∧
              (inspected d' (sbContainerID s) tr → removable (sbContainerID s) →
               remove_call (sbContainerID s) ∈ n1)) ∧
        (∀ e, e ∈ n2 → removal e →
          ∃ id, listed d' ("sbx-" +:+ name +:+ "-proxy") (tr ++ n1) id ∧ e = remove_call id) ∧
        (∀ id, listed d' ("sbx-" +:+ name +:+ "-proxy") (tr ++ n1) id → removable id →
           remove_call id ∈ n2)
  end.
Proof.
  unfold handleDeleteRuntime. rewrite decide_False by done. rewrite bind_run, get_run.
  destruct (sandboxes d !! name) as [s|]; [|done].
  rewrite bind_run, modify_run, bind_run.
  set (d1 := set_sandboxes (delete name) d).
  destruct (remove_sandbox_run d name s d1 tr eq_refl) as (n1 & -> & Hn1).
  rewrite bind_run.
  destruct (remove_by_name_run ("sbx-" +:+ (name +:+ "-proxy")) d1 (tr ++ n1)) as (n2 & -> & Hn2 & Hall).
  rewrite then_ret_run. split; [done|]. split; [done|].
  exists n1, (list_call :: n2). eexists. split; [|split; [reflexivity|split; [exact Hn1|split]]].
  - change (trace_after saveState d1 ?t)
      with (t ++ [WriteFile (state_path d1) (marshal_indent (sandboxes_json (sandboxes d1))) 420]).
    by rewrite <- !(assoc_L (++)).
  - intros e [->|He]%elem_of_cons Hrm; [done|]. by apply Hn2.
  - intros id Hl Hok. apply elem_of_cons. right. by apply Hall.
Qed.

(** ** What a container gets to know of the secrets *)

(** A computation whose value and calls do not depend on the state. *)
Definition blind {S A} (m : M S A) : Prop :=
  ∀ s s' tr, result m s tr = result m s' tr ∧ trace_after m s tr = trace_after m s' tr.

Lemma blind_ret {S A} (x : A) : blind (mret x : M S A).
Proof. done. Qed.

Lemma blind_call {S} e : blind (call e : M S _).
Proof. done. Qed.

Lemma blind_bind {S A B} (m : M S A) (k : A → M S B) :
  blind m → (∀ x, blind (k x)) → blind (m ≫= k).
Proof.
  intros Hm Hk s s' tr. destruct (Hm s s' tr) as [Hr Ht].
  unfold result, trace_after in *. rewrite !bind_run.
  destruct (m s tr) as [[x s1] t1], (m s' tr) as [[x' s2] t2]. cbn in Hr, Ht. subst x' t2.
  apply (Hk x).
Qed.

Lemma blind_try {S A B} w (m : M S (string + A)) (k : A → M S (string + B)) :
  blind m → (∀ x, blind (k x)) → blind (try_bind w m k).
Proof. intros Hm Hk. apply blind_bind; [done|]. intros [e|x]; [apply blind_ret|apply Hk]. Qed.

Ltac blind :=
  repeat first
    [ apply blind_ret | apply blind_try | apply blind_bind
    | match goal with
      | |- blind (call ?e) => exact (blind_call e)
      | |- blind (if ?b then _ else _) => destruct b
      | |- blind (match ?x with _ => _ end) => destruct x
      end
    | progress intros ].

Lemma blind_Create {S} m image args env name :
  blind (CreateContainer m image args env name : M S _).
Proof.
  unfold CreateContainer, ensureNetwork, pullImage, imageExists, exchange, readCA, Get, NewRequest,
    Do. blind.
Qed.

Lemma blind_Start {S} m id : blind (StartContainer m id : M S _).
Proof. unfold StartContainer, exchange, NewRequest, Do. blind. Qed.

(** Secrets, sandboxes and daemons without the secret values and their targets. *)
Definition veil_secret (s : CustomSecret) : CustomSecret :=
  mkCustomSecret "" (EnvName s) (Sentinel s) "".
Definition veil_sandbox (s : SandboxState) : SandboxState :=
  mkSandboxState (sbID s) (sbName s) (sbAgentName s) (sbImage s) (sbWorkspace s) (sbContainerID s)
    (sbRunning s) (sbProxyAddr s) (sbCreatedAt s) (sbLabels s) (veil_secret <$> sbSecrets s).
Definition veil d : Daemon :=
  set_secrets (mkSecretManager (veil_secret <$> secrets (dSecrets d)))
    (set_sandboxes (fmap veil_sandbox) d).

Lemma sentinels_veiled (l l' : list CustomSecret) :
  veil_secret <$> l = veil_secret <$> l' →
  (λ s, EnvName s +:+ "=" +:+ Sentinel s) <$> filter (λ s, EnvName s ≠ "" ∧ Sentinel s ≠ "") l =
  (λ s, EnvName s +:+ "=" +:+ Sentinel s) <$> filter (λ s, EnvName s ≠ "" ∧ Sentinel s ≠ "") l'.
Proof.
  revert l'. induction l as [|x l IH]; intros [|y l'] Hp; try done.
  cbn in Hp. injection Hp as He Hs Hl. rewrite !filter_cons, He, Hs.
  case_decide; cbn; [rewrite He, Hs; f_equal|]; by apply IH.
Qed.

(** Starting a container depends on the environment and on nothing secret. *)
Lemma createAndStart_blind c c' d d' tr :
  cm d = cm d' → cfgImage c = cfgImage c' → cfgName c = cfgName c' → sandbox_env c = sandbox_env c' →
  result (createAndStartContainer c) d tr = result (createAndStartContainer c') d' tr ∧
  trace_after (createAndStartContainer c) d tr = trace_after (createAndStartContainer c') d' tr.
Proof.
  intros Hm Hi Hn He.
  assert (∀ m image args env name, blind (container ←[String.append "create sandbox container: "]
      CreateContainer m image args env name;
      _ ←[String.append "start sandbox container: "] StartContainer m (ID container);
      mret (M:=M Daemon) (inr (A:=string) (ID container)))) as Hb.
  { intros. apply blind_try; [apply blind_Create|]. intros ct.
    apply blind_try; [apply blind_Start|]. intros _. apply blind_ret. }
  unfold createAndStartContainer, result, trace_after. rewrite !bind_run, !get_run. cbv beta iota.
  rewrite Hm, Hi, Hn, He. apply Hb.
Qed.

Lemma use_secrets_veiled d d' s s' :
  veil d = veil d' → veil_sandbox s = veil_sandbox s' →
  cm (use_secrets s d) = cm (use_secrets s' d') ∧ Daemon.ca (use_secrets s d) = Daemon.ca (use_secrets s' d') ∧
  veil_secret <$> secrets (dSecrets (use_secrets s d)) =
    veil_secret <$> secrets (dSecrets (use_secrets s' d')).
Proof.
  intros Hd Hs. unfold veil, set_secrets, set_sandboxes in Hd. injection Hd. intros _ _ _ Hm Hca Hsec _ _ _.
  unfold veil_sandbox in Hs. injection Hs. intros Hss _ _ _ _ _ _ _ _ _ _.
  unfold use_secrets. destruct (sbSecrets s) as [|x l], (sbSecrets s') as [|x' l']; done.
Qed.

(** The container of a sandbox is set up alike, whatever the secret values are. *)
Lemma start_blind name d d' s s' tr :
  veil d = veil d' → veil_sandbox s = veil_sandbox s' →
  let c := start_config (use_secrets s d) name s in
  let c' := start_config (use_secrets s' d') name s' in
  result (createAndStartContainer c) (use_secrets s d) tr =
    result (createAndStartContainer c') (use_secrets s' d') tr ∧
  trace_after (createAndStartContainer c) (use_secrets s d) tr =
    trace_after (createAndStartContainer c') (use_secrets s' d') tr.
Proof.
  intros Hd Hs. destruct (use_secrets_veiled d d' s s' Hd Hs) as (Hm & Hca & Hsec).
  unfold veil_sandbox in Hs. injection Hs. intros _ _ _ _ _ _ Hw Hi Ha _ _.
  apply createAndStart_blind; [exact Hm| |done|].
  - cbn [cfgImage start_config]. unfold start_image. by rewrite Hi, Ha.
  - unfold sandbox_env, sentinel_env.
    cbn [start_config cfgName cfgWorkspace cfgProxyPort cfgTimezone cfgCA cfgSecrets].
    by rewrite Hw, Hca, (sentinels_veiled _ _ Hsec).
Qed.
End Runtime.

(** ** Concrete instances *)

(** Was a container of that name already created? *)
Definition created_before (url : string) (tr : trace) : bool :=
  existsb (λ e, match e with HttpDo r => bool_decide (req_url r = url) | _ => false end) tr.

(** An engine that creates one container per name and succeeds otherwise. *)
Definition strict_engine : World := λ tr e,
  match e return Resp e with
  | HttpDo r =>
      inr (if bool_decide (req_method r = "GET")
           then mkHttpResponse 200 (marshal (JArr [JObj [("Id", JStr "n1"); ("Name", JStr "sandbox-net")]])) None
           else if created_before (req_url r) tr then mkHttpResponse 409 [] None
           else mkHttpResponse (if HasSuffix (req_url r) "/start" then 204 else 201)
                  (marshal (JObj [("Id", JStr "c1")])) None)
  | e => quiet_world tr e
  end.

Lemma strict_engine_unique : @NamesUnique strict_engine.
Proof.
  intros tr new name j j' resp _ _ _.
  change (StatusCode (if created_before (create_url name) (tr ++ create_call name j :: new)
    then mkHttpResponse 409 [] None
    else mkHttpResponse (if HasSuffix (create_url name) "/start" then 204 else 201)
           (marshal (JObj [("Id", JStr "c1")])) None) = 409%Z).
  unfold created_before. rewrite existsb_app. unfold create_call at 1, post_json_call at 1.
  cbn [existsb req_url]. rewrite bool_decide_true by done.
  by rewrite orb_true_r.
Qed.

#[local] Instance demo_engine : World := strict_engine.
#[local] Instance demo_unique : NamesUnique := strict_engine_unique.
#[local] Instance demo_url_errors : UrlErrors := λ u, "parse " +:+ u.
#[local] Instance demo_json_errors : JsonErrors := λ t _, "invalid " +:+ t.
#[local] Instance demo_folding : UnicodeFold := no_unicode_folding.
#[local] Instance demo_order : MapOrder := some_order.
#[local] Instance demo_times : TimeFormat := ns_format.

(** A sandbox that was created and never started. *)
Definition fresh_sandbox : SandboxState :=
  mkSandboxState "box-1" "box" "shell" "" "/w" "" false "pending-sidecar" 5 ∅ [].
Definition fresh_daemon : Daemon := demo_daemon "/s" {["box" := fresh_sandbox]}.

Lemma start_outcome_witness :
  status (result (handleStartRuntime "box") fresh_daemon []) = 200%Z ∧
  ∃ cid t, created_and_started "box" cid [] t.
Proof.
  assert ("box" ≠ "") as Hn by discriminate.
  pose proof (start_outcome "box" fresh_daemon [] Hn) as H.
  assert (status (handleStartRuntime "box" fresh_daemon []).1.1 = 200%Z) as Hs
    by (vm_compute; reflexivity).
  unfold result. destruct (handleStartRuntime "box" fresh_daemon []) as [[reply d'] tr'].
  assert (sandboxes fresh_daemon !! "box" = Some fresh_sandbox) as E by (vm_compute; reflexivity).
  rewrite E in H. cbn in Hs |- *. split; [exact Hs|].
  destruct H as [(_ & cid & t & Hc & _)|[He _]]; [by exists cid, t|].
  rewrite Hs in He. discriminate.
Defined.

Lemma restart_refused_witness :
  let d1 := state_after (handleStartRuntime "box") fresh_daemon [] in
  let t1 := trace_after (handleStartRuntime "box") fresh_daemon [] in
  let d2 := state_after (handleStopRuntime "box") d1 t1 in
  let t2 := trace_after (handleStopRuntime "box") d1 t1 in
  status (result (handleStartRuntime "box") d2 t2) = 500%Z.
Proof. apply (restart_refused "box" fresh_daemon []); [discriminate|vm_compute; reflexivity]. Defined.

Lemma delete_outcome_witness :
  status (handleDeleteRuntime "box" fresh_daemon []).1.1 = 204%Z ∧
  (handleDeleteRuntime "box" fresh_daemon []).1.2 = demo_daemon "/s" ∅.
Proof.
  assert ("box" ≠ "") as Hn by discriminate.
  pose proof (delete_outcome "box" fresh_daemon [] Hn) as H.
  destruct (handleDeleteRuntime "box" fresh_daemon []) as [[reply d'] tr'].
  assert (sandboxes fresh_daemon !! "box" = Some fresh_sandbox) as E by (vm_compute; reflexivity).
  rewrite E in H. destruct H as (Hs & -> & _). split; [exact Hs|]. vm_compute. reflexivity.
Defined.
