(* ===== verification/Concurrent.v ===== *)
(** * Concurrent requests to the daemon

    The daemon's lock protects the map of sandboxes, not what its pointers lead
    to, and no handler but the listing holds it for long.  Here the map holds
    references into a store of sandboxes, as it does in Go, and a request is a
    process: a sequence of sections, each of them a step, between which other
    requests run.  A request that runs alone does what its handler of [Daemon]
    does; the requests together keep less. *)
From S2P Require Export Runtime.

(** ** Shared state *)

(** [base] is the daemon apart from its sandboxes. *)
Record Shared := mkShared {
  base : Daemon;
  refs : gmap string nat;
  heap : gmap nat SandboxState;
}.

Definition obj (c : Shared) (l : nat) : SandboxState := default zero_sandbox (heap c !! l).

(** The daemon that a handler sees, with the sandboxes that its map leads to. *)
Definition view (c : Shared) : Daemon := set_sandboxes (λ _, obj c <$> refs c) (base c).

Definition set_obj (l : nat) (f : SandboxState → SandboxState) (c : Shared) : Shared :=
  mkShared (base c) (refs c) (<[l := f (obj c l)]> (heap c)).
Definition set_ref (name : string) (l : nat) (c : Shared) : Shared :=
  mkShared (base c) (<[name := l]> (refs c)) (heap c).
Definition drop_ref (name : string) (c : Shared) : Shared :=
  mkShared (base c) (delete name (refs c)) (heap c).
Definition add_obj (name : string) (s : SandboxState) (c : Shared) : Shared :=
  let l := fresh (dom (heap c)) in
  mkShared (base c) (<[name := l]> (refs c)) (<[l := s]> (heap c)).

(** Code that leaves the sandboxes alone. *)
Definition on_view {A} (m : M Daemon A) : M Shared A := λ c tr,
  let '(x, d, tr') := m (view c) tr in (x, mkShared d (refs c) (heap c), tr').

(** ** Processes *)

#[warnings="-register-all"]
Inductive Proc :=
  | Done (reply : Reply)
  | Sec (section : M Shared Proc).

(** A process on its own. *)
Fixpoint alone (p : Proc) : M Shared Reply :=
  match p with
  | Done reply => mret reply
  | Sec section => λ c tr, let '(p', c', tr') := section c tr in alone p' c' tr'
  end.

(** Any of the processes takes its next section. *)
Inductive step : Shared * trace * list Proc → Shared * trace * list Proc → Prop :=
  | step_section c tr l1 m l2 p c' tr' :
      m c tr = (p, c', tr') → step (c, tr, l1 ++ Sec m :: l2) (c', tr', l1 ++ p :: l2).

Section Handlers.
Context `{World, UrlErrors, JsonErrors, UnicodeFold, MapOrder, TimeFormat}.

(** One operation of the container manager, or one look at the daemon's policy,
    secrets or sandboxes, on its own. *)
Definition section {A} (m : M Daemon A) (k : A → Proc) : Proc := Sec (x ← on_view m; mret (k x)).

(** A section of which nothing but the reply is left. *)
Definition reply_with (f : Shared → Reply) : Proc := Sec (c ← get; mret (Done (f c))).

(** [saveState] holds no lock: the map is encoded first and written later. *)
Definition write_then (path : string) (data : bytes) (p : Proc) : Proc :=
  Sec (on_view (call (WriteFile path data 420));; mret p).

Definition save_then (p : Proc) : Proc :=
  Sec (c ← get;
       mret (write_then (state_path (view c)) (marshal_indent (sandboxes_json (sandboxes (view c)))) p)).

(** Looking a name up under the lock. *)
Definition with_ref (name : string) (k : nat → Proc) : Proc :=
  if decide (name = "") then Done name_required
  else Sec (c ← get; mret (match refs c !! name with
                           | None => Done (not_found name)
                           | Some l => k l
                           end)).

(** *** [handleCreateRuntime] *)

Definition create_insert (req : CreateSpec) : Proc :=
  Sec (t1 ← on_view (call TimeNow);
       t2 ← on_view (call TimeNow);
       c ← get;
       let l := fresh (dom (heap c)) in
       modify (add_obj (RuntimeName req) (new_sandbox req t1 t2));;
       mret (save_then (reply_with (λ c, writeJSON 201 (sandbox_json (obj c l)))))).

Definition create_check (req : CreateSpec) : Proc :=
  Sec (c ← get;
       mret (match refs c !! RuntimeName req with
             | Some _ => Done (writeError 409 ("sandbox already exists: " +:+ RuntimeName req))
             | None => create_insert req
             end)).

Definition create_proc (body : bytes) : Proc :=
  match decode_request "CreateRuntimeRequest" zero_spec dec_create_request body with
  | inl e => Done (writeError 400 ("invalid JSON: " +:+ e))
  | inr req =>
      if decide (RuntimeName req = "") then Done (writeError 400 "spec.RuntimeName is required")
      else if decide (WorkspaceDir req = "") then Done (writeError 400 "spec.WorkspaceDir is required")
      else create_check req
  end.

(** *** [handleGetRuntime], [handleDeleteRuntime] *)

Definition get_proc (name : string) : Proc :=
  with_ref name (λ l, reply_with (λ c, writeJSON 200 (sandbox_json (obj c l)))).

(** [remove_by_name], a section for each operation of the manager. *)
Definition remove_named (name : string) (k : unit → Proc) : Proc :=
  section get (λ d, section (ListContainers (cm d)) (λ containers,
    match containers with
    | inl _ => k ()
    | inr l =>
        match find_container name l with
        | Some c => section (RemoveContainer (cm d) (ID c)) (λ _, k ())
        | None => k ()
        end
    end)).

Definition delete_sidecar (name : string) : Proc :=
  remove_named ("sbx-" +:+ (name +:+ "-proxy")) (λ _, save_then (Done (writeHeader 204))).

(** The sandbox's container, read again for each use of it. *)
Definition delete_inspected (m : Manager) (name : string) (l : nat) : Proc :=
  Sec (c ← get; on_view (RemoveContainer m (sbContainerID (obj c l)));; mret (delete_sidecar name)).

Definition delete_container (name : string) (l : nat) : Proc :=
  Sec (c ← get;
       if decide (sbContainerID (obj c l) = "")
       then mret (remove_named ("sbx-" +:+ name) (λ _, delete_sidecar name))
       else
         r ← on_view (InspectContainer (cm (view c)) (sbContainerID (obj c l)));
         mret (match r with inl _ => delete_sidecar name | inr _ => delete_inspected (cm (view c)) name l end)).

Definition delete_proc (name : string) : Proc :=
  if decide (name = "") then Done name_required
  else Sec (c ← get;
            match refs c !! name with
            | None => mret (Done (not_found name))
            | Some l => modify (drop_ref name);; mret (delete_container name l)
            end).

(** *** [handleStartRuntime], [handleStopRuntime] *)

(** One round of the propagation to the sidecars, and all of them. *)
Definition push_to (payload : bytes) (endpoint name : string) (k : unit → Proc) : Proc :=
  section get (λ d, section (ListContainers (cm d)) (λ containers,
    match containers with
    | inl _ => k ()
    | inr l =>
        match find_container (sidecar_name name) l with
        | Some c =>
            if bool_decide (ID c = "") || negb (Running c) then k ()
            else section (execInContainer (ID c) (reload_command payload endpoint)) (λ _, k ())
        | None => k ()
        end
    end)).

Fixpoint push_to_all (payload : bytes) (endpoint : string) (names : list string) (k : unit → Proc) : Proc :=
  match names with
  | [] => k ()
  | name :: names => push_to payload endpoint name (λ _, push_to_all payload endpoint names k)
  end.

(** The secrets are looked at twice, and the running sandboxes after that. *)
Definition push_sections (k : unit → Proc) : Proc :=
  section get (λ d,
    if decide (secrets (dSecrets d) = []) then k ()
    else section get (λ d', section get (λ d'',
      push_to_all (secrets_payload (secrets (dSecrets d'))) "/secrets/reload" (running_names d'') k))).

Definition start_push (cid : string) : Proc := push_sections (λ _, Done (start_reply cid)).

Definition start_commit (name : string) (l : nat) (cid : string) : Proc :=
  Sec (modify (set_obj l (started name cid));; modify (set_ref name l);;
       mret (save_then (start_push cid))).

Definition start_failed (e : string) : Proc := Done (writeError 500 ("container create failed: " +:+ e)).

Definition start_container (m : Manager) (name : string) (l : nat) (cid : string) : Proc :=
  section (StartContainer m cid) (λ r,
    match r with
    | inl e => start_failed ("start sandbox container: " +:+ e)
    | inr _ => start_commit name l cid
    end).

Definition start_create (name : string) (l : nat) : Proc :=
  Sec (c ← get;
       let config := start_config (view c) name (obj c l) in
       r ← on_view (CreateContainer (cm (view c)) (cfgImage config) sandbox_args (sandbox_env config)
                      (cfgName config));
       mret (match r with
             | inl e => start_failed ("create sandbox container: " +:+ e)
             | inr container => start_container (cm (view c)) name l (ID container)
             end)).

Definition start_secrets (name : string) (l : nat) : Proc :=
  Sec (c ← get; on_view (set_own_secrets (obj c l));; mret (start_create name l)).

Definition start_proc (name : string) : Proc :=
  with_ref name (λ l,
    Sec (c ← get; mret (if sbRunning (obj c l) then Done (writeError 409 "sandbox already running")
                        else start_secrets name l))).

Definition stop_commit (name : string) (l : nat) : Proc :=
  Sec (modify (set_obj l stopped);; modify (set_ref name l);;
       mret (save_then (Done (writeHeader 204)))).

Definition stop_proc (name : string) : Proc :=
  with_ref name (λ l,
    Sec (c ← get; on_view (stop_container (view c) (obj c l));; mret (stop_commit name l))).

(** *** [handleListRuntimes], which holds the lock while it asks the engine *)

Fixpoint refresh_refs (names : list string) : M Shared (list nat) :=
  match names with
  | [] => mret []
  | name :: names =>
      c ← get;
      match refs c !! name with
      | None => refresh_refs names
      | Some l =>
          (if decide (sbContainerID (obj c l) = "") then mret ()
           else
             r ← on_view (InspectContainer (cm (base c)) (sbContainerID (obj c l)));
             modify (set_obj l (refreshed r)));;
          ls ← refresh_refs names;
          mret (l :: ls)
      end
  end.

Definition list_proc : Proc :=
  Sec (c ← get;
       ls ← refresh_refs (fst <$> map_order (sandboxes (view c)));
       mret (reply_with (λ c, writeJSON 200 (JArr ((λ l, sandbox_json (obj c l)) <$> ls))))).

(** *** Routes *)

(** The other handlers leave the sandboxes alone; they touch the policy and the
    secrets, whose operations lock themselves.  Such a request is one section
    here, which is coarser than in the code. *)
Definition atomic_proc (h : M Daemon Reply) : Proc := Sec (r ← on_view h; mret (Done r)).

Definition proc_of (r : ApiRequest) : option Proc :=
  let m x := bool_decide (apiMethod r = x) in
  let get := m "GET" || m "HEAD" in
  if about_runtimes r then
    match apiPath r with
    | [_] => if m "POST" then Some (create_proc (apiBody r)) else if get then Some list_proc else None
    | [_; b] =>
        if bool_decide (b = "") then None
        else if get then Some (get_proc b) else if m "DELETE" then Some (delete_proc b) else None
    | [_; b; c] =>
        if bool_decide (b ≠ "") && m "POST" then
          if bool_decide (c = "start") then Some (start_proc b)
          else if bool_decide (c = "stop") then Some (stop_proc b) else None
        else None
    | _ => None
    end
  else atomic_proc <$> route r.
End Handlers.

(** ** A request alone

    Well-formed: the map leads to sandboxes of the names it has them under. *)
Definition wf (c : Shared) : Prop :=
  ∀ name l, refs c !! name = Some l → ∃ s, heap c !! l = Some s ∧ sbName s = name.

Lemma view_lookup c name : sandboxes (view c) !! name = obj c <$> refs c !! name.
Proof. apply lookup_fmap. Qed.

Lemma wf_inj c n1 n2 l : wf c → refs c !! n1 = Some l → refs c !! n2 = Some l → n1 = n2.
Proof.
  intros Hwf (s1 & H1 & <-)%Hwf (s2 & H2 & <-)%Hwf. congruence.
Qed.

Lemma obj_set_obj l f c l' :
  obj (set_obj l f c) l' = if decide (l' = l) then f (obj c l) else obj c l'.
Proof.
  unfold obj at 1, set_obj. cbn [heap]. case_decide as Hl.
  - subst. by rewrite lookup_insert_eq.
  - by rewrite lookup_insert_ne by done.
Qed.

(** Changing the sandbox that a name leads to. *)
Lemma view_set_obj name l f c :
  wf c → refs c !! name = Some l →
  view (set_obj l f c) = set_sandboxes (insert name (f (obj c l))) (view c).
Proof.
  intros Hwf Hl. unfold view, set_sandboxes. f_equal. cbn [refs sandboxes set_obj].
  apply map_eq. intros n. rewrite lookup_fmap. destruct (decide (n = name)) as [->|Hn].
  - rewrite lookup_insert_eq, Hl. cbn. by rewrite obj_set_obj, decide_True.
  - rewrite lookup_insert_ne, lookup_fmap by done. destruct (refs c !! n) as [l'|] eqn:Hr; [|done].
    cbn. rewrite obj_set_obj, decide_False; [done|]. intros ->. by eapply Hn, wf_inj.
Qed.

Lemma wf_set_obj l f c : (∀ s, sbName (f s) = sbName s) → wf c → wf (set_obj l f c).
Proof.
  intros Hf Hwf name l' Hl. destruct (Hwf name l' Hl) as (s & Hs & Hname).
  unfold set_obj. cbn [heap]. destruct (decide (l' = l)) as [->|Hne].
  - exists (f (obj c l)). split; [apply lookup_insert_eq|]. unfold obj. by rewrite Hs, Hf.
  - exists s. by rewrite lookup_insert_ne.
Qed.

(** Taking up a name again that leads there already. *)
Lemma set_ref_id name l c : refs c !! name = Some l → set_ref name l c = c.
Proof. intros Hl. unfold set_ref. destruct c. f_equal. by apply insert_id. Qed.

Lemma view_drop_ref name c : view (drop_ref name c) = set_sandboxes (delete name) (view c).
Proof. unfold view, set_sandboxes. f_equal. cbn [refs sandboxes drop_ref]. apply fmap_delete. Qed.

Lemma wf_drop_ref name c : wf c → wf (drop_ref name c).
Proof. intros Hwf n l. cbn [refs drop_ref]. intros [_ Hl]%lookup_delete_Some. by apply Hwf. Qed.

Lemma fresh_obj c l s : heap c !! l = Some s → l ≠ fresh (dom (heap c)).
Proof. intros Hl ->. by eapply (is_fresh (dom (heap c))), elem_of_dom_2. Qed.

Lemma view_add_obj name s c :
  wf c → view (add_obj name s c) = set_sandboxes (insert name s) (view c).
Proof.
  intros Hwf. unfold view, set_sandboxes, add_obj. f_equal. cbn [refs sandboxes].
  rewrite fmap_insert. f_equal.
  - unfold obj. cbn [heap]. by rewrite lookup_insert_eq.
  - apply map_fmap_ext. intros n l (s' & Hs' & _)%Hwf. unfold obj. cbn [heap].
    by rewrite lookup_insert_ne by (symmetry; by eapply fresh_obj).
Qed.

Lemma wf_add_obj name s c : sbName s = name → wf c → wf (add_obj name s c).
Proof.
  intros Hs Hwf n l. unfold add_obj. cbn [refs heap].
  intros [[<- <-]|[Hn Hl]]%lookup_insert_Some.
  - exists s. by rewrite lookup_insert_eq.
  - destruct (Hwf n l Hl) as (s' & Hs' & Hname). exists s'. split; [|done].
    by rewrite lookup_insert_ne by (symmetry; by eapply fresh_obj).
Qed.

(** Every daemon that has its sandboxes under their names is the view of a
    well-formed shared state. *)
Lemma view_surjective d :
  map_Forall (λ name s, sbName s = name) (sandboxes d) → ∃ c, wf c ∧ view c = d.
Proof.
  assert (∀ m, map_Forall (λ name s, sbName s = name) m →
    ∃ c, wf c ∧ view c = set_sandboxes (λ _, m) d) as Hm.
  { intros m. induction m as [|name s m Hfree IH] using map_ind.
    - intros _. exists (mkShared d ∅ ∅). split; [by intros ??|].
      unfold view. cbn [refs base]. by rewrite fmap_empty.
    - intros [Hs Hrest]%map_Forall_insert; [|done]. destruct (IH Hrest) as (c & Hwf & Hv).
      exists (add_obj name s c). split; [by apply wf_add_obj|]. by rewrite view_add_obj, Hv. }
  intros Hd. destruct (Hm (sandboxes d) Hd) as (c & Hwf & Hv). exists c. split; [done|].
  rewrite Hv. by destruct d.
Qed.

Section Alone.
Context `{World, UrlErrors, JsonErrors, UnicodeFold, MapOrder, TimeFormat}.

(** [p], alone from [c], does what [h] does, and leaves a well-formed state. *)
Definition simulates (p : Proc) (h : M Daemon Reply) (c : Shared) : Prop := ∀ tr,
  h (view c) tr =
    (result (alone p) c tr, view (state_after (alone p) c tr), trace_after (alone p) c tr) ∧
  wf (state_after (alone p) c tr).

(** What may change in a section that leaves the sandboxes alone. *)
Definition same_store (c c' : Shared) : Prop := refs c' = refs c ∧ heap c' = heap c.

#[local] Instance same_store_trans : Transitive same_store.
Proof. intros c1 c2 c3 [Hr Hh] [Hr' Hh']. split; by etrans. Qed.

Lemma same_store_wf c c' : same_store c c' → wf c → wf c'.
Proof. intros [Hr Hh] Hwf name l. rewrite Hr, Hh. apply Hwf. Qed.

Lemma same_store_obj c c' l : same_store c c' → obj c' l = obj c l.
Proof. intros [_ Hh]. unfold obj. by rewrite Hh. Qed.

Definition keeps_sandboxes {A} (m : M Daemon A) : Prop :=
  keeps (λ d d', sandboxes d' = sandboxes d) m.

Lemma keeps_sandboxes_inert {A} (m : M Daemon A) : inert m → keeps_sandboxes m.
Proof. intros Hm d tr. by destruct (Hm d d tr) as [(Hs & _) _]. Qed.

Lemma keeps_sandboxes_quiet {A} (m : M Daemon A) : quiet m → keeps_sandboxes m.
Proof. intros Hm. by apply keeps_sandboxes_inert, inert_quiet. Qed.

(** Such code in a section, and in a handler. *)
Lemma on_view_out {A} (m : M Daemon A) c tr :
  keeps_sandboxes m → ∃ c', same_store c c' ∧
    on_view m c tr = (result m (view c) tr, c', trace_after m (view c) tr) ∧
    m (view c) tr = (result m (view c) tr, view c', trace_after m (view c) tr).
Proof.
  intros Hm. specialize (Hm (view c) tr). unfold on_view, result, state_after, trace_after in *.
  destruct (m (view c) tr) as [[x d] tr']. cbn in *. exists (mkShared d (refs c) (heap c)).
  split_and!; [done..|]. change (sandboxes d = obj c <$> refs c) in Hm.
  assert (view (mkShared d (refs c) (heap c)) = d) as ->; [|done].
  unfold view, set_sandboxes. cbn [refs heap base]. change (obj (mkShared d (refs c) (heap c))) with (obj c).
  rewrite <- Hm. by destruct d.
Qed.

Lemma sim_done reply c : wf c → simulates (Done reply) (mret reply) c.
Proof. done. Qed.

Lemma sim_goto p h c : simulates p h c → simulates (Sec (mret p)) h c.
Proof. done. Qed.

Lemma sim_peek k h c : simulates (Sec (k c)) h c → simulates (Sec (c ← get; k c)) h c.
Proof. done. Qed.

Lemma sim_get k h c :
  simulates (Sec (k c)) (h (view c)) c → simulates (Sec (c ← get; k c)) (d ← get; h d) c.
Proof. done. Qed.

Lemma sim_look p h c : simulates p (h (view c)) c → simulates p (d ← get; h d) c.
Proof. done. Qed.

Lemma sim_modify f m g h c :
  view (f c) = g (view c) → simulates (Sec m) h (f c) →
  simulates (Sec (modify f;; m)) (modify g;; h) c.
Proof. intros Hv Hs tr. rewrite bind_run, modify_run, <- Hv. apply Hs. Qed.

Lemma sim_modify_only f m h c :
  view (f c) = view c → simulates (Sec m) h (f c) → simulates (Sec (modify f;; m)) h c.
Proof. intros Hv Hs tr. rewrite <- Hv. apply Hs. Qed.

Lemma sim_call {A} (m : M Daemon A) k h c :
  keeps_sandboxes m → wf c →
  (∀ x c', same_store c c' → wf c' → simulates (Sec (k x)) (h x) c') →
  simulates (Sec (x ← on_view m; k x)) (x ← m; h x) c.
Proof.
  intros Hm Hwf Hk tr. destruct (on_view_out m c tr Hm) as (c' & Hs & Hp & Hh).
  rewrite bind_run, Hh. unfold result at 2, state_after, trace_after at 2. cbn [alone].
  rewrite bind_run, Hp. apply Hk; [done|]. by eapply same_store_wf.
Qed.

(** Code and the sections that it is taken apart into, which leave the
    sandboxes alone: run alone, the sections do what the code does. *)
Definition splits {A} (ps : (A → Proc) → Proc) (m : M Daemon A) : Prop := ∀ c tr,
  ∃ x c' tr', same_store c c' ∧ m (view c) tr = (x, view c', tr') ∧
    ∀ k, alone (ps k) c tr = alone (k x) c' tr'.

Lemma splits_section {A} (m : M Daemon A) : keeps_sandboxes m → splits (section m) m.
Proof.
  intros Hm c tr. destruct (on_view_out m c tr Hm) as (c' & Hs & Hp & Hh).
  eexists _, c', _. split_and!; [done|exact Hh|]. intros k. unfold section. cbn [alone].
  by rewrite bind_run, Hp.
Qed.

Lemma splits_ret {A} (x : A) : splits (λ k, k x) (mret x).
Proof. intros c tr. by exists x, c, tr. Qed.

Lemma splits_bind {A B} ps (m : M Daemon A) qs (f : A → M Daemon B) :
  splits ps m → (∀ x, splits (qs x) (f x)) → splits (λ k, ps (λ x, qs x k)) (m ≫= f).
Proof.
  intros Hm Hf c tr. destruct (Hm c tr) as (x & c1 & t1 & [Hr1 Hh1] & Hx & Hps).
  destruct (Hf x c1 t1) as (y & c2 & t2 & [Hr2 Hh2] & Hy & Hqs). exists y, c2, t2. split_and!.
  - split; by etrans.
  - by rewrite bind_run, Hx.
  - intros k. by rewrite Hps.
Qed.

Lemma splits_get {A} qs (f : Daemon → M Daemon A) :
  (∀ d, splits (qs d) (f d)) → splits (λ k, section get (λ d, qs d k)) (d ← get; f d).
Proof. intros Hf. apply splits_bind; [by apply splits_section; intros d tr|done]. Qed.

Lemma sim_splits {A} ps (m : M Daemon A) k h c :
  splits ps m → wf c → (∀ x c', same_store c c' → wf c' → simulates (k x) (h x) c') →
  simulates (ps k) (x ← m; h x) c.
Proof.
  intros Hps Hwf Hk tr. destruct (Hps c tr) as (x & c' & tr' & Hs & Hx & Ha).
  rewrite bind_run, Hx. unfold result, state_after, trace_after. rewrite Ha.
  apply Hk; [done|]. by eapply same_store_wf.
Qed.

Lemma sim_save p h c :
  wf c → (∀ c', same_store c c' → wf c' → simulates p h c') →
  simulates (save_then p) (saveState;; h) c.
Proof.
  intros Hwf Hp tr. set (c' := mkShared (view c) (refs c) (heap c)).
  by apply (Hp c').
Qed.

(** Looking a sandbox up. *)
Lemma sim_lookup name k h c :
  wf c → (∀ l, refs c !! name = Some l → simulates (k l) (h (view c) (obj c l)) c) →
  simulates (with_ref name k)
    (if decide (name = "") then mret name_required
     else d ← get; match sandboxes d !! name with None => mret (not_found name) | Some s => h d s end) c.
Proof.
  intros Hwf Hk. unfold with_ref. case_decide; [by apply sim_done|].
  apply sim_get, sim_goto. rewrite view_lookup.
  destruct (refs c !! name) as [l|] eqn:Hl; [by apply Hk|by apply sim_done].
Qed.

Ltac sim_quiet := apply sim_call; [apply keeps_sandboxes_quiet; quiet|done|].

Lemma sim_create body c : wf c → simulates (create_proc body) (handleCreateRuntime body) c.
Proof.
  intros Hwf. unfold create_proc, handleCreateRuntime.
  destruct (decode_request _ _ _ _) as [e|req]; [by apply sim_done|].
  case_decide; [by apply sim_done|]. case_decide; [by apply sim_done|].
  apply sim_get, sim_goto. rewrite view_lookup.
  destruct (refs c !! RuntimeName req) as [l|]; [by apply sim_done|].
  unfold create_insert. sim_quiet. intros t1 c1 _ Hwf1. sim_quiet. intros t2 c2 _ Hwf2.
  apply sim_peek. set (s := new_sandbox req t1 t2). set (l := fresh _).
  apply sim_modify; [by apply view_add_obj|]. apply sim_goto.
  apply sim_save; [by apply wf_add_obj|]. intros c3 Hc3 Hwf3.
  assert (obj c3 l = s) as Hobj.
  { rewrite (same_store_obj _ _ _ Hc3). unfold obj. cbn [heap add_obj]. by rewrite lookup_insert_eq. }
  rewrite <- Hobj. by apply sim_peek, sim_goto, sim_done.
Qed.

Lemma sim_get_runtime name c : wf c → simulates (get_proc name) (handleGetRuntime name) c.
Proof.
  intros Hwf. unfold get_proc, handleGetRuntime, with_ref. case_decide; [by apply sim_done|].
  apply sim_get, sim_goto. rewrite view_lookup.
  destruct (refs c !! name) as [l|]; [|by apply sim_done].
  by apply sim_peek, sim_goto, sim_done.
Qed.

Lemma splits_remove_named name : splits (remove_named name) (remove_by_name name).
Proof.
  apply splits_get. intros d. apply splits_bind; [apply splits_section, keeps_sandboxes_quiet; quiet|].
  intros [e|l]; [apply splits_ret|]. destruct (find_container name l) as [x|]; [|apply splits_ret].
  refine (splits_bind _ _ (λ _ k, k ()) _ _ (λ _, splits_ret ())).
  apply splits_section, keeps_sandboxes_quiet. quiet.
Qed.

(** The order of three steps does not depend on how they are put together. *)
Lemma sim_assoc {A B} (m : M Daemon A) (f : A → M Daemon B) p h c :
  simulates p (x ← m; y ← f x; h y) c → simulates p (y ← (x ← m; f x); h y) c.
Proof.
  intros Hs tr. rewrite <- (proj1 (Hs tr)). split; [|apply Hs].
  rewrite !bind_run. destruct (m (view c) tr) as [[x d] tr']. by rewrite !bind_run.
Qed.

Lemma sim_delete_container name l h c :
  wf c → (∀ c', wf c' → simulates (delete_sidecar name) h c') →
  simulates (delete_container name l) (remove_sandbox (view c) name (obj c l);; h) c.
Proof.
  intros Hwf Hh. apply sim_peek. unfold remove_sandbox. case_decide.
  - apply sim_goto, (sim_splits (remove_named _)); [apply splits_remove_named|done|]. intros; by apply Hh.
  - apply sim_assoc. apply sim_call; [apply keeps_sandboxes_quiet; quiet|done|].
    intros [e|x] c1 Hs1 Hwf1; apply sim_goto; [by apply Hh|].
    apply sim_assoc. rewrite <- (same_store_obj _ _ l Hs1). apply sim_peek.
    apply sim_call; [apply keeps_sandboxes_quiet; quiet|done|]. intros _ c2 _ Hwf2.
    by apply sim_goto, Hh.
Qed.

Lemma sim_delete name c : wf c → simulates (delete_proc name) (handleDeleteRuntime name) c.
Proof.
  intros Hwf. unfold delete_proc, handleDeleteRuntime. case_decide; [by apply sim_done|].
  apply sim_get. rewrite view_lookup. destruct (refs c !! name) as [l|]; [|by apply sim_done].
  apply sim_modify; [apply view_drop_ref|]. apply sim_goto.
  refine (sim_delete_container name l _ (drop_ref name c) _ _); [by apply wf_drop_ref|].
  intros c1 Hwf1. unfold delete_sidecar.
  apply (sim_splits (remove_named _)); [apply splits_remove_named|done|]. intros _ c2 _ Hwf2. apply sim_save; [done|]. intros. by apply sim_done.
Qed.

(** A sandbox that a name leads to, changed and put back. *)
Lemma sim_update name l f p h c :
  wf c → refs c !! name = Some l → (∀ s, sbName (f s) = sbName s) →
  (∀ c', wf c' → refs c' = refs c → simulates p h c') →
  simulates (Sec (modify (set_obj l f);; modify (set_ref name l);; mret p))
    (modify (set_sandboxes (insert name (f (obj c l))));; h) c.
Proof.
  intros Hwf Hl Hf Hp. apply sim_modify; [by apply view_set_obj|].
  assert (set_ref name l (set_obj l f c) = set_obj l f c) as Hid by by apply set_ref_id.
  apply sim_modify_only; rewrite Hid; [done|]. apply sim_goto, Hp; [by apply wf_set_obj|done].
Qed.

Lemma sim_stop name c : wf c → simulates (stop_proc name) (handleStopRuntime name) c.
Proof.
  intros Hwf. refine (sim_lookup _ _ _ _ _ _); [done|]. intros l Hl.
  apply sim_peek. sim_quiet. intros _ c1 Hs Hwf1. apply sim_goto.
  rewrite <- (same_store_obj _ _ l Hs). apply sim_update; [done|by destruct Hs as [-> _]|done|].
  intros c2 Hwf2 _. apply sim_save; [done|]. intros. by apply sim_done.
Qed.

Lemma splits_push_to payload endpoint name :
  splits (push_to payload endpoint name) (propagateTo payload endpoint name).
Proof.
  apply splits_get. intros d. apply splits_bind; [apply splits_section, keeps_sandboxes_quiet; quiet|].
  intros [e|l]; [apply splits_ret|]. destruct (find_container _ l) as [x|]; [|apply splits_ret].
  destruct (bool_decide (ID x = "") || negb (Running x)); [apply splits_ret|].
  refine (splits_bind _ _ (λ _ k, k ()) _ _ (λ _, splits_ret ())).
  apply splits_section, keeps_sandboxes_quiet. quiet.
Qed.

Lemma splits_push_to_all payload endpoint names :
  splits (push_to_all payload endpoint names) (for_each names (propagateTo payload endpoint)).
Proof.
  induction names as [|name names IH]; [apply splits_ret|].
  exact (splits_bind _ _ (λ _, push_to_all payload endpoint names) _ (splits_push_to _ _ _) (λ _, IH)).
Qed.

Lemma splits_push : splits push_sections push_secrets.
Proof.
  apply splits_get. intros d. case_decide; [apply splits_ret|].
  apply splits_get. intros d'. apply splits_get. intros d''. apply splits_push_to_all.
Qed.

(** Creating and starting the container, and what is done with the outcome. *)
Lemma sim_start_create name l (h : string + string → M Daemon Reply) c :
  wf c →
  (∀ e c', wf c' → simulates (start_failed e) (h (inl e)) c') →
  (∀ cid c', same_store c c' → wf c' → simulates (start_commit name l cid) (h (inr cid)) c') →
  simulates (start_create name l)
    (d ← get; r ← createAndStartContainer (start_config d name (obj c l)); h r) c.
Proof.
  intros Hwf Hfail Hok. apply sim_get, sim_assoc, sim_look, sim_assoc.
  apply sim_call; [apply keeps_sandboxes_quiet; quiet|done|].
  intros [e|x] c1 Hs1 Hwf1; apply sim_goto; [by apply Hfail|]. apply sim_assoc.
  apply (sim_splits (section _)); [apply splits_section, keeps_sandboxes_quiet; quiet|done|].
  intros [e|u] c2 Hs2 Hwf2; [by apply Hfail|]. apply Hok; [by etrans|done].
Qed.

Lemma sim_start name c : wf c → simulates (start_proc name) (handleStartRuntime name) c.
Proof.
  intros Hwf. refine (sim_lookup _ _ _ _ _ _); [done|]. intros l Hl.
  apply sim_peek, sim_goto. destruct (sbRunning (obj c l)); [by apply sim_done|].
  apply sim_peek, sim_call; [|done|].
  { unfold set_own_secrets. case_decide; [apply keeps_sandboxes_quiet; quiet|].
    apply keeps_sandboxes_inert, inert_SetSecrets. }
  intros _ c1 Hs1 Hwf1. apply sim_goto. rewrite <- (same_store_obj _ _ l Hs1).
  apply sim_start_create; [done|by intros; apply sim_done|]. intros cid c2 Hs2 Hwf2.
  rewrite <- (same_store_obj _ _ l Hs2).
  apply sim_update; [done|by destruct Hs1 as [Hr _], Hs2 as [-> _]; rewrite Hr|done|].
  intros c3 Hwf3 _. apply sim_save; [done|]. intros c4 _ Hwf4.
  apply (sim_splits push_sections); [apply splits_push|done|]. intros; by apply sim_done.
Qed.

(** One round of the listing's loop, over references and over sandboxes. *)
Lemma refresh_round name k c tr :
  wf c → refs c !! name = Some k → let s := obj c k in
  ∃ c1 tr1,
    (if decide (sbContainerID s = "") then mret ()
     else
       r ← on_view (InspectContainer (cm (base c)) (sbContainerID s));
       modify (set_obj k (refreshed r))) c tr = ((), c1, tr1) ∧
    (if decide (sbContainerID s = "") then mret s
     else
       r ← InspectContainer (cm (view c)) (sbContainerID s);
       modify (set_sandboxes (insert name (refreshed r s)));;
       mret (refreshed r s)) (view c) tr = (obj c1 k, view c1, tr1) ∧
    wf c1 ∧ refs c1 = refs c ∧ ∀ k', k' ≠ k → obj c1 k' = obj c k'.
Proof.
  intros Hwf Hk s. case_decide; [by eexists c, tr|].
  destruct (on_view_out (InspectContainer (cm (base c)) (sbContainerID s)) c tr)
    as (c0 & Hs & Hp & Hh); [apply keeps_sandboxes_quiet; quiet|].
  set (r := result _ _ _) in Hp, Hh. set (tr1 := trace_after _ _ _) in Hp, Hh.
  exists (set_obj k (refreshed r) c0), tr1.
  assert (wf c0) as Hwf0 by by eapply same_store_wf.
  rewrite bind_run, Hp, modify_run, bind_run. change (cm (view c)) with (cm (base c)).
  rewrite Hh, bind_run, modify_run, ret_run, obj_set_obj, decide_True by done.
  rewrite (view_set_obj name), (same_store_obj _ _ k Hs) by (done || by destruct Hs as [-> _]).
  split_and!; [done..| | |].
  - apply wf_set_obj; [by destruct r|done].
  - by destruct Hs as [Hr _].
  - intros k' Hne. by rewrite obj_set_obj, decide_False, (same_store_obj _ _ k' Hs).
Qed.

Lemma refresh_refs_run l : ∀ c tr,
  wf c → NoDup l.*1 → (∀ n s, (n, s) ∈ l → sandboxes (view c) !! n = Some s) →
  ∃ ls c' tr', refresh_refs l.*1 c tr = (ls, c', tr') ∧
    refresh l (view c) tr = (obj c' <$> ls, view c', tr') ∧ wf c' ∧
    (∀ n k, n ∉ l.*1 → refs c !! n = Some k → obj c' k = obj c k).
Proof.
  induction l as [|[name s] l IH]; intros c tr Hwf Hnd Hl; [by eexists [], c, tr|].
  cbn [fmap list_fmap fst] in Hnd. apply NoDup_cons in Hnd as [Hnotin Hnd].
  assert (∃ k, refs c !! name = Some k ∧ obj c k = s) as (k & Hk & <-).
  { specialize (Hl name s (list_elem_of_here _ _)). rewrite view_lookup in Hl.
    destruct (refs c !! name) as [k|]; [|done]. exists k. split; [done|]. by injection Hl. }
  destruct (refresh_round name k c tr Hwf Hk) as (c1 & tr1 & Hp & Hh & Hwf1 & Hr1 & Hobj1).
  destruct (IH c1 tr1) as (ls & c' & tr' & Hp' & Hh' & Hwf' & Hobj'); [done..| |].
  { intros n s Hin. rewrite view_lookup, Hr1. specialize (Hl n s (list_elem_of_further _ _ _ Hin)).
    rewrite view_lookup in Hl. destruct (refs c !! n) as [k'|] eqn:Hn; [|done].
    rewrite <- Hl. cbn. rewrite Hobj1; [done|]. intros ->.
    apply Hnotin, list_elem_of_fmap. exists (n, s).
    split; [|done]. exact (wf_inj c name n k Hwf Hk Hn). }
  exists (k :: ls), c', tr'. cbn [refresh_refs refresh fmap list_fmap fst].
  split; [|split; [|split; [done|]]].
  - rewrite bind_run, get_run, Hk, bind_run, Hp, bind_run, Hp'. done.
  - rewrite bind_run, get_run, bind_run, Hh, bind_run, Hh', ret_run.
    by rewrite (Hobj' name k) by (done || by rewrite Hr1).
  - intros n k' [Hne Hn]%not_elem_of_cons Hk'.
    rewrite (Hobj' n k') by (done || by rewrite Hr1). apply Hobj1. intros ->.
    apply Hne. exact (wf_inj c n name k Hwf Hk' Hk).
Qed.

Lemma sim_list `{!MapOrderOk} c : wf c → simulates list_proc handleListRuntimes c.
Proof.
  intros Hwf tr. unfold handleListRuntimes. rewrite bind_run, get_run, bind_run.
  destruct (refresh_refs_run (map_order (sandboxes (view c))) c tr Hwf)
    as (ls & c' & tr' & Hp & Hh & Hwf' & _).
  - rewrite (map_order_perm _ _). apply NoDup_fst_map_to_list.
  - intros n s. by rewrite (map_order_perm _ _), elem_of_map_to_list.
  - rewrite Hh. unfold result, state_after, trace_after, list_proc. cbn [alone].
    rewrite !bind_run, get_run, bind_run, Hp, ret_run. cbn. by rewrite <- list_fmap_compose.
Qed.

Lemma sim_atomic h c : inert h → wf c → simulates (atomic_proc h) h c.
Proof.
  intros Hh Hwf tr. destruct (on_view_out h c tr) as (c' & Hs & Hp & Hv);
    [by apply keeps_sandboxes_inert|].
  rewrite Hv. unfold atomic_proc, result at 2, state_after, trace_after at 2. cbn [alone].
  rewrite bind_run, Hp, ret_run. split; [done|]. by eapply same_store_wf.
Qed.

(** What relates the process of a request and its handler, if it has one. *)
Definition paired (R : Proc → M Daemon Reply → Prop) (o : option Proc) (o' : option (M Daemon Reply)) :=
  match o, o' with Some p, Some h => R p h | None, None => True | _, _ => False end.

Lemma paired_if R (b : bool) o1 o2 o1' o2' :
  (b = true → paired R o1 o1') → (b = false → paired R o2 o2') →
  paired R (if b then o1 else o2) (if b then o1' else o2').
Proof. destruct b; auto. Qed.

Lemma proc_of_simulates `{!MapOrderOk} r c :
  wf c → paired (λ p h, simulates p h c) (proc_of r) (route r).
Proof.
  intros Hwf. unfold proc_of. destruct (about_runtimes r) eqn:Hr; cycle 1.
  { apply routed_inert in Hr. destruct (route r) as [h|]; [by apply sim_atomic|done]. }
  destruct r as [m p b]. apply bool_decide_eq_true in Hr. unfold route.
  cbn [apiPath apiMethod apiBody] in *. destruct p as [|x p]; [done|]. injection Hr as ->.
  change (bool_decide ("runtime" = "runtime")) with true.
  change (bool_decide ("runtime" = "daemon")) with false.
  destruct p as [|y [|z [|? ?]]]; [| | |done]; cbn [andb].
  - repeat (apply paired_if; intros ?); try done; cbn [paired]; auto using sim_create, sim_list.
  - repeat (apply paired_if; intros ?); try done; cbn [paired]; auto using sim_get_runtime, sim_delete.
  - destruct (bool_decide (y ≠ "")); cbn [andb]; [|done].
    repeat (apply paired_if; intros ?); try done; cbn [paired]; auto using sim_start, sim_stop.
Qed.

(** C17. A request that runs alone does what its handler does: the same reply,
    the same calls and the same sandboxes, and the names of the map keep leading
    to sandboxes of those names.  So what is proved of the handlers holds of the
    sections that they are taken apart into, whenever no other request runs. *)
Theorem request_alone `{!MapOrderOk} r c tr (Hwf : wf c) :
  match proc_of r, route r with
  | Some p, Some h =>
      let '(reply, c', tr') := alone p c tr in h (view c) tr = (reply, view c', tr') ∧ wf c'
  | None, None => True
  | _, _ => False
  end.
Proof.
  pose proof (proc_of_simulates r c Hwf) as Hs.
  destruct (proc_of r) as [p|], (route r) as [h|]; [|done..].
  specialize (Hs tr). unfold result, state_after, trace_after in Hs.
  by destruct (alone p c tr) as [[reply c'] tr'].
Qed.
End Alone.

(** ** Requests together *)

(** What a sandbox is created with, its container left out. *)
Definition as_created (s : SandboxState) : SandboxState := with_container "" false "" s.

(** Sandboxes come and change, and stay what they were created as. *)
Definition extends (c c' : Shared) : Prop :=
  ∀ l s, heap c !! l = Some s → ∃ s', heap c' !! l = Some s' ∧ as_created s' = as_created s.

#[export] Instance extends_preorder : PreOrder extends.
Proof.
  split; [intros c l s Hs; by exists s|].
  intros c1 c2 c3 H12 H23 l s (s' & Hs' & E)%H12. apply H23 in Hs' as (s'' & ? & ?).
  exists s''. split; [done|]. by etrans.
Qed.

Lemma as_created_name s s' : as_created s' = as_created s → sbName s' = sbName s.
Proof. intros E. by injection E. Qed.

(** A process whose sections keep the shared state well-formed and its
    sandboxes as created, whatever runs between them. *)
#[warnings="-register-all"]
Inductive safe : Shared → Proc → Prop :=
  | safe_done c reply : safe c (Done reply)
  | safe_sec c m :
      (∀ c' tr, extends c c' → wf c' →
        extends c' (state_after m c' tr) ∧ wf (state_after m c' tr) ∧
        safe (state_after m c' tr) (result m c' tr)) →
      safe c (Sec m).

Lemma safe_extends c c' p : extends c c' → safe c p → safe c' p.
Proof.
  intros He Hs. destruct Hs as [c reply|c m Hm]; constructor. intros c2 tr He2. apply Hm. by etrans.
Qed.

Definition safe_pool (x : Shared * trace * list Proc) : Prop := wf x.1.1 ∧ Forall (safe x.1.1) x.2.

Lemma step_safe x y : step x y → safe_pool x → extends x.1.1 y.1.1 ∧ safe_pool y.
Proof.
  intros [c tr l1 m l2 p c' tr' Hm] [Hwf Hps]. cbn [fst snd] in *.
  apply Forall_app in Hps as [H1 [Hs H2]%Forall_cons]. inversion_clear Hs as [|? ? Hsec].
  destruct (Hsec c tr) as (He & Hwf' & Hp); [done..|].
  unfold state_after, result in He, Hwf', Hp. rewrite Hm in He, Hwf', Hp. cbn in He, Hwf', Hp.
  split; [done|]. split; [done|]. cbn [fst snd]. rewrite Forall_app, Forall_cons.
  split_and!; [|done|]; eapply Forall_impl; try done; intros q; by apply safe_extends.
Qed.

Lemma steps_safe x y : rtc step x y → safe_pool x → extends x.1.1 y.1.1 ∧ safe_pool y.
Proof.
  induction 1 as [|x y z Hxy _ IH]; [done|]. intros Hx.
  destruct (step_safe x y Hxy Hx) as [He Hy]. destruct (IH Hy) as [He' Hz].
  split; [by etrans|done].
Qed.

(** *** The processes are safe *)

Lemma extends_heap c c' : heap c' = heap c → extends c c'.
Proof. intros Hh l s Hs. exists s. by rewrite Hh. Qed.

Lemma extends_same_store c c' : same_store c c' → extends c c'.
Proof. intros [_ Hh]. by apply extends_heap. Qed.

Lemma extends_set_obj l f c : (∀ s, as_created (f s) = as_created s) → extends c (set_obj l f c).
Proof.
  intros Hf l' s Hs. unfold set_obj. cbn [heap]. destruct (decide (l' = l)) as [->|Hne].
  - exists (f (obj c l)). split; [apply lookup_insert_eq|]. unfold obj. by rewrite Hs, Hf.
  - exists s. by rewrite lookup_insert_ne.
Qed.

Lemma extends_add_obj name s c : extends c (add_obj name s c).
Proof.
  intros l s' Hs'. exists s'. split; [|done]. unfold add_obj. cbn [heap].
  by rewrite lookup_insert_ne by (symmetry; by eapply fresh_obj).
Qed.

Section Safe.
Context `{World, UrlErrors, JsonErrors, UnicodeFold, MapOrder, TimeFormat}.

(** A section that is safe to run from [c]. *)
Definition safe_from (m : M Shared Proc) (c : Shared) : Prop := ∀ tr,
  extends c (state_after m c tr) ∧ wf (state_after m c tr) ∧
  safe (state_after m c tr) (result m c tr).

Lemma safe_section c m :
  (∀ c', extends c c' → wf c' → safe_from m c') → safe c (Sec m).
Proof. intros Hm. constructor. intros c' tr He Hwf. by apply Hm. Qed.

Lemma safe_ret p c : wf c → safe c p → safe_from (mret p) c.
Proof. intros Hwf Hp tr. by split. Qed.

Lemma safe_get k c : safe_from (k c) c → safe_from (c ← get; k c) c.
Proof. done. Qed.

Lemma safe_call {A} (m : M Daemon A) k c :
  keeps_sandboxes m → wf c →
  (∀ x c', same_store c c' → wf c' → safe_from (k x) c') → safe_from (x ← on_view m; k x) c.
Proof.
  intros Hm Hwf Hk tr. destruct (on_view_out m c tr Hm) as (c' & Hs & Hp & _).
  destruct (Hk (result m (view c) tr) c' Hs (same_store_wf _ _ Hs Hwf) (trace_after m (view c) tr))
    as (He & Hrest).
  unfold state_after, result. rewrite bind_run, Hp. split; [|exact Hrest].
  etrans; [by apply extends_same_store|exact He].
Qed.

Lemma safe_modify f m c :
  extends c (f c) → safe_from m (f c) → safe_from (modify f;; m) c.
Proof.
  intros He Hm tr. destruct (Hm tr) as (He' & Hrest). split; [|exact Hrest]. by etrans.
Qed.

Lemma safe_reply_with c f : safe c (reply_with f).
Proof. apply safe_section. intros c' _ Hwf. by apply safe_get, safe_ret; [|constructor]. Qed.

Lemma safe_save c p : safe c p → safe c (save_then p).
Proof.
  intros Hp. apply safe_section. intros c1 He1 Hwf1. apply safe_get, safe_ret; [done|].
  apply safe_section. intros c2 He2 Hwf2. apply safe_call; [by intros d tr|done|].
  intros _ c3 Hs3 Hwf3. apply safe_ret; [done|]. eapply safe_extends, Hp.
  etrans; [exact He1|]. etrans; [exact He2|by apply extends_same_store].
Qed.

(** [l] is, and stays, the sandbox that was found under the name. *)
Definition points (c : Shared) (name : string) (l : nat) : Prop :=
  ∃ s, heap c !! l = Some s ∧ sbName s = name.

Lemma points_extends c c' name l : extends c c' → points c name l → points c' name l.
Proof.
  intros He (s & (s' & Hs' & E)%He & <-). exists s'. split; [done|]. by apply as_created_name.
Qed.

Lemma wf_set_ref c name l : wf c → points c name l → wf (set_ref name l c).
Proof.
  intros Hwf Hp n k. unfold set_ref. cbn [refs heap].
  intros [[<- <-]|[_ Hl]]%lookup_insert_Some; [exact Hp|by apply Hwf].
Qed.

Lemma safe_lookup c name k :
  (∀ c' l, extends c c' → points c' name l → safe c' (k l)) → safe c (with_ref name k).
Proof.
  intros Hk. unfold with_ref. case_decide; [constructor|].
  apply safe_section. intros c' He Hwf. apply safe_get, safe_ret; [done|].
  destruct (refs c' !! name) as [l|] eqn:Hl; [|constructor]. apply Hk; [done|by apply Hwf].
Qed.

(** Changing a sandbox and putting it back under its name. *)
Lemma safe_update c name l f p :
  points c name l → (∀ s, as_created (f s) = as_created s) → (∀ c', extends c c' → safe c' p) →
  safe c (Sec (modify (set_obj l f);; modify (set_ref name l);; mret p)).
Proof.
  intros Hl Hf Hp. apply safe_section. intros c1 He1 Hwf1.
  assert (extends c1 (set_obj l f c1)) as He2 by by apply extends_set_obj.
  apply safe_modify; [done|]. apply safe_modify; [by apply extends_heap|]. apply safe_ret.
  - apply wf_set_ref.
    + apply wf_set_obj; [|done]. intros s. by apply as_created_name.
    + eapply points_extends, points_extends, Hl; done.
  - apply Hp. etrans; [exact He1|exact He2].
Qed.

Ltac safe_quiet := apply safe_call; [apply keeps_sandboxes_quiet; quiet|done|].

Lemma safe_create c body : safe c (create_proc body).
Proof.
  unfold create_proc. destruct (decode_request _ _ _ _) as [e|req]; [constructor|].
  case_decide; [constructor|]. case_decide; [constructor|].
  apply safe_section. intros c1 _ Hwf1. apply safe_get, safe_ret; [done|].
  destruct (refs c1 !! RuntimeName req); [constructor|].
  apply safe_section. intros c2 _ Hwf2. safe_quiet. intros t1 c3 _ Hwf3.
  safe_quiet. intros t2 c4 _ Hwf4. apply safe_get, safe_modify; [apply extends_add_obj|].
  apply safe_ret; [by apply wf_add_obj|]. apply safe_save, safe_reply_with.
Qed.

Lemma safe_split {A} (m : M Daemon A) k c :
  keeps_sandboxes m → (∀ x c', extends c c' → safe c' (k x)) → safe c (section m k).
Proof.
  intros Hm Hk. apply safe_section. intros c1 He1 Hwf1. apply safe_call; [done|done|].
  intros x c2 Hs2 Hwf2. apply safe_ret; [done|]. apply Hk.
  etrans; [exact He1|by apply extends_same_store].
Qed.

(** Sections behind which the same process waits, whatever they find. *)
Ltac safe_sections :=
  repeat first
    [ match goal with Hk : _ |- safe _ (?k ()) => apply Hk; by repeat (etrans; [eassumption|]) end
    | apply safe_split; [first [by intros ??|apply keeps_sandboxes_quiet; quiet]|intros ???]
    | case_match ].

Lemma safe_remove_named name k c :
  (∀ c', extends c c' → safe c' (k ())) → safe c (remove_named name k).
Proof. intros Hk. unfold remove_named. safe_sections. Qed.

Lemma safe_push_to payload endpoint name k c :
  (∀ c', extends c c' → safe c' (k ())) → safe c (push_to payload endpoint name k).
Proof. intros Hk. unfold push_to. safe_sections. Qed.

Lemma safe_push_to_all payload endpoint names k : ∀ c,
  (∀ c', extends c c' → safe c' (k ())) → safe c (push_to_all payload endpoint names k).
Proof.
  induction names as [|name names IH]; intros c Hk; cbn [push_to_all]; [by apply Hk|].
  apply safe_push_to. intros c1 He1. apply IH. intros c2 He2. apply Hk. by etrans.
Qed.

Lemma safe_push cid c : safe c (start_push cid).
Proof.
  unfold start_push, push_sections. apply safe_split; [by intros ??|]. intros d c1 _.
  case_decide; [constructor|]. apply safe_split; [by intros ??|]. intros d' c2 _.
  apply safe_split; [by intros ??|]. intros d'' c3 _. apply safe_push_to_all. constructor.
Qed.

Lemma safe_delete_sidecar name c : safe c (delete_sidecar name).
Proof. apply safe_remove_named. intros. apply safe_save. constructor. Qed.

Lemma safe_delete_container name l c : safe c (delete_container name l).
Proof.
  apply safe_section. intros c1 _ Hwf1. apply safe_get. case_decide.
  - apply safe_ret; [done|]. apply safe_remove_named. intros. apply safe_delete_sidecar.
  - safe_quiet. intros r c2 _ Hwf2. apply safe_ret; [done|].
    destruct r; [apply safe_delete_sidecar|]. apply safe_section. intros c3 _ Hwf3. apply safe_get.
    safe_quiet. intros _ c4 _ Hwf4. apply safe_ret; [done|apply safe_delete_sidecar].
Qed.

Lemma safe_delete c name : safe c (delete_proc name).
Proof.
  unfold delete_proc. case_decide; [constructor|].
  apply safe_section. intros c1 _ Hwf1. apply safe_get.
  destruct (refs c1 !! name) as [l|]; [|apply safe_ret; [done|constructor]].
  apply safe_modify; [by apply extends_heap|]. apply safe_ret; [by apply wf_drop_ref|].
  apply safe_delete_container.
Qed.

Lemma safe_start_commit c name l cid : points c name l → safe c (start_commit name l cid).
Proof. intros Hl. apply safe_update; [done|done|]. intros c1 _. apply safe_save, safe_push. Qed.

Lemma safe_start_create c name l : points c name l → safe c (start_create name l).
Proof.
  intros Hl. apply safe_section. intros c1 He1 Hwf1. apply safe_get. safe_quiet.
  intros [e|x] c2 Hs2 Hwf2; (apply safe_ret; [done|]); [constructor|].
  apply safe_split; [apply keeps_sandboxes_quiet; quiet|]. intros [e|u] c3 He3; [constructor|].
  apply safe_start_commit. eapply points_extends, Hl. etrans; [exact He1|].
  etrans; [by apply extends_same_store|done].
Qed.

Lemma safe_start c name : safe c (start_proc name).
Proof.
  apply safe_lookup. intros c1 l _ Hl. apply safe_section. intros c2 He2 Hwf2.
  apply safe_get, safe_ret; [done|]. case_match; [constructor|].
  apply safe_section. intros c3 He3 Hwf3. apply safe_get, safe_call; [|done|].
  { unfold set_own_secrets. case_decide; [apply keeps_sandboxes_quiet; quiet|].
    apply keeps_sandboxes_inert, inert_SetSecrets. }
  intros _ c4 Hs4 Hwf4. apply safe_ret; [done|]. apply safe_start_create.
  eapply points_extends, Hl. etrans; [exact He2|]. etrans; [exact He3|by apply extends_same_store].
Qed.

Lemma safe_stop c name : safe c (stop_proc name).
Proof.
  apply safe_lookup. intros c1 l _ Hl. apply safe_section. intros c2 He2 Hwf2.
  apply safe_get. safe_quiet. intros _ c3 Hs3 Hwf3. apply safe_ret; [done|].
  apply safe_update; [|done|].
  - eapply points_extends, Hl. etrans; [exact He2|by apply extends_same_store].
  - intros c4 _. apply safe_save. constructor.
Qed.

(** Code that keeps the shared state well-formed and its sandboxes as created. *)
Definition stays {A} (m : M Shared A) : Prop := ∀ c tr, wf c →
  extends c (state_after m c tr) ∧ wf (state_after m c tr).

Lemma stays_ret {A} (x : A) : stays (mret x).
Proof. done. Qed.

Lemma stays_bind {A B} (m : M Shared A) (k : A → M Shared B) :
  stays m → (∀ x, stays (k x)) → stays (m ≫= k).
Proof.
  intros Hm Hk c tr Hwf. destruct (Hm c tr Hwf) as [He Hwf']. unfold state_after in *.
  rewrite bind_run. destruct (m c tr) as [[x c'] tr']. destruct (Hk x c' tr' Hwf') as [He' ?].
  split; [|done]. by etrans.
Qed.

Lemma stays_on_view {A} (m : M Daemon A) : quiet m → stays (on_view m).
Proof.
  intros Hm c tr Hwf. destruct (on_view_out m c tr) as (c' & Hs & Hp & _);
    [by apply keeps_sandboxes_quiet|]. unfold state_after. rewrite Hp.
  split; [by apply extends_same_store|by eapply same_store_wf].
Qed.

Lemma stays_refresh names : stays (refresh_refs names).
Proof.
  induction names as [|name names IH]; cbn [refresh_refs]; [apply stays_ret|].
  apply stays_bind; [done|]. intros c. destruct (refs c !! name) as [l|]; [|done].
  apply stays_bind; [|intros _; apply stays_bind; [done|intros; apply stays_ret]].
  case_decide; [apply stays_ret|]. apply stays_bind; [apply stays_on_view; quiet|].
  intros r c' tr Hwf. split; [apply extends_set_obj|apply wf_set_obj]; by destruct r.
Qed.

Lemma safe_list c : safe c list_proc.
Proof.
  apply safe_section. intros c1 _ Hwf1. apply safe_get. intros tr.
  destruct (stays_refresh (fst <$> map_order (sandboxes (view c1))) c1 tr Hwf1) as [He Hwf2].
  unfold state_after, result in *. rewrite bind_run.
  destruct (refresh_refs _ c1 tr) as [[ls c2] tr2]. split_and!; [done..|]. apply safe_reply_with.
Qed.

Lemma safe_atomic h c : inert h → safe c (atomic_proc h).
Proof.
  intros Hh. apply safe_section. intros c1 _ Hwf1.
  apply safe_call; [by apply keeps_sandboxes_inert|done|]. intros reply c2 _ Hwf2.
  apply safe_ret; [done|constructor].
Qed.

Lemma safe_proc_of r c p : proc_of r = Some p → safe c p.
Proof.
  unfold proc_of. destruct (about_runtimes r) eqn:Hr.
  - repeat case_match; intros [= <-]; auto using safe_create, safe_list, safe_delete, safe_start, safe_stop.
    apply safe_lookup. intros. apply safe_reply_with.
  - apply routed_inert in Hr. destruct (route r) as [h|]; [|done]. intros [= <-]. by apply safe_atomic.
Qed.

(** The requests that a daemon has received. *)
Definition received (ps : list Proc) : Prop := Forall (λ p, ∃ r, proc_of r = Some p) ps.

(** C18. However requests interleave, the names of the map lead to sandboxes of
    those names, and every sandbox keeps what it was created with (its
    identifier, image, workspace, labels, secrets and date), whatever happens to
    its container. *)
Theorem interleaving_invariant ps c tr c' tr' ps'
    (Hwf : wf c) (Hps : received ps) (Hrun : rtc step (c, tr, ps) (c', tr', ps')) :
  wf c' ∧ extends c c'.
Proof.
  apply steps_safe in Hrun as [He [Hwf' _]]; [done|]. split; [done|].
  eapply Forall_impl; [exact Hps|]. intros p [r Hr]. by eapply safe_proc_of.
Qed.
End Safe.

(** *** What interleavings lose *)

(** Induction over processes. *)
Lemma Proc_induction (P : Proc → Prop) :
  (∀ reply, P (Done reply)) → (∀ m, (∀ c tr, P (result m c tr)) → P (Sec m)) → ∀ p, P p.
Proof.
  intros Hdone Hsec. fix IH 1. intros [reply|m]; [apply Hdone|]. apply Hsec. intros c tr.
  unfold result. destruct (m c tr) as [[q ?] ?]. apply IH.
Qed.

(** One of the processes runs to its end while the others wait. *)
Lemma run_alone l1 p l2 : ∀ c tr reply c' tr' y,
  alone p c tr = (reply, c', tr') → rtc step (c', tr', l1 ++ Done reply :: l2) y →
  rtc step (c, tr, l1 ++ p :: l2) y.
Proof.
  induction p as [reply0|m IH] using Proc_induction; intros c tr reply c' tr' y; cbn [alone].
  { by intros [= <- <- <-]. }
  specialize (IH c tr). unfold result in IH. destruct (m c tr) as [[p c1] tr1] eqn:Hm.
  intros Ha Hy. eapply rtc_l; [by apply step_section|]. by eapply IH.
Qed.

(** One of them takes one section. *)
Lemma run_section l1 m l2 p c tr c' tr' y :
  m c tr = (p, c', tr') → rtc step (c', tr', l1 ++ p :: l2) y → rtc step (c, tr, l1 ++ Sec m :: l2) y.
Proof. intros Hm Hy. eapply rtc_l; [by apply step_section|exact Hy]. Qed.

Section Races.
Context `{World, UrlErrors, JsonErrors, UnicodeFold, MapOrder, TimeFormat}.

(** The requests that pass the validation of their fields. *)
Definition asks_for (body : bytes) (req : CreateSpec) : Prop :=
  decode_request "CreateRuntimeRequest" zero_spec dec_create_request body = inr req ∧
  RuntimeName req ≠ "" ∧ WorkspaceDir req ≠ "".

Lemma create_proc_asks body req : asks_for body req → create_proc body = create_check req.
Proof. intros (Hdec & Hn & Hw). unfold create_proc. by rewrite Hdec, !decide_False. Qed.

Lemma create_check_free req c tr :
  refs c !! RuntimeName req = None →
  (c ← get; mret (match refs c !! RuntimeName req with
                  | Some _ => Done (writeError 409 ("sandbox already exists: " +:+ RuntimeName req))
                  | None => create_insert req
                  end)) c tr = (create_insert req, c, tr).
Proof. intros Hfree. by rewrite bind_run, get_run, Hfree. Qed.

(** The section that inserts: what is left is to encode, to write and to answer. *)
Lemma create_insert_run req c tr :
  wf c → ∃ s m c' tr' l,
    create_insert req = Sec m ∧
    m c tr = (save_then (reply_with (λ c, writeJSON 201 (sandbox_json (obj c l)))), c', tr') ∧
    sbWorkspace s = WorkspaceDir req ∧ wf c' ∧ heap c' !! l = Some s ∧ heap c ⊆ heap c' ∧
    view c' = set_sandboxes (insert (RuntimeName req) s) (view c).
Proof.
  intros Hwf. set (t1 := answer tr TimeNow). set (t2 := answer (tr ++ [TimeNow]) TimeNow).
  set (c0 := mkShared (view c) (refs c) (heap c)). set (s := new_sandbox req t1 t2).
  eexists s, _, (add_obj (RuntimeName req) s c0), ((tr ++ [TimeNow]) ++ [TimeNow]),
    (fresh (dom (heap c))).
  split; [reflexivity|]. split; [reflexivity|]. split; [done|].
  assert (wf c0) as Hwf0 by done. split_and!.
  - by apply wf_add_obj.
  - apply lookup_insert_eq.
  - apply insert_subseteq. cbn [heap c0]. apply not_elem_of_dom, is_fresh.
  - by rewrite view_add_obj.
Qed.

(** The file of a state, written. *)
Definition save_call (c : Shared) : Ext :=
  WriteFile (state_path (view c)) (marshal_indent (sandboxes_json (sandboxes (view c)))) 420.

(** The write behind [c], from a state that may have moved on. *)
Lemma write_run c0 c p tr :
  ∃ c', (on_view (call (save_call c0));; mret p : M Shared Proc) c tr = (p, c', tr ++ [save_call c0]) ∧
    same_store c c' ∧ view c' = view c.
Proof. by exists (mkShared (view c) (refs c) (heap c)). Qed.

Lemma alone_save p c tr :
  ∃ c', alone (save_then p) c tr = alone p c' (tr ++ [save_call c]) ∧
    same_store c c' ∧ view c' = view c.
Proof. by exists (mkShared (view c) (refs c) (heap c)). Qed.

Lemma create_insert_alone req c tr :
  wf c → ∃ s c' tr',
    alone (create_insert req) c tr = (writeJSON 201 (sandbox_json s), c', tr') ∧
    sbWorkspace s = WorkspaceDir req ∧ wf c' ∧ heap c ⊆ heap c' ∧
    view c' = set_sandboxes (insert (RuntimeName req) s) (view c).
Proof.
  intros Hwf.
  destruct (create_insert_run req c tr Hwf) as (s & m & c1 & t1 & l & -> & Hm & Hw & Hwf1 & Hs & Hsub & Hv).
  cbn [alone]. rewrite Hm.
  destruct (alone_save (reply_with (λ c, writeJSON 201 (sandbox_json (obj c l)))) c1 t1)
    as (c2 & -> & Hs2 & Hv2).
  exists s, c2. eexists.
  split_and!; [|done|by eapply same_store_wf|by destruct Hs2 as [_ ->]|by rewrite Hv2].
  cbn [alone reply_with]. rewrite bind_run, get_run, ret_run, (same_store_obj _ _ l Hs2).
  unfold obj. by rewrite Hs.
Qed.

Lemma view_free name c : sandboxes (view c) !! name = None → refs c !! name = None.
Proof. rewrite view_lookup. by destruct (refs c !! name). Qed.

(** C24. Two requests that create a sandbox of the same name at the same time can
    both be answered 201: each finds the name free before the other takes it.
    The second sandbox silently replaces the first. *)
Theorem create_race body1 body2 req1 req2 c tr
    (Hwf : wf c) (Hreq1 : asks_for body1 req1) (Hreq2 : asks_for body2 req2)
    (Hsame : RuntimeName req2 = RuntimeName req1)
    (Hfree : sandboxes (view c) !! RuntimeName req1 = None) :
  ∃ c' tr' s1 s2,
    rtc step (c, tr, [create_proc body1; create_proc body2])
      (c', tr', [Done (writeJSON 201 (sandbox_json s1)); Done (writeJSON 201 (sandbox_json s2))]) ∧
    sandboxes (view c') = <[RuntimeName req1 := s2]> (sandboxes (view c)) ∧
    sbWorkspace s1 = WorkspaceDir req1 ∧ sbWorkspace s2 = WorkspaceDir req2.
Proof.
  rewrite (create_proc_asks _ _ Hreq1), (create_proc_asks _ _ Hreq2).
  apply view_free in Hfree as Hfree1.
  destruct (create_insert_alone req1 c tr Hwf) as (s1 & c1 & t1 & Ha1 & Hw1 & Hwf1 & _ & Hv1).
  destruct (create_insert_alone req2 c1 t1 Hwf1) as (s2 & c2 & t2 & Ha2 & Hw2 & _ & _ & Hv2).
  exists c2, t2, s1, s2. split_and!; [| |done..].
  - eapply (run_section []); [by apply create_check_free|].
    eapply (run_section [_] _ []); [apply create_check_free; by rewrite Hsame|].
    eapply (run_alone []); [exact Ha1|]. eapply (run_alone [_] _ []); [exact Ha2|]. apply rtc_refl.
  - rewrite Hv2, Hv1. cbn [sandboxes set_sandboxes]. rewrite Hsame. apply insert_insert_eq.
Qed.

(** C25. A sandbox whose creation was acknowledged can be missing from the state
    file: another request that encoded the sandboxes before writes them after.
    Both sandboxes are in memory then, and one of them is lost in a crash. *)
Theorem stale_file body1 body2 req1 req2 c tr
    (Hwf : wf c) (Hreq1 : asks_for body1 req1) (Hreq2 : asks_for body2 req2)
    (Hdiff : RuntimeName req1 ≠ RuntimeName req2)
    (Hfree1 : sandboxes (view c) !! RuntimeName req1 = None)
    (Hfree2 : sandboxes (view c) !! RuntimeName req2 = None) :
  ∃ c' tr' s1 s2, let saved := <[RuntimeName req1 := s1]> (sandboxes (view c)) in
    rtc step (c, tr, [create_proc body1; create_proc body2])
      (c', tr', [Done (writeJSON 201 (sandbox_json s1)); Done (writeJSON 201 (sandbox_json s2))]) ∧
    sandboxes (view c') = <[RuntimeName req2 := s2]> saved ∧
    last_write (state_path (view c')) tr' = Some (marshal_indent (sandboxes_json saved)) ∧
    saved !! RuntimeName req2 = None.
Proof.
  rewrite (create_proc_asks _ _ Hreq1), (create_proc_asks _ _ Hreq2).
  apply view_free in Hfree1 as Hr1.
  destruct (create_insert_run req1 c tr Hwf) as (s1 & m1 & c1 & t1 & l & E1 & Hm1 & _ & Hwf1 & Hl & _ & Hv1).
  destruct (create_insert_alone req2 c1 t1 Hwf1) as (s2 & c2 & t2 & Ha2 & _ & _ & Hsub & Hv2).
  set (reply1 := reply_with (λ c, writeJSON 201 (sandbox_json (obj c l)))) in Hm1.
  destruct (write_run c1 c2 reply1 t2) as (c3 & Hm3 & Hs3 & Hv3).
  assert (sandboxes (view c1) = <[RuntimeName req1 := s1]> (sandboxes (view c))) as Hm by by rewrite Hv1.
  assert (obj c3 l = s1) as Hobj.
  { rewrite (same_store_obj _ _ l Hs3). unfold obj. by erewrite lookup_weaken by done. }
  exists c3, (t2 ++ [save_call c1]), s1, s2. cbv zeta. rewrite <- Hm. split_and!.
  - eapply (run_section []); [by apply create_check_free|]. rewrite E1.
    eapply (run_section []); [exact Hm1|]. eapply (run_section []); [done|].
    eapply (run_section [_] _ []).
    { apply create_check_free, view_free. by rewrite Hm, lookup_insert_ne. }
    eapply (run_alone [_] _ []); [exact Ha2|].
    eapply (run_section []); [exact Hm3|]. eapply (run_section []); [done|]. cbn [app].
    rewrite Hobj. apply rtc_refl.
  - by rewrite Hv3, Hv2.
  - rewrite last_write_app, Hv3, Hv2. unfold last_write at 1. cbn [omap list_omap save_call].
    by rewrite Hv1, decide_True.
  - by rewrite Hm, lookup_insert_ne.
Qed.

(** A section that only talks to the engine. *)
Lemma engine_section (m : M Daemon ()) p c tr :
  quiet m → ∃ c' tr', (on_view m;; mret p : M Shared Proc) c tr = (p, c', tr') ∧ same_store c c'.
Proof.
  intros Hm. destruct (on_view_out m c tr) as (c' & Hs & Hp & _); [by apply keeps_sandboxes_quiet|].
  exists c', (trace_after m (view c) tr). by rewrite bind_run, Hp, ret_run.
Qed.

(** What a deletion does once the name is gone leaves the sandboxes alone. *)
Lemma delete_sidecar_alone name c tr :
  ∃ c' tr', alone (delete_sidecar name) c tr = (writeHeader 204, c', tr') ∧ heap c' = heap c.
Proof.
  destruct (splits_remove_named ("sbx-" +:+ (name +:+ "-proxy")) c tr) as (x & c1 & t1 & [_ Hh1] & _ & Ha).
  unfold delete_sidecar. rewrite Ha.
  destruct (alone_save (Done (writeHeader 204)) c1 t1) as (c2 & -> & [_ Hh2] & _).
  exists c2. eexists. split; [done|]. by rewrite Hh2.
Qed.

Lemma delete_container_alone name l c tr :
  ∃ c' tr', alone (delete_container name l) c tr = (writeHeader 204, c', tr') ∧ heap c' = heap c.
Proof.
  cbn [alone delete_container]. rewrite bind_run, get_run. case_decide.
  - rewrite ret_run.
    destruct (splits_remove_named ("sbx-" +:+ name) c tr) as (x & c1 & t1 & [_ Hh1] & _ & ->).
    rewrite <- Hh1. apply delete_sidecar_alone.
  - destruct (on_view_out (InspectContainer (cm (view c)) (sbContainerID (obj c l))) c tr)
      as (c1 & [_ <-] & Hp & _); [apply keeps_sandboxes_quiet; quiet|].
    rewrite bind_run, Hp, ret_run. destruct (result _ _ _); [apply delete_sidecar_alone|].
    cbn [alone delete_inspected]. rewrite bind_run, get_run.
    destruct (on_view_out (RemoveContainer (cm (view c)) (sbContainerID (obj c1 l))) c1
      (trace_after (InspectContainer (cm (view c)) (sbContainerID (obj c l))) (view c) tr))
      as (c2 & [_ <-] & Hp2 & _); [apply keeps_sandboxes_quiet; quiet|].
    rewrite bind_run, Hp2, ret_run. apply delete_sidecar_alone.
Qed.

Lemma delete_alone name l c tr :
  name ≠ "" → refs c !! name = Some l →
  ∃ c' tr', alone (delete_proc name) c tr = (writeHeader 204, c', tr') ∧ heap c' = heap c.
Proof.
  intros Hn Hl. unfold delete_proc. rewrite decide_False by done. cbn [alone].
  rewrite bind_run, get_run, Hl, bind_run, modify_run, ret_run.
  exact (delete_container_alone name l (drop_ref name c) tr).
Qed.

(** C26. A deleted sandbox can come back: a request that stops it, overtaken by
    one that deletes it, puts it back into the map and the state file.  Both
    requests are answered 204, and the sandbox stays. *)
Theorem deleted_comes_back name c tr
    (Hname : name ≠ "") (Hthere : is_Some (sandboxes (view c) !! name)) :
  ∃ c' tr' s,
    rtc step (c, tr, [stop_proc name; delete_proc name])
      (c', tr', [Done (writeHeader 204); Done (writeHeader 204)]) ∧
    sandboxes (view c) !! name = Some s ∧
    sandboxes (view c') !! name = Some (stopped s) ∧
    last_write (state_path (view c')) tr' = Some (marshal_indent (sandboxes_json (sandboxes (view c')))).
Proof.
  destruct Hthere as [s Hs]. pose proof Hs as Hs'. rewrite view_lookup in Hs'.
  destruct (refs c !! name) as [l|] eqn:Hl; [injection Hs' as <-|done].
  destruct (engine_section (stop_container (view c) (obj c l)) (stop_commit name l) c tr)
    as (c1 & t1 & Hstop & Hs1); [quiet|].
  destruct (delete_alone name l c1 t1 Hname) as (c2 & t2 & Hdel & Hh2); [by destruct Hs1 as [-> _]|].
  set (c3 := set_ref name l (set_obj l stopped c2)).
  destruct (write_run c3 c3 (Done (writeHeader 204)) t2) as (c4 & Hw & Hs4 & Hv4).
  assert (sandboxes (view c3) !! name = Some (stopped (obj c l))) as Hback.
  { rewrite view_lookup. cbn [refs set_ref c3]. rewrite lookup_insert_eq. cbn.
    change (obj c3 l) with (obj (set_obj l stopped c2) l). rewrite obj_set_obj, decide_True by done.
    f_equal. f_equal. unfold obj. rewrite Hh2. by destruct Hs1 as [_ ->]. }
  exists c4, (t2 ++ [save_call c3]), (obj c l). split_and!; [|done|by rewrite Hv4|].
  - unfold stop_proc, with_ref. rewrite decide_False by done.
    eapply (run_section []); [by rewrite bind_run, get_run, Hl|].
    eapply (run_section []); [exact Hstop|].
    eapply (run_alone [_] _ []); [exact Hdel|].
    eapply (run_section []); [done|]. eapply (run_section []); [done|].
    eapply (run_section []); [exact Hw|]. apply rtc_refl.
  - rewrite last_write_app, Hv4. unfold last_write at 1. cbn [omap list_omap save_call].
    by rewrite decide_True.
Qed.
End Races.

(** ** Concrete instances *)

#[local] Instance demo_engine : World := strict_engine.
#[local] Instance demo_url_errors : UrlErrors := λ u, "parse " +:+ u.
#[local] Instance demo_json_errors : JsonErrors := λ t _, "invalid " +:+ t.
#[local] Instance demo_folding : UnicodeFold := no_unicode_folding.
#[local] Instance demo_order : MapOrder := some_order.
#[local] Instance demo_times : TimeFormat := ns_format.

Definition demo_shared : Shared := mkShared (demo_daemon "/s" ∅) {["box" := 0]} {[0 := demo_sandbox]}.

Lemma demo_wf : wf demo_shared.
Proof. intros name l. cbn [refs demo_shared]. intros [<- <-]%lookup_singleton_Some. by eexists. Qed.

Definition create_body (name workspace : string) : bytes :=
  marshal (JObj [("spec", JObj [("RuntimeName", JStr name); ("WorkspaceDir", JStr workspace)])]).

Lemma demo_asks name workspace :
  name = "one" ∨ name = "two" → workspace = "/w" ∨ workspace = "/v" →
  asks_for (create_body name workspace) (mkCreateSpec name "" workspace "" []).
Proof. by intros [->| ->] [->| ->]. Qed.

Lemma request_alone_witness :
  let r := mkApiRequest "DELETE" ["runtime"; "box"] [] in
  match proc_of r, route r with
  | Some p, Some h =>
      let '(reply, c', tr') := alone p demo_shared [] in
      h (view demo_shared) [] = (reply, view c', tr') ∧ wf c'
  | None, None => True
  | _, _ => False
  end.
Proof. intros r. exact (request_alone r demo_shared [] demo_wf). Defined.

Lemma interleaving_invariant_witness :
  ∃ c' tr' ps', rtc step (demo_shared, [], [delete_proc "box"; stop_proc "box"]) (c', tr', ps') ∧
    refs c' = ∅ ∧ wf c' ∧ extends demo_shared c'.
Proof.
  assert (rtc step (demo_shared, [], [delete_proc "box"; stop_proc "box"])
    (drop_ref "box" demo_shared, [], [delete_container "box" 0; stop_proc "box"])) as Hrun.
  { by eapply (run_section []). }
  exists (drop_ref "box" demo_shared), [], [delete_container "box" 0; stop_proc "box"].
  split; [exact Hrun|]. split; [done|].
  refine (interleaving_invariant _ _ _ _ _ _ demo_wf _ Hrun).
  apply Forall_cons. split; [by exists (mkApiRequest "DELETE" ["runtime"; "box"] [])|].
  apply Forall_cons. split; [by exists (mkApiRequest "POST" ["runtime"; "box"; "stop"] [])|done].
Defined.

Lemma create_race_witness :
  let p1 := create_proc (create_body "one" "/w") in
  let p2 := create_proc (create_body "one" "/v") in
  ∃ c' tr' s1 s2,
    rtc step (demo_shared, [], [p1; p2])
      (c', tr', [Done (writeJSON 201 (sandbox_json s1)); Done (writeJSON 201 (sandbox_json s2))]) ∧
    sandboxes (view c') !! "one" = Some s2.
Proof.
  intros p1 p2.
  destruct (create_race _ _ _ _ demo_shared [] demo_wf (demo_asks "one" "/w" (or_introl eq_refl) (or_introl eq_refl))
    (demo_asks "one" "/v" (or_introl eq_refl) (or_intror eq_refl)) eq_refl eq_refl)
    as (c' & tr' & s1 & s2 & Hrun & Hm & _).
  exists c', tr', s1, s2. split; [exact Hrun|]. rewrite Hm. apply lookup_insert_eq.
Defined.

Lemma stale_file_witness :
  ∃ c' tr' s1 s2,
    rtc step (demo_shared, [], [create_proc (create_body "one" "/w"); create_proc (create_body "two" "/w")])
      (c', tr', [Done (writeJSON 201 (sandbox_json s1)); Done (writeJSON 201 (sandbox_json s2))]) ∧
    is_Some (sandboxes (view c') !! "two") ∧
    last_write (state_path (view c')) tr' =
      Some (marshal_indent (sandboxes_json {["one" := s1; "box" := demo_sandbox]})).
Proof.
  destruct (stale_file _ _ _ _ demo_shared [] demo_wf
    (demo_asks "one" "/w" (or_introl eq_refl) (or_introl eq_refl))
    (demo_asks "two" "/w" (or_intror eq_refl) (or_introl eq_refl)) ltac:(done) eq_refl eq_refl)
    as (c' & tr' & s1 & s2 & Hrun & Hm & Hw & _).
  exists c', tr', s1, s2. split; [exact Hrun|]. split.
  - rewrite Hm. eexists. apply lookup_insert_eq.
  - exact Hw.
Defined.

Lemma deleted_comes_back_witness :
  ∃ c' tr',
    rtc step (demo_shared, [], [stop_proc "box"; delete_proc "box"])
      (c', tr', [Done (writeHeader 204); Done (writeHeader 204)]) ∧
    is_Some (sandboxes (view c') !! "box").
Proof.
  destruct (deleted_comes_back "box" demo_shared []) as (c' & tr' & s & Hrun & _ & Hb & _);
    [done|by eexists|].
  exists c', tr'. split; [exact Hrun|]. by eexists.
Defined.
