(* ===== verification/PolicyApi.v ===== *)
(** * The policy and secrets of the API

    What the handlers that edit rules and show secrets do to the engine. *)
From S2P Require Export Runtime.

Section PolicyApi.
Context `{World, UrlErrors, JsonErrors, UnicodeFold, MapOrder, TimeFormat}.
Implicit Types (d : Daemon) (tr : trace).

(** ** Engine operations from the daemon *)

Lemma on_policy_run {A} (m : M Engine A) d tr :
  on_policy m d tr = let '(x, pe, tr') := m (dPolicy d) tr in (x, set_policy pe d, tr').
Proof. done. Qed.

Lemma set_policy_same d : set_policy (dPolicy d) d = d.
Proof. by destruct d. Qed.

Lemma set_policy_twice e e' d : set_policy e (set_policy e' d) = set_policy e d.
Proof. done. Qed.

Definition with_rules (rs : list Rule) d : Daemon :=
  set_policy (set_rules rs (nextID (dPolicy d)) (dPolicy d)) d.

(** Removing by name a rule that is in force, and no other has its name. *)
Lemma remove_own before r after d tr :
  rules (dPolicy d) = before ++ r :: after → RuleID r ∉ RuleID <$> before →
  ∃ tr', on_policy (RemoveRule (RuleID r)) d tr = (true, with_rules (before ++ after) d, tr').
Proof.
  intros Hr Hn. rewrite on_policy_run.
  destruct (RemoveRule_cases (RuleID r) (dPolicy d) tr)
    as [(_ & _ & Hnot)|(Hres & l1 & r0 & l2 & Heq & Hid & Hl1 & Hst)].
  { rewrite Hr in Hnot. set_solver. }
  assert (l1 = before ∧ l2 = after) as [-> ->].
  { rewrite Hr in Heq. clear -Hn Hid Hl1 Heq. revert l1 Hl1 Heq.
    induction before as [|x b IH]; intros [|y l1] Hl1 Heq; cbn in Heq.
    - by injection Heq as -> ->.
    - injection Heq as -> _. cbn in Hl1. set_solver.
    - injection Heq as -> _. cbn in Hn. rewrite Hid in Hn. set_solver.
    - injection Heq as -> Heq. cbn in Hn, Hl1. destruct (IH ltac:(set_solver) l1) as [-> ->];
        [set_solver|done|done]. }
  unfold result, state_after in *. destruct (RemoveRule (RuleID r) (dPolicy d) tr) as [[b pe] tr'].
  cbn in Hres, Hst. subst. by eexists.
Qed.

(** ** Deleting all rules *)

Lemma remove_each rs d tr :
  rules (dPolicy d) = rs →
  ∃ tr', for_each rs (λ r, on_policy (RemoveRule (RuleID r));; mret ()) d tr
         = ((), match rs with [] => d | _ => with_rules [] d end, tr').
Proof.
  revert d tr. induction rs as [|r rs IH]; intros d tr Hr; [by eexists|].
  cbn [for_each]. rewrite bind_run, then_ret_run. unfold state_after, trace_after.
  destruct (remove_own [] r rs d tr Hr) as (tr1 & ->); [set_solver|]. cbn [fst snd app].
  destruct (IH (with_rules rs d) tr1 eq_refl) as (tr2 & ->). eexists. by destruct rs.
Qed.

Lemma delete_rules_state d tr :
  state_after handleDeletePolicyRules d tr = with_rules [] d ∨
  (rules (dPolicy d) = [] ∧ state_after handleDeletePolicyRules d tr = d).
Proof.
  unfold state_after, handleDeletePolicyRules. rewrite bind_run.
  change (on_policy ListRules d tr) with (rules (dPolicy d), set_policy (dPolicy d) d, tr).
  rewrite set_policy_same, bind_run.
  destruct (remove_each (rules (dPolicy d)) d tr eq_refl) as (tr1 & ->). rewrite bind_run.
  match goal with |- context [propagatePolicyToSidecars ?x tr1] => set (d1 := x) end.
  destruct quiet_propagate_policy as [Hq _]. specialize (Hq d1 tr1). unfold state_after in Hq.
  destruct (propagatePolicyToSidecars d1 tr1) as [[[] d2] tr2]. cbn in Hq. subst d2.
  rewrite bind_run. change (on_policy ListRules d1 tr2)
    with (rules (dPolicy d1), set_policy (dPolicy d1) d1, tr2).
  rewrite set_policy_same, ret_run. cbn [fst snd]. unfold d1.
  destruct (rules (dPolicy d)) eqn:E; [right; done|left; done].
Qed.

(** ** Presets *)

Lemma Evaluate_rules pe pe' h p sb :
  rules pe = rules pe' → defaultMode pe = defaultMode pe' →
  Evaluate pe h p sb = Evaluate pe' h p sb.
Proof. unfold Evaluate. by intros -> ->. Qed.

(** A deny rule that lists only patterns is of the class without effect. *)
Definition pattern_deny (x : string * string * list string) : Prop :=
  x.1.2 = "deny" ∧ Forall (λ res, isWildcardPattern res = true) x.2.

Lemma pattern_deny_class pe name decision resources scope :
  pattern_deny (name, decision, resources) →
  classify (new_rule pe name decision resources scope) = Some WildcardDeny.
Proof.
  intros [Hd Hr]. cbn in Hd, Hr. subst decision. unfold classify. cbn [RuleDecision new_rule].
  rewrite decide_False, decide_True by done. f_equal.
  assert (ruleIsExact (new_rule pe name "deny" resources scope) = false) as ->; [|done].
  unfold ruleIsExact. cbn [RuleResources new_rule].
  induction Hr as [|res l Hres _ IH]; [done|]. cbn. by rewrite Hres.
Qed.

Lemma add_pattern_denies l d tr :
  Forall pattern_deny l →
  let r := add_presets l d tr in
  defaultMode (dPolicy r.1.2) = defaultMode (dPolicy d) ∧
  filter (λ r, classify r ≠ Some WildcardDeny) (rules (dPolicy r.1.2))
  = filter (λ r, classify r ≠ Some WildcardDeny) (rules (dPolicy d)) ∧
  sandboxes r.1.2 = sandboxes d ∧
  ∃ new, r.2 = tr ++ new ∧ Forall (λ e, ∃ b, e = WriteFile (policyPath (dPolicy d)) b 420) new.
Proof.
  intros Hl. revert d tr. induction Hl as [|[[name decision] resources] l Hx _ IH]; intros d tr.
  - cbn. split_and!; try done. exists []. by rewrite (right_id_L [] (++)).
  - cbv zeta. cbn [add_presets]. rewrite bind_run, on_policy_run, AddRule_run. cbv beta iota zeta.
    match goal with |- context [add_presets l ?d1 ?t1] =>
      set (d' := d1); specialize (IH d1 t1) end.
    cbv zeta in IH. fold d' in IH. destruct (add_presets l d' _) as [[e d2] tr2].
    cbn [fst snd] in *. destruct IH as (Hm & Hf & Hs & new & -> & Hnew).
    split; [by rewrite Hm|]. split; [|split; [by rewrite Hs|]].
    + rewrite Hf. unfold d'. cbn [dPolicy set_policy rules set_rules]. rewrite filter_app.
      rewrite filter_cons_False, filter_nil, app_nil_r; [done|].
      intros Hn. apply Hn. by apply pattern_deny_class.
    + eexists. rewrite <- (assoc_L (++)). split; [reflexivity|]. constructor; [by eexists|]. done.
Qed.

(** C34. The presets [deny-all] and [balanced] protect nothing: they leave every
    rule in force, no decision of the engine changes, and nothing is sent to a
    sidecar - the only calls are the writes of the rules file. *)
Theorem presets_inert body d tr preset (Hmode : defaultMode (dPolicy d) = "balanced")
    (Hbody : decode_request "preset" "" dec_preset body = inr preset)
    (Hpreset : preset ∈ ["deny-all"; "balanced"]) :
  let '(reply, d', tr') := handleSetPolicyProfile body d tr in
  status reply = 200%Z ∧
  (∀ h p sb, (Evaluate (dPolicy d') h p sb).1 = (Evaluate (dPolicy d) h p sb).1) ∧
  ∃ new, tr' = tr ++ new ∧ Forall (λ e, ∃ b, e = WriteFile (policyPath (dPolicy d)) b 420) new.
Proof.
  unfold handleSetPolicyProfile. rewrite Hbody.
  assert (∃ l, preset_rules preset = Some l ∧ Forall pattern_deny l) as (l & -> & Hl).
  { apply elem_of_cons in Hpreset as [->|Hp];
      [|apply list_elem_of_singleton in Hp as ->]; eexists; (split; [reflexivity|]);
      repeat constructor. }
  rewrite bind_run. pose proof (add_pattern_denies l d tr Hl) as Hadd. cbv zeta in Hadd.
  assert ((add_presets l d tr).1.1 = None) as Hnone.
  { clear. revert d tr. induction l as [|[[name decision] resources] l IH]; intros d tr; [done|].
    cbn [add_presets]. rewrite bind_run, on_policy_run, AddRule_run. cbv beta iota zeta. apply IH. }
  destruct (add_presets l d tr) as [[e d'] tr']. cbn [fst snd] in *. subst e. rewrite ret_run.
  destruct Hadd as (Hm & Hf & _ & Hnew). split; [done|]. split; [|done]. intros h p sb.
  rewrite <- (wildcard_deny_ignored (dPolicy d')), <- (wildcard_deny_ignored (dPolicy d))
    by congruence.
  f_equal. by apply Evaluate_rules; cbn.
Qed.

(** ** Removing by resource *)

Lemma remove_matching_spec resources rs before d tr :
  rules (dPolicy d) = before ++ rs → NoDup (RuleID <$> rules (dPolicy d)) →
  let r := remove_matching resources rs d tr in
  r.1.1 = Z.of_nat (length (filter (λ r, lists_resource resources r = true) rs)) ∧
  rules (dPolicy r.1.2) = before ++ filter (λ r, lists_resource resources r = false) rs ∧
  set_policy (dPolicy d) r.1.2 = d.
Proof.
  revert before d tr. induction rs as [|r rs IH]; intros before d tr Hr Hnd.
  - cbn. by rewrite Hr, set_policy_same.
  - cbn [remove_matching]. cbv zeta. rewrite !filter_cons.
    destruct (lists_resource resources r) eqn:El.
    + rewrite decide_True, decide_False by done. rewrite bind_run.
      assert (RuleID r ∉ RuleID <$> before) as Hn.
      { rewrite Hr, fmap_app, fmap_cons in Hnd. apply NoDup_app in Hnd as (_ & Hd & _).
        intros Hin. apply (Hd _ Hin). by left. }
      destruct (remove_own before r rs d tr Hr Hn) as (tr1 & ->). rewrite bind_run.
      specialize (IH before (with_rules (before ++ rs) d) tr1 eq_refl). cbv zeta in IH.
      destruct (remove_matching resources rs _ tr1) as [[n d2] tr2]. cbn [fst snd] in *.
      rewrite ret_run. cbn [fst snd]. destruct IH as (-> & Hr2 & Hd).
      * rewrite Hr, fmap_app, fmap_cons in Hnd. cbn. rewrite fmap_app.
        apply NoDup_app in Hnd as (H1' & H2' & H3'). apply NoDup_cons in H3' as [_ H3'].
        apply NoDup_app. split; [done|]. split; [|done]. intros x Hx Hx'. apply (H2' x Hx). by right.
      * split; [cbn; lia|]. split; [done|].
        rewrite <- (set_policy_same d) at 2. rewrite <- (set_policy_twice (dPolicy d) (dPolicy (with_rules (before ++ rs) d)) d2).
        rewrite Hd. done.
    + rewrite decide_False, decide_True by done. rewrite bind_run, ret_run, bind_run.
      specialize (IH (before ++ [r]) d tr). cbv zeta in IH.
      destruct (remove_matching resources rs d tr) as [[n d2] tr2]. cbn [fst snd] in *.
      rewrite ret_run. cbn [fst snd]. rewrite <- !(assoc_L (++)) in IH. by apply IH.
Qed.

(** C35. Removing by resource takes away exactly the rules that list one of the
    resources, whatever else they list, keeps the others in order, and reports
    how many there were, as long as rules have different names. *)
Theorem remove_resource_spec resources d tr (Hnames : NoDup (RuleID <$> rules (dPolicy d))) :
  let '(n, d', _) := removeResourcesByPattern resources d tr in
  n = Z.of_nat (length (filter (λ r, Exists (λ res, res ∈ elems (RuleResources r)) resources)
                          (rules (dPolicy d)))) ∧
  rules (dPolicy d') = filter (λ r, ¬ Exists (λ res, res ∈ elems (RuleResources r)) resources)
                         (rules (dPolicy d)) ∧
  set_policy (dPolicy d) d' = d.
Proof.
  assert (∀ r, lists_resource resources r = true ↔ Exists (λ res, res ∈ elems (RuleResources r)) resources)
    as Hl.
  { intros r. unfold lists_resource. rewrite existsb_exists, Exists_exists.
    split; intros (x & Hx & Hb); exists x; rewrite ?bool_decide_eq_true, ?list_elem_of_In in *; auto. }
  unfold removeResourcesByPattern. rewrite bind_run, on_policy_run.
  change (ListRules (dPolicy d) tr) with (rules (dPolicy d), dPolicy d, tr). cbv beta iota.
  rewrite set_policy_same.
  pose proof (remove_matching_spec resources (rules (dPolicy d)) [] d tr eq_refl Hnames) as Hspec.
  cbv zeta in Hspec. destruct (remove_matching _ _ _ tr) as [[n d'] tr']. cbn [fst snd app] in Hspec.
  destruct Hspec as (-> & -> & Hd). split_and!; [| |done].
  - do 2 f_equal. apply list_filter_iff. intros r. apply Hl.
  - apply list_filter_iff. intros r. rewrite <- Hl. by destruct (lists_resource resources r).
Qed.

(** ** What the listing of secrets shows *)

(** Values that the listing cannot tell apart. *)
Definition looks_like (v v' : string) : Prop :=
  let n := length (to_bytes v) in
  let n' := length (to_bytes v') in
  (v = "" ∧ v' = "") ∨ (0 < n ≤ 4 ∧ 0 < n' ≤ 4) ∨
  (4 < n ∧ 4 < n' ∧ slice_to v 2 = slice_to v' 2 ∧ slice_from v (n - 2) = slice_from v' (n' - 2)).

Lemma redacted_value_looks v v' : looks_like v v' → redacted_value v = redacted_value v'.
Proof.
  unfold redacted_value.
  intros [[-> ->]|[[H1' H2']|(H1' & H2' & H3' & H4')]]; [done| |].
  - repeat case_decide; lia || done.
  - rewrite !decide_True by lia. by rewrite H3', H4'.
Qed.

(** Listing the secrets shows at most four bytes of a value, and none of a
    value of up to four: two daemons with the same secrets up to the middle
    bytes of long values and all bytes of short ones give the same answer. *)
Theorem list_secrets_hides d d' tr
    (Hsame : Forall2 (λ s s', (Target s, EnvName s, Sentinel s) = (Target s', EnvName s', Sentinel s') ∧
                              looks_like (Value s) (Value s'))
               (secrets (dSecrets d)) (secrets (dSecrets d'))) :
  result handleListSecrets d tr = result handleListSecrets d' tr.
Proof.
  change (writeJSON 200 (JArr (redacted_secret <$> secrets (dSecrets d)))
    = writeJSON 200 (JArr (redacted_secret <$> secrets (dSecrets d')))).
  do 2 f_equal. induction Hsame as [|s s' l l' [Heq Hv] _ IH]; [done|].
  injection Heq as Ht He Hs. cbn [fmap list_fmap]. rewrite IH. f_equal.
  unfold redacted_secret. by rewrite Ht, He, Hs, (redacted_value_looks _ _ Hv).
Qed.
End PolicyApi.

(** ** Concrete instances *)

#[local] Instance demo_engine : World := strict_engine.
#[local] Instance demo_url_errors : UrlErrors := λ u, "parse " +:+ u.
#[local] Instance demo_json_errors : JsonErrors := λ t _, "invalid " +:+ t.
#[local] Instance demo_folding : UnicodeFold := no_unicode_folding.
#[local] Instance demo_order : MapOrder := some_order.
#[local] Instance demo_times : TimeFormat := ns_format.

Definition allow_rule : Rule := mkRule "rule-3" "allow" "allow" ["a.org:443"; "b.org:443"] "".
Definition allowing_daemon : Daemon := with_rules [allow_rule] (demo_daemon "/s" ∅).
Definition deny_all_body : bytes := marshal (JObj [("preset", JStr "deny-all")]).

Lemma presets_inert_witness :
  (Evaluate (dPolicy (handleSetPolicyProfile deny_all_body allowing_daemon []).1.2)
     "a.org" "443" "s").1 = DecisionAllow.
Proof.
  assert (defaultMode (dPolicy allowing_daemon) = "balanced") as Hm by reflexivity.
  assert (decode_request "preset" "" dec_preset deny_all_body = inr "deny-all") as Hb
    by (vm_compute; reflexivity).
  pose proof (presets_inert deny_all_body allowing_daemon [] "deny-all" Hm Hb ltac:(by left)) as H.
  destruct (handleSetPolicyProfile deny_all_body allowing_daemon []) as [[reply d'] tr'].
  destruct H as (_ & Hdec & _). cbn [fst snd]. rewrite Hdec. vm_compute. reflexivity.
Defined.

Lemma remove_resource_spec_witness :
  rules (dPolicy (removeResourcesByPattern ["a.org:443"] allowing_daemon []).1.2) = [].
Proof.
  pose proof (remove_resource_spec ["a.org:443"] allowing_daemon []) as H.
  destruct (removeResourcesByPattern _ _ _) as [[n d'] tr']. cbn [fst snd].
  destruct H as (_ & -> & _); [apply NoDup_singleton|]. cbn [rules dPolicy allowing_daemon with_rules
    set_policy set_rules]. rewrite filter_cons_False; [reflexivity|].
  intros Hn. apply Hn. left. left.
Defined.

Definition secret_daemon (v : string) : Daemon :=
  set_secrets (mkSecretManager [mkCustomSecret "t" "E" "S" v]) (demo_daemon "/s" ∅).

Lemma list_secrets_hides_witness :
  result handleListSecrets (secret_daemon "ab12yz") [] = result handleListSecrets (secret_daemon "ab3456yz") [].
Proof.
  apply list_secrets_hides. constructor; [|constructor]. split; [reflexivity|].
  right. right. vm_compute. repeat split; lia.
Defined.
