(* ===== verification/Sidecar.v ===== *)
(** * [cmd/proxy-sidecar]: the sidecar process

    Start-up from flags and environment, the loopback server through which the
    daemon replaces the rules and the secrets of the running proxy, and the
    reaction to signals.  [Proxy] holds the engine and the secret manager that
    the handlers share with the connections. *)
From S2P Require Export Session Wire CA.

(** ** Start-up *)

(** The command line; durations are nanoseconds. *)
Record Flags := mkFlags {
  proxyAddr : string;
  caDir : string;
  policyDir : string;
  secretsFile : string;
  sandboxFlag : string;
  maxConns : Z;
  idleTimeout : Z;
}.

Section Sidecar.
Context `{World, JsonErrors, UnicodeFold}.

(** A directory: the flag, or else the environment, or else the default. *)
Definition directory {S} (flag env name : string) : M S string :=
  if decide (flag = "") then
    v ← call (Getenv env);
    mret (if decide (v = "") then Join ["/etc"; "sbxsandbox"; name] else v)
  else mret flag.

(** [pol.LoadRules(rules)] on an engine of one's own. *)
Definition loaded {S} (pol : Engine) (rs : list Rule) : M S Engine :=
  λ s tr, let '(_, pol', tr') := LoadRules rs pol tr in (pol', s, tr').

(** [PROXY_RULES_JSON], if it is set and well formed, replaces the rules. *)
Definition rules_from_env {S} (pol : Engine) : M S Engine :=
  envRules ← call (Getenv "PROXY_RULES_JSON");
  if decide (envRules = "") then mret pol
  else
    match Unmarshal (to_bytes envRules) ≫= dec_rules [] with
    | Some rs => loaded pol rs
    | None => mret pol
    end.

Definition secrets_from_file {S} (file : string) : M S SecretManager :=
  if decide (file = "") then mret NewSecretManager
  else
    data ← call (ReadFile file);
    mret (match data with
          | inl _ => NewSecretManager
          | inr data =>
              match Unmarshal data ≫= dec_secrets [] with
              | Some ss => mkSecretManager ss
              | None => NewSecretManager
              end
          end).

(** The proxy before it listens. *)
Definition configured (f : Flags) (pol : Engine) (sec : SecretManager) : Proxy :=
  let pxy := SetSandboxName (sandboxFlag f) (NewProxy pol sec (proxyAddr f)) in
  let pxy := SetRawTCPEnabled true (SetSOCKS5Enabled true pxy) in
  let pxy := if (0 <? maxConns f)%Z then SetMaxConnections (maxConns f) pxy else pxy in
  if (0 <? idleTimeout f)%Z then SetRawTCPIdleTimeout (idleTimeout f) pxy else pxy.

Definition started_proxy {S} (pxy : Proxy) : M S (string + Proxy) :=
  λ s tr, let '(err, pxy', tr') := Start pxy tr in
          (match err with Some e => inl e | None => inr pxy' end, s, tr').

Context `{Pem}.

(** [main] up to the signal loop; [log.Fatalf] ends the process. *)
Definition main {S} (f : Flags) : M S (string + CACertManager * Proxy) :=
  ca_dir ← directory (caDir f) "PROXY_CA_DIR" "ca";
  policy_dir ← directory (policyDir f) "PROXY_POLICY_DIR" "policy";
  certManager ←[String.append "Failed to initialize CA: "] NewCACertManager ca_dir;
  pol ←[String.append "Failed to initialize policy: "] NewEngine policy_dir;
  pol ← rules_from_env pol;
  sec ← secrets_from_file (secretsFile f);
  pxy ←[String.append "Failed to start proxy: "] started_proxy (configured f pol sec);
  mret (inr (certManager, pxy)).

(** ** Signals *)

Inductive Signal := SIGHUP | SIGINT | SIGTERM.

(** One round of the loop; [true] ends the process. *)
Definition on_signal (policy_dir : string) (sig : Signal) : M Proxy bool :=
  match sig with
  | SIGHUP => NewEngine policy_dir;; mret false
  | SIGINT | SIGTERM => Stop;; mret true
  end.

(** ** The loopback server *)

Definition replyJSON (j : Json) : Reply := mkReply 200 "application/json" (marshal j ++ [x0a]).

(** [http.Error]. *)
Definition http_error (msg : string) (code : Z) : Reply :=
  mkReply code "text/plain; charset=utf-8" (to_bytes msg ++ [x0a]).

Definition handleHealthz (sandbox : string) : M Proxy Reply :=
  mret (replyJSON (JObj [("sandbox", JStr sandbox); ("status", JStr "healthy")])).

Definition handleReady : M Proxy Reply :=
  p ← get;
  mret (replyJSON (JObj [("proxy_addr", JStr (default "unknown" (Addr p))); ("status", JStr "ready")])).

(** The Prometheus text, line by line. *)
Definition metrics_lines (m : MetricsSnapshot) : list string :=
  let total (protocol : string) (n : Z) :=
    "proxy_connections_total{protocol=" +:+ dq +:+ protocol +:+ dq +:+ "} " +:+ Sprintf_d n in
  ["# HELP proxy_connections_total Total connections by protocol";
   "# TYPE proxy_connections_total counter";
   total "http" (HTTPTotal m); total "connect" (CONNECTTotal m);
   total "socks5" (SOCKS5Total m); total "rawtcp" (RawTCPTotal m);
   "# HELP proxy_connections_denied_total Total connections denied by policy";
   "# TYPE proxy_connections_denied_total counter";
   "proxy_connections_denied_total " +:+ Sprintf_d (DeniedTotal m);
   "# HELP proxy_active_connections Current number of active connections";
   "# TYPE proxy_active_connections gauge";
   "proxy_active_connections " +:+ Sprintf_d (ActiveConns m)].

Definition metrics_text (m : MetricsSnapshot) : bytes :=
  concat ((λ l, to_bytes l ++ [x0a]) <$> metrics_lines m).

Definition handleMetrics : M Proxy Reply :=
  p ← get; mret (mkReply 200 "text/plain; version=0.0.4" (metrics_text (Metrics p))).

Definition dec_rules_request : Dec (list Rule) :=
  dec_struct [field "rules" id (λ v _, v) dec_rules].
Definition dec_reload_secrets : Dec (list CustomSecret) :=
  dec_struct [field "secrets" id (λ v _, v) dec_secrets].

Definition method_not_allowed : Reply := http_error "method not allowed" 405.

Definition handlePolicyReload (method : string) (body : bytes) : M Proxy Reply :=
  if decide (method = "POST") then
    match decode_request "rules" [] dec_rules_request body with
    | inl e => mret (http_error ("invalid JSON: " +:+ e) 400)
    | inr rs =>
        (if decide (rs = []) then mret () else zoom policy set_policy (LoadRules rs));;
        p ← get;
        mret (replyJSON (JObj [("rules", rules_json (rules (policy p))); ("status", JStr "ok")]))
    end
  else mret method_not_allowed.

Definition handleSecretsReload (method : string) (body : bytes) : M Proxy Reply :=
  if decide (method = "POST") then
    match decode_request "secrets" [] dec_reload_secrets body with
    | inl e => mret (http_error ("invalid JSON: " +:+ e) 400)
    | inr ss =>
        zoom secretsMgr set_secrets (SetSecrets ss);;
        mret (replyJSON (JObj [("secrets", JNum (Z.of_nat (length ss))); ("status", JStr "ok")]))
    end
  else mret method_not_allowed.

(** The multiplexer of [startHealthServer]. *)
Definition health_route (sandbox path method : string) (body : bytes) : option (M Proxy Reply) :=
  if decide (path = "/health") then Some (handleHealthz sandbox)
  else if decide (path = "/ready") then Some handleReady
  else if decide (path = "/metrics") then Some handleMetrics
  else if decide (path = "/policy/reload") then Some (handlePolicyReload method body)
  else if decide (path = "/secrets/reload") then Some (handleSecretsReload method body)
  else None.

(** ** Properties *)

Lemma started_proxy_ok {S} pxy (s : S) tr p s' tr' :
  started_proxy pxy s tr = (inr p, s', tr') →
  s' = s ∧ running pxy = false ∧ answer tr (Listen (httpAddr pxy)) = None ∧
  tr' = tr ++ [Listen (httpAddr pxy)] ∧ p = with_listener (Some (httpAddr pxy)) true pxy.
Proof.
  unfold started_proxy, Start. rewrite bind_run, get_run.
  destruct (running pxy); [done|]. rewrite bind_run, call_run.
  destruct (answer tr _) eqn:Ha; [done|]. rewrite then_ret_run.
  intros [= <- <- <-]. done.
Qed.

(** The rules that a text of the environment stands for: its own, when it is the
    JSON of a list of rules, and otherwise the default ones. *)
Definition startup_rules (env : string) : list Rule :=
  if decide (env = "") then defaultRules
  else default defaultRules (Unmarshal (to_bytes env) ≫= dec_rules []).

Lemma startup_rules_spec env rs :
  rs = startup_rules env →
  (∀ rs', env ≠ "" → Unmarshal (to_bytes env) ≫= dec_rules [] = Some rs' → rs = rs') ∧
  (env = "" ∨ Unmarshal (to_bytes env) ≫= dec_rules [] = None → rs = defaultRules).
Proof.
  intros ->. unfold startup_rules. destruct (Unmarshal (to_bytes env) ≫= dec_rules []), (decide (env = ""));
    split; naive_solver.
Qed.

Lemma rules_from_env_ok {S} path n (s : S) tr :
  let '(pol, s', _) := rules_from_env (mkEngine defaultRules n path "balanced") s tr in
  s' = s ∧ defaultMode pol = "balanced" ∧
  rules pol = startup_rules (answer tr (Getenv "PROXY_RULES_JSON")).
Proof.
  unfold rules_from_env. rewrite bind_run, call_run. unfold startup_rules.
  case_decide as He; [by rewrite ret_run|].
  destruct (Unmarshal _ ≫= dec_rules []) as [rs|] eqn:Hrs; [|by rewrite ret_run].
  unfold loaded. destruct (LoadRules rs _ _) as [[u pol] t] eqn:E.
  injection E as _ <- _. done.
Qed.

Lemma no_secrets_file {S} file (s : S) tr :
  file = "" → (secrets_from_file file s tr).1.1 = NewSecretManager.
Proof. intros ->. done. Qed.

(** C39. A sidecar that comes up listens on the configured address, serves both
    the SOCKS5 and the redirected protocol, evaluates for the sandbox it was
    started for, denies by default, and enforces the rules of the environment
    variable [PROXY_RULES_JSON] whenever it holds the JSON of a list of rules,
    an empty list included, and the default rules when it is not set or
    malformed; limits that are not positive mean none, and without a secrets
    file there are no secrets.  (The environment of a process does not change
    under it.) *)
Theorem main_outcome (f : Flags) tr certs p tr' env
    (Hmain : main f () tr = (inr (certs, p), (), tr'))
    (Henv : ∀ t, answer t (Getenv "PROXY_RULES_JSON") = env) :
  listener p = Some (if decide (proxyAddr f = "") then ":3128" else proxyAddr f) ∧
  running p = true ∧ socks5Enabled p = true ∧ rawTCPEnabled p = true ∧
  sandboxName p = sandboxFlag f ∧ maxConnections p = Z.max 0 (maxConns f) ∧
  rawTCPIdleTimeout p = Z.max 0 (idleTimeout f) ∧ activeConns p = 0%Z ∧
  defaultMode (policy p) = "balanced" ∧
  (∀ rs, env ≠ "" → Unmarshal (to_bytes env) ≫= dec_rules [] = Some rs → rules (policy p) = rs) ∧
  (env = "" ∨ Unmarshal (to_bytes env) ≫= dec_rules [] = None → rules (policy p) = defaultRules) ∧
  (secretsFile f = "" → secretsMgr p = NewSecretManager).
Proof.
  unfold main in Hmain. rewrite bind_run in Hmain.
  destruct (directory (caDir f) _ _ () tr) as [[cd []] t1]. rewrite bind_run in Hmain.
  destruct (directory (policyDir f) _ _ () t1) as [[pd []] t2]. rewrite try_run in Hmain.
  destruct (NewCACertManager cd () t2) as [[[?|m] []] t3]; [done|]. rewrite try_run in Hmain.
  pose proof (NewEngine_initial pd () t3) as Hpol. unfold result in Hpol.
  destruct (NewEngine pd () t3) as [[[?|pol] []] t4]; [done|].
  destruct (Hpol pol eq_refl) as [path ->]. clear Hpol. rewrite bind_run in Hmain.
  pose proof (rules_from_env_ok path 3 () t4) as Hrules.
  destruct (rules_from_env _ () t4) as [[pol []] t5]. destruct Hrules as (_ & Hmode & Hrules).
  rewrite Henv in Hrules. apply startup_rules_spec in Hrules as [Hgiven Hdefault].
  rewrite bind_run in Hmain. pose proof (no_secrets_file (secretsFile f) () t5) as Hsec.
  destruct (secrets_from_file _ () t5) as [[sec []] t6]. cbn [fst] in Hsec.
  rewrite try_run in Hmain.
  destruct (started_proxy (configured f pol sec) () t6) as [[[?|q] []] t7] eqn:E; [done|].
  apply started_proxy_ok in E as (_ & _ & _ & _ & ->). rewrite ret_run in Hmain.
  injection Hmain as _ <- _. unfold configured.
  destruct (Z.ltb_spec 0 (maxConns f)), (Z.ltb_spec 0 (idleTimeout f)); cbn;
    split_and!; done || lia.
Qed.

(** A hang-up signal reloads nothing: the rules in force, and everything
    else of the proxy, stay as they are, while the rules file of the policy
    directory is overwritten with the default rules. *)
Theorem sighup_resets_file policy_dir p tr (Hdir : policy_dir ≠ "")
    (Hmk : answer tr (MkdirAll policy_dir 448) = None) :
  let '(stop, p', tr') := on_signal policy_dir SIGHUP p tr in
  stop = false ∧ p' = p ∧
  tr' = tr ++ [MkdirAll policy_dir 448;
               WriteFile (Join [policy_dir; "rules.json"]) (marshal_indent (rules_json defaultRules)) 420].
Proof.
  unfold on_signal. rewrite then_ret_run. unfold state_after, trace_after, NewEngine.
  rewrite decide_False by done. rewrite try_run, ret_run. unfold check.
  rewrite bind_run, call_run, Hmk. cbv zeta. rewrite !then_ret_run.
  unfold state_after, trace_after, zoom. rewrite save_run. cbn [fst snd].
  split; [done|]. split; [done|]. by rewrite <- (assoc_L (++)).
Qed.
End Sidecar.

(** ** Concrete instances *)

Definition demo_flags : Flags := mkFlags "" "/ca" "/policy" "" "box" 5 (-1).
Definition demo_json_errors : JsonErrors := λ t _, "invalid " +:+ t.
Definition demo_env_rules : list Rule := [mkRule "rule-1" "a" "allow" ["a.org:443"] ""].

(** An environment with rules, on a host where everything works. *)
Definition demo_host : World := λ tr e,
  match e return Resp e with
  | Getenv k => if decide (k = "PROXY_RULES_JSON") then of_bytes (marshal (rules_json demo_env_rules)) else ""
  | e => quiet_world tr e
  end.

Lemma main_outcome_witness :
  ∃ certs p tr, @main demo_host no_unicode_folding plain_pem unit demo_flags () []
                = (inr (certs, p), (), tr) ∧
    maxConnections p = 5%Z ∧ rawTCPIdleTimeout p = 0%Z ∧ rules (policy p) = demo_env_rules.
Proof.
  assert (match (@main demo_host no_unicode_folding plain_pem unit demo_flags () []).1.1 with
          | inr _ => true | inl _ => false end = true) as Hok by (vm_compute; reflexivity).
  destruct (@main demo_host no_unicode_folding plain_pem unit demo_flags () [])
    as [[[?|[certs p]] []] tr] eqn:Hmain; [discriminate|].
  destruct (@main_outcome demo_host no_unicode_folding plain_pem demo_flags [] certs p tr
              (of_bytes (marshal (rules_json demo_env_rules))) Hmain)
    as (_ & _ & _ & _ & _ & Hmax & Hidle & _ & _ & Hrules & _ & _).
  - intros t. reflexivity.
  - exists certs, p, tr. split; [reflexivity|]. split; [exact Hmax|]. split; [exact Hidle|].
    apply Hrules; [discriminate|]. vm_compute. reflexivity.
Defined.

Lemma sighup_resets_file_witness :
  let p := NewProxy (mkEngine demo_env_rules 2 "/policy/rules.json" "balanced") NewSecretManager "" in
  (@on_signal quiet_world "/policy" SIGHUP p []).1.2 = p ∧
  length (@on_signal quiet_world "/policy" SIGHUP p []).2 = 2.
Proof.
  intros p. assert ("/policy" ≠ "") as Hd by discriminate.
  pose proof (@sighup_resets_file quiet_world "/policy" p [] Hd eq_refl) as H.
  destruct (@on_signal quiet_world "/policy" SIGHUP p []) as [[stop p'] tr'].
  destruct H as (_ & -> & ->). split; reflexivity.
Defined.
