(* ===== verification/Propagation.v ===== *)
(** * From the daemon to the sidecars

    The daemon sends its rules and secrets to a sidecar as a JSON payload,
    base64-encoded into a shell command that decodes it and posts it to the
    sidecar's loopback server.  What the one sends, the other understands; whom
    it is sent to; and where the values of secrets go when a sandbox starts. *)
From S2P Require Export PolicyApi Sidecar.

Section Propagation.
Context `{World, UrlErrors, JsonErrors, UnicodeFold, MapOrder, TimeFormat}.
Implicit Types (d : Daemon) (p : Proxy) (tr : trace).

(** ** The command *)

(** The bytes that base64 writes: none is special to a shell. *)
Definition base64_byte (b : byte) : bool :=
  is_digit b || is_upper b || ((97 <=? b2z b) && (b2z b <=? 122))%Z
  || Byte.eqb b x2b || Byte.eqb b x2f || Byte.eqb b x3d.

Lemma enc_char_byte n : (0 ≤ n < 64)%Z → base64_byte (enc_char n) = true.
Proof.
  intros Hn. assert (forallb (λ k, base64_byte (enc_char (Z.of_nat k))) (seq 0 64) = true) as Hall
    by (vm_compute; reflexivity).
  rewrite forallb_forall in Hall. rewrite <- (Z2Nat.id n) by lia. apply Hall, in_seq. lia.
Qed.

Lemma sextet_byte v k : base64_byte (sextet v k) = true.
Proof. apply enc_char_byte. change 63%Z with (Z.ones 6). rewrite Z.land_ones by lia. apply Z.mod_pos_bound. lia. Qed.

Lemma encode_bytes l : forallb base64_byte (Base64.encode l) = true.
Proof.
  induction l as [|a|a b|a b c l IH] using bytes_ind3; cbn [Base64.encode app forallb];
    rewrite ?sextet_byte; done.
Qed.

(** ** Calls *)

(** The docker exec that posts a payload in a container. *)
Definition exec_call d (payload : bytes) (endpoint cid : string) : Ext :=
  RunCommand "docker" (["--host"; "unix://" +:+ DockerSocketPath (cm d); "exec"; cid]
                         ++ reload_command payload endpoint).

(** The first container of that name in a listing, if it runs. *)
Definition first_running (l : list Container) (name cid : string) : Prop :=
  ∃ c, first_named l name c ∧ ID c = cid ∧ Running c = true ∧ cid ≠ "".

Lemma first_running_unique l name cid cid' :
  first_running l name cid → first_running l name cid' → cid = cid'.
Proof.
  intros (c & Hc & <- & _) (c' & Hc' & <- & _). by rewrite (first_named_unique _ _ _ _ Hc Hc').
Qed.

(** One round: the list of containers and one exec in the sidecar, if and only
    if the listing has it running. *)
Lemma propagateTo_run payload endpoint name d tr :
  ∃ new, propagateTo payload endpoint name d tr = ((), d, tr ++ list_call :: new) ∧
    ((new = [] ∧ ∀ l cid, lists d tr l → ¬ first_running l (sidecar_name name) cid) ∨
     ∃ l cid, lists d tr l ∧ first_running l (sidecar_name name) cid ∧
              new = [exec_call d payload endpoint cid]).
Proof.
  unfold propagateTo, lists, result. rewrite bind_run, get_run, bind_run.
  destruct (List_run (cm d) d tr) as [r ->]. cbn [fst snd]. destruct r as [e|l].
  { exists []. split; [done|by left]. }
  destruct (find_container (sidecar_name name) l) as [c|] eqn:Hf.
  2:{ exists []. split; [done|]. left. split; [done|].
      intros l' cid [= <-] (c & Hc%find_container_first & _). congruence. }
  apply find_container_first in Hf.
  destruct (bool_decide (ID c = "") || negb (Running c)) eqn:Hb.
  { exists []. split; [done|]. left. split; [done|]. intros l' cid [= <-] (c' & Hc' & <- & Hrun & Hne).
    rewrite (first_named_unique _ _ _ _ Hc' Hf) in Hrun, Hne.
    rewrite Hrun, bool_decide_eq_false_2 in Hb by done. done. }
  apply orb_false_iff in Hb as [Hid%bool_decide_eq_false Hrun%negb_false_iff].
  exists [exec_call d payload endpoint (ID c)]. split.
  - unfold execInContainer, RunCmd. rewrite then_ret_run. unfold state_after, trace_after.
    rewrite bind_run, get_run, !bind_run, call_run.
    destruct (answer _ _) as [[out err] [e|]]; [destruct (decide _)|]; rewrite !ret_run; cbn [fst snd];
      by rewrite <- (assoc_L (++)).
  - right. exists l, (ID c). split; [done|]. split; [by exists c|done].
Qed.

(** Every call of [new], made after [tr], satisfies [P] at its moment. *)
Definition each_call (P : trace → Ext → Prop) tr (new : trace) : Prop :=
  ∀ n1 e n2, new = n1 ++ e :: n2 → P (tr ++ n1) e.

Lemma each_call_nil P tr : each_call P tr [].
Proof. by intros [|] ? ? ?. Qed.

Lemma each_call_cons P tr e new : P tr e → each_call P (tr ++ [e]) new → each_call P tr (e :: new).
Proof.
  intros He Hn [|x n1] e' n2 Heq; cbn in Heq; injection Heq as -> Heq.
  - by rewrite (right_id_L [] (++)).
  - specialize (Hn n1 e' n2 Heq). by rewrite <- (assoc_L (++)) in Hn.
Qed.

Lemma each_call_app P tr a b : each_call P tr a → each_call P (tr ++ a) b → each_call P tr (a ++ b).
Proof.
  revert tr. induction a as [|e a IH]; intros tr Ha Hb; cbn.
  - by rewrite (right_id_L [] (++)) in Hb.
  - apply each_call_cons; [specialize (Ha [] e a eq_refl); by rewrite (right_id_L [] (++)) in Ha|].
    apply IH; [|by rewrite <- (assoc_L (++))]. intros n1 e' n2 ->.
    specialize (Ha (e :: n1) e' n2 eq_refl). by rewrite <- (assoc_L (++)).
Qed.

(** The daemon believes that the sandbox runs. *)
Definition believed_running d (name : string) : Prop :=
  ∃ s, sandboxes d !! name = Some s ∧ sbRunning s = true.

Lemma running_names_believed `{!MapOrderOk} d name : name ∈ running_names d ↔ believed_running d name.
Proof.
  unfold running_names, believed_running. rewrite list_elem_of_fmap. split.
  - intros ([n s] & -> & [Hs Hin]%list_elem_of_filter). exists s. split; [|done].
    by rewrite (map_order_perm _ _), elem_of_map_to_list in Hin.
  - intros (s & Hs & Hrun). exists (name, s). split; [done|]. apply list_elem_of_filter.
    split; [done|]. by rewrite (map_order_perm _ _), elem_of_map_to_list.
Qed.

(** What propagation may call, at a moment. *)
Definition propagation_call d (payload : bytes) (endpoint : string) tr (e : Ext) : Prop :=
  e = list_call ∨
  ∃ name t l cid, believed_running d name ∧ tr = t ++ [list_call] ∧ lists d t l ∧
    first_running l ("sbx-" +:+ name +:+ "-proxy") cid ∧ e = exec_call d payload endpoint cid.

(** A sandbox was seen to: its sidecar, if it runs, was given the payload. *)
Definition served d (payload : bytes) (endpoint name : string) tr (new : trace) : Prop :=
  ∃ n1 n2, new = n1 ++ list_call :: n2 ∧
    ∀ l cid, lists d (tr ++ n1) l → first_running l ("sbx-" +:+ name +:+ "-proxy") cid →
      ∃ n3, n2 = exec_call d payload endpoint cid :: n3.

(** The loop over some of the running sandboxes. *)
Lemma propagate_loop payload endpoint d names : ∀ tr,
  Forall (believed_running d) names →
  ∃ new, for_each names (propagateTo payload endpoint) d tr = ((), d, tr ++ new) ∧
    each_call (propagation_call d payload endpoint) tr new ∧
    Forall (λ name, served d payload endpoint name tr new) names.
Proof.
  induction names as [|name names IH]; intros tr Hb.
  { exists []. split_and!; [cbn; by rewrite (right_id_L [] (++))|apply each_call_nil|done]. }
  apply Forall_cons in Hb as [Hname Hb]. cbn [for_each]. rewrite bind_run.
  destruct (propagateTo_run payload endpoint name d tr) as (new & -> & Hnew).
  destruct (IH (tr ++ list_call :: new) Hb) as (rest & -> & Hrest & Hserved).
  exists ((list_call :: new) ++ rest). split; [by rewrite (assoc_L (++))|]. split.
  - apply each_call_app; [|done]. apply each_call_cons; [by left|].
    destruct Hnew as [[-> _]|(l & cid & Hl & Hf & ->)]; [apply each_call_nil|].
    apply each_call_cons; [|apply each_call_nil]. right. by exists name, tr, l, cid.
  - constructor.
    + exists [], (new ++ rest). split; [done|]. rewrite (right_id_L [] (++)). intros l cid Hl Hf.
      destruct Hnew as [[_ Hno]|(l' & cid' & Hl' & Hf' & ->)]; [by destruct (Hno l cid)|].
      unfold lists in *. assert (l' = l) as -> by congruence. exists rest.
      by rewrite (first_running_unique _ _ _ _ Hf Hf').
    + eapply Forall_impl; [exact Hserved|]. intros x (n1 & n2 & -> & Hx).
      exists ((list_call :: new) ++ n1), n2. split; [by rewrite (assoc_L (++))|].
      by rewrite (assoc_L (++)).
Qed.

(** C33. Propagation reaches the sidecars and nothing else.  The daemon's state
    stays as it is; every call is a list of the containers or a docker exec of
    the reload command in the container that the engine has just listed first
    under the name of the sidecar of a sandbox, as running, where the daemon
    believes that the sandbox runs; and for every such sandbox the containers
    are listed, and its sidecar is given the payload if the listing has it
    running. *)
Theorem propagation_calls `{!MapOrderOk} payload endpoint d tr :
  let '(_, d', tr') := propagateToSidecars payload endpoint d tr in
  d' = d ∧ ∃ new, tr' = tr ++ new ∧ each_call (propagation_call d payload endpoint) tr new ∧
    ∀ name s, sandboxes d !! name = Some s → sbRunning s = true →
      served d payload endpoint name tr new.
Proof.
  unfold propagateToSidecars. rewrite bind_run, get_run.
  destruct (propagate_loop payload endpoint d (running_names d) tr) as (new & -> & Hnew & Hserved).
  { apply Forall_forall. intros name. apply running_names_believed. }
  split; [done|]. exists new. split_and!; [done..|]. intros name s Hs Hrun.
  rewrite Forall_forall in Hserved. apply Hserved, running_names_believed. by exists s.
Qed.

(** ** Where secret values go *)

Lemma push_secrets_run `{!MapOrderOk} d tr :
  ∃ new, push_secrets d tr = ((), d, tr ++ new) ∧
    each_call (propagation_call d (secrets_payload (secrets (dSecrets d))) "/secrets/reload") tr new.
Proof.
  unfold push_secrets. rewrite bind_run, get_run. case_decide.
  { exists []. rewrite ret_run, (right_id_L [] (++)). split; [done|apply each_call_nil]. }
  unfold propagateSecretsToSidecars. rewrite bind_run, get_run.
  unfold propagateToSidecars. rewrite bind_run, get_run.
  destruct (propagate_loop (secrets_payload (secrets (dSecrets d))) "/secrets/reload" d
    (running_names d) tr) as (new & -> & Hnew & _).
  { apply Forall_forall. intros name. apply running_names_believed. }
  by exists new.
Qed.

(** What a request calls once the container runs: it saves the state of the
    daemon and propagates the secrets. *)
Definition afterwards d tr (e : Ext) : Prop :=
  e = WriteFile (state_path d) (marshal_indent (sandboxes_json (sandboxes d))) 420 ∨
  propagation_call d (secrets_payload (secrets (dSecrets d))) "/secrets/reload" tr e.

Lemma after_start_calls `{!MapOrderOk} name cid s d tr :
  let '(reply, d', tr') := after_start name cid s d tr in
  reply = start_reply cid ∧ ∃ rest, tr' = tr ++ rest ∧ each_call (afterwards d') tr rest.
Proof.
  unfold after_start. rewrite bind_run, modify_run, bind_run. set (d1 := set_sandboxes _ d).
  set (w := WriteFile (state_path d1) (marshal_indent (sandboxes_json (sandboxes d1))) 420).
  change (saveState d1 tr) with ((), d1, tr ++ [w]). cbv beta iota. rewrite bind_run.
  destruct (push_secrets_run d1 (tr ++ [w])) as (new & -> & Hnew). rewrite ret_run. split; [done|].
  exists (w :: new). split; [by rewrite <- (assoc_L (++))|]. apply each_call_cons; [by left|].
  intros n1 e n2 Heq. right. by eapply Hnew.
Qed.

Lemma veil_lookup d d' name :
  veil d = veil d' → veil_sandbox <$> sandboxes d !! name = veil_sandbox <$> sandboxes d' !! name.
Proof. intros Hd. rewrite <- !lookup_fmap. f_equal. exact (f_equal sandboxes Hd). Qed.

(** C6. Where the values of secrets go when a sandbox is started.  Two daemons
    that differ only in the values and targets of their secrets and of those of
    their sandboxes answer alike and make the very same calls until the
    sandbox's container is created and started: no value reaches it, its
    environment included, nor what is asked of the engine for it.  The calls
    that remain write the daemon's state file and run the reload command in
    containers that the engine lists as running sidecars, which is where values
    are meant to go. *)
Theorem values_stay_outside `{!MapOrderOk} name d d' tr
    (Hname : name ≠ "") (Hveil : veil d = veil d') :
  let start := handleStartRuntime name in
  result start d tr = result start d' tr ∧
  ∃ t rest rest',
    trace_after start d tr = t ++ rest ∧ trace_after start d' tr = t ++ rest' ∧
    (status (result start d tr) = 200%Z → ∃ cid, created_and_started name cid tr t) ∧
    each_call (afterwards (state_after start d tr)) t rest ∧
    each_call (afterwards (state_after start d' tr)) t rest'.
Proof.
  cbv zeta. pose proof (veil_lookup d d' name Hveil) as Hlook. unfold result, state_after, trace_after.
  destruct (sandboxes d !! name) as [s|] eqn:Hs, (sandboxes d' !! name) as [s'|] eqn:Hs'; try done.
  2:{ unfold handleStartRuntime. rewrite !decide_False by done. rewrite !bind_run, !get_run, Hs, Hs'.
      split; [done|]. exists tr, [], []. rewrite (right_id_L [] (++)).
      split_and!; [done..|apply each_call_nil|apply each_call_nil]. }
  change (Some (veil_sandbox s) = Some (veil_sandbox s')) in Hlook.
  assert (veil_sandbox s = veil_sandbox s') as Hv by congruence. clear Hlook.
  assert (sbRunning s' = sbRunning s) as Hrun'.
  { unfold veil_sandbox in Hv. by injection Hv. }
  destruct (sbRunning s) eqn:Hrun.
  { unfold handleStartRuntime. rewrite !decide_False by done.
    rewrite !bind_run, !get_run, Hs, Hs', Hrun, Hrun'.
    split; [done|]. exists tr, [], []. rewrite (right_id_L [] (++)).
    split_and!; [done..|apply each_call_nil|apply each_call_nil]. }
  rewrite (start_run name s), (start_run name s') by done.
  pose proof (start_blind name d d' s s' tr Hveil Hv) as [Hr Ht]. unfold result, trace_after in Hr, Ht.
  destruct (createAndStartContainer (start_config (use_secrets s d) name s) _ tr) as [[r d1] t] eqn:E.
  destruct (createAndStartContainer (start_config (use_secrets s' d') name s') _ tr) as [[r' d1'] t'].
  cbn [fst snd] in Hr, Ht. subst r' t'. destruct r as [e|cid].
  { split; [done|]. exists t, [], []. rewrite (right_id_L [] (++)).
    split_and!; [done..|apply each_call_nil|apply each_call_nil]. }
  pose proof (after_start_calls name cid s d1 t) as Ha.
  pose proof (after_start_calls name cid s' d1' t) as Ha'.
  destruct (after_start name cid s d1 t) as [[rep d2] t2], (after_start name cid s' d1' t) as [[rep' d2'] t2'].
  destruct Ha as (-> & rest & -> & Hrest), Ha' as (-> & rest' & -> & Hrest'). cbn [fst snd].
  split; [done|]. exists t, rest, rest'. split_and!; [done..| |exact Hrest|exact Hrest'].
  intros _. exists cid. exact (createAndStart_ok _ _ _ _ _ _ E).
Qed.

(** ** What arrives *)

Lemma reload_rules_request rs :
  forallb rule_text_ok rs = true →
  decode_request "rules" [] dec_rules_request (rules_payload rs) = inr rs.
Proof.
  intros Hok. unfold decode_request. rewrite Decode_rules_payload by done.
  cbn [mbind option_bind]. unfold dec_rules_request. dec_fields.
  rewrite dec_rules_json. cbn [mbind option_bind]. by dec_fields.
Qed.

Lemma reload_secrets_request ss :
  forallb secret_text_ok ss = true →
  decode_request "secrets" [] dec_reload_secrets (secrets_payload ss) = inr ss.
Proof.
  intros Hok. unfold decode_request. rewrite Decode_secrets_payload by done.
  cbn [mbind option_bind]. unfold dec_reload_secrets. dec_fields.
  rewrite dec_secrets_json. cbn [mbind option_bind]. by dec_fields.
Qed.

(** C32. The shell command that carries a payload cannot be broken out of: what
    is spliced into it consists of letters, digits, plus, slash and equals
    signs alone, whatever the rules and secrets hold; and decoding it gives the
    payload back. *)
Theorem reload_command_safe payload endpoint :
  ∃ text, reload_command payload endpoint =
    ["sh"; "-c"; "printf '%s' " +:+ text +:+ " | base64 -d | curl -s -X POST http://localhost:9099"
                 +:+ endpoint +:+ " -H 'Content-Type: application/json' -d @-"] ∧
    forallb base64_byte (to_bytes text) = true ∧ DecodeString text = Some payload.
Proof.
  exists (EncodeToString payload). split; [done|]. split; [|apply DecodeString_EncodeToString].
  unfold EncodeToString. rewrite to_of_bytes. apply encode_bytes.
Qed.

(** C5. What the daemon decides, its sidecars decide: a sidecar that receives
    the payload of the daemon's rules answers 200; if there is a rule, it gives
    every request the daemon's decision from then on, for the same reason, under
    its own deny-by-default mode, and nothing else of the proxy changes; if
    there is none, it changes nothing and goes on as before.  (The texts of the
    rules are valid UTF-8; JSON replaces what is not.) *)
Theorem rules_delivered d p tr
    (Hmode : defaultMode (dPolicy d) = "balanced") (Hmode' : defaultMode (policy p) = "balanced")
    (Htexts : forallb rule_text_ok (rules (dPolicy d)) = true) :
  let '(reply, p', tr') := handlePolicyReload "POST" (rules_payload (rules (dPolicy d))) p tr in
  status reply = 200%Z ∧
  (rules (dPolicy d) ≠ [] →
     (∀ h port sb, Evaluate (policy p') h port sb = Evaluate (dPolicy d) h port sb) ∧
     Session.set_policy (policy p) p' = p) ∧
  (rules (dPolicy d) = [] → p' = p ∧ tr' = tr).
Proof.
  unfold handlePolicyReload. rewrite decide_True by done. rewrite reload_rules_request by done.
  destruct (decide (rules (dPolicy d) = [])) as [Hnone|Hsome]; [by rewrite Hnone|].
  rewrite bind_run.
  change (zoom policy Session.set_policy (LoadRules (rules (dPolicy d))) p tr)
    with (let '(x, pe, t) := LoadRules (rules (dPolicy d)) (policy p) tr in
          (x, Session.set_policy pe p, t)).
  unfold LoadRules. rewrite bind_run, modify_run, save_run, bind_run, get_run, ret_run.
  split; [done|]. split; [|done]. intros _. split; [|by destruct p].
  intros h port sb. apply Evaluate_rules; [done|]. cbn. congruence.
Qed.

(** Secrets are delivered in full: a sidecar that receives the payload of
    the daemon's secrets holds exactly these from then on - an empty list
    included - and replaces sentinels as the daemon's manager would. *)
Theorem secrets_delivered d p tr (Htexts : forallb secret_text_ok (secrets (dSecrets d)) = true) :
  let '(reply, p', tr') := handleSecretsReload "POST" (secrets_payload (secrets (dSecrets d))) p tr in
  status reply = 200%Z ∧ tr' = tr ∧ p' = Session.set_secrets (dSecrets d) p ∧
  ∀ body, ReplaceSentinelsInBody (secretsMgr p') body = ReplaceSentinelsInBody (dSecrets d) body.
Proof.
  unfold handleSecretsReload. rewrite decide_True by done. rewrite reload_secrets_request by done.
  rewrite then_ret_run. split; [done|]. split; [done|].
  change (state_after _ p tr) with (Session.set_secrets (mkSecretManager (secrets (dSecrets d))) p).
  by destruct (dSecrets d).
Qed.

(** C31. Deleting all rules is not delivered: afterwards the daemon's engine has
    no rule and denies everything, but the payload it sends changes nothing in
    a sidecar, which goes on allowing what it allowed. *)
Theorem clear_not_delivered d tr (Hmode : defaultMode (dPolicy d) = "balanced") :
  let d' := state_after handleDeletePolicyRules d tr in
  rules (dPolicy d') = [] ∧
  (∀ h port sb, (Evaluate (dPolicy d') h port sb).1 = DecisionDeny) ∧
  ∀ p t, let '(reply, p', t') := handlePolicyReload "POST" (rules_payload (rules (dPolicy d'))) p t in
         status reply = 200%Z ∧ p' = p ∧ t' = t.
Proof.
  cbv zeta. set (d' := state_after handleDeletePolicyRules d tr).
  assert (rules (dPolicy d') = [] ∧ defaultMode (dPolicy d') = "balanced") as [Hr Hm].
  { unfold d'. destruct (delete_rules_state d tr) as [-> | [Hr ->]]; [done|by split]. }
  split; [done|]. split.
  - intros h port sb. apply no_allow_rule_denies; [done|]. intros r Hin. rewrite Hr in Hin.
    by apply not_elem_of_nil in Hin.
  - intros p t. rewrite Hr. unfold handlePolicyReload. rewrite decide_True by done.
    rewrite reload_rules_request by done. by rewrite decide_True by done.
Qed.
End Propagation.

(** ** Concrete instances *)

#[local] Instance demo_engine : World := strict_engine.
#[local] Instance demo_url_errors : UrlErrors := λ u, "parse " +:+ u.
#[local] Instance demo_json_errors : JsonErrors := λ t _, "invalid " +:+ t.
#[local] Instance demo_folding : UnicodeFold := no_unicode_folding.
#[local] Instance demo_order : MapOrder := some_order.
#[local] Instance demo_times : TimeFormat := ns_format.

Definition demo_sidecar (rs : list Rule) : Proxy :=
  NewProxy (mkEngine rs 3 "/policy/rules.json" "balanced") NewSecretManager "".

Lemma rules_delivered_witness :
  let p := demo_sidecar defaultRules in
  (Evaluate (policy (handlePolicyReload "POST"
     (rules_payload (rules (dPolicy allowing_daemon))) p []).1.2) "b.org" "443" "box").1
  = DecisionAllow.
Proof.
  intros p. pose proof (rules_delivered allowing_daemon p [] eq_refl eq_refl) as H.
  destruct (handlePolicyReload _ _ p []) as [[reply p'] tr']. cbn [fst snd].
  destruct H as (_ & H & _); [vm_compute; reflexivity|]. destruct H as [-> _]; [discriminate|].
  vm_compute. reflexivity.
Defined.

Lemma secrets_delivered_witness :
  let p := demo_sidecar [] in
  secretsMgr (handleSecretsReload "POST"
    (secrets_payload (secrets (dSecrets (secret_daemon "v")))) p []).1.2
  = dSecrets (secret_daemon "v").
Proof.
  intros p. pose proof (secrets_delivered (secret_daemon "v") p []) as H.
  destruct (handleSecretsReload _ _ p []) as [[reply p'] tr']. cbn [fst snd].
  destruct H as (_ & _ & -> & _); [vm_compute; reflexivity|reflexivity].
Defined.

(** A sidecar that allows [a.org] goes on doing so. *)
Lemma clear_not_delivered_witness :
  let d' := state_after handleDeletePolicyRules allowing_daemon [] in
  let p := demo_sidecar [allow_rule] in
  (Evaluate (policy (handlePolicyReload "POST" (rules_payload (rules (dPolicy d'))) p []).1.2)
     "a.org" "443" "box").1 = DecisionAllow.
Proof.
  intros d' p. destruct (clear_not_delivered allowing_daemon [] eq_refl) as (_ & _ & Hp).
  specialize (Hp p []). fold d' in Hp.
  destruct (handlePolicyReload _ _ p []) as [[reply p'] t']. cbn [fst snd].
  destruct Hp as (_ & -> & _). vm_compute. reflexivity.
Defined.

Lemma propagation_calls_witness :
  let d := demo_daemon "/s" {["box" := with_container "c1" true "box-proxy:3128" fresh_sandbox]} in
  (propagateToSidecars [] "/policy/reload" d []).1.2 = d.
Proof.
  intros d. pose proof (propagation_calls [] "/policy/reload" d []) as H.
  destruct (propagateToSidecars _ _ d []) as [[u d'] t]. exact (proj1 H).
Defined.

Lemma values_stay_outside_witness :
  let d := Daemon.set_secrets (mkSecretManager [mkCustomSecret "a" "TOKEN" "SENTINEL" "one"]) fresh_daemon in
  let d' := Daemon.set_secrets (mkSecretManager [mkCustomSecret "b" "TOKEN" "SENTINEL" "two"]) d in
  status (result (handleStartRuntime "box") d []) = 200%Z ∧
  ∃ t rest rest', trace_after (handleStartRuntime "box") d [] = t ++ rest ∧
    trace_after (handleStartRuntime "box") d' [] = t ++ rest' ∧
    ∃ cid, created_and_started "box" cid [] t.
Proof.
  intros d d'. assert (status (result (handleStartRuntime "box") d []) = 200%Z) as H200
    by (vm_compute; reflexivity).
  split; [exact H200|].
  destruct (values_stay_outside "box" d d' []) as (_ & t & rest & rest' & Ht & Ht' & Hc & _);
    [done|reflexivity|].
  exists t, rest, rest'. split; [exact Ht|]. split; [exact Ht'|]. exact (Hc H200).
Defined.
